(* ===== verification/_CoqProject ===== *)
-Q . S2P
Prelude.v
JsValue.v
JsNumber.v
Ui.v
Progress.v
Schema.v
ApiError.v
Logger.v
Async.v
SingleFlight.v
ApiClient.v
Query.v
DataWeb.v
MobileClient.v
Interleave.v
DataMobile.v
Contract.v
DirectWeb.v
Governance.v
Format.v
Platforms.v
Composer.v
Confirm.v
Schedule.v
ComposerMobile.v
ComposerParts.v
Security.v
Auth.v
Connect.v
Access.v
Wallet.v
Calendar.v
Integrations.v
Media.v
Analytics.v
MobileScreens.v
MobileAuth.v
MobileTeam.v
Shell.v
Pages.v
Session.v
Site.v
Reset.v
Design.v
Contrast.v
Icons.v
Status.v
Answers.v
MobileSite.v
EndToEnd.v
Forms.v
ModuleGraph.v
ModulesWeb.v
ModulesMobile.v
Modules.v
