(* ===== verification/Prelude.v ===== *)
(** * Postal front ends: a verification library

    Postal schedules posts to social networks.  Its sources are a Go service and two
    TypeScript clients, web/ (Next.js, React) and mobile/ (Expo, React Native).  This
    library models the clients: what they send, when, with which tokens, what they cache,
    and what their editors and dialogs let a user do.

    ** The program and its parts

    A screen (features/) renders controls and calls data hooks (data/); a hook is a query
    or a mutation of TanStack Query around one call of the typed client; the client's
    transport is [apiFetch] (api/client.ts), which adds tokens, refreshes an expired session
    once for all concurrent calls and retries; failures become normalized errors
    (lib/api-error.ts), which the screens show.

    - Prelude.v: JavaScript strings as sequences of UTF-16 code units (so [length] is
      [.length]), decimal printing, [trim], [includes], [startsWith]; list and map lemmas.
    - JsValue.v: the type [unknown] of parsed JSON, exceptions, outcomes of promises.
    - JsNumber.v: numbers that are not integers: binary64 values by correctly rounded exact
      results, [parseFloat], [toFixed], with a bound on the error of a rounding.
    - ApiError.v: lib/api-error.ts of both clients, features/auth/form-errors.ts.
    - Logger.v: lib/logger.ts of both clients.
    - Async.v, SingleFlight.v: async functions as finite trees of effects ([prog]), their
      executions ([exec]), the scheduler that interleaves any number of calls around one
      variable [refreshing] ([sched]), and its safety and termination against the interface
      [RefreshClient].
    - ApiClient.v: web/src/api/client.ts ([apiFetch], [refreshBody] for the body of
      refreshSession, [csrfToken], [captureCsrf], [readCookie]).
    - MobileClient.v: mobile/src/lib/secure-session.ts, mobile/src/api/client.ts, and the
      hooks of mobile/src/data that call [fetch] or touch the tokens.
    - Interleave.v: any number of calls of either client in flight at once: an executable
      scheduler ([play]), and the refinement of the contract of one call by each call of a
      burst, against the interface [CallContract].
    - Query.v, DataWeb.v, DataMobile.v: every hook of web/src/data and mobile/src/data: its
      cache key, guard, request, decoding and cache operations.
    - DirectWeb.v: the web hooks that bypass the typed client (governance, manual
      connection, upload, resend verification).  Governance.v: the governance hooks of the
      mobile app, and the guards and cache operations of the direct hooks of both.
    - Schema.v: the records of the API contract that the screens read.
    - Contract.v: the contract as data: the types and the operations of web/src/api/schema.d.ts
      with the typing of values ([has_type]) and of calls ([typed_call]).
    - Ui.v: a component as a state machine: state, rendered controls, handlers, and the
      answers it awaits; [step] and [steps] are its finite runs.
    - Progress.v: infinite runs ([run]), fairness, and the relation [leads_to] with its rules.
    - Format.v, Platforms.v: lib/format.ts, [firstURL], the platform registries.
    - Composer.v, ComposerParts.v: web/src/features/composer.
    - ComposerMobile.v: mobile/src/features/compose/compose-screen.tsx.
    - Confirm.v: the confirm dialog and the four rows that delete, disconnect or cancel.
    - Schedule.v: the publish dialog (web), the publish sheet (mobile), the posting slots.
    - Auth.v: the authentication forms (one component over a [FormSpec] each), the guard,
      the resend button, the verification page (web/src/features/auth).
    - Connect.v: web/src/features/channels, and the device flow of
      mobile/src/features/channels/use-connect-flow.ts.
    - Access.v: web/src/features/members, and the active workspace.
    - Wallet.v: features/wallet and the mobile wallet.  Calendar.v: the calendar and the
      overview.  Analytics.v: features/analytics.  Integrations.v: features/integrations.
      Media.v: the media panel and the upload button.
    - Security.v: web/src/proxy.ts, the content security policy with its nonce.
    - Shell.v: the dock, the menus, the settings page, the redirect of the public pages, the
      crawling rules; the post preview and the media picker of the mobile app.
    - MobileScreens.v: the channels, calendar and home tabs.  MobileAuth.v: the schemas, the
      sign-in screens, the guards of the route groups, the bootstrap.  MobileTeam.v: members,
      publish access, settings, analytics, the menu.  MobileSite.v: the routes of
      mobile/src/app, the navigators and the session gate.
    - Pages.v: every page and layout of web/src/app with its text, links and metadata, the
      manifest, the providers.  Site.v: the routes, the document at an address, the matcher
      of proxy.ts, the rewrites and headers of next.config.ts, and the answer to a request.
    - Design.v: mobile/src/lib/tokens.ts, the primitives of both applications (buttons,
      fields, pills).  Contrast.v: the contrast of the palettes, in real numbers.
    - Icons.v: the icons of the registries and the logos: a reader of SVG path data and the
      points that a drawing paints, in the real plane.
    - Status.v: status pills, tooltips, hints and the accessible names of icons; the stores
      of the theme and of the active workspace.
    - ModuleGraph.v: import declarations, their resolution, and the evaluation of modules as
      ECMAScript defines it.  ModulesWeb.v, ModulesMobile.v: the imports of every source file
      of web/src and mobile/src.  Modules.v: their layers, the lint configurations, and the
      two sides (server, browser) of the web application.
    - Answers.v: the rest of the contract: error answers, files, probes, webhooks.
    - Reset.v: mobile/scripts/reset-project.js over a tree of directories in which any call
      may fail.

    Three files put the components together:

    - EndToEnd.v: a screen, its hooks, the typed client and the transport, down to the
      requests; [Transport] and [TypedClient] are the interfaces.
    - Session.v: the sign-in page, the guard, the query of the visitor, the sign-out and the
      router, over one cache.
    - Forms.v: web/src/features/auth/schemas.ts and the forms resolved by it.

    The screens use the hooks through their contracts: a screen's effects are the requests
    it makes, and its awaited answers the outcomes the hooks' theorems describe.

    ** What the theorems show

    - The clients: every execution of [apiFetch] follows a contract stated without its cells
      ([apiFetch_refines_spec], [mobile_calls_refine_spec]); concurrent calls share one
      refresh ([single_flight], [mobile_single_flight]); every call settles under any
      interleaving ([calls_settle]), and whatever the interleaving each sends what its
      contract says, within three requests and one refresh per call
      ([web_burst_refines_spec], [mobile_burst_refines_spec]); the retry carries the rotated token ([csrf_rotation],
      [mobile_token_rotation]); the cookie is read back and its percent encoding undone
      ([readCookie_roundtrip], over the relation [encodes]); and the
      one case in which the refresh is disabled for good ([refresh_latched]).
    - The cache: keys determine requests ([web_cache_sound]), workspaces do not mix
      ([web_workspace_scoped]), a write makes stale exactly what it changed
      ([web_write_refreshes]), failures are normalized ([web_query_errors]), and the mobile
      hooks ask what the web hooks ask ([mobile_queries_are_web]).
    - Types: every call of every hook is an operation of the contract with parameters and a
      body of its types ([calls_typed]); an answer of the contract gives a hook a value of
      the type it declares, and breaks no cache operation ([answers_typed]).
    - The direct hooks: what an answer gives, with and without a refresh ([direct_reads]).
    - Errors: structured bodies pass through, unstructured ones are never shown.
    - The screens, by induction on their runs: a composer creates its post once, saves lists
      of distinct channels, keeps a draft's texts, counts against the right limit; nothing is
      deleted without its dialog; a publish dialog sends one call at a time and none after
      success; slots are well formed; attachments are distinct; an authorization code is
      exchanged once; grants are well formed; publish access is saved as shown; the
      application is behind its guard; verification mails are rate-limited; top-ups are at
      least the minimum and in the currency shown, amounts convert without loss; the month
      shows every job once; stored keys are sent only when typed; a progress bar stays
      between its ends; a chart asks for series that exist; the mobile rows ask before they
      disconnect; the redirects of the route groups come to rest.
    - The layers together: a composer makes the server accept at most one creation of its
      post ([draft_created_once]), the mobile composer one for each "New post"
      ([mobile_drafts_created]), a dialog or a sheet at most one publication between two
      closings ([published_once]), through every refresh and retry; the web forms send what
      their schemas accept ([web_forms_validated]).
    - The session: the signed-in pages are shown only while the cache holds a user, whatever
      the interleaving of answers, sign-ins and sign-outs ([session_app_guarded]), and the
      redirects come to rest at the right page ([session_settles]).
    - The site: links resolve ([site_links_resolve], [mobile_navigation_ok]), documents carry
      the nonce of their policy ([served_with_its_policy]), the application is behind its
      guard and the rest is not ([site_guarded], [gate_holds_splash]).
    - The import graphs have no cycle, so whatever pages are opened every module is evaluated
      once and after its imports ([modules_initialise], on [load_evaluates] for any graph);
      they respect the layers of the plan ([layers_respected]); what renders on the server
      uses no hook ([sides_apart]).
    - Errors of the contract are understood ([error_answers_typed]); text and controls are
      legible ([palettes_readable]); the marks of the platforms are well-formed drawings that no view
      box cuts off, the same in both applications ([marks_in_view], [marks_agree]); the reset script loses no file that is to be kept,
      whatever fails ([reset_loses_nothing], [reset_result]).
    - Progress, on fair infinite runs: a submitted form becomes idle again
      ([forms_become_idle]) and the resend button comes back ([resend_returns]).
    - The policy: a browser that parses the header finds the directives of the source
      ([csp_policy_sound]).
    - Behaviours that a user would not expect are theorems too: [shorten_overwrites],
      [mobile_reset_race], [mobile_edit_clears], [web_saves_without_media],
      [slots_stale_channel], [compose_screen_mounts], [mobile_logout_writes],
      [form_failure_shown], [access_displays_mislead], [guard_gate], [dev_topup_reads_dollars],
      [calendar_week_blank], [analytics_stale_channel], [analytics_stale_post],
      [uploads_overlap], [mobile_manual_blank], [sign_out_failure_silent], [crawling_rules],
      [late_answer_signs_out], [skip_target_missing], [canonical_is_home],
      [dark_labels_faint], [field_described], [badge_plane_differs],
      [plan_not_followed], [lint_blind].

    ** Modelling choices

    - Time, randomness, storage failures and the network are the environment's: an execution
      is correct for every answer.  A request's answer is [None] when it fails to arrive.
      An operation on storage may throw ([None] on a load, [false] on a store) where the
      source's API may.  Every program is a finite tree, so no fuel is needed; termination
      of concurrent calls is [settles_at], with a bound on the length of the runs.
    - Third-party code is a parameter: the cache's key matching ([pm] of
      [web_write_refreshes], with the documented prefix rule as its hypothesis), the typed
      client ([TypedClient]), the test of an email address, [hostname], locale dates, time zones, the in-app browser.  Of
      the form, dialog and query packages the screens use the documented contract: a valid
      submission runs its handler and [isSubmitting] holds until it settles; a dialog shows
      its content while open; [isPending] holds while a call is in flight.  What the
      typed client delivers to a hook ([ApiResult]) is arbitrary.
    - The data layer keeps [json] wherever the source casts an answer without checking it.
      The screens read the records of Schema.v, the types the source declares.
    - Rendering keeps texts, controls, roles and child components ([Slot]); class names
      and layout are left out, and the icons are in Icons.v alone.  A control that is disabled cannot be used; an answer
      arrives only when it is awaited; props change at any time.
    - The date package of the calendar is an interface ([DateFns]) with its documented laws
      ([DateLaws]), discharged by an instance without time zones; the order of [localeCompare]
      is a total preorder.  An alert of the mobile system is modal: while it is open nothing
      else is offered.  Fairness ([fair]) is an assumption on the environment alone: answers
      and timers awaited without end arrive.
    - Byte sizes are integers below 2^53, so the divisions of [formatBytes] by powers of two
      are exact.  Object keys (field names, channel ids) are not the names of properties of
      [Object.prototype].

    ** What is not modelled

    The Go service and its adapters (another language; here, the answers it gives are
    arbitrary, or conform to the contract where a theorem says so); class names, panels,
    motion presets and style sheets (markup); the axes of the
    chart (the package's); the configuration of the linters and of the test runners; the
    test suites. *)

From Stdlib Require Import Init.Byte Decimal DecimalN.
From Stdlib Require Export Sorting.Sorted.
From stdpp Require Export base numbers option gmap list.

(** ** JavaScript strings

    A JavaScript string is a sequence of 16-bit code units; [jstr] is that
    sequence.  Literals are written in UTF-8 and decoded to UTF-16 by the string
    notation of scope [js], so [length] is exactly the [.length] of the source. *)

Abbreviation jstr := (list N).

Definition utf16_of_code_point (c : N) : jstr :=
  if (c <? 65536)%N then [c]
  else [(55296 + (c - 65536) / 1024)%N; (56320 + (c - 65536) mod 1024)%N].

Fixpoint utf16_of_utf8 (l : list N) : jstr :=
  match l with
  | [] => []
  | a :: l1 =>
      if (a <? 128)%N then a :: utf16_of_utf8 l1
      else match l1 with
      | [] => []
      | b :: l2 =>
          if (a <? 224)%N then
            utf16_of_code_point ((a - 192) * 64 + (b - 128))%N ++ utf16_of_utf8 l2
          else match l2 with
          | [] => []
          | c :: l3 =>
              if (a <? 240)%N then
                utf16_of_code_point ((a - 224) * 4096 + (b - 128) * 64 + (c - 128))%N
                  ++ utf16_of_utf8 l3
              else match l3 with
              | [] => []
              | d :: l4 =>
                  utf16_of_code_point
                    ((a - 240) * 262144 + (b - 128) * 4096 + (c - 128) * 64 + (d - 128))%N
                    ++ utf16_of_utf8 l4
              end
          end
      end
  end.

Definition jstr_of_bytes (l : list Byte.byte) : list N :=
  utf16_of_utf8 (map Byte.to_N l).

(** Only needed by the printer of the notation: ASCII strings print as literals. *)
Definition jstr_to_bytes (l : list N) : option (list Byte.byte) :=
  fold_right
    (fun n acc =>
       match acc, (n <? 128)%N with
       | Some r, true => match Byte.of_N n with Some b => Some (b :: r) | None => None end
       | _, _ => None
       end)
    (Some []) l.

Declare Scope js_scope.
Delimit Scope js_scope with js.
String Notation jstr jstr_of_bytes jstr_to_bytes : js_scope.

(** *** String operations of the standard library the sources use *)

(** [Boolean(s)]: only the empty string is falsy. *)
Definition truthy (s : jstr) : bool :=
  match s with [] => false | _ => true end.

(** [a === b] on strings. *)
Definition jeq (a b : jstr) : bool := bool_decide (a = b).
Notation "a =ₛ b" := (jeq a b) (at level 70, no associativity) : js_scope.

Fixpoint startsWith (s p : jstr) : bool :=
  match p, s with
  | [], _ => true
  | c :: p', d :: s' => N.eqb c d && startsWith s' p'
  | _ :: _, [] => false
  end.

(** [s.includes(t)] *)
Fixpoint includes (s t : jstr) : bool :=
  match s with
  | [] => startsWith [] t
  | _ :: s' => startsWith s t || includes s' t
  end.

(** [s.slice(0, n)] *)
Definition slice0 (n : nat) (s : jstr) : jstr := take n s.

(** [s.charAt(0)] *)
Definition charAt0 (s : jstr) : jstr := take 1 s.

(** WhiteSpace and LineTerminator of ECMAScript: what [trim] removes and [\s] matches. *)
Definition is_space (c : N) : bool :=
  (((9 <=? c) && (c <=? 13)) || (c =? 32) || (c =? 160) || (c =? 5760)
  || ((8192 <=? c) && (c <=? 8202)) || (c =? 8232) || (c =? 8233) || (c =? 8239)
  || (c =? 8287) || (c =? 12288) || (c =? 65279))%N.

Fixpoint trimStart (s : jstr) : jstr :=
  match s with
  | [] => []
  | c :: s' => if is_space c then trimStart s' else s
  end.

Definition trim (s : jstr) : jstr := reverse (trimStart (reverse (trimStart s))).

(** [toLowerCase], on the letters of ASCII. *)
Definition lower (s : jstr) : jstr :=
  map (fun c => if (65 <=? c)%N && (c <=? 90)%N then (c + 32)%N else c) s.

(** [a.join(sep)] *)
Fixpoint join (sep : jstr) (l : list jstr) : jstr :=
  match l with
  | [] => []
  | [x] => x
  | x :: l' => x ++ sep ++ join sep l'
  end.

(** [s.replace(/[chars]/g, by)] for a one-unit class. *)
Definition replace_all (cls : N -> bool) (by_ : jstr) (s : jstr) : jstr :=
  s ≫= (fun c => if cls c then by_ else [c]).

(** [s.replace(c, "")] for a one-unit string [c]: the first occurrence only. *)
Fixpoint remove_first (c : N) (s : jstr) : jstr :=
  match s with
  | [] => []
  | d :: s' => if N.eqb d c then s' else d :: remove_first c s'
  end.

(** *** Numbers in template literals: the decimal digits of an integer *)

Fixpoint digits (u : Decimal.uint) : jstr :=
  match u with
  | Decimal.Nil => []
  | Decimal.D0 u => 48%N :: digits u | Decimal.D1 u => 49%N :: digits u
  | Decimal.D2 u => 50%N :: digits u | Decimal.D3 u => 51%N :: digits u
  | Decimal.D4 u => 52%N :: digits u | Decimal.D5 u => 53%N :: digits u
  | Decimal.D6 u => 54%N :: digits u | Decimal.D7 u => 55%N :: digits u
  | Decimal.D8 u => 56%N :: digits u | Decimal.D9 u => 57%N :: digits u
  end.

Definition showN (n : N) : jstr := digits (N.to_uint n).
Definition showZ (z : Z) : jstr :=
  if (z <? 0)%Z then 45%N :: showN (Z.abs_N z) else showN (Z.abs_N z).
Definition shownat (n : nat) : jstr := showN (N.of_nat n).

(** ** Option idioms

    [x ?? d] on a value that may be [undefined] or [null]. *)
Definition orElse {A} (x : option A) (d : A) : A := default d x.
Notation "x ?? d" := (orElse x d) (at level 60, right associativity) : js_scope.

(** [a.find(p)] *)
Fixpoint find_first {A} (p : A -> bool) (l : list A) : option A :=
  match l with
  | [] => None
  | x :: l' => if p x then Some x else find_first p l'
  end.

(** [Array.prototype.filter] with a boolean predicate (kept apart from stdpp's
    [filter], which takes a decidable proposition). *)
Fixpoint keep {A} (p : A -> bool) (l : list A) : list A :=
  match l with
  | [] => []
  | x :: l' => if p x then x :: keep p l' else keep p l'
  end.

(** [new Map(l.map(x => [key(x), x]))]: later entries win. *)
Definition index_from {A} (key : A -> jstr) (m : gmap jstr A) (l : list A) : gmap jstr A :=
  foldl (fun m x => <[key x := x]> m) m l.
Definition index_by {A} (key : A -> jstr) (l : list A) : gmap jstr A :=
  index_from key ∅ l.

(** ** Lemmas *)

Create HintDb postal discriminated.
Create Rewrite HintDb postal.

Lemma jeq_true a b : jeq a b = true <-> a = b.
Proof. unfold jeq. by rewrite bool_decide_eq_true. Qed.

Lemma jeq_false a b : jeq a b = false <-> a <> b.
Proof. unfold jeq. by rewrite bool_decide_eq_false. Qed.

Lemma jeq_refl a : jeq a a = true.
Proof. by apply jeq_true. Qed.
#[export] Hint Rewrite jeq_refl : postal.

Lemma truthy_false s : truthy s = false <-> s = [].
Proof. by destruct s. Qed.

Lemma truthy_true s : truthy s = true <-> s <> [].
Proof. by destruct s. Qed.

Lemma startsWith_spec s p : startsWith s p = true <-> exists t, s = p ++ t.
Proof.
  revert s. induction p as [|c p IH]; intros s; simpl.
  - split; [by exists s | by destruct s].
  - destruct s as [|d s]; [split; [done | by intros [t ?]] |].
    simpl. rewrite andb_true_iff, N.eqb_eq, IH. split.
    + intros [-> [t ->]]. by exists t.
    + intros [t [= -> ->]]. eauto.
Qed.

Lemma includes_spec s t : includes s t = true <-> exists a b, s = a ++ t ++ b.
Proof.
  induction s as [|c s IH]; cbn [includes].
  - rewrite startsWith_spec. split.
    + intros [b Hb]. by exists [], b.
    + intros (a & b & Hab). destruct a; [|done]. by exists b.
  - rewrite orb_true_iff, IH, startsWith_spec. split.
    + intros [[b Hb] | (a & b & ->)]; [by exists [], b | by exists (c :: a), b].
    + intros ([|x a] & b & Hab); simplify_eq/=.
      * left. by exists b.
      * right. by exists a, b.
Qed.

Lemma keep_In {A} (p : A -> bool) (l : list A) x : x ∈ keep p l <-> x ∈ l /\ p x = true.
Proof.
  induction l as [|y l IH]; simpl.
  - rewrite !elem_of_nil. tauto.
  - destruct (p y) eqn:E; rewrite !elem_of_cons, IH; split; intuition congruence.
Qed.

Lemma keep_all {A} (p : A -> bool) l : Forall (fun x => p x = true) l -> keep p l = l.
Proof. induction 1 as [|x l Hx _ IH]; simpl; [done|]. by rewrite Hx, IH. Qed.

Lemma keep_none {A} (p : A -> bool) l : Forall (fun x => p x = false) l -> keep p l = [].
Proof. induction 1 as [|x l Hx _ IH]; simpl; [done|]. by rewrite Hx. Qed.

Lemma keep_NoDup {A} (p : A -> bool) l : NoDup l -> NoDup (keep p l).
Proof.
  induction 1 as [|x l Hx _ IH]; simpl; [constructor|].
  destruct (p x); [|done]. constructor; [|done]. rewrite keep_In. tauto.
Qed.

Lemma keep_length {A} (p : A -> bool) l : length (keep p l) <= length l.
Proof. induction l as [|x l IH]; simpl; [done|]. destruct (p x); simpl; lia. Qed.

Lemma find_first_Some {A} (p : A -> bool) l x :
  find_first p l = Some x -> x ∈ l /\ p x = true.
Proof.
  induction l as [|y l IH]; simpl; [done|].
  rewrite elem_of_cons. destruct (p y) eqn:E; [intros [= ->]; auto|].
  intros H. destruct (IH H). auto.
Qed.

Lemma find_first_None {A} (p : A -> bool) l :
  find_first p l = None <-> Forall (fun x => p x = false) l.
Proof.
  induction l as [|y l IH]; simpl; [by split; constructor|].
  rewrite Forall_cons. destruct (p y) eqn:E; [by split; [|intros [? _]] | tauto].
Qed.

Lemma index_from_lookup {A} (key : A -> jstr) (m : gmap jstr A) (l : list A) k :
  index_from key m l !! k
  = match index_by key l !! k with Some x => Some x | None => m !! k end.
Proof.
  unfold index_by. revert m. induction l as [|x l IH]; intros m; simpl.
  - by rewrite lookup_empty.
  - rewrite (IH (<[key x:=x]> m)), (IH (<[key x:=x]> ∅)).
    destruct (index_from key ∅ l !! k); [done|].
    destruct (decide (key x = k)) as [<-|Hne].
    + by rewrite !lookup_insert_eq.
    + by rewrite !lookup_insert_ne, lookup_empty.
Qed.

Lemma index_by_nil {A} (key : A -> jstr) k : index_by key [] !! k = None.
Proof. apply lookup_empty. Qed.

Lemma index_by_cons {A} (key : A -> jstr) (x : A) l k :
  index_by key (x :: l) !! k
  = match index_by key l !! k with
    | Some y => Some y | None => if decide (key x = k) then Some x else None end.
Proof.
  change (index_by key (x :: l)) with (index_from key (<[key x:=x]> ∅) l).
  rewrite index_from_lookup. destruct (index_by key l !! k); [done|].
  rewrite lookup_insert. case_decide; [done|apply lookup_empty].
Qed.

(** Looking a key up in the index finds an element of the list with that key. *)
Lemma index_by_Some {A} (key : A -> jstr) (l : list A) k x :
  index_by key l !! k = Some x -> x ∈ l /\ key x = k.
Proof.
  induction l as [|y l IH]; [by rewrite index_by_nil|].
  rewrite index_by_cons, elem_of_cons.
  destruct (index_by key l !! k); [intros [= ->]; destruct (IH eq_refl); auto|].
  case_decide; [|done]. intros [= ->]. auto.
Qed.

Lemma index_by_None {A} (key : A -> jstr) (l : list A) k :
  index_by key l !! k = None <-> Forall (fun x => key x <> k) l.
Proof.
  induction l as [|y l IH]; [by rewrite index_by_nil; split|].
  rewrite index_by_cons, Forall_cons, <- IH.
  destruct (index_by key l !! k); [by split; [|intros [_ ?]]|].
  case_decide; [by split; [|intros [? _]]|tauto].
Qed.

(** *** [trim] *)

Lemma trimStart_nil s : trimStart s = [] <-> Forall (fun c => is_space c = true) s.
Proof.
  induction s as [|c s IH]; simpl; [by split; constructor|].
  rewrite Forall_cons. destruct (is_space c) eqn:E; [tauto|].
  by split; [|intros [? _]].
Qed.

Lemma trim_nil s : trim s = [] <-> Forall (fun c => is_space c = true) s.
Proof.
  unfold trim. trans (trimStart (reverse (trimStart s)) = []).
  { split; [|by intros ->]. intros H. apply (inj reverse). by rewrite H. }
  rewrite trimStart_nil, Forall_reverse. split.
  - induction s as [|c s IH]; simpl; [by constructor|].
    destruct (is_space c) eqn:E; [|by inversion 1; congruence].
    constructor; auto.
  - intros H. apply trimStart_nil in H. by rewrite H.
Qed.

(** *** Decimal printing is injective *)

Lemma digits_inj u v : digits u = digits v -> u = v.
Proof.
  revert v. induction u; destruct v; simpl; intros H;
    try discriminate H; try reflexivity; injection H as H; f_equal; auto.
Qed.

Lemma showN_inj n m : showN n = showN m -> n = m.
Proof.
  intros H%digits_inj.
  rewrite <- (DecimalN.Unsigned.of_to n), <- (DecimalN.Unsigned.of_to m). by rewrite H.
Qed.

(** ** Lists of identifiers used as sets *)

(** [l.includes(x)] *)
Definition is_in (x : jstr) (l : list jstr) : bool := existsb (jeq x) l.

(** [[...new Set(labels)]]: first occurrences. *)
Definition dedupe (l : list jstr) : list jstr :=
  foldl (fun acc x => if is_in x acc then acc else acc ++ [x]) [] l.

Lemma is_in_spec x l : is_in x l = true <-> x ∈ l.
Proof.
  induction l as [|y l IH]; simpl.
  - rewrite elem_of_nil. by split.
  - rewrite orb_true_iff, jeq_true, IH, elem_of_cons. done.
Qed.

Lemma dedupe_from l acc :
  NoDup acc ->
  let r := foldl (fun acc x => if is_in x acc then acc else acc ++ [x]) acc l in
  NoDup r /\ forall x, x ∈ r <-> x ∈ acc \/ x ∈ l.
Proof.
  revert acc. induction l as [|y l IH]; intros acc Hnd; simpl.
  - split; [done|]. intros x. rewrite elem_of_nil. tauto.
  - destruct (is_in y acc) eqn:E.
    + apply is_in_spec in E. destruct (IH acc Hnd) as [H1 H2]. split; [done|].
      intros x. rewrite H2, elem_of_cons. split; [tauto|]. intros [?|[->|?]]; tauto.
    + assert (Hy : y ∉ acc) by (rewrite <- is_in_spec, E; done).
      destruct (IH (acc ++ [y])) as [H1 H2].
      { apply NoDup_app. split_and!; [done| |apply NoDup_singleton].
        intros x Hx Hx'. apply list_elem_of_singleton in Hx' as ->. done. }
      split; [done|]. intros x. rewrite H2, elem_of_app, !elem_of_cons, elem_of_nil. tauto.
Qed.

Lemma dedupe_NoDup l : NoDup (dedupe l).
Proof. apply (dedupe_from l []), NoDup_nil_2. Qed.

Lemma dedupe_In l x : x ∈ dedupe l <-> x ∈ l.
Proof.
  destruct (dedupe_from l [] (NoDup_nil_2)) as [_ H]. unfold dedupe. rewrite H, elem_of_nil. tauto.
Qed.

Lemma dedupe_nil l : dedupe l = [] -> l = [].
Proof.
  intros H. destruct l as [|x l]; [done|]. exfalso.
  apply (not_elem_of_nil x). rewrite <- H. apply dedupe_In, list_elem_of_here.
Qed.

(** ** Sorting

    [l.sort(cmp)] is stable, so its result is determined by a consistent [cmp]: it is that
    of an insertion sort ([le x y] is [cmp(x, y) <= 0]). *)

Fixpoint insert_by {A} (le : A -> A -> bool) (x : A) (l : list A) : list A :=
  match l with
  | [] => [x]
  | y :: l' => if le x y then x :: l else y :: insert_by le x l'
  end.

Definition sort_by {A} (le : A -> A -> bool) (l : list A) : list A := foldr (insert_by le) [] l.

Lemma insert_by_perm {A} (le : A -> A -> bool) x l : insert_by le x l ≡ₚ x :: l.
Proof.
  induction l as [|y l IH]; simpl; [done|]. destruct (le x y); [done|].
  rewrite IH. apply perm_swap.
Qed.

Lemma sort_by_perm {A} (le : A -> A -> bool) l : sort_by le l ≡ₚ l.
Proof. induction l as [|x l IH]; simpl; [done|]. by rewrite insert_by_perm, IH. Qed.

Section Sorted.
Context {A : Type} (le : A -> A -> bool).
Hypothesis le_total : forall x y, le x y = true \/ le y x = true.
Hypothesis le_trans : forall x y z, le x y = true -> le y z = true -> le x z = true.

Lemma insert_by_sorted x l : StronglySorted le l -> StronglySorted le (insert_by le x l).
Proof.
  induction 1 as [|y l Hl IH Hy]; simpl; [by repeat constructor|].
  destruct (le x y) eqn:E.
  - constructor; [by constructor|]. constructor; [by rewrite E|].
    eapply Forall_impl; [exact Hy|]. intros z Hz. apply Is_true_eq_true in Hz. apply Is_true_eq_left. eauto.
  - constructor; [done|]. rewrite insert_by_perm. constructor; [|done].
    apply Is_true_eq_left. destruct (le_total x y); congruence.
Qed.

Lemma sort_by_sorted l : StronglySorted le (sort_by le l).
Proof. induction l as [|x l IH]; simpl; [constructor|]. by apply insert_by_sorted. Qed.

(** The first [n] of a sorted list are its least. *)
Lemma sorted_take n l x y :
  StronglySorted le l -> x ∈ take n l -> y ∈ drop n l -> le x y = true.
Proof.
  intros Hs. revert n. induction Hs as [|z l Hs IH Hz]; intros [|n]; simpl.
  - intros Hx. by apply elem_of_nil in Hx.
  - intros Hx. by apply elem_of_nil in Hx.
  - intros Hx. by apply elem_of_nil in Hx.
  - rewrite elem_of_cons. intros [->|Hx] Hy; [|by apply (IH n)].
    rewrite Forall_forall in Hz. apply Is_true_eq_true, Hz. exact (subseteq_drop n l y Hy).
Qed.
End Sorted.

(** [a <= b] on strings: the order of their code units, that of [sort()] without a comparator. *)
Fixpoint code_unit_le (a b : jstr) : bool :=
  match a, b with
  | [], _ => true
  | _ :: _, [] => false
  | x :: a', y :: b' => (x <? y)%N || ((x =? y)%N && code_unit_le a' b')
  end.

Lemma code_unit_le_total a b : code_unit_le a b = true \/ code_unit_le b a = true.
Proof.
  revert b. induction a as [|x a IH]; intros [|y b]; cbn; auto.
  destruct (N.lt_total x y) as [H|[->|H]]; [left|rewrite N.ltb_irrefl, N.eqb_refl; apply IH|right];
    apply N.ltb_lt in H; by rewrite H.
Qed.

Lemma code_unit_le_trans a b c :
  code_unit_le a b = true -> code_unit_le b c = true -> code_unit_le a c = true.
Proof.
  revert b c. induction a as [|x a IH]; intros [|y b] [|z c]; cbn; try done.
  rewrite !orb_true_iff, !andb_true_iff, !N.ltb_lt, !N.eqb_eq.
  intros [H1|[-> H1]] [H2|[-> H2]]; [left; lia|left; lia|left; lia|right; split; [done|by apply (IH b)]].
Qed.

(** Selecting by disjoint predicates, one after the other. *)
Lemma keep_orb_disjoint {A} (p q : A -> bool) l :
  (forall x, x ∈ l -> p x && q x = false) -> keep p l ++ keep q l ≡ₚ keep (fun x => p x || q x) l.
Proof.
  induction l as [|x l IH]; intros H; simpl; [done|].
  assert (IH' := IH ltac:(intros y Hy; apply H; rewrite elem_of_cons; auto)).
  pose proof (H x (list_elem_of_here x l)) as Hx.
  destruct (p x), (q x); simpl in *; [done| | |done].
  - by rewrite IH'.
  - by rewrite <- IH', Permutation_middle.
Qed.

(** Grouping by a key: each element goes to the group of its own key. *)
Lemma group_partition {A} (key : A -> jstr) (ks : list jstr) (l : list A) :
  NoDup ks -> (ks ≫= fun k => keep (fun x => jeq (key x) k) l) ≡ₚ keep (fun x => is_in (key x) ks) l.
Proof.
  induction ks as [|k ks IH]; intros Hn.
  - simpl. clear. induction l; done.
  - apply NoDup_cons in Hn as [Hk Hn].
    change ((k :: ks) ≫= fun k => keep (fun x => jeq (key x) k) l)
      with (keep (fun x => jeq (key x) k) l ++ (ks ≫= fun k => keep (fun x => jeq (key x) k) l)).
    rewrite IH by done. apply keep_orb_disjoint. intros x _.
    destruct (jeq (key x) k) eqn:E; [|done]. apply jeq_true in E. subst k. cbn.
    apply not_true_is_false. by rewrite is_in_spec.
Qed.

Lemma dedupe_snoc l x : dedupe (l ++ [x]) = if is_in x l then dedupe l else dedupe l ++ [x].
Proof.
  unfold dedupe at 1. rewrite foldl_app. cbn. fold (dedupe l).
  replace (is_in x (dedupe l)) with (is_in x l); [done|].
  apply eq_true_iff_eq. rewrite !is_in_spec. symmetry. apply dedupe_In.
Qed.

Lemma keep_app {A} (p : A -> bool) l1 l2 : keep p (l1 ++ l2) = keep p l1 ++ keep p l2.
Proof. induction l1 as [|x l1 IH]; simpl; [done|]. destruct (p x); simpl; by rewrite IH. Qed.

(** ** Tactics *)

(** Case analysis on every [match] of the goal or context, then simplification. *)
(** One goal per element of a literal list. *)
Ltac each := repeat match goal with
  | |- Forall _ (_ :: _) => apply Forall_cons; split
  | |- Forall _ [] => apply Forall_nil_2
  end.

Ltac split_matches :=
  repeat match goal with
  | |- context [match ?x with _ => _ end] => destruct x eqn:?; simplify_eq/=
  | H : context [match ?x with _ => _ end] |- _ => destruct x eqn:?; simplify_eq/=
  end.

Ltac js_eq :=
  repeat match goal with
  | H : jeq _ _ = true |- _ => apply jeq_true in H
  | H : jeq _ _ = false |- _ => apply jeq_false in H
  | H : _ && _ = true |- _ => apply andb_true_iff in H as [? ?]
  | H : _ || _ = false |- _ => apply orb_false_iff in H as [? ?]
  | H : negb _ = true |- _ => apply negb_true_iff in H
  | H : negb _ = false |- _ => apply negb_false_iff in H
  end; simplify_eq/=.
