(* ===== verification/JsValue.v ===== *)
(** * JavaScript values and exceptions

    [json] is the type [unknown] of a parsed response body (with [undefined]), and of
    every value whose declared type is not enforced at run time, such as an error message
    read from the server.  [Exn] is what a rejected promise carries. *)
From S2P Require Import Prelude.

Local Open Scope js_scope.

Inductive json :=
  | JUndef
  | JNull
  | JBool (b : bool)
  | JNum (z : Z)
  | JStr (s : jstr)
  | JArr (l : list json)
  | JObj (kv : list (jstr * json)).

(** [Boolean(v)] *)
Definition jtruthy (v : json) : bool :=
  match v with
  | JUndef | JNull => false
  | JBool b => b
  | JNum z => negb (Z.eqb z 0)
  | JStr s => truthy s
  | JArr _ | JObj _ => true
  end.

(** Reading an own property of an object literal: a repeated key keeps its last value. *)
Fixpoint field (k : jstr) (kv : list (jstr * json)) : option json :=
  match kv with
  | [] => None
  | (k', v) :: kv' =>
      match field k kv' with
      | Some w => Some w
      | None => if k' =ₛ k then Some v else None
      end
  end.

(** [k in v] for a value that is an object. *)
Definition has_prop (k : jstr) (v : json) : bool :=
  match v with
  | JObj kv => match field k kv with Some _ => true | None => false end
  | _ => false
  end.

(** [typeof v === "object" && v !== null] *)
Definition is_object (v : json) : bool :=
  match v with JArr _ | JObj _ => true | _ => false end.

(** [v.k]; [None] is the TypeError raised on [null] and [undefined]. *)
Definition get_prop (v : json) (k : jstr) : option json :=
  match v with
  | JUndef | JNull => None
  | JObj kv => Some match field k kv with Some w => w | None => JUndef end
  | _ => Some JUndef
  end.

(** ToPropertyKey: the string under which [o[v]] is stored. *)
Fixpoint to_key (v : json) : jstr :=
  match v with
  | JUndef => "undefined"
  | JNull => "null"
  | JBool true => "true"
  | JBool false => "false"
  | JNum z => showZ z
  | JStr s => s
  | JArr l =>
      join "," ((fix keys l := match l with
        | [] => []
        | JUndef :: l' | JNull :: l' => [] :: keys l'
        | v :: l' => to_key v :: keys l'
        end) l)
  | JObj _ => "[object Object]"
  end.

(** [v === "s"] *)
Definition is_str (v : json) (s : jstr) : bool :=
  match v with JStr t => t =ₛ s | _ => false end.

(** The error shape every data hook rejects with (its declared field types are those of
    the server's envelope, which nothing checks: they stay [json]). *)
Record NormalizedError := {
  ne_code : json;
  ne_message : json;
  ne_fieldErrors : gmap jstr json;
  ne_requestId : json;
  ne_status : Z }.

(** What a promise rejects with: a normalized error, or an exception of the runtime
    ([TypeError: Failed to fetch], a TypeError raised by the code itself, ...). *)
Inductive Exn :=
  | NErr (e : NormalizedError)
  | JsError (message : jstr).

(** [(e as NormalizedError).message] *)
Definition exn_message (e : Exn) : json :=
  match e with NErr n => ne_message n | JsError m => JStr m end.

(** [(e as NormalizedError).code] *)
Definition exn_code (e : Exn) : json :=
  match e with NErr n => ne_code n | JsError _ => JUndef end.

(** [(e as NormalizedError).fieldErrors]; [None] is [undefined]. *)
Definition exn_fieldErrors (e : Exn) : option (gmap jstr json) :=
  match e with NErr n => Some (ne_fieldErrors n) | JsError _ => None end.

(** The outcome of an awaited call. *)
Definition outcome (A : Type) : Type := Exn + A.

Lemma is_str_true v s : is_str v s = true <-> v = JStr s.
Proof.
  split; [|intros ->; apply jeq_refl].
  destruct v; simpl; try discriminate. intros H%jeq_true. by subst.
Qed.

Lemma has_prop_get k v :
  has_prop k v = true -> exists w, get_prop v k = Some w.
Proof. destruct v; simpl; try discriminate. eauto. Qed.
