(* ===== verification/JsNumber.v ===== *)
(** * JavaScript numbers

    The type [number] of the sources that compute with fractions: IEEE 754 binary64 values.
    Arithmetic is that of ECMAScript: the exact result, rounded to the nearest double, ties
    to even ([rnd]).  The module holds the operations the wallet and the charts use
    ([*], [/], comparisons, [parseFloat], [Math.round], [toFixed], [String]) and the error
    bound of a rounding, from which the exactness of amounts follows. *)
From Stdlib Require Import QArith Qround Qabs Qpower Lqa.
From S2P Require Import Prelude.

Local Open Scope js_scope.
Local Open Scope Z_scope.

(** A finite double is [± m * 2^e], with [m < 2^53], and [2^52 <= m] unless [e = -1074]. *)
Inductive double :=
  | NaN
  | Infinite (neg : bool)
  | Zero (neg : bool)
  | Finite (neg : bool) (m : positive) (e : Z).
#[export] Instance double_eq_dec : EqDecision double.
Proof. solve_decision. Defined.

(** ** Rounding: "the Number value for" an exact quotient *)

Definition pow2 (k : Z) : positive := Z.to_pos (2 ^ Z.max 0 k).

(** [floor (log2 (n / d))] *)
Definition ilog2 (n d : positive) : Z :=
  let k := Z.log2 (Zpos n) - Z.log2 (Zpos d) in
  if (Zpos (n * pow2 (- k)) <? Zpos (d * pow2 k)) then k - 1 else k.

Definition half_even (n d : Z) : Z :=
  match 2 * (n mod d) ?= d with
  | Lt => n / d
  | Gt => n / d + 1
  | Eq => n / d + (n / d) mod 2
  end.

Definition pack (neg : bool) (m e : Z) : double :=
  match m with
  | Zpos p =>
      let '(p, e) := if (Zpos p =? 2 ^ 53) then (Z.to_pos (2 ^ 52), e + 1) else (p, e) in
      if (971 <? e) then Infinite neg else Finite neg p e
  | _ => Zero neg
  end.

(** The double nearest to [n / d], with the given sign. *)
Definition rnd (neg : bool) (n d : positive) : double :=
  let e := Z.max (ilog2 n d - 52) (-1074) in
  pack neg (half_even (Zpos (n * pow2 (- e))) (Zpos (d * pow2 e))) e.

Definition of_Z (z : Z) : double :=
  match z with
  | 0 => Zero false
  | Zpos p => rnd false p 1
  | Zneg p => rnd true p 1
  end.

(** ** Arithmetic *)

Definition num (m : positive) (e : Z) : positive := m * pow2 e.
Definition den (e : Z) : positive := pow2 (- e).

Definition mul (x y : double) : double :=
  match x, y with
  | NaN, _ | _, NaN => NaN
  | Infinite _, Zero _ | Zero _, Infinite _ => NaN
  | Infinite s, (Infinite t | Finite t _ _) => Infinite (xorb s t)
  | Finite s _ _, Infinite t => Infinite (xorb s t)
  | Zero s, (Zero t | Finite t _ _) => Zero (xorb s t)
  | Finite s _ _, Zero t => Zero (xorb s t)
  | Finite s m e, Finite t p f => rnd (xorb s t) (num m e * num p f) (den e * den f)
  end.

Definition div (x y : double) : double :=
  match x, y with
  | NaN, _ | _, NaN => NaN
  | Infinite _, Infinite _ | Zero _, Zero _ => NaN
  | Infinite s, (Zero t | Finite t _ _) => Infinite (xorb s t)
  | Zero s, (Infinite t | Finite t _ _) => Zero (xorb s t)
  | Finite s _ _, Zero t => Infinite (xorb s t)
  | Finite s _ _, Infinite t => Zero (xorb s t)
  | Finite s m e, Finite t p f => rnd (xorb s t) (num m e * den f) (den e * num p f)
  end.

(** The exact value of a number that is finite. *)
Definition value (x : double) : option Q :=
  match x with
  | NaN | Infinite _ => None
  | Zero _ => Some (0 # 1)
  | Finite s m e => Some ((if s then Zneg (num m e) else Zpos (num m e)) # den e)
  end.

Definition is_NaN (x : double) : bool := match x with NaN => true | _ => false end.

(** [x < y] *)
Definition ltb (x y : double) : bool :=
  match x, y with
  | NaN, _ | _, NaN => false
  | Infinite s, Infinite t => s && negb t
  | Infinite s, _ => s
  | _, Infinite t => negb t
  | _, _ => match value x, value y with
            | Some a, Some b => negb (Qle_bool b a) | _, _ => false end
  end.

(** [x === y] *)
Definition eqb (x y : double) : bool :=
  match x, y with
  | Zero _, Zero _ => true
  | Infinite s, Infinite t => Bool.eqb s t
  | Finite s m e, Finite t p f => Bool.eqb s t && Pos.eqb m p && Z.eqb e f
  | _, _ => false
  end.

(** [x || 0] *)
Definition or_zero (x : double) : double :=
  match x with NaN | Zero _ => Zero false | _ => x end.

(** [Math.round]: the nearest integer, halves towards +∞; the sign of zero is kept. *)
Definition round (x : double) : double :=
  match x with
  | Finite s m e =>
      if (0 <=? e) then x
      else let z := (2 * (if s then Zneg m else Zpos m) + Zpos (pow2 (- e))) / (2 * Zpos (pow2 (- e))) in
           if z =? 0 then Zero s else of_Z z
  | _ => x
  end.

(** ** Reading: [Number.parseFloat] *)

Definition is_digit (c : N) : bool := (48 <=? c)%N && (c <=? 57)%N.

(** The digits at the front of a text: their value after [acc], their number, the rest. *)
Fixpoint read_digits (acc : N) (cnt : Z) (s : jstr) : N * Z * jstr :=
  match s with
  | c :: s' => if is_digit c then read_digits (10 * acc + (c - 48))%N (cnt + 1) s' else (acc, cnt, s)
  | [] => (acc, cnt, [])
  end.

(** An optional sign. *)
Definition read_sign (s : jstr) : bool * jstr :=
  match s with
  | c :: s' => if (c =? 45)%N then (true, s') else if (c =? 43)%N then (false, s') else (false, s)
  | [] => (false, [])
  end.

(** The exponent part, when there is one. *)
Definition read_exponent (s : jstr) : Z :=
  match s with
  | c :: s' =>
      if (c =? 101)%N || (c =? 69)%N then
        let '(neg, s'') := read_sign s' in
        let '(v, cnt, _) := read_digits 0 0 s'' in
        if cnt =? 0 then 0 else if neg then - Z.of_N v else Z.of_N v
      else 0
  | [] => 0
  end.

Definition pow10 (k : Z) : positive := Z.to_pos (10 ^ Z.max 0 k).

(** The double nearest to [v * 10^k]. *)
Definition of_decimal (neg : bool) (v : N) (k : Z) : double :=
  match v with
  | N0 => Zero neg
  | Npos p => rnd neg (p * pow10 k) (pow10 (- k))
  end.

(** The longest prefix that is a StrDecimalLiteral. *)
Definition parseFloat (text : jstr) : double :=
  let '(neg, s) := read_sign (trimStart text) in
  if startsWith s "Infinity" then Infinite neg
  else
    let '(v, ni, s1) := read_digits 0 0 s in
    let '(w, nf, s2) := match s1 with
                        | c :: s' => if (c =? 46)%N then read_digits v 0 s' else (v, 0, s1)
                        | [] => (v, 0, [])
                        end in
    if ni + nf =? 0 then NaN else of_decimal neg w (read_exponent s2 - nf).

(** ** Printing *)

(** The integer nearest to [x * 10^f], the larger of two: the digits of [toFixed(f)]. *)
Definition fixed_digits (f : nat) (m : positive) (e : Z) : N :=
  Z.to_N ((2 * (Zpos (num m e) * 10 ^ Z.of_nat f) + Zpos (den e)) / (2 * Zpos (den e))).

(** [n] with [f] digits after the point. *)
Definition with_point (f : nat) (n : N) : jstr :=
  let ds := showN n in
  let ds := replicate (S f - length ds) 48%N ++ ds in
  match f with
  | O => ds
  | _ => take (length ds - f) ds ++ "." ++ drop (length ds - f) ds
  end.

(** The decimal digits [s] (as many as [k]) and the [n] with value [s * 10^(n-k)] that
    [Number::toString] chooses: as few digits as determine the number, and of those the
    closest. *)
Definition decimal_position (m : positive) (e : Z) : Z :=
  let lo := (ilog2 m 1 + e) * 30103 / 100000 - 1 in
  let reaches n := Zpos (num m e * pow10 (- n)) <? Zpos (den e * pow10 n) in
  if reaches lo then lo else if reaches (lo + 1) then lo + 1
  else if reaches (lo + 2) then lo + 2 else lo + 3.

Definition shortest_at (m : positive) (e n : Z) (k : Z) : option Z :=
  let p := n - k in
  let a := Zpos (num m e * pow10 (- p)) in
  let b := Zpos (den e * pow10 p) in
  let lo := a / b in
  let ok s := bool_decide (of_decimal false (Z.to_N s) p = Finite false m e) in
  let lower_first := 2 * (a mod b) <=? b in
  if lower_first && ok lo then Some lo
  else if ok (lo + 1) then Some (lo + 1)
  else if ok lo then Some lo else None.

Fixpoint shortest (m : positive) (e n : Z) (k : Z) (tries : nat) : Z * Z :=
  match tries with
  | O => (0, k)
  | S tries => match shortest_at m e n k with
               | Some s => (s, k)
               | None => shortest m e n (k + 1) tries
               end
  end.

(** [Number::toString] of a positive finite number. *)
Definition show_positive (m : positive) (e : Z) : jstr :=
  let n := decimal_position m e in
  let '(s, k) := shortest m e n 1 17 in
  let ds := showN (Z.to_N s) in
  if (k <=? n) && (n <=? 21) then ds ++ replicate (Z.to_nat (n - k)) 48%N
  else if (0 <? n) && (n <=? 21) then take (Z.to_nat n) ds ++ "." ++ drop (Z.to_nat n) ds
  else if (-6 <? n) && (n <=? 0) then "0." ++ replicate (Z.to_nat (- n)) 48%N ++ ds
  else take 1 ds ++ (if k =? 1 then [] else "." ++ drop 1 ds)
       ++ "e" ++ (if n - 1 <? 0 then "-" else "+") ++ showN (Z.abs_N (n - 1)).

(** [String(x)] *)
Definition toString (x : double) : jstr :=
  match x with
  | NaN => "NaN"
  | Infinite s => (if s then "-" else []) ++ "Infinity"
  | Zero _ => "0"
  | Finite s m e => (if s then "-" else []) ++ show_positive m e
  end.

(** [x.toFixed(f)] *)
Definition toFixed (f : nat) (x : double) : jstr :=
  match x with
  | Zero _ => with_point f 0
  | Finite s m e =>
      if Zpos (den e * 10 ^ 21) <=? Zpos (num m e) then toString x
      else (if s then "-" else []) ++ with_point f (fixed_digits f m e)
  | _ => toString x
  end.

(** ** Known values *)

Example toString_tenth : toString (rnd false 1 10) = "0.1".
Proof. by vm_compute. Qed.
Example toString_sum : toString (Finite false 5404319552844596 (-54)) = "0.30000000000000004".
Proof. by vm_compute. Qed.
Example toString_large : toString (of_Z (10 ^ 21)) = "1e+21" /\ toString (of_Z 1500) = "1500".
Proof. by vm_compute. Qed.
Example toString_extremes :
  toString (Finite false 1 (-1074)) = "5e-324"
  /\ toString (Finite false (2 ^ 53 - 1) 971) = "1.7976931348623157e+308"
  /\ toString (rnd false (2 ^ 1024) 1) = "Infinity".
Proof. by vm_compute. Qed.
Example toFixed_short : toFixed 2 (parseFloat "1.005") = "1.00" /\ toFixed 1 (parseFloat "-2.25") = "-2.3".
Proof. by vm_compute. Qed.
Example parseFloat_forms :
  toString (parseFloat " 12.50abc") = "12.5" /\ parseFloat "." = NaN /\ parseFloat "-.5e1x" = of_Z (-5)
  /\ parseFloat "1e" = of_Z 1 /\ parseFloat [] = NaN /\ parseFloat "-Infinity!" = Infinite true.
Proof. by vm_compute. Qed.
Example round_forms :
  round (parseFloat "2.5") = of_Z 3 /\ round (parseFloat "-2.5") = of_Z (-2)
  /\ round (parseFloat "-0.5") = Zero true /\ round (parseFloat "0.49999999999999994") = Zero false.
Proof. by vm_compute. Qed.

(** ** The error of a rounding *)

Section Error.
Local Open Scope Q_scope.

Lemma two_pos : 0 < 2. Proof. reflexivity. Qed.
Lemma two_neq : ~ 2 == 0. Proof. discriminate. Qed.

Lemma pow2_Z k : Zpos (pow2 k) = (2 ^ Z.max 0 k)%Z.
Proof. unfold pow2. rewrite Z2Pos.id; [done|]. apply Z.pow_pos_nonneg; lia. Qed.

Lemma pow2_Q k : (Zpos (pow2 k) # 1) == 2 ^ Z.max 0 k.
Proof. rewrite pow2_Z. change (?z # 1) with (inject_Z z). apply Zpower_Qpower. lia. Qed.

Lemma two_Q k : (0 <= k)%Z -> 2 ^ k == ((2 ^ k)%Z # 1).
Proof. intros Hk. change (?z # 1) with (inject_Z z). rewrite Zpower_Qpower by done. reflexivity. Qed.

Lemma Qfrac n d : (n # d) == (n # 1) / (Zpos d # 1).
Proof. unfold Qeq, Qdiv, Qmult, Qinv. simpl. destruct n; simpl; lia. Qed.

Lemma pow2_ratio k : (Zpos (pow2 k) # pow2 (- k)) == 2 ^ k.
Proof.
  rewrite Qfrac, !pow2_Q. unfold Qdiv. rewrite <- Qpower_opp, <- Qpower_plus; [|apply two_neq].
  replace (Z.max 0 k + - Z.max 0 (- k))%Z with k by lia. reflexivity.
Qed.

(** Comparing a quotient with a power of two, by scaling one of its terms. *)
Lemma scaled_ratio n d k : (Zpos (n * pow2 (- k)) # d * pow2 k) * 2 ^ k == (Zpos n # d).
Proof.
  rewrite <- pow2_ratio. unfold Qeq, Qmult. simpl Qnum. simpl Qden.
  rewrite !Pos2Z.inj_mul. ring.
Qed.

Lemma ilog2_spec n d : 2 ^ ilog2 n d <= (Zpos n # d) < 2 ^ (ilog2 n d + 1).
Proof.
  assert (Hn := Z.log2_spec (Zpos n) eq_refl). assert (Hd := Z.log2_spec (Zpos d) eq_refl).
  pose proof (Z.log2_nonneg (Zpos n)) as Hn0. pose proof (Z.log2_nonneg (Zpos d)) as Hd0.
  unfold ilog2. set (a := Z.log2 (Zpos n)) in *. set (b := Z.log2 (Zpos d)) in *.
  assert (Hup : (Zpos n # d) < 2 ^ (a - b + 1)).
  { assert (E : 2 ^ (a - b + 1) == 2 ^ Z.succ a / 2 ^ b).
    { unfold Qdiv. rewrite <- Qpower_opp, <- Qpower_plus; [|apply two_neq].
      replace (Z.succ a + - b)%Z with (a - b + 1)%Z by lia. reflexivity. }
    rewrite E, (two_Q b), (two_Q (Z.succ a)) by lia. destruct (2 ^ b)%Z eqn:Eb; [lia| |lia].
    unfold Qlt, Qdiv, Qmult, Qinv. simpl. nia. }
  assert (Hlo : 2 ^ (a - b - 1) <= (Zpos n # d)).
  { assert (E : 2 ^ (a - b - 1) == 2 ^ a / 2 ^ Z.succ b).
    { unfold Qdiv. rewrite <- Qpower_opp, <- Qpower_plus; [|apply two_neq].
      replace (a + - Z.succ b)%Z with (a - b - 1)%Z by lia. reflexivity. }
    rewrite E, (two_Q a), (two_Q (Z.succ b)) by lia. destruct (2 ^ Z.succ b)%Z eqn:Eb; [lia| |lia].
    unfold Qle, Qdiv, Qmult, Qinv. simpl. nia. }
  pose proof (scaled_ratio n d (a - b)) as Hs.
  set (k := (a - b)%Z) in *. pose proof (Qpower_0_lt 2 k two_pos) as Hk.
  destruct (Z.ltb_spec (Zpos (n * pow2 (- k))) (Zpos (d * pow2 k))) as [H|H].
  - split; [done|]. replace (k - 1 + 1)%Z with k by lia.
    assert (Hlt : (Zpos (n * pow2 (- k)) # d * pow2 k) < 1) by (unfold Qlt; cbn -[Z.mul pow2 Pos.mul] in *; lia).
    rewrite <- Hs. nra.
  - split; [|done].
    assert (Hle : 1 <= (Zpos (n * pow2 (- k)) # d * pow2 k)) by (unfold Qle; cbn -[Z.mul pow2 Pos.mul] in *; lia).
    rewrite <- Hs. nra.
Qed.

Lemma half_even_spec n d : (0 < d)%Z -> (2 * Z.abs (half_even n d * d - n) <= d)%Z.
Proof.
  intros Hd. unfold half_even. pose proof (Z.div_mod n d ltac:(lia)) as E.
  pose proof (Z.mod_pos_bound n d Hd). pose proof (Z.mod_pos_bound (n / d) 2 ltac:(lia)).
  destruct (Z.compare_spec (2 * (n mod d)) d); nia.
Qed.

Lemma value_num m e : (Zpos (num m e) # den e) == (Zpos m # 1) * 2 ^ e.
Proof.
  rewrite <- pow2_ratio. unfold num, den, Qeq, Qmult. cbn [Qnum Qden].
  rewrite Pos.mul_1_l, Pos2Z.inj_mul. ring.
Qed.

(** Packing a mantissa in range keeps its value, unless it overflows. *)
Lemma pack_spec neg m e : (2 ^ 52 <= m <= 2 ^ 53)%Z ->
  (970 < e)%Z /\ pack neg m e = Infinite neg
  \/ exists p f, pack neg m e = Finite neg p f /\ (2 ^ 52 <= Zpos p < 2 ^ 53)%Z
       /\ (Zpos (num p f) # den f) == (m # 1) * 2 ^ e.
Proof.
  intros Hm. destruct m as [|p|p]; [lia| |lia]. unfold pack.
  destruct (Z.eqb_spec (Zpos p) (2 ^ 53)) as [E|E].
  - destruct (Z.ltb_spec 971 (e + 1)); [left; split; [lia|done]|]. right.
    eexists _, _. split_and!; [done|done|done|].
    rewrite value_num, E, Qpower_plus by apply two_neq. change (2 ^ 1) with 2.
    change (Zpos (Z.to_pos (2 ^ 52)) # 1) with (inject_Z (2 ^ 52)).
    assert (X : (2 ^ 53 # 1) == inject_Z (2 ^ 52) * 2) by reflexivity. rewrite X. ring.
  - destruct (Z.ltb_spec 971 e); [left; split; [lia|done]|]. right.
    eexists _, _. split_and!; [done|lia|lia|apply value_num].
Qed.

(** A rounding in the normal range errs by at most one part in [2^53]. *)
Lemma rnd_spec neg n d : 2 ^ (-1022) <= (Zpos n # d) ->
  2 ^ 1000 <= (Zpos n # d) /\ rnd neg n d = Infinite neg
  \/ exists m e, rnd neg n d = Finite neg m e /\ (2 ^ 52 <= Zpos m < 2 ^ 53)%Z
    /\ Qabs ((Zpos (num m e) # den e) - (Zpos n # d)) <= (Zpos n # d) * (1 # 2 ^ 53).
Proof.
  intros Hlo. destruct (ilog2_spec n d) as [L1 L2]. unfold rnd. set (l := ilog2 n d) in *.
  assert (H1 : (-1022 <= l)%Z).
  { assert (2 ^ (-1022) < 2 ^ (l + 1)) as H by (eapply Qle_lt_trans; eauto).
    apply Qpower_lt_compat_l_inv in H; [lia|done]. }
  rewrite Z.max_l by lia. set (e := (l - 52)%Z).
  pose proof (scaled_ratio n d e) as Hs. set (n' := Zpos (n * pow2 (- e))) in *.
  set (d' := (d * pow2 e)%positive) in *. set (x := (Zpos n # d)) in *.
  pose proof (half_even_spec n' (Zpos d') eq_refl) as Hh. set (q := half_even n' (Zpos d')) in *.
  pose proof (Qpower_0_lt 2 e two_pos) as He.
  assert (E52 : 2 ^ l == inject_Z (2 ^ 52) * 2 ^ e).
  { rewrite Zpower_Qpower, <- Qpower_plus; [|apply two_neq|lia].
    replace (52 + e)%Z with l by (unfold e; lia). reflexivity. }
  assert (E53 : 2 ^ (l + 1) == inject_Z (2 ^ 53) * 2 ^ e).
  { rewrite Zpower_Qpower, <- Qpower_plus; [|apply two_neq|lia].
    replace (53 + e)%Z with (l + 1)%Z by (unfold e; lia). reflexivity. }
  assert (B1 : (2 ^ 52 * Zpos d' <= n')%Z).
  { rewrite E52, <- Hs in L1. apply Qmult_lt_0_le_reg_r in L1; [|done].
    unfold Qle in L1. simpl in L1. simpl. lia. }
  assert (B2 : (n' < 2 ^ 53 * Zpos d')%Z).
  { rewrite E53, <- Hs in L2. apply Qmult_lt_r in L2; [|done].
    unfold Qlt in L2. simpl in L2. simpl. lia. }
  assert (Hq : (2 ^ 52 <= q <= 2 ^ 53)%Z) by nia.
  destruct (pack_spec neg q e Hq) as [[He' ->]|(p & f & -> & Hp & Hv)].
  { left. split; [|done]. apply Qle_trans with (2 ^ l); [|done].
    apply Qpower_le_compat_l; [unfold e in He'; lia|done]. }
  right. exists p, f. split_and!; [done|lia|lia|]. rewrite Hv, <- Hs.
  assert (Ed : (q # 1) * 2 ^ e - (n' # d') * 2 ^ e == ((q # 1) - (n' # d')) * 2 ^ e) by ring.
  rewrite Ed, Qabs_Qmult, (Qabs_pos (2 ^ e)) by (apply Qlt_le_weak, He).
  assert (Hd : Qabs ((q # 1) - (n' # d')) <= 1 # 2).
  { unfold Qle, Qabs, Qminus, Qplus, Qopp. simpl Qnum. simpl Qden. rewrite Pos2Z.inj_mul. lia. }
  assert (Hx : inject_Z (2 ^ 52) * 2 ^ e <= (n' # d') * 2 ^ e) by (rewrite Hs, <- E52; exact L1).
  apply Qle_trans with ((1 # 2) * 2 ^ e); [apply Qmult_le_compat_r; [done|apply Qlt_le_weak, He]|].
  change (inject_Z (2 ^ 52)) with (2 ^ 52 # 1) in Hx.
  assert (X : (1 # 2) * 2 ^ e == (2 ^ 52 # 1) * 2 ^ e * (1 # 2 ^ 53)).
  { rewrite <- Qmult_assoc, (Qmult_comm (2 ^ e)), Qmult_assoc. apply Qmult_comp; reflexivity. }
  rewrite X. apply Qmult_le_compat_r; [done|discriminate].
Qed.
End Error.

(** ** Operations on positive numbers

    [is_about x v eps]: [x] is a normal positive double within [eps] of [v]. *)
Section Operations.
Local Open Scope Q_scope.

Definition is_about (x : double) (v eps : Q) : Prop :=
  exists m e, x = Finite false m e /\ (2 ^ 52 <= Zpos m < 2 ^ 53)%Z
    /\ Qabs ((Zpos (num m e) # den e) - v) <= eps.

(** The range in which nothing under- or overflows. *)
Definition moderate (v : Q) : Prop := (1 # 2 ^ 60) <= v /\ v <= (2 ^ 60 # 1).

Lemma moderate_range v : moderate v -> 2 ^ (-1022) <= v /\ v < 2 ^ 1000.
Proof.
  intros [H1 H2]. split.
  - apply Qle_trans with (1 # 2 ^ 60); [by apply Qle_bool_imp_le|done].
  - apply Qle_lt_trans with (2 ^ 60 # 1); [done|]. apply Qnot_le_lt. intros H.
    apply Qle_bool_iff in H. by vm_compute in H.
Qed.

Lemma rnd_about n d v : (Zpos n # d) == v -> moderate v ->
  is_about (rnd false n d) v (v * (1 # 2 ^ 53)).
Proof.
  intros Hv Hm. pose proof (moderate_range v Hm) as [H1 H2]. rewrite <- Hv in H1, H2.
  destruct (rnd_spec false n d H1) as [[H _]|(m & e & -> & ? & H)].
  { exfalso. by apply (Qlt_not_le _ _ H2). }
  exists m, e.
  split_and!; [done|lia|lia|]. by rewrite Hv in H.
Qed.

Lemma mul_finite m e p f :
  exists n d, mul (Finite false m e) (Finite false p f) = rnd false n d
    /\ (Zpos n # d) == (Zpos (num m e) # den e) * (Zpos (num p f) # den f).
Proof. eexists _, _. split; [reflexivity|]. reflexivity. Qed.

Lemma div_finite m e p f :
  exists n d, div (Finite false m e) (Finite false p f) = rnd false n d
    /\ (Zpos n # d) == (Zpos (num m e) # den e) / (Zpos (num p f) # den f).
Proof. eexists _, _. split; [reflexivity|]. unfold Qeq, Qdiv, Qmult, Qinv. simpl. lia. Qed.

Lemma half_even_1 z : half_even z 1 = z.
Proof. unfold half_even. by rewrite Z.mod_1_r, Z.div_1_r. Qed.

(** Integers below [2^53] are exact. *)
Lemma of_Z_exact p : (Zpos p < 2 ^ 53)%Z ->
  exists m e, of_Z (Zpos p) = Finite false m e /\ (2 ^ 52 <= Zpos m < 2 ^ 53)%Z
    /\ (Zpos (num m e) # den e) == (Zpos p # 1).
Proof.
  intros Hp. pose proof (Z.log2_spec (Zpos p) eq_refl) as L. pose proof (Z.log2_nonneg (Zpos p)).
  set (l := Z.log2 (Zpos p)) in *.
  assert (Hl : (l < 53)%Z) by (apply Z.log2_lt_pow2; lia).
  assert (Hi : ilog2 p 1 = l).
  { unfold ilog2. change (Z.log2 1) with 0%Z. rewrite Z.sub_0_r. fold l.
    destruct (Z.ltb_spec (Zpos (p * pow2 (- l))) (Zpos (1 * pow2 l))) as [H'|_]; [|done].
    rewrite Pos.mul_1_l, Pos2Z.inj_mul, !pow2_Z in H'.
    replace (Z.max 0 (- l)) with 0%Z in H' by lia. replace (Z.max 0 l) with l in H' by lia. lia. }
  cbn [of_Z]. unfold rnd. rewrite Hi, Z.max_l by lia.
  remember (l - 52)%Z as e eqn:He.
  assert (Hone : (1 * pow2 e)%positive = 1%positive).
  { unfold pow2. by replace (Z.max 0 e) with 0%Z by lia. }
  rewrite Hone, half_even_1, Pos2Z.inj_mul, pow2_Z, Z.max_r by lia.
  assert (Hb : (2 ^ 52 <= Zpos p * 2 ^ (- e) < 2 ^ 53)%Z).
  { assert (Ee : (2 ^ 52 = 2 ^ l * 2 ^ (- e))%Z) by (rewrite <- Z.pow_add_r by lia; f_equal; lia).
    assert (Es : (2 ^ 53 = 2 ^ Z.succ l * 2 ^ (- e))%Z) by (rewrite <- Z.pow_add_r by lia; f_equal; lia).
    pose proof (Z.pow_pos_nonneg 2 (- e)). nia. }
  destruct (pack_spec false (Zpos p * 2 ^ (- e)) e) as [[He' _]|(m & f & -> & Hm & Hv)]; [lia|lia|].
  exists m, f. split_and!; [done|lia|lia|]. rewrite Hv, <- pow2_ratio.
  unfold Qeq, Qmult. cbn [Qnum Qden]. rewrite Pos2Z.inj_mul, !pow2_Z.
  replace (Z.max 0 e) with 0%Z by lia. replace (Z.max 0 (- e)) with (- e)%Z by lia. lia.
Qed.

(** A quotient rounds to the integer less than a half away. *)
Lemma nearest a b c : (0 < b)%Z -> Qabs ((a # Z.to_pos b) - (c # 1)) < 1 # 2 ->
  ((2 * a + b) / (2 * b) = c)%Z.
Proof.
  intros Hb [H1 H2]%Qabs_Qlt_condition. destruct b as [|b|b]; try lia. simpl Z.to_pos in *.
  unfold Qlt, Qminus, Qplus, Qopp in H1, H2. cbn [Qnum Qden] in H1, H2.
  rewrite Pos.mul_1_r in H1, H2. symmetry. apply (Z.div_unique_pos _ _ _ (2 * a + Zpos b - 2 * Zpos b * c)); lia.
Qed.

Lemma small_exponent m e (c : Z) :
  (2 ^ 52 <= Zpos m)%Z -> (c < 2 ^ 50)%Z -> (Zpos (num m e) # den e) < (c # 1) + (1 # 2) -> (e < 0)%Z.
Proof.
  intros Hm Hc Hv. destruct (Z.ltb_spec e 0); [done|]. exfalso.
  unfold num, den, pow2 in Hv. rewrite (Z.max_r 0 e), (Z.max_l 0 (- e)) in Hv by lia.
  change (Z.to_pos (2 ^ 0)) with 1%positive in Hv. unfold Qlt, Qplus in Hv. cbn [Qnum Qden] in Hv.
  rewrite Pos2Z.inj_mul in Hv. nia.
Qed.

Lemma round_about x v eps c : is_about x v eps -> (0 <= c < 2 ^ 50)%Z ->
  Qabs (v - (c # 1)) + eps < 1 # 2 -> round x = of_Z c.
Proof.
  intros (m & e & -> & Hm & Ha) Hc He.
  assert (Hd : Qabs ((Zpos (num m e) # den e) - (c # 1)) < 1 # 2).
  { assert (E : (Zpos (num m e) # den e) - (c # 1)
                == ((Zpos (num m e) # den e) - v) + (v - (c # 1))) by ring.
    rewrite E. eapply Qle_lt_trans; [apply Qabs_triangle|]. lra. }
  assert (Hneg : (e < 0)%Z).
  { apply (small_exponent m e c); [lia|lia|]. apply Qabs_Qlt_condition in Hd as [_ Hd]. lra. }
  unfold round. destruct (Z.leb_spec 0 e); [lia|].
  unfold num, den in Hd. assert (Hp : pow2 e = 1%positive) by (unfold pow2; by rewrite Z.max_l by lia).
  rewrite Hp, Pos.mul_1_r in Hd. rewrite (nearest _ (Zpos (pow2 (- e))) c); [|done|done].
  destruct (Z.eqb_spec c 0) as [->|]; done.
Qed.

(** Rounding a number that stays under [c] and a half. *)
Lemma round_bounded x v eps c : is_about x v eps -> (0 <= c < 2 ^ 50)%Z ->
  v + eps < (c # 1) + (1 # 2) -> exists z, (0 <= z <= c)%Z /\ round x = of_Z z.
Proof.
  intros (m & e & -> & Hm & Ha) Hc He. apply Qabs_Qle_condition in Ha as [_ Ha].
  assert (Hv : (Zpos (num m e) # den e) < (c # 1) + (1 # 2)) by lra.
  pose proof (small_exponent m e c ltac:(lia) ltac:(lia) Hv) as Hneg.
  unfold round. destruct (Z.leb_spec 0 e); [lia|].
  unfold num, den in Hv. assert (Hp : pow2 e = 1%positive) by (unfold pow2; by rewrite Z.max_l by lia).
  rewrite Hp, Pos.mul_1_r in Hv. set (d := pow2 (- e)) in *.
  unfold Qlt, Qplus in Hv. cbn [Qnum Qden] in Hv. rewrite Pos.mul_1_l in Hv.
  exists ((2 * Zpos m + Zpos d) / (2 * Zpos d))%Z. split.
  - split; [apply Z.div_pos; lia|]. apply Z.lt_succ_r, Z.div_lt_upper_bound; lia.
  - by destruct (Z.eqb_spec ((2 * Zpos m + Zpos d) / (2 * Zpos d)) 0) as [->|].
Qed.

Lemma fixed_about f x v eps c : is_about x v eps -> (0 <= c < 2 ^ 50)%Z ->
  Qabs (v * (10 ^ Z.of_nat f # 1) - (c # 1)) + eps * (10 ^ Z.of_nat f # 1) < 1 # 2 ->
  (f <= 3)%nat -> toFixed f x = with_point f (Z.to_N c).
Proof.
  intros (m & e & -> & Hm & Ha) Hc He Hf. set (k := (10 ^ Z.of_nat f)%Z) in *.
  assert (Hk : (1 <= k <= 1000)%Z).
  { unfold k. split; [pose proof (Z.pow_pos_nonneg 10 (Z.of_nat f)); lia|].
    apply (Z.pow_le_mono_r 10 (Z.of_nat f) 3); lia. }
  set (w := (Zpos (num m e) # den e)) in *.
  assert (Hkq : 1 <= (k # 1)) by (unfold Qle; simpl; lia).
  assert (Hd : Qabs (w * (k # 1) - (c # 1)) < 1 # 2).
  { assert (E : w * (k # 1) - (c # 1) == (w - v) * (k # 1) + (v * (k # 1) - (c # 1))) by ring.
    rewrite E. eapply Qle_lt_trans; [apply Qabs_triangle|]. rewrite Qabs_Qmult, (Qabs_pos (k # 1)) by lra.
    assert (Qabs (w - v) * (k # 1) <= eps * (k # 1)) by (apply Qmult_le_compat_r; [done|lra]). lra. }
  assert (Hsmall : (Zpos (den e * 10 ^ 21) <=? Zpos (num m e))%Z = false).
  { apply Z.leb_gt. apply Qabs_Qlt_condition in Hd as [_ Hd].
    assert (Hw : w < (2 ^ 51 # 1)).
    { assert (0 <= w) by (unfold w, Qle; simpl; lia).
      assert ((c # 1) < (2 ^ 50 # 1)) by (unfold Qlt; simpl; lia).
      assert ((2 ^ 50 # 1) + (1 # 2) < (2 ^ 51 # 1)) by reflexivity. nra. }
    unfold w, Qlt in Hw. cbn [Qnum Qden] in Hw. lia. }
  cbn [toFixed]. rewrite Hsmall. cbn [app]. f_equal. unfold fixed_digits. fold k. f_equal.
  rewrite (nearest (Zpos (num m e) * k) (Zpos (den e)) c); [done|done|].
  assert (E : (Zpos (num m e) * k # Z.to_pos (Zpos (den e))) == w * (k # 1)).
  { unfold w, Qeq, Qmult. simpl. lia. }
  by rewrite E.
Qed.
End Operations.

(** ** Reading decimal digits *)

Lemma read_digits_step c acc cnt s :
  is_digit c = true -> read_digits acc cnt (c :: s) = read_digits (10 * acc + (c - 48))%N (cnt + 1) s.
Proof. cbn. by intros ->. Qed.

Definition ends_number (rest : jstr) : Prop :=
  match rest with c :: _ => is_digit c = false | [] => True end.

Lemma read_digits_end acc cnt rest : ends_number rest -> read_digits acc cnt rest = (acc, cnt, rest).
Proof. destruct rest as [|c rest]; [done|]. cbn. by intros ->. Qed.

Lemma read_digits_acc u p cnt rest : ends_number rest ->
  exists k, read_digits (Npos p) cnt (digits u ++ rest) = (Npos (Pos.of_uint_acc u p), k, rest) /\ cnt <= k.
Proof.
  intros Hr. revert p cnt. induction u as [|u IH|u IH|u IH|u IH|u IH|u IH|u IH|u IH|u IH|u IH];
    intros p cnt; cbn [digits app Pos.of_uint_acc].
  1: { exists cnt. rewrite read_digits_end by done. split; [done|lia]. }
  all: rewrite read_digits_step by done;
    match goal with |- context [Pos.of_uint_acc ?u ?q] =>
      match goal with IH : forall _ _, _ |- _ => destruct (IH q (cnt + 1)) as (k & Hk & ?) end; exists k; split; [rewrite <- Hk; f_equal; lia|lia]
    end.
Qed.

Lemma read_digits_uint u cnt rest : ends_number rest -> u <> Decimal.Nil -> 0 <= cnt ->
  exists k, read_digits 0 cnt (digits u ++ rest) = (N.of_uint u, k, rest) /\ 0 < k.
Proof.
  intros Hr. revert cnt. unfold N.of_uint. induction u as [|u IH|u _|u _|u _|u _|u _|u _|u _|u _|u _];
    intros cnt Hu Hc; [done| |..]; cbn [digits app Pos.of_uint];
    rewrite read_digits_step by done.
  1: { assert (u = Decimal.Nil \/ u <> Decimal.Nil) as [->|Hn] by (destruct u; auto; by right).
       - cbn [digits app]. rewrite read_digits_end by done. exists (cnt + 1). split; [done|lia].
       - apply (IH (cnt + 1)); [done|lia]. }
  all: match goal with |- context [Pos.of_uint_acc ?u ?q] =>
      destruct (read_digits_acc u q (cnt + 1) rest Hr) as (k & Hk & ?); exists k; split; [exact Hk|lia]
    end.
Qed.

(** A text that starts with a digit has no sign and no spaces before it. *)
Lemma parseFloat_front c s : is_digit c = true ->
  read_sign (trimStart (c :: s)) = (false, c :: s) /\ startsWith (c :: s) "Infinity" = false.
Proof.
  unfold is_digit. intros [H1%N.leb_le H2%N.leb_le]%andb_true_iff.
  assert (Hs : is_space c = false).
  { unfold is_space. repeat (apply orb_false_iff; split);
      first [apply andb_false_iff; (left; apply N.leb_gt; lia) || (right; apply N.leb_gt; lia)
            |apply N.eqb_neq; lia]. }
  cbn [trimStart]. rewrite Hs. cbn [read_sign].
  destruct (N.eqb_spec c 45); [lia|]. destruct (N.eqb_spec c 43); [lia|]. split; [done|].
  cbn. destruct c as [|q]; [lia|]. destruct (Pos.eqb_spec 73 q) as [<-|]; [lia|done].
Qed.

Lemma digits_front u : u <> Decimal.Nil -> exists c s, digits u = c :: s /\ is_digit c = true.
Proof. destruct u; [done|..]; intros _; eexists _, _; done. Qed.

Lemma to_uint_nonnil n : N.to_uint n <> Decimal.Nil.
Proof.
  intros H. pose proof (DecimalN.Unsigned.of_to n) as E. rewrite H in E. cbn in E. by subst n.
Qed.

(** What [parseFloat] reads in a decimal numeral, without or with a fraction. *)
Lemma parseFloat_showN n : parseFloat (showN n) = of_decimal false n 0.
Proof.
  unfold parseFloat, showN. destruct (digits_front _ (to_uint_nonnil n)) as (c & s & E & Hc).
  destruct (parseFloat_front c s Hc) as [F1 F2]. rewrite E, F1, F2, <- E.
  destruct (read_digits_uint (N.to_uint n) 0 [] I (to_uint_nonnil n)) as (k & Hk & Hp); [lia|].
  rewrite app_nil_r in Hk. rewrite Hk. cbn iota beta. rewrite Z.add_0_r.
  destruct (Z.eqb_spec k 0); [lia|]. by rewrite DecimalN.Unsigned.of_to.
Qed.

(** The number that a text of digits continues [acc] to. *)
Definition horner (acc : N) (s : jstr) : N := foldl (fun v c => (10 * v + (c - 48))%N) acc s.
Definition all_digits (s : jstr) : Prop := Forall (fun c => is_digit c = true) s.

Lemma read_digits_all s acc cnt rest : all_digits s -> ends_number rest ->
  read_digits acc cnt (s ++ rest) = (horner acc s, cnt + Z.of_nat (length s), rest).
Proof.
  intros Hs Hr. revert acc cnt. induction Hs as [|c s Hc Hs IH]; intros acc cnt.
  - cbn [app horner foldl length]. rewrite read_digits_end by done. do 2 f_equal. lia.
  - cbn [app]. rewrite read_digits_step, IH by done. cbn [horner foldl length]. do 2 f_equal. lia.
Qed.

Lemma digits_all u : all_digits (digits u).
Proof. induction u; constructor; done. Qed.

Lemma horner_showN n : horner 0 (showN n) = n.
Proof.
  destruct (read_digits_uint (N.to_uint n) 0 [] I (to_uint_nonnil n)) as (k & Hk & _); [lia|].
  rewrite read_digits_all in Hk; [|apply digits_all|done].
  injection Hk as Hk _. by rewrite DecimalN.Unsigned.of_to in Hk.
Qed.

(** Digits, a point and digits. *)
Lemma parseFloat_point a b : a <> [] -> all_digits a -> all_digits b ->
  parseFloat (a ++ "." ++ b) = of_decimal false (horner 0 (a ++ b)) (- Z.of_nat (length b)).
Proof.
  intros Ha Hda Hdb. destruct a as [|c a]; [done|]. unfold parseFloat.
  assert (Hc : is_digit c = true) by (by inversion Hda).
  destruct (parseFloat_front c (a ++ "." ++ b) Hc) as [F1 F2]. cbn [app] in *. rewrite F1, F2.
  change (c :: a ++ 46%N :: b) with ((c :: a) ++ (46%N :: b)).
  rewrite read_digits_all by done. cbn iota beta. change (46 =? 46)%N with true. cbn iota beta.
  rewrite <- (app_nil_r b) at 1. rewrite read_digits_all by done. cbn iota beta.
  cbn [length]. destruct (Z.eqb_spec (0 + Z.of_nat (S (length a)) + (0 + Z.of_nat (length b))) 0); [lia|].
  change (c :: a ++ b) with ((c :: a) ++ b). unfold horner at 3. rewrite foldl_app. f_equal; cbn; lia.
Qed.

(** A number printed with [f] digits after the point is read back. *)
Lemma parseFloat_with_point f n : parseFloat (with_point f n) = of_decimal false n (- Z.of_nat f).
Proof.
  set (ds := (replicate (S f - length (showN n)) 48%N ++ showN n) : jstr).
  assert (Hd : all_digits ds).
  { apply Forall_app. split; [by apply Forall_replicate|apply digits_all]. }
  assert (Hlen : (S f <= length ds)%nat) by (unfold ds; rewrite length_app, length_replicate; lia).
  assert (Hh : horner 0 ds = n).
  { unfold ds, horner. rewrite foldl_app. fold horner.
    assert (E : forall k, foldl (fun v c => (10 * v + (c - 48))%N) 0%N (replicate k 48%N) = 0%N)
      by (induction k as [|k IH]; [done|exact IH]).
    rewrite E. apply horner_showN. }
  unfold with_point. fold ds. destruct f as [|f].
  - assert (Hs : ds = showN n).
    { unfold ds. destruct (digits_front _ (to_uint_nonnil n)) as (c & s & E & _).
      unfold showN. rewrite E. done. }
    rewrite Hs. apply parseFloat_showN.
  - rewrite parseFloat_point.
    + rewrite take_drop, Hh, length_drop. do 2 f_equal. lia.
    + intros E. apply (f_equal length) in E. rewrite length_take in E. simpl in E. lia.
    + by apply Forall_take.
    + by apply Forall_drop.
Qed.

(** ** Lower bounds

    [no_less x v]: [x] is [+∞] or a positive number of value [v] or more. *)
Section LowerBounds.
Local Open Scope Q_scope.

Definition no_less (x : double) (v : Q) : Prop :=
  x = Infinite false \/ exists m e, x = Finite false m e /\ v <= (Zpos (num m e) # den e).

Definition bounded (x : double) : Prop := forall m e, x = Finite false m e -> (Zpos m < 2 ^ 53)%Z.

Lemma no_less_weaken x v w : w <= v -> no_less x v -> no_less x w.
Proof.
  intros Hw [->|(m & e & -> & H)]; [by left|right]. exists m, e. split; [done|]. by apply Qle_trans with v.
Qed.

Lemma no_less_of_Z p : (Zpos p < 2 ^ 53)%Z -> no_less (of_Z (Zpos p)) (Zpos p # 1).
Proof.
  intros Hp. destruct (of_Z_exact p Hp) as (m & e & -> & _ & E). right. exists m, e.
  split; [done|]. rewrite E. apply Qle_refl.
Qed.

(** Not being below a positive integer, for a number that is not [NaN]. *)
Lemma no_less_ltb x p : is_NaN x = false -> (Zpos p < 2 ^ 53)%Z ->
  ltb x (of_Z (Zpos p)) = false <-> no_less x (Zpos p # 1).
Proof.
  intros Hx Hp. destruct (of_Z_exact p Hp) as (m & e & -> & _ & E). unfold ltb.
  destruct x as [|s|s|s a f]; [done|destruct s; cbn..].
  - split; [done|]. intros [H|(? & ? & H & _)]; done.
  - split; [by left|done].
  - split; [|intros [H|(? & ? & H & _)]; done].
    intros H%negb_false_iff%Qle_bool_iff. exfalso. unfold Qle in H. cbn in H. lia.
  - split; [|intros [H|(? & ? & H & _)]; done].
    intros H%negb_false_iff%Qle_bool_iff. exfalso. unfold Qle in H. cbn in H. lia.
  - split; [|intros [H|(? & ? & H & _)]; done].
    intros H%negb_false_iff%Qle_bool_iff. exfalso. unfold Qle in H. cbn in H. lia.
  - rewrite negb_false_iff, Qle_bool_iff, E. split.
    + intros H. right. eauto.
    + intros [H|(? & ? & [= <- <-] & H)]; done.
Qed.

Lemma rnd_no_less n d v : 1 <= v -> v <= (Zpos n # d) ->
  no_less (rnd false n d) (v * (1 - (1 # 2 ^ 53))) /\ bounded (rnd false n d).
Proof.
  intros Hv Hn. destruct (rnd_spec false n d) as [[_ ->]|(m & e & -> & Hm & H)].
  - apply Qle_trans with 1; [by apply Qle_bool_imp_le|]. by apply Qle_trans with v.
  - split; [by left|done].
  - split; [|intros ? ? [= <- <-]; lia].
    right. exists m, e. split; [done|]. apply Qabs_Qle_condition in H as [H _].
    assert (Hk : (1 # 2 ^ 53) <= 1) by (by apply Qle_bool_imp_le).
    set (k := 1 # 2 ^ 53) in *. set (w := Zpos n # d) in *.
    assert (v * (1 - k) <= w * (1 - k)) by (apply Qmult_le_compat_r; [done|lra]).
    apply Qle_trans with (w * (1 - k)); [done|]. lra.
Qed.

Lemma mul_no_less x v p : no_less x v -> (Zpos p < 2 ^ 53)%Z -> 1 <= v * (Zpos p # 1) ->
  let y := mul x (of_Z (Zpos p)) in
  no_less y (v * (Zpos p # 1) * (1 - (1 # 2 ^ 53))) /\ bounded y.
Proof.
  intros Hx Hp Hv y. unfold y. destruct (of_Z_exact p Hp) as (m & e & -> & _ & E).
  destruct Hx as [->|(a & f & -> & H)]; [split; [by left|done]|].
  destruct (mul_finite a f m e) as (n & d & -> & Hq). apply rnd_no_less; [done|].
  rewrite Hq, E. apply Qmult_le_compat_r; [done|]. by unfold Qle.
Qed.

Lemma div_no_less x v p : no_less x v -> (Zpos p < 2 ^ 53)%Z -> 1 <= v / (Zpos p # 1) ->
  let y := div x (of_Z (Zpos p)) in
  no_less y (v / (Zpos p # 1) * (1 - (1 # 2 ^ 53))) /\ bounded y.
Proof.
  intros Hx Hp Hv y. unfold y. destruct (of_Z_exact p Hp) as (m & e & -> & _ & E).
  destruct Hx as [->|(a & f & -> & H)]; [split; [by left|done]|].
  destruct (div_finite a f m e) as (n & d & -> & Hq). apply rnd_no_less; [done|].
  rewrite Hq, E. unfold Qdiv. apply Qmult_le_compat_r; [done|]. by unfold Qle.
Qed.

Lemma round_no_less x c : (0 < c)%Z -> bounded x ->
  no_less x ((c # 1) - (1 # 2)) -> no_less (round x) (c # 1).
Proof.
  intros Hc Hm [->|(m & e & -> & H)]; [by left|]. specialize (Hm m e eq_refl). unfold round.
  destruct (Z.leb_spec 0 e) as [He|He].
  - right. exists m, e. split; [done|]. unfold num, den in *.
    assert (Hp : pow2 (- e) = 1%positive) by (unfold pow2; by rewrite Z.max_l by lia).
    rewrite Hp in *. unfold Qle, Qminus, Qplus, Qopp in *.
    cbn [Qnum Qden] in *. lia.
  - unfold num, den in H. assert (Hp : pow2 e = 1%positive) by (unfold pow2; by rewrite Z.max_l by lia).
    rewrite Hp, Pos.mul_1_r in H. set (d := pow2 (- e)) in *.
    assert (Hd : (2 <= Zpos d)%Z).
    { unfold d. rewrite pow2_Z. change 2%Z with (2 ^ 1)%Z at 1. apply Z.pow_le_mono_r; lia. }
    unfold Qle, Qminus, Qplus, Qopp in H. cbn [Qnum Qden] in H.
    set (z := ((2 * Zpos m + Zpos d) / (2 * Zpos d))%Z).
    assert (Hz : (c <= z)%Z) by (apply Z.div_le_lower_bound; lia).
    assert (Hz' : (z < 2 ^ 53)%Z) by (apply Z.div_lt_upper_bound; lia).
    destruct (Z.eqb_spec z 0); [lia|]. destruct z as [|z|z]; [lia| |lia].
    apply no_less_weaken with (Zpos z # 1); [unfold Qle; cbn; lia|]. by apply no_less_of_Z.
Qed.
End LowerBounds.

(** ** Percentages *)

Section Percent.
Local Open Scope Q_scope.

(** A fraction of integers, as a rounded percentage, is between 0 and 100. *)
Lemma percent_bounded l t : (0 <= l <= Zpos t)%Z -> (Zpos t < 2 ^ 53)%Z ->
  exists z, (0 <= z <= 100)%Z /\ round (mul (div (of_Z l) (of_Z (Zpos t))) (of_Z 100)) = of_Z z.
Proof.
  intros Hl Ht. destruct (of_Z_exact t Ht) as (mt & et & Et & _ & Vt).
  destruct (of_Z_exact 100 eq_refl) as (mh & eh & Eh & _ & Vh). rewrite Et, Eh.
  destruct l as [|l|l]; [exists 0%Z; split; [lia|done]| |lia].
  destruct (of_Z_exact l ltac:(lia)) as (ml & el & -> & _ & Vl).
  destruct (div_finite ml el mt et) as (n & d & -> & Hq). rewrite Vl, Vt in Hq.
  set (v := (Zpos l # 1) / (Zpos t # 1)) in *.
  assert (Hv1 : v <= 1).
  { unfold v, Qle, Qdiv, Qmult, Qinv. cbn [Qnum Qden]. lia. }
  assert (Hv0 : (1 # 2 ^ 53) <= v).
  { unfold v, Qle, Qdiv, Qmult, Qinv. cbn [Qnum Qden]. lia. }
  set (k := 1 # 2 ^ 53) in *. assert (Hk : 0 <= k /\ k <= 1 # 1000) by (split; by apply Qle_bool_imp_le).
  assert (K60 : (1 # 2 ^ 60) <= k * (1 # 2)) by (by apply Qle_bool_imp_le).
  assert (B60 : (1000 # 1) <= (2 ^ 60 # 1)) by (by apply Qle_bool_imp_le).
  destruct (rnd_about n d v Hq) as (a & b & -> & _ & Ha); [split; lra|].
  fold k in Ha. apply Qabs_Qle_condition in Ha as [A1 A2].
  destruct (mul_finite a b mh eh) as (n' & d' & -> & Hq'). rewrite Vh in Hq'.
  set (w := Zpos (num a b) # den b) in *.
  assert (W1 : v * (1 # 2) <= w) by nra. assert (W2 : w <= 1 + (1 # 1000)) by nra.
  pose proof (rnd_about n' d' (w * (100 # 1)) Hq') as R. fold k in R.
  apply (round_bounded _ _ _ 100 (R ltac:(split; lra))); [lia|]. nra.
Qed.
End Percent.
