(* ===== verification/Ui.v ===== *)
(** * User interfaces as state machines

    A React component is a record of its state, the tree its render function returns and
    the handlers of that tree.  A rendered tree is a list of [node]s: the texts, the
    controls (each with the action its handler performs and whether it is enabled), the
    roles announced to assistive technology, and [Slot]s for the child components that
    keep a state of their own.  Class names, icons and layout are left out.

    A step is either taken by the user, through an enabled control of the current tree, or
    by the environment (an awaited call settles, a timer fires, new props arrive). *)
From S2P Require Import Prelude JsValue.

Local Open Scope js_scope.

Inductive node (A : Type) :=
  | Txt (v : json)                                        (* a text child *)
  | Btn (label : jstr) (enabled : bool) (on : A)          (* button *)
  | Field (label value : jstr) (enabled : bool) (on : jstr -> A)   (* text input *)
  | Toggle (role label : jstr) (on enabled : bool) (act : A)
      (* checkbox, radio, tab, option, menu item: selected?, enabled?, action *)
  | Anchor (label href : jstr)
  | Box (role : jstr) (kids : list (node A))
  | Slot (name : jstr).
Arguments Txt {_} _. Arguments Btn {_} _ _ _. Arguments Field {_} _ _ _ _.
Arguments Toggle {_} _ _ _ _ _. Arguments Anchor {_} _ _. Arguments Box {_} _ _.
Arguments Slot {_} _.

Definition text {A} (s : jstr) : node A := Txt (JStr s).
(** [{cond && <...>}] *)
Definition when {A} (b : bool) (l : list A) : list A := if b then l else [].

(** The actions the user can perform on a node. *)
Fixpoint offered {A} (n : node A) (a : A) : Prop :=
  match n with
  | Txt _ | Anchor _ _ | Slot _ => False
  | Btn _ en on => en = true /\ a = on
  | Field _ _ en on => en = true /\ exists s, a = on s
  | Toggle _ _ _ en on => en = true /\ a = on
  | Box _ kids => (fix any l := match l with
      | [] => False | k :: l' => offered k a \/ any l' end) kids
  end.

Fixpoint offers {A} (v : list (node A)) (a : A) : Prop :=
  match v with [] => False | n :: v' => offered n a \/ offers v' a end.

(** The roles present in a tree ([alert], [status], ...). *)
Fixpoint node_roles {A} (n : node A) : list jstr :=
  match n with
  | Box r kids => r :: (fix all l := match l with
      | [] => [] | k :: l' => node_roles k ++ all l' end) kids
  | _ => []
  end.

Fixpoint roles {A} (v : list (node A)) : list jstr :=
  match v with [] => [] | n :: v' => node_roles n ++ roles v' end.

Definition shows_role {A} (r : jstr) (v : list (node A)) : bool :=
  existsb (jeq r) (roles v).

(** The text children of a tree, in order. *)
Fixpoint node_texts {A} (n : node A) : list json :=
  match n with
  | Txt v => [v]
  | Btn l _ _ | Toggle _ l _ _ _ | Anchor l _ => [JStr l]
  | Field l v _ _ => [JStr l; JStr v]
  | Box _ kids => (fix all l := match l with
      | [] => [] | k :: l' => node_texts k ++ all l' end) kids
  | Slot _ => []
  end.

Fixpoint texts {A} (v : list (node A)) : list json :=
  match v with [] => [] | n :: v' => node_texts n ++ texts v' end.

(** The names of the child components of a tree, in order. *)
Fixpoint node_slots {A} (n : node A) : list jstr :=
  match n with
  | Slot nm => [nm]
  | Box _ kids => (fix all l := match l with
      | [] => [] | k :: l' => node_slots k ++ all l' end) kids
  | _ => []
  end.

Fixpoint slots {A} (v : list (node A)) : list jstr :=
  match v with [] => [] | n :: v' => node_slots n ++ slots v' end.

(** The addresses the links of a tree point at, in order. *)
Fixpoint node_links {A} (n : node A) : list jstr :=
  match n with
  | Anchor _ href => [href]
  | Box _ kids => (fix all l := match l with
      | [] => [] | k :: l' => node_links k ++ all l' end) kids
  | _ => []
  end.

Fixpoint links {A} (v : list (node A)) : list jstr :=
  match v with [] => [] | n :: v' => node_links n ++ links v' end.

(** Mounting a stateless child: its actions become the parent's. *)
Fixpoint node_map {A B} (f : A -> B) (n : node A) : node B :=
  match n with
  | Txt v => Txt v
  | Btn l en on => Btn l en (f on)
  | Field l v en on => Field l v en (fun s => f (on s))
  | Toggle r l c en on => Toggle r l c en (f on)
  | Anchor l h => Anchor l h
  | Box r kids => Box r ((fix go l := match l with
      | [] => [] | k :: l' => node_map f k :: go l' end) kids)
  | Slot nm => Slot nm
  end.
Definition view_map {A B} (f : A -> B) (v : list (node A)) : list (node B) :=
  map (node_map f) v.

(** ** Components *)

Record component := Component {
  st : Type;
  act : Type;
  eff : Type;
  view : st -> list (node act);
  awaiting : st -> act -> Prop;
  update : act -> st -> st * list eff }.

Inductive step (c : component) (s : st c) : act c -> list (eff c) -> st c -> Prop :=
  | by_user a es s' :
      offers (view c s) a -> update c a s = (s', es) -> step c s a es s'
  | by_env a es s' :
      awaiting c s a -> update c a s = (s', es) -> step c s a es s'.

Inductive steps (c : component) : st c -> list (act c * list (eff c)) -> st c -> Prop :=
  | steps_refl s : steps c s [] s
  | steps_cons s a es s' tr s'' :
      step c s a es s' -> steps c s' tr s'' -> steps c s ((a, es) :: tr) s''.

Definition reachable (c : component) (s0 s : st c) : Prop := exists tr, steps c s0 tr s.

(** The calls issued along a run, in order. *)
Definition issued {A E} (tr : list (A * list E)) : list E := tr ≫= snd.

(** ** Lemmas *)

Lemma offers_app {A} (v w : list (node A)) a :
  offers (v ++ w) a <-> offers v a \/ offers w a.
Proof. induction v as [|n v IH]; simpl; [tauto|]. rewrite IH. tauto. Qed.

Lemma offered_Box {A} r (v : list (node A)) a : offered (Box r v) a <-> offers v a.
Proof. induction v as [|n v IH]; simpl in *; tauto. Qed.

Lemma offers_when {A} b (v : list (node A)) a : offers (when b v) a <-> b = true /\ offers v a.
Proof. destruct b; simpl; intuition discriminate. Qed.

Lemma offers_map {A B} (f : B -> node A) (l : list B) a :
  offers (map f l) a <-> exists x, x ∈ l /\ offered (f x) a.
Proof.
  induction l as [|y l IH]; simpl.
  - split; [done|]. intros (x & Hx & _). by apply elem_of_nil in Hx.
  - rewrite IH. split.
    + intros [H | (x & ? & ?)]; eexists; rewrite elem_of_cons; eauto.
    + intros (x & [->|Hx]%elem_of_cons & H); eauto.
Qed.

Lemma offers_bind {A B} (f : B -> list (node A)) (l : list B) a :
  offers (l ≫= f) a <-> exists x, x ∈ l /\ offers (f x) a.
Proof.
  induction l as [|y l IH]; simpl.
  - split; [done|]. intros (x & Hx & _). by apply elem_of_nil in Hx.
  - rewrite offers_app, IH. split.
    + intros [H | (x & ? & ?)]; eexists; rewrite elem_of_cons; eauto.
    + intros (x & [->|Hx]%elem_of_cons & H); eauto.
Qed.

Lemma roles_app {A} (v w : list (node A)) : roles (v ++ w) = roles v ++ roles w.
Proof. induction v as [|n v IH]; simpl; [done|]. by rewrite IH, app_assoc. Qed.

Lemma roles_Box {A} r (v : list (node A)) : node_roles (Box r v) = r :: roles v.
Proof.
  simpl. f_equal. induction v as [|n v IH]; simpl; [done|]. by rewrite IH.
Qed.

Lemma shows_role_app {A} r (v w : list (node A)) :
  shows_role r (v ++ w) = shows_role r v || shows_role r w.
Proof. unfold shows_role. by rewrite roles_app, existsb_app. Qed.

Lemma texts_app {A} (v w : list (node A)) : texts (v ++ w) = texts v ++ texts w.
Proof. induction v as [|n v IH]; simpl; [done|]. by rewrite IH, app_assoc. Qed.

Lemma slots_app {A} (v w : list (node A)) : slots (v ++ w) = slots v ++ slots w.
Proof. induction v as [|n v IH]; simpl; [done|]. by rewrite IH, app_assoc. Qed.

Lemma links_app {A} (v w : list (node A)) : links (v ++ w) = links v ++ links w.
Proof. induction v as [|n v IH]; simpl; [done|]. by rewrite IH, app_assoc. Qed.

Lemma links_Box {A} r (v : list (node A)) : node_links (Box r v) = links v.
Proof. simpl. induction v as [|n v IH]; simpl; [done|]. by rewrite IH. Qed.

Lemma links_bind {A B} (f : B -> list (node A)) (l : list B) :
  links (l ≫= f) = l ≫= (fun x => links (f x)).
Proof.
  induction l as [|x l IH]; [done|].
  change ((x :: l) ≫= f) with (f x ++ (l ≫= f)). by rewrite links_app, IH.
Qed.

(** Mounting changes no link. *)
Lemma node_links_map {A B} (f : A -> B) : forall n, node_links (node_map f n) = node_links n.
Proof.
  fix IH 1. intros [| | | | |r kids|]; [done..| |done]. cbn.
  induction kids as [|k kids IHk]; [done|]. by rewrite IH, IHk.
Qed.

Lemma links_map {A B} (f : A -> B) (v : list (node A)) : links (view_map f v) = links v.
Proof.
  unfold view_map. induction v as [|n v IH]; [done|]. cbn [map links]. by rewrite node_links_map, IH.
Qed.

Lemma slots_bind {A B} (f : B -> list (node A)) (l : list B) :
  slots (l ≫= f) = l ≫= (fun x => slots (f x)).
Proof.
  induction l as [|x l IH]; [done|].
  change ((x :: l) ≫= f) with (f x ++ (l ≫= f)). by rewrite slots_app, IH.
Qed.

(** A list of child components shows their names. *)
Lemma slots_map {A B} (f : B -> jstr) (l : list B) :
  slots (map (fun x => Slot (A:=A) (f x)) l) = map f l.
Proof. induction l as [|x l IH]; simpl; [done|]. by rewrite IH. Qed.

(** *** Alerts *)

(** [{error && <p role="alert">{error}</p>}] *)
Definition alert {A} (e : option json) : list (node A) :=
  match e with Some m => when (jtruthy m) [Box "alert" [Txt m]] | None => [] end.

Lemma offers_alert {A} e (a : A) : ~ offers (alert e) a.
Proof. unfold alert. destruct e as [m|]; [destruct (jtruthy m)|]; simpl; tauto. Qed.

Lemma alert_role {A} e :
  shows_role "alert" (alert (A:=A) e) = match e with Some m => jtruthy m | None => false end.
Proof. destruct e as [m|]; [|done]. cbn. by destruct (jtruthy m). Qed.

(** The induction principle behind every safety theorem about a component. *)
Lemma steps_invariant (c : component) (I : st c -> Prop) :
  (forall s a es s', I s -> step c s a es s' -> I s') ->
  forall s tr s', steps c s tr s' -> I s -> I s'.
Proof. intros Hstep s tr s' Hrun. induction Hrun; eauto. Qed.

Lemma reachable_invariant (c : component) (I : st c -> Prop) s0 :
  I s0 -> (forall s a es s', I s -> step c s a es s' -> I s') ->
  forall s, reachable c s0 s -> I s.
Proof. intros H0 Hstep s [tr Hrun]. exact (steps_invariant c I Hstep s0 tr s Hrun H0). Qed.

(** An invariant that also constrains the calls issued. *)
Lemma steps_issued (c : component) (I : st c -> Prop) (P : eff c -> Prop) :
  (forall s a es s', I s -> step c s a es s' -> I s' /\ Forall P es) ->
  forall s tr s', steps c s tr s' -> I s -> I s' /\ Forall P (issued tr).
Proof.
  intros Hstep s tr s' Hrun. induction Hrun as [s|s a es s' tr s'' Hs _ IH]; intros HI.
  - split; [done|constructor].
  - destruct (Hstep _ _ _ _ HI Hs) as [HI' HP]. destruct (IH HI') as [? ?].
    split; [done|]. unfold issued. simpl. by apply Forall_app.
Qed.

Lemma steps_trans (c : component) s1 s2 s3 tr1 tr2 :
  steps c s1 tr1 s2 -> steps c s2 tr2 s3 -> steps c s1 (tr1 ++ tr2) s3.
Proof. induction 1; simpl; eauto using steps. Qed.

#[export] Hint Constructors step steps : postal.
(** A list of texts offers nothing. *)
Lemma offers_texts {A} (l : list json) (a : A) : ~ offers (map Txt l) a.
Proof. induction l as [|v l IH]; simpl; tauto. Qed.

#[export] Hint Rewrite @offers_app @offers_when @offers_map @offered_Box @roles_app
  @roles_Box @shows_role_app @texts_app : postal.

(** Splits a hypothesis [offers (view ...) a] into one case per control. *)
Ltac offers_cases H :=
  cbn in H; autorewrite with postal in H; cbn in H;
  repeat match type of H with
  | _ \/ _ => destruct H as [H|H]
  | exists _, _ => destruct H as [? H]
  | _ /\ _ => let H' := fresh "Hen" in destruct H as [H' H]
  | False => destruct H
  end.

(** *** One call at a time

    When a flag tells whether a call is in flight, so that each step conserves the balance of
    calls and answers, the calls made along a run exceed the answers by at most one. *)
Definition bit (b : bool) : nat := if b then 1 else 0.
Definition count {A} (p : A -> bool) (l : list A) : nat := length (keep p l).

Lemma count_app {A} (p : A -> bool) l1 l2 : count p (l1 ++ l2) = count p l1 + count p l2.
Proof. unfold count. induction l1 as [|x l1 IH]; [done|]. simpl. destruct (p x); simpl; lia. Qed.

Definition balanced (c : component) (busy : st c -> bool) (call : eff c -> bool)
    (answer : act c -> bool) : Prop :=
  forall s a es s', step c s a es s' ->
    bit (busy s') + bit (answer a) = bit (busy s) + count call es.

Lemma steps_balanced (c : component) busy call answer :
  balanced c busy call answer -> forall s tr s', steps c s tr s' ->
  bit (busy s') + count answer (map fst tr) = bit (busy s) + count call (issued tr).
Proof.
  intros Hb s tr s' Hrun. induction Hrun as [s|s a es s1 tr s2 Hs _ IH]; [done|].
  change (issued ((a, es) :: tr)) with (es ++ issued tr). rewrite count_app.
  pose proof (Hb _ _ _ _ Hs) as H. unfold count in *. simpl. destruct (answer a); simpl in *; lia.
Qed.

Lemma one_at_a_time (c : component) busy call answer :
  balanced c busy call answer -> forall s tr s', busy s = false -> steps c s tr s' ->
  count call (issued tr) <= count answer (map fst tr) + 1.
Proof.
  intros Hb s tr s' Hs Hrun. pose proof (steps_balanced _ _ _ _ Hb _ _ _ Hrun) as H.
  rewrite Hs in H. simpl in H. destruct (busy s'); simpl in H; lia.
Qed.

(** Finds the control that performs an action in a concrete tree. *)
Ltac pick_in := first [solve [repeat split; eauto] | left; pick_in | right; pick_in].
Ltac pick := cbn; pick_in.
