(* ===== verification/Progress.v ===== *)
(** * Runs that go on for ever, and what they reach

    The safety theorems speak of finite runs ([Ui.steps]).  A run here is infinite: at each
    instant the component takes one of its steps, or nothing happens to it.  It is [fair] to
    a class of actions when the environment does not withhold them for ever: from any
    instant on, one of them happens, or at some instant none of them is being awaited.
    [leads_to] is the progress relation of such a run, with its rules: one fair answer, a
    chain of them, and a decreasing measure. *)
From S2P Require Import Prelude JsValue Ui.

Section Progress.
Variable c : component.

Record run := Run { at_ : nat -> st c; does : nat -> option (act c) }.

Definition moves (s : st c) (o : option (act c)) (s' : st c) : Prop :=
  match o with None => s' = s | Some a => exists es, step c s a es s' end.

Definition valid (r : run) : Prop := forall i, moves (at_ r i) (does r i) (at_ r (S i)).

Definition fair (H : act c -> Prop) (r : run) : Prop :=
  forall i, exists j, i <= j /\
    ((exists a, does r j = Some a /\ H a) \/ ~ exists a, H a /\ awaiting c (at_ r j) a).

Definition leads_to (r : run) (P Q : st c -> Prop) : Prop :=
  forall i, P (at_ r i) -> exists j, i <= j /\ Q (at_ r j).

Lemma leads_to_now r (P Q : st c -> Prop) : (forall s, P s -> Q s) -> leads_to r P Q.
Proof. intros HPQ i Hi. exists i. split; [done|by apply HPQ]. Qed.

Lemma leads_to_trans r P Q R : leads_to r P Q -> leads_to r Q R -> leads_to r P R.
Proof.
  intros HPQ HQR i Hi. destruct (HPQ i Hi) as (j & Hj & HQ). destruct (HQR j HQ) as (k & Hk & HR).
  exists k. split; [lia|done].
Qed.

Lemma leads_to_or r P Q R : leads_to r P R -> leads_to r Q R -> leads_to r (fun s => P s \/ Q s) R.
Proof. intros HP HQ i [Hi|Hi]; [by apply HP|by apply HQ]. Qed.

(** A condition every step keeps holds along the whole run. *)
Lemma run_invariant (I : st c -> Prop) r :
  valid r -> I (at_ r 0) -> (forall s a es s', I s -> step c s a es s' -> I s') ->
  forall i, I (at_ r i).
Proof.
  intros Hr H0 Hstep i. induction i as [|i IH]; [done|]. specialize (Hr i).
  destruct (does r i) as [a|]; cbn in Hr; [destruct Hr as [es Hr]; by eapply Hstep|by rewrite Hr].
Qed.

(** One answer: while [P] holds an answer of the class is awaited, no step falsifies [P]
    other than into [Q], and the answers of the class establish [Q]. *)
Lemma fair_leads r (H : act c -> Prop) (I P Q : st c -> Prop) :
  valid r -> fair H r -> (forall i, I (at_ r i)) ->
  (forall s, I s -> P s -> exists a, H a /\ awaiting c s a) ->
  (forall s a es s', I s -> P s -> step c s a es s' -> P s' \/ Q s') ->
  (forall s a es s', I s -> P s -> H a -> step c s a es s' -> Q s') ->
  leads_to r P Q.
Proof.
  intros Hr Hf HI Haw Hkeep Hgoal i Hi. destruct (Hf i) as (j & Hij & Hj).
  assert (Hreach : forall n, P (at_ r (i + n)) \/ exists k, i <= k /\ Q (at_ r k)).
  { induction n as [|n [IH|IH]]; [left; by rewrite Nat.add_0_r| |by right].
    pose proof (Hr (i + n)) as Hn. rewrite Nat.add_succ_r.
    destruct (does r (i + n)) as [a|]; cbn in Hn; [|left; by rewrite Hn].
    destruct Hn as [es Hn]. destruct (Hkeep _ _ _ _ (HI _) IH Hn) as [?|?]; [by left|right].
    exists (S (i + n)). split; [lia|done]. }
  destruct (Hreach (j - i)) as [HP|HQ]; [|done].
  replace (i + (j - i)) with j in HP by lia.
  destruct Hj as [(a & Ha & HHa)|Hno].
  - pose proof (Hr j) as Hn. rewrite Ha in Hn. destruct Hn as [es Hn]. exists (S j).
    split; [lia|]. by eapply Hgoal.
  - destruct Hno. by apply Haw.
Qed.

(** A chain of answers along which a measure decreases to zero. *)
Lemma leads_to_measure r (m : st c -> nat) (Q : st c -> Prop) :
  (forall n, leads_to r (fun s => m s = S n) (fun s => m s <= n \/ Q s)) ->
  leads_to r (fun _ => True) (fun s => m s = 0 \/ Q s).
Proof.
  intros Hdec i _. remember (m (at_ r i)) as n eqn:En. revert i En.
  induction n as [n IH] using lt_wf_ind. intros i En. destruct n as [|n].
  - exists i. auto.
  - destruct (Hdec n i (eq_sym En)) as (j & Hj & [Hm|HQ]).
    + destruct (IH (m (at_ r j)) ltac:(lia) j eq_refl) as (k & Hk & H). exists k. split; [lia|done].
    + exists j. auto.
Qed.

(** The common case: a flag that only a pending answer keeps up, and that the answer
    clears.  Whatever else happens meanwhile, the flag comes down again. *)
Lemma fair_settles r (H : act c -> Prop) (I : st c -> Prop) (busy : st c -> bool) :
  valid r -> fair H r -> (forall i, I (at_ r i)) ->
  (forall s, I s -> busy s = true -> exists a, H a /\ awaiting c s a) ->
  (forall s a es s', I s -> H a -> step c s a es s' -> busy s' = false) ->
  leads_to r (fun _ => True) (fun s => busy s = false).
Proof.
  intros Hr Hf HI Haw Hclear i _. destruct (Hf i) as (j & Hij & [(a & Ha & HHa)|Hno]).
  - pose proof (Hr j) as Hn. rewrite Ha in Hn. destruct Hn as [es Hn]. exists (S j).
    split; [lia|]. by eapply Hclear.
  - exists j. split; [done|]. destruct (busy (at_ r j)) eqn:E; [|done].
    destruct Hno. by apply Haw.
Qed.
End Progress.

Arguments at_ {_} _ _. Arguments does {_} _ _. Arguments valid {_} _. Arguments fair {_} _ _.
Arguments leads_to {_} _ _ _. Arguments Run {_} _ _.

(** ** A run for the witnesses: a finite prefix, then one state for ever *)
Section Prefix.
Variable c : component.

(** The run that takes the actions [l] from [s], then stays. *)
Fixpoint states (s : st c) (l : list (act c)) (i : nat) : st c :=
  match l, i with
  | a :: l', S i' => states (update c a s).1 l' i'
  | _, _ => s
  end.
Definition play (s : st c) (l : list (act c)) : run c := Run (states s l) (fun i => l !! i).

(** Each action is possible where it is taken. *)
Fixpoint possible (s : st c) (l : list (act c)) : Prop :=
  match l with
  | [] => True
  | a :: l' => (offers (view c s) a \/ awaiting c s a) /\ possible (update c a s).1 l'
  end.

Lemma play_valid s l : possible s l -> valid (play s l).
Proof.
  revert s. induction l as [|a l IH]; intros s Hp i.
  - by destruct i.
  - destruct Hp as [Ha Hp]. destruct i as [|i]; [|exact (IH _ Hp i)].
    cbn. replace (states (update c a s).1 l 0) with (update c a s).1 by (by destruct l).
    exists (update c a s).2. destruct Ha as [Ha|Ha].
    + apply by_user; [done|]. by destruct (update c a s).
    + apply by_env; [done|]. by destruct (update c a s).
Qed.

Fixpoint final (s : st c) (l : list (act c)) : st c :=
  match l with [] => s | a :: l' => final (update c a s).1 l' end.

Lemma possible_steps s l :
  possible s l -> exists tr, steps c s tr (final s l) /\ map fst tr = l.
Proof.
  revert s. induction l as [|a l IH]; intros s Hp; [exists []; split; [constructor|done]|].
  destruct Hp as [Ha Hp]. destruct (IH _ Hp) as (tr & Hrun & Htr).
  exists ((a, (update c a s).2) :: tr). split; [|cbn; by rewrite Htr]. eapply steps_cons; [|exact Hrun].
  destruct Ha as [Ha|Ha]; [by apply by_user; [|destruct (update c a s)]|].
  by apply by_env; [|destruct (update c a s)].
Qed.

Lemma states_after s l i : length l <= i -> states s l i = final s l.
Proof.
  revert s i. induction l as [|a l IH]; intros s i Hi; [by destruct i|].
  destruct i as [|i]; cbn in Hi; [lia|]. apply IH. lia.
Qed.

(** It is fair when nothing is awaited at its end. *)
Lemma play_fair s l (H : act c -> Prop) :
  (forall a, awaiting c (final s l) a -> False) -> fair H (play s l).
Proof.
  intros Hno i. exists (i + length l). split; [lia|right]. intros (a & _ & Ha).
  cbn in Ha. rewrite states_after in Ha by lia. exact (Hno a Ha).
Qed.
End Prefix.
Arguments play {_} _ _.
