(* ===== verification/Schema.v ===== *)
(** * The records of the API contract (web/src/api/schema.d.ts)

    Only the fields of the schemas that the front ends read.  An optional field is an
    [option]; identifiers, timestamps and statuses declared as plain [string] are [jstr]. *)
From S2P Require Import Prelude JsValue.

Record User := { u_id : jstr; u_email : jstr; u_email_verified : bool;
  u_status : jstr; u_created_at : jstr }.

Record Token := { t_access_token : jstr; t_token_type : jstr; t_expires_in : Z;
  t_csrf_token : jstr; t_refresh_token : option jstr; t_user : option User }.

Record Workspace := { w_id : jstr; w_name : jstr; w_owner_user_id : jstr;
  w_plan : jstr; w_created_at : jstr }.

Inductive MemberRole := owner | admin | editor | viewer | custom.

Inductive Capability :=
  | cap_read | cap_create | cap_update | cap_delete | cap_upload | cap_publish
  | cap_manage_channels | cap_manage_members | cap_manage_workspace.

Record Member := { m_workspace_id : jstr; m_user_id : jstr; m_role : MemberRole;
  m_permissions : list Capability }.

Inductive ChannelStatus := ch_active | ch_expired | ch_revoked.

Record Channel := { ch_id : jstr; ch_platform : jstr; ch_platform_account_id : jstr;
  ch_handle : jstr; ch_display_name : jstr; ch_status : ChannelStatus;
  ch_connected_by : option jstr; ch_created_at : jstr }.

Inductive MediaKind := image | gif | video.

Record MediaMeta := { mm_media_id : jstr; mm_kind : MediaKind; mm_mime : jstr; mm_bytes : Z }.

(** [platform_options] is never read or written by the front ends. *)
Record VariantInput := { vi_channel_id : jstr; vi_body : option jstr;
  vi_media : option (list MediaMeta) }.

Record Variant := { v_id : jstr; v_channel_id : jstr; v_body : jstr;
  v_media : option (list MediaMeta) }.

Record Post := { p_id : jstr; p_workspace_id : jstr; p_author_user_id : option jstr;
  p_status : jstr; p_created_at : jstr; p_variants : option (list Variant) }.

Record VariantValidation := { vv_channel_id : jstr; vv_valid : bool;
  vv_code : option jstr; vv_message : option jstr }.

Inductive JobStatus := scheduled | publishing | published | failed | canceled.

Record Job := { j_id : jstr; j_post_id : jstr; j_channel_id : jstr; j_run_at : jstr;
  j_status : JobStatus; j_attempts : Z; j_last_error : option jstr; j_created_at : jstr }.

Record Slot := { s_id : jstr; s_channel_id : jstr; s_day_of_week : Z;
  s_time_of_day : jstr; s_timezone : jstr; s_created_at : jstr }.

Record SlotRequest := { sr_channel_id : jstr; sr_day_of_week : Z;
  sr_time_of_day : jstr; sr_timezone : jstr }.

Record Asset := { a_id : jstr; a_workspace_id : jstr; a_kind : MediaKind; a_mime : jstr;
  a_width : Z; a_height : Z; a_duration_ms : Z; a_bytes : Z; a_status : jstr;
  a_created_at : jstr }.

(** [metrics] is an object used as a map from metric name to value. *)
Record PostMetrics := { pm_post_id : jstr; pm_channel_id : jstr;
  pm_platform_post_id : jstr; pm_metrics : gmap jstr Z; pm_captured_at : jstr }.

Record ChannelMetrics := { cm_channel_id : jstr; cm_platform_post_id : jstr;
  cm_metrics : gmap jstr Z; cm_captured_at : jstr }.

Record SeriesPoint := { sp_value : Z; sp_captured_at : jstr }.

Record Integration := { i_provider : jstr; i_enabled : bool; i_auto_apply : bool;
  i_configured : bool; i_updated_at : jstr }.

Record LinkPreview := { lp_url : jstr; lp_site_name : jstr; lp_title : jstr;
  lp_description : jstr; lp_image : jstr }.

Record Wallet := { wa_workspace_id : jstr; wa_balance : Z;
  wa_publish_costs : gmap jstr Z; wa_updated_at : jstr }.

Inductive LedgerKind := topup | publish_charge | refund | adjustment.

Record LedgerEntry := { le_id : jstr; le_workspace_id : jstr; le_kind : LedgerKind;
  le_credits : Z; le_reference : jstr; le_note : jstr; le_created_at : jstr }.

#[export] Instance MemberRole_eq_dec : EqDecision MemberRole.
Proof. solve_decision. Defined.
#[export] Instance Capability_eq_dec : EqDecision Capability.
Proof. solve_decision. Defined.
#[export] Instance ChannelStatus_eq_dec : EqDecision ChannelStatus.
Proof. solve_decision. Defined.
#[export] Instance MediaKind_eq_dec : EqDecision MediaKind.
Proof. solve_decision. Defined.
#[export] Instance MediaMeta_eq_dec : EqDecision MediaMeta.
Proof. solve_decision. Defined.
#[export] Instance JobStatus_eq_dec : EqDecision JobStatus.
Proof. solve_decision. Defined.
#[export] Instance LedgerKind_eq_dec : EqDecision LedgerKind.
Proof. solve_decision. Defined.
