(* ===== verification/ApiError.v ===== *)
(** * Error normalization: lib/api-error.ts (web and mobile) and form-errors.ts

    The single mapper from a failed response to the shape the screens show. *)
From S2P Require Import Prelude JsValue.

Local Open Scope js_scope.

(** A call of the logger: its level is [warn] in all the code of this file. *)
Record LogCall := { lc_message : jstr; lc_fields : list (jstr * json) }.

(** A TypeError raised by the runtime; its text is the engine's. *)
Definition TypeError : Exn := JsError "TypeError".

(** [typeof v === "object" && v !== null && "error" in v], then the same test on
    [v.error] for [code] and [message]. *)
Definition isApiErrorBody (v : json) : bool :=
  if negb (is_object v) || negb (has_prop "error" v) then false
  else match get_prop v "error" with
       | Some err => is_object err && has_prop "code" err && has_prop "message" err
       | None => false
       end.

(** [for (const f of fields ?? []) fieldErrors[f.field] = f.message]; [None] is the
    TypeError of an element that is [null] or [undefined]. *)
Fixpoint collect_fields (l : list json) (acc : gmap jstr json) : option (gmap jstr json) :=
  match l with
  | [] => Some acc
  | f :: l' =>
      match get_prop f "field", get_prop f "message" with
      | Some k, Some m => collect_fields l' (<[to_key k := m]> acc)
      | _, _ => None
      end
  end.

(** What [for ... of (fields ?? [])] iterates over; [None] is the TypeError of a value
    that is not iterable. *)
Definition iterate (fields : json) : option (list json) :=
  match fields with
  | JUndef | JNull => Some []
  | JArr l => Some l
  | JStr s => Some (map (fun c => JStr [c]) s)
  | JBool _ | JNum _ | JObj _ => None
  end.

Definition fieldErrors_of (fields : json) : option (gmap jstr json) :=
  match iterate fields with Some l => collect_fields l ∅ | None => None end.

Section Mapper.
(** The two apps share the mapper and differ in the texts of [friendlyByStatus]. *)
Variable friendly : Z -> jstr.

(** The structured branch: [const { code, message, fields, request_id } = body.error]. *)
Definition normalize_envelope (status : Z) (err : json) : list LogCall * Exn :=
  match get_prop err "code", get_prop err "message",
        get_prop err "fields", get_prop err "request_id" with
  | Some code, Some message, Some fields, Some request_id =>
      match fieldErrors_of fields with
      | Some fe =>
          ([{| lc_message := "api error";
               lc_fields := [("requestId", request_id); ("code", code);
                             ("status", JNum status)] |}],
           NErr {| ne_code := code; ne_message := message; ne_fieldErrors := fe;
                   ne_requestId := request_id; ne_status := status |})
      | None => ([], TypeError)
      end
  | _, _, _, _ => ([], TypeError)
  end.

Definition normalize_unstructured (status : Z) : list LogCall * Exn :=
  ([{| lc_message := "api error (unstructured)"; lc_fields := [("status", JNum status)] |}],
   NErr {| ne_code := JStr (if Z.eqb status 0 then "network_error" else "unexpected_error");
           ne_message := JStr (friendly status);
           ne_fieldErrors := ∅; ne_requestId := JUndef; ne_status := status |}).

Definition normalize (status : Z) (body : json) : list LogCall * Exn :=
  if isApiErrorBody body then
    match get_prop body "error" with
    | Some err => normalize_envelope status err
    | None => ([], TypeError)
    end
  else normalize_unstructured status.
End Mapper.

Module Web.
Definition friendlyByStatus (status : Z) : jstr :=
  if Z.eqb status 0 then "Network error - check your connection and try again."
  else if Z.eqb status 401 then "Your session expired. Please sign in again."
  else if Z.eqb status 403 then "You don't have permission to do that."
  else if Z.eqb status 404 then "Not found."
  else if Z.eqb status 429 then "Too many requests - please slow down."
  else if (500 <=? status)%Z then "Something went wrong on our end. Please try again."
  else "Request failed. Please try again.".

Definition normalizeError : Z -> json -> list LogCall * Exn := normalize friendlyByStatus.
End Web.

Module Mobile.
Definition friendlyByStatus (status : Z) : jstr :=
  if Z.eqb status 0 then "Network error. Check your connection and try again."
  else if Z.eqb status 401 then "Your session expired. Please sign in again."
  else if Z.eqb status 403 then "You don't have permission to do that."
  else if Z.eqb status 404 then "Not found."
  else if Z.eqb status 429 then "Too many requests. Please slow down."
  else if (500 <=? status)%Z then "Something went wrong on our end. Please try again."
  else "Request failed. Please try again.".

Definition normalizeError : Z -> json -> list LogCall * Exn := normalize friendlyByStatus.
End Mobile.

(** [applyServerErrors(err, setError)]: the field errors are added to the form's errors;
    the result says whether there was one.  [err as NormalizedError] may be any exception:
    [Object.entries(undefined)] raises a TypeError. *)
Definition applyServerErrors (err : Exn) (form : gmap jstr json) : outcome (bool * gmap jstr json) :=
  match exn_fieldErrors err with
  | None => inl TypeError
  | Some fe => inr (bool_decide (fe <> ∅), fe ∪ form)
  end.

(** ** Lemmas *)

(** The last well-formed entry for a key wins. *)
Lemma collect_fields_lookup l acc m k :
  collect_fields l acc = Some m ->
  m !! k =
    match last (keep (fun f => match get_prop f "field" with
                               | Some k' => to_key k' =ₛ k | None => false end) l) with
    | Some f => get_prop f "message"
    | None => acc !! k
    end.
Proof.
  revert acc. induction l as [|f l IH]; intros acc; [by intros [= ->]|]. cbn [collect_fields keep].
  destruct (get_prop f "field") as [kf|] eqn:Ef; [|done].
  destruct (get_prop f "message") as [mf|] eqn:Em; [|done].
  intros H. rewrite (IH _ H). clear IH H.
  destruct (to_key kf =ₛ k) eqn:E.
  - apply jeq_true in E as <-. rewrite last_cons, lookup_insert_eq.
    destruct (last _); [done|]. by rewrite Em.
  - apply jeq_false in E. by rewrite lookup_insert_ne.
Qed.

Lemma collect_fields_objects l acc :
  Forall (fun f => is_object f = true) l -> exists m, collect_fields l acc = Some m.
Proof.
  intros H. revert acc. induction H as [|f l Hf _ IH]; intros acc; [by eexists|].
  simpl. destruct f; try discriminate; simpl; apply IH.
Qed.

Lemma isApiErrorBody_shape v :
  isApiErrorBody v = true <->
  exists kv err code msg, v = JObj kv /\ field "error" kv = Some (JObj err) /\
    field "code" err = Some code /\ field "message" err = Some msg.
Proof.
  unfold isApiErrorBody. split.
  - destruct v as [| | | | | |kv]; try discriminate. cbn [is_object negb orb has_prop get_prop].
    destruct (field "error" kv) as [err|] eqn:E; [|done]. cbn [negb].
    destruct err as [| | | | | |e]; try discriminate. cbn [is_object has_prop andb].
    destruct (field "code" e) as [c|] eqn:Ec; [|done].
    destruct (field "message" e) as [m|] eqn:Em; [|done].
    intros _. by exists kv, e, c, m.
  - intros (kv & err & c & m & -> & He & Hc & Hm).
    cbn [is_object negb orb has_prop get_prop]. rewrite He.
    cbn [negb is_object has_prop andb]. by rewrite Hc, Hm.
Qed.

(** ** Properties *)

(** a body that is the server's envelope is passed through: code, message and request
    id are the server's own, the status is the response's, and the message kept for a form
    field is the one of the last entry naming that field. *)
Theorem normalizeError_envelope status kv err code msg fields :
  field "error" kv = Some (JObj err) ->
  field "code" err = Some code -> field "message" err = Some msg ->
  field "fields" err = Some (JArr fields) ->
  Forall (fun f => is_object f = true) fields ->
  exists n, snd (Web.normalizeError status (JObj kv)) = NErr n
    /\ ne_code n = code /\ ne_message n = msg /\ ne_status n = status
    /\ get_prop (JObj err) "request_id" = Some (ne_requestId n)
    /\ forall k, ne_fieldErrors n !! k =
         match last (keep (fun f => match get_prop f "field" with
                                    | Some k' => to_key k' =ₛ k | None => false end) fields) with
         | Some f => get_prop f "message"
         | None => None
         end.
Proof.
  intros He Hc Hm Hf Hobj. unfold Web.normalizeError, normalize.
  replace (isApiErrorBody (JObj kv)) with true
    by (symmetry; apply isApiErrorBody_shape; by exists kv, err, code, msg).
  cbn [get_prop]. rewrite He. unfold normalize_envelope. cbn [get_prop].
  rewrite Hc, Hm, Hf. unfold fieldErrors_of. cbn [iterate].
  destruct (collect_fields_objects fields ∅ Hobj) as [m Hm'].
  rewrite Hm'. eexists. split; [reflexivity|]. cbn. repeat split; auto.
  intros k. rewrite (collect_fields_lookup _ _ _ k Hm').
  destruct (last _); [done|]. apply lookup_empty.
Qed.

(** A duplicated field: the second message wins. *)
Definition sample_error : list (jstr * json) :=
  [("code", JStr "validation_failed"); ("message", JStr "Check your input");
   ("fields", JArr [JObj [("field", JStr "email"); ("message", JStr "is required")];
                    JObj [("field", JStr "email"); ("message", JStr "is taken")]]);
   ("request_id", JStr "req-123")].

Lemma normalizeError_envelope_witness :
  exists n, snd (Web.normalizeError 400 (JObj [("error", JObj sample_error)])) = NErr n
    /\ ne_fieldErrors n !! ("email" : jstr) = Some (JStr "is taken").
Proof.
  destruct (normalizeError_envelope 400 [("error", JObj sample_error)] sample_error
    (JStr "validation_failed") (JStr "Check your input")
    [JObj [("field", JStr "email"); ("message", JStr "is required")];
     JObj [("field", JStr "email"); ("message", JStr "is taken")]])
    as (n & Hn & _ & _ & _ & _ & Hk); try reflexivity.
  - repeat constructor.
  - exists n. split; [exact Hn|]. rewrite Hk. reflexivity.
Defined.

(** any other body never reaches the user: the result depends on the status alone, its
    code is [network_error] exactly for status 0, its message is one of the seven fixed
    texts, and no form field is marked. *)
Theorem normalizeError_unstructured status body :
  isApiErrorBody body = false ->
  exists n, snd (Web.normalizeError status body) = NErr n
    /\ snd (Web.normalizeError status JUndef) = NErr n
    /\ ne_code n = JStr (if Z.eqb status 0 then "network_error" else "unexpected_error")
    /\ ne_message n = JStr (Web.friendlyByStatus status)
    /\ Web.friendlyByStatus status ∈
         ["Network error - check your connection and try again.";
          "Your session expired. Please sign in again.";
          "You don't have permission to do that."; "Not found.";
          "Too many requests - please slow down.";
          "Something went wrong on our end. Please try again.";
          "Request failed. Please try again."]%js
    /\ ne_fieldErrors n = ∅ /\ ne_status n = status.
Proof.
  intros Hb. unfold Web.normalizeError, normalize. rewrite Hb. eexists.
  split; [reflexivity|]. split; [reflexivity|]. cbn. do 2 (split; [reflexivity|]).
  split; [|done]. unfold Web.friendlyByStatus. rewrite !elem_of_cons.
  repeat case_match; auto 10.
Qed.

Lemma normalizeError_unstructured_witness :
  exists n, snd (Web.normalizeError 500 (JStr "boom")) = NErr n /\ ne_fieldErrors n = ∅.
Proof.
  destruct (normalizeError_unstructured 500 (JStr "boom"))
    as (n & ? & _ & _ & _ & _ & ? & _); [reflexivity|]. by exists n.
Defined.

(** the mobile mapper is the web mapper: on a structured body the two agree exactly
    (log included), and otherwise they differ at most in the text shown for a network
    failure (0) and for rate limiting (429). *)
Theorem normalizeError_twins status body :
  isApiErrorBody body = true \/ (status <> 0 /\ status <> 429)%Z ->
  Mobile.normalizeError status body = Web.normalizeError status body.
Proof.
  unfold Mobile.normalizeError, Web.normalizeError, normalize. intros H.
  destruct (isApiErrorBody body); [done|]. destruct H as [|[H0 H429]]; [done|].
  unfold normalize_unstructured, Mobile.friendlyByStatus, Web.friendlyByStatus.
  destruct (Z.eqb_spec status 0); [done|]. by destruct (Z.eqb_spec status 429).
Qed.

Lemma normalizeError_twins_witness :
  Mobile.normalizeError 503 JNull = Web.normalizeError 503 JNull.
Proof. apply normalizeError_twins. right. split; discriminate. Defined.

(** a form receives every field error of a normalized error and is told to show the
    form-level message exactly when there is none; an exception that is not a normalized
    error (a failed [fetch]) makes [applyServerErrors] itself throw. *)
Theorem applyServerErrors_spec err form :
  match err with
  | JsError _ => applyServerErrors err form = inl TypeError
  | NErr n => exists applied form', applyServerErrors err form = inr (applied, form')
      /\ (applied = false <-> ne_fieldErrors n = ∅)
      /\ forall k, form' !! k = match ne_fieldErrors n !! k with
                                | Some m => Some m | None => form !! k end
  end.
Proof.
  destruct err as [n|m]; [|done]. eexists _, _. split; [reflexivity|]. split.
  - rewrite bool_decide_eq_false. destruct (decide (ne_fieldErrors n = ∅)); tauto.
  - intros k. rewrite lookup_union. by destruct (ne_fieldErrors n !! k), (form !! k).
Qed.
