(* ===== verification/Logger.v ===== *)
(** * The loggers: web/src/lib/logger.ts and mobile/src/lib/logger.ts *)
From S2P Require Import Prelude JsValue.

Local Open Scope js_scope.

Inductive LogLevel := debug | info | warn | error.

Definition LEVEL_WEIGHT (l : LogLevel) : Z :=
  match l with debug => 10 | info => 20 | warn => 30 | error => 40 end.

Definition level_name (l : LogLevel) : jstr :=
  match l with debug => "debug" | info => "info" | warn => "warn" | error => "error" end.

(** Fields and records are objects used as maps; [{...a, ...b}] is [b ∪ a]. *)
Abbreviation fields := (gmap jstr json).

(** [type LogSink = (record) => void]: what a sink does is its own; a sink is identified
    here by a tag, and a call of it is the pair of the tag and the record. *)
Inductive LogSink := consoleSink | customSink (id : nat).

Record Logger := { sink : LogSink; minWeight : Z; base : fields }.

(** [new Logger()], with [process.env.NODE_ENV === "production"] as argument. *)
Definition new_Logger (production : bool) : Logger :=
  {| sink := consoleSink;
     minWeight := if production then LEVEL_WEIGHT info else LEVEL_WEIGHT debug;
     base := ∅ |}.

Definition setSink (l : Logger) (s : LogSink) : Logger :=
  {| sink := s; minWeight := minWeight l; base := base l |}.

(** [with(fields)] builds a fresh logger and copies the three members. *)
Definition with_ (l : Logger) (fs : fields) : Logger :=
  {| sink := sink l; minWeight := minWeight l; base := fs ∪ base l |}.

(** [emit]: the record handed to the sink, if the level passes; [time] is the clock. *)
Definition emit (l : Logger) (time : jstr) (lv : LogLevel) (message : jstr) (fs : fields)
    : option (LogSink * fields) :=
  if (LEVEL_WEIGHT lv <? minWeight l)%Z then None
  else Some (sink l,
    fs ∪ (base l ∪ <["level" := JStr (level_name lv)]>
                     (<["message" := JStr message]> {["time" := JStr time]}))).

(** The methods [debug], [info], [warn] and [error]. *)
Definition log_debug (l : Logger) (time message : jstr) (fs : fields) := emit l time debug message fs.
Definition log_info (l : Logger) (time message : jstr) (fs : fields) := emit l time info message fs.
Definition log_warn (l : Logger) (time message : jstr) (fs : fields) := emit l time warn message fs.
Definition log_error (l : Logger) (time message : jstr) (fs : fields) := emit l time error message fs.

(** Which console function the console sink calls. *)
Definition consoleFn (lv : LogLevel) : jstr :=
  match lv with
  | error => "console.error" | warn => "console.warn"
  | debug => "console.debug" | info => "console.info"
  end.

(** mobile/src/lib/logger.ts: in development only, a line of the console with the fields. *)
Module Mobile.
Definition emit (dev : bool) (level : LogLevel) (msg : jstr) (fs : option fields) : option (jstr * jstr * fields) :=
  if dev then Some ("console." ++ level_name level, "[postal] " ++ msg, match fs with Some f => f | None => ∅ end)
  else None.
Definition log_info (dev : bool) (m : jstr) (f : option fields) := emit dev info m f.
Definition log_warn (dev : bool) (m : jstr) (f : option fields) := emit dev warn m f.
Definition log_error (dev : bool) (m : jstr) (f : option fields) := emit dev error m f.
End Mobile.

(** ** Properties *)

(** on mobile a released application logs nothing; in development a call reaches the
    console function the console sink of the web would call. *)
Theorem mobile_emit_spec dev level msg fs :
  match Mobile.emit dev level msg fs with
  | None => dev = false
  | Some (fn, line, _) => dev = true /\ fn = consoleFn level /\ line = "[postal] " ++ msg
  end.
Proof. unfold Mobile.emit. destruct dev; [|done]. split_and!; [done|by destruct level|done]. Qed.

(** child loggers compose: deriving twice is deriving once with the later fields
    overriding the earlier ones, and a child keeps the sink and the threshold. *)
Theorem with_compose l a b :
  with_ (with_ l a) b = with_ l (b ∪ a)
  /\ sink (with_ l a) = sink l /\ minWeight (with_ l a) = minWeight l.
Proof. unfold with_. simpl. by rewrite map_union_assoc. Qed.

(** a call is dropped exactly when its level is below the threshold (in production:
    [debug] only); otherwise the record carries the call's fields, then the logger's base
    fields, then level, message and time, earlier ones taking precedence. *)
Theorem emit_spec l time lv message fs :
  match emit l time lv message fs with
  | None => (LEVEL_WEIGHT lv < minWeight l)%Z
  | Some (s, r) => (minWeight l <= LEVEL_WEIGHT lv)%Z /\ s = sink l
      /\ forall k, r !! k = match fs !! k, base l !! k with
           | Some v, _ => Some v
           | None, Some v => Some v
           | None, None =>
               if k =ₛ "level" then Some (JStr (level_name lv))
               else if k =ₛ "message" then Some (JStr message)
               else if k =ₛ "time" then Some (JStr time) else None
           end
  end.
Proof.
  unfold emit. destruct (Z.ltb_spec (LEVEL_WEIGHT lv) (minWeight l)); [done|].
  split; [done|]. split; [done|]. intros k. rewrite !lookup_union.
  assert (Hb : (<["level" := JStr (level_name lv)]>
     (<["message" := JStr message]> ({["time" := JStr time]} : fields))) !! k
    = if k =ₛ "level" then Some (JStr (level_name lv))
      else if k =ₛ "message" then Some (JStr message)
      else if k =ₛ "time" then Some (JStr time) else None).
  { rewrite !lookup_insert, lookup_singleton. unfold jeq.
    repeat case_decide; repeat case_bool_decide; congruence. }
  rewrite Hb. destruct (fs !! k), (base l !! k); simpl; repeat case_match; done.
Qed.

Example production_drops_debug t m fs :
  emit (new_Logger true) t debug m fs = None.
Proof. reflexivity. Qed.
