(* ===== verification/Async.v ===== *)
(** * Asynchronous programs and the single-flight scheduler

    An [async] function is a finite tree of the operations it awaits or performs on the
    state it shares with the others ([prog]); an operation's answer is left to the
    environment.  [exec] is the set of its complete executions.  [sched] interleaves any
    number of such calls, which share the cells (session storage, cookie, token variable,
    keystore) and one variable [refreshing], the promise of the refresh in flight: joining
    it starts a refresh when there is none ([refreshing ??= (async () => ...)()]), and the
    end of the refresh resets it ([finally { refreshing = null }]) and wakes the calls that
    await it.  The body of an async function runs synchronously up to its first [await]:
    if it ends before one, the reset comes before the assignment, and [refreshing] keeps
    the settled promise. *)
From S2P Require Import Prelude JsValue ApiError.

Local Open Scope js_scope.

Record Request := { rq_method : jstr; rq_url : jstr; rq_headers : gmap jstr jstr;
  rq_body : json }.

(** [rs_json] is what [res.json()] resolves to; [None] when the body is not JSON. *)
Record Response := { rs_status : Z; rs_headers : gmap jstr jstr; rs_json : option json }.

(** [res.ok] *)
Definition rs_ok (r : Response) : bool := (200 <=? rs_status r)%Z && (rs_status r <=? 299)%Z.

(** [headers.set(k, v)] (names are written in lower case, as Headers stores them). *)
Definition set_header (k v : jstr) (r : Request) : Request :=
  {| rq_method := rq_method r; rq_url := rq_url r;
     rq_headers := <[k := v]> (rq_headers r); rq_body := rq_body r |}.

(** The shared cells: [sessionStorage], [document.cookie], the access-token variable and
    the refresh token of the keystore. *)
Inductive Cell := SessionCsrf | DocumentCookie | AccessToken | KeystoreRefresh.

#[export] Instance Cell_eq_dec : EqDecision Cell.
Proof. solve_decision. Defined.

(** Reading or writing the storage, the cookie or the keystore may throw; the access
    token is a variable of the module. *)
Definition may_throw (c : Cell) : bool := match c with AccessToken => false | _ => true end.

Inductive prog (A : Type) :=
  | Ret (a : A)
  | Throw (e : Exn)
  | Fetch (r : Request) (k : option Response -> prog A)   (* None: fetch rejects *)
  | ReadJson (r : Response) (k : option json -> prog A)
  | Load (c : Cell) (k : option (option jstr) -> prog A)  (* None: the read throws *)
  | Store (c : Cell) (v : option jstr) (k : bool -> prog A) (* false: the write throws *)
  | JoinRefresh (k : bool -> prog A)
  | Log (m : LogCall) (k : prog A).
Arguments Ret {_} _. Arguments Throw {_} _. Arguments Fetch {_} _ _.
Arguments ReadJson {_} _ _. Arguments Load {_} _ _. Arguments Store {_} _ _ _.
Arguments JoinRefresh {_} _. Arguments Log {_} _ _.

Fixpoint bind {A B} (p : prog A) (f : A -> prog B) : prog B :=
  match p with
  | Ret a => f a
  | Throw e => Throw e
  | Fetch r k => Fetch r (fun x => bind (k x) f)
  | ReadJson r k => ReadJson r (fun x => bind (k x) f)
  | Load c k => Load c (fun x => bind (k x) f)
  | Store c v k => Store c v (fun x => bind (k x) f)
  | JoinRefresh k => JoinRefresh (fun x => bind (k x) f)
  | Log m k => Log m (bind k f)
  end.

(** [try { p } catch { h }] *)
Fixpoint catch {A} (p : prog A) (h : Exn -> prog A) : prog A :=
  match p with
  | Ret a => Ret a
  | Throw e => h e
  | Fetch r k => Fetch r (fun x => catch (k x) h)
  | ReadJson r k => ReadJson r (fun x => catch (k x) h)
  | Load c k => Load c (fun x => catch (k x) h)
  | Store c v k => Store c v (fun x => catch (k x) h)
  | JoinRefresh k => JoinRefresh (fun x => catch (k x) h)
  | Log m k => Log m (catch k h)
  end.

Declare Scope prog_scope.
Delimit Scope prog_scope with prog.
Notation "x <- p ;; q" := (bind p (fun x => q))
  (at level 100, p at next level, right associativity) : prog_scope.
Notation "p ;;; q" := (bind p (fun _ => q))
  (at level 100, right associativity) : prog_scope.
Open Scope prog_scope.

(** [await fetch(r)]: a network failure rejects with the runtime's TypeError. *)
Definition fetch_error : Exn := JsError "Failed to fetch".
Definition fetch (r : Request) : prog Response :=
  Fetch r (fun x => match x with Some res => Ret res | None => Throw fetch_error end).

(** ** Executions of one call *)

Inductive event :=
  | EFetch (r : Request) (x : option Response)
  | EJson (r : Response)
  | ELoad (c : Cell) (x : option (option jstr))
  | EStore (c : Cell) (v : option jstr) (ok : bool)
  | EJoin (b : bool)
  | ELog (m : LogCall).

Inductive exec {A} : prog A -> list event -> outcome A -> Prop :=
  | ex_ret a : exec (Ret a) [] (inr a)
  | ex_throw e : exec (Throw e) [] (inl e)
  | ex_fetch r k x tr o : exec (k x) tr o -> exec (Fetch r k) (EFetch r x :: tr) o
  | ex_json r k tr o : exec (k (rs_json r)) tr o -> exec (ReadJson r k) (EJson r :: tr) o
  | ex_load c k x tr o : (x = None -> may_throw c = true) -> exec (k x) tr o -> exec (Load c k) (ELoad c x :: tr) o
  | ex_store c v k b tr o : (b = false -> may_throw c = true) -> exec (k b) tr o -> exec (Store c v k) (EStore c v b :: tr) o
  | ex_join k b tr o : exec (k b) tr o -> exec (JoinRefresh k) (EJoin b :: tr) o
  | ex_log m k tr o : exec k tr o -> exec (Log m k) (ELog m :: tr) o.

(** The requests sent along an execution, with their answers; the refreshes joined; the
    cells read and written. *)
Definition sent (tr : list event) : list (Request * option Response) :=
  tr ≫= (fun e => match e with EFetch r x => [(r, x)] | _ => [] end).
Definition joins (tr : list event) : list bool :=
  tr ≫= (fun e => match e with EJoin b => [b] | _ => [] end).
Definition stores (tr : list event) : list (Cell * option jstr) :=
  tr ≫= (fun e => match e with EStore c v _ => [(c, v)] | _ => [] end).

(** ** Many calls at once *)

Inductive task (A : Type) :=
  | Running (p : prog A)
  | Joined (k : bool -> prog A).     (* awaiting the refresh in flight *)
Arguments Running {_} _. Arguments Joined {_} _.

Definition is_done {A} (t : task A) : bool :=
  match t with Running (Ret _) | Running (Throw _) => true | _ => false end.

(** Who sent a request. *)
Inductive sender := ByTask (i : nat) | ByRefresh.

(** The variable [refreshing]: [null], a promise whose body is still running (and whether
    the body has awaited yet), or a promise that settled before it was assigned. *)
Inductive promise :=
  | Idle
  | InFlight (p : prog bool) (awaited : bool)
  | Settled (b : bool).

Record World (A : Type) := {
  cells : Cell -> option jstr;
  refreshing : promise;
  tasks : list (task A);
  net : list (sender * Request);     (* the requests sent so far, oldest first *)
  flights : nat }.                   (* how many refreshes were started *)
Arguments cells {_} _. Arguments refreshing {_} _. Arguments tasks {_} _.
Arguments net {_} _. Arguments flights {_} _.

Definition upd_cell (c : Cell) (v : option jstr) (cs : Cell -> option jstr) : Cell -> option jstr :=
  fun c' => if decide (c' = c) then v else cs c'.

(** One operation of a program against the cells: the request it sends, if any, the cells
    afterwards and the rest of the program. *)
Inductive op {A} (cs : Cell -> option jstr) : prog A -> option Request -> (Cell -> option jstr) -> prog A -> Prop :=
  | op_fetch r k x : op cs (Fetch r k) (Some r) cs (k x)
  | op_json r k : op cs (ReadJson r k) None cs (k (rs_json r))
  | op_load c k : op cs (Load c k) None cs (k (Some (cs c)))
  | op_load_throws c k : may_throw c = true -> op cs (Load c k) None cs (k None)
  | op_store c v k : op cs (Store c v k) None (upd_cell c v cs) (k true)
  | op_store_throws c v k : may_throw c = true -> op cs (Store c v k) None cs (k false)
  | op_log m k : op cs (Log m k) None cs k.

(** The operations that are awaited: the others run in the same turn of the event loop. *)
Definition async_cell (c : Cell) : bool :=
  match c with KeystoreRefresh => true | _ => false end.
Definition awaits {A} (p : prog A) : bool :=
  match p with
  | Fetch _ _ | ReadJson _ _ | JoinRefresh _ => true
  | Load c _ | Store c _ _ => async_cell c
  | Ret _ | Throw _ | Log _ _ => false
  end.

(** [refreshing ??= (async () => ...)()] on a variable that is not settled. *)
Definition launch (refreshBody : prog bool) (f : promise) : promise :=
  match f with Idle => InFlight refreshBody false | _ => f end.

Definition log_send (s : sender) (rq : option Request) (l : list (sender * Request)) :=
  match rq with Some r => l ++ [(s, r)] | None => l end.

Definition wake {A} (b : bool) (t : task A) : task A :=
  match t with Joined k => Running (k b) | _ => t end.

Section Scheduler.
Context {A : Type}.
Variable refreshBody : prog bool.

Inductive sched (w : World A) : World A -> Prop :=
  | s_task i p rq cs p' :
      tasks w !! i = Some (Running p) -> op (cells w) p rq cs p' ->
      sched w {| cells := cs; refreshing := refreshing w;
                 tasks := <[i := Running p']> (tasks w);
                 net := log_send (ByTask i) rq (net w); flights := flights w |}
  | s_join i k :
      tasks w !! i = Some (Running (JoinRefresh k)) ->
      (forall b, refreshing w <> Settled b) ->
      sched w {| cells := cells w; refreshing := launch refreshBody (refreshing w);
                 tasks := <[i := Joined k]> (tasks w); net := net w;
                 flights := match refreshing w with Idle => S (flights w) | _ => flights w end |}
  | s_join_settled i k b :
      tasks w !! i = Some (Running (JoinRefresh k)) -> refreshing w = Settled b ->
      sched w {| cells := cells w; refreshing := Settled b;
                 tasks := <[i := Running (k b)]> (tasks w); net := net w;
                 flights := flights w |}
  | s_refresh p aw rq cs p' :
      refreshing w = InFlight p aw -> op (cells w) p rq cs p' ->
      sched w {| cells := cs; refreshing := InFlight p' (aw || awaits p); tasks := tasks w;
                 net := log_send ByRefresh rq (net w); flights := flights w |}
  | s_refresh_done b aw :
      refreshing w = InFlight (Ret b) aw ->
      sched w {| cells := cells w; refreshing := if aw then Idle else Settled b;
                 tasks := map (wake b) (tasks w); net := net w; flights := flights w |}.

(** A new call is issued by the application. *)
Definition spawn (p : prog A) (w : World A) : World A :=
  {| cells := cells w; refreshing := refreshing w; tasks := tasks w ++ [Running p];
     net := net w; flights := flights w |}.

(** What the application and the scheduler can do from [w]. *)
Inductive evolves (entry : prog A -> Prop) (w : World A) : World A -> Prop :=
  | ev_refl : evolves entry w w
  | ev_spawn w1 p : evolves entry w w1 -> entry p -> evolves entry w (spawn p w1)
  | ev_step w1 w2 : evolves entry w w1 -> sched w1 w2 -> evolves entry w w2.

Definition reach (entry : prog A -> Prop) (cs : Cell -> option jstr) : World A -> Prop :=
  evolves entry {| cells := cs; refreshing := Idle; tasks := []; net := []; flights := 0 |}.

(** [sched_n n w w']: [n] steps without a new call. *)
Inductive sched_n : nat -> World A -> World A -> Prop :=
  | sn_O w : sched_n 0 w w
  | sn_S n w w' w'' : sched w w' -> sched_n n w' w'' -> sched_n (S n) w w''.
End Scheduler.

(** ** One call alone

    [run on_join p cs ans]: the cells are those of [cs], no read or write of a cell
    throws, the requests get the answers [ans] in order (a missing one is a network
    failure), and joining the refresh does what [on_join] says. *)
Section Run.
Definition Run (A : Type) : Type := outcome A * (Cell -> option jstr) * list (option Response) * list Request.

Fixpoint run {A} (on_join : (Cell -> option jstr) -> list (option Response) -> Run bool)
    (p : prog A) (cs : Cell -> option jstr) (ans : list (option Response)) : Run A :=
  match p with
  | Ret a => (inr a, cs, ans, [])
  | Throw e => (inl e, cs, ans, [])
  | Fetch r k =>
      match run on_join (k match ans with x :: _ => x | [] => None end) cs (tail ans) with
      | (o, cs', ans', rs) => (o, cs', ans', r :: rs)
      end
  | ReadJson r k => run on_join (k (rs_json r)) cs ans
  | Load c k => run on_join (k (Some (cs c))) cs ans
  | Store c v k => run on_join (k true) (upd_cell c v cs) ans
  | JoinRefresh k =>
      match on_join cs ans with
      | (inr b, cs1, ans1, rs1) =>
          match run on_join (k b) cs1 ans1 with
          | (o, cs', ans', rs) => (o, cs', ans', rs1 ++ rs)
          end
      | (inl e, cs1, ans1, rs1) => (inl e, cs1, ans1, rs1)
      end
  | Log m k => run on_join k cs ans
  end.

(** A refresh body joins nothing. *)
Definition no_join (cs : Cell -> option jstr) (ans : list (option Response)) : Run bool :=
  (inr false, cs, ans, []).

Definition run_alone {A} (refreshBody : prog bool) : prog A -> _ -> _ -> Run A :=
  run (fun cs ans => run no_join refreshBody cs ans).
End Run.

(** ** Bounded programs *)

(** [within c n p]: [p] performs at most [n] operations, a join counting [1 + c]. *)
Inductive within {A} (c : nat) : nat -> prog A -> Prop :=
  | w_ret n a : within c n (Ret a)
  | w_throw n e : within c n (Throw e)
  | w_fetch n r k : (forall x, within c n (k x)) -> within c (S n) (Fetch r k)
  | w_json n r k : (forall x, within c n (k x)) -> within c (S n) (ReadJson r k)
  | w_load n l k : (forall x, within c n (k x)) -> within c (S n) (Load l k)
  | w_store n l v k : (forall x, within c n (k x)) -> within c (S n) (Store l v k)
  | w_join n k : (forall x, within c n (k x)) -> within c (S (c + n)) (JoinRefresh k)
  | w_log n m k : within c n k -> within c (S n) (Log m k).

(** Programs that never join a refresh and never throw: what a refresh body must be. *)
Inductive solo {A} : prog A -> Prop :=
  | so_ret a : solo (Ret a)
  | so_fetch r k : (forall x, solo (k x)) -> solo (Fetch r k)
  | so_json r k : (forall x, solo (k x)) -> solo (ReadJson r k)
  | so_load l k : (forall x, solo (k x)) -> solo (Load l k)
  | so_store l v k : (forall x, solo (k x)) -> solo (Store l v k)
  | so_log m k : solo k -> solo (Log m k).

(** [fetches n p]: along every path, at most [n] requests are sent. *)
Inductive fetches {A} : nat -> prog A -> Prop :=
  | f_ret n a : fetches n (Ret a)
  | f_throw n e : fetches n (Throw e)
  | f_fetch n r k : (forall x, fetches n (k x)) -> fetches (S n) (Fetch r k)
  | f_json n r k : (forall x, fetches n (k x)) -> fetches n (ReadJson r k)
  | f_load n l k : (forall x, fetches n (k x)) -> fetches n (Load l k)
  | f_store n l v k : (forall x, fetches n (k x)) -> fetches n (Store l v k)
  | f_join n k : (forall x, fetches n (k x)) -> fetches n (JoinRefresh k)
  | f_log n m k : fetches n k -> fetches n (Log m k).

(** Programs that never join a refresh; they may throw. *)
Inductive joinless {A} : prog A -> Prop :=
  | jl_ret a : joinless (Ret a)
  | jl_throw e : joinless (Throw e)
  | jl_fetch r k : (forall x, joinless (k x)) -> joinless (Fetch r k)
  | jl_json r k : (forall x, joinless (k x)) -> joinless (ReadJson r k)
  | jl_load l k : (forall x, joinless (k x)) -> joinless (Load l k)
  | jl_store l v k : (forall x, joinless (k x)) -> joinless (Store l v k)
  | jl_log m k : joinless k -> joinless (Log m k).

(** What the scheduler asks of a client: the interface between a client and the theorems
    below. *)
Class RefreshClient {A} (refreshBody : prog bool) (entry : prog A -> Prop) := {
  rc_cost : nat;
  rc_refresh_within : within 0 rc_cost refreshBody;
  rc_refresh_solo : solo refreshBody;
  rc_refresh_fetches : fetches 1 refreshBody;
  rc_entry_within : forall p, entry p -> exists n, within (S rc_cost) n p }.

(** ** Executions: inversion *)

(** An execution starts with the program's first operation. *)
Lemma exec_inv {A} (p : prog A) tr o :
  exec p tr o ->
  match p with
  | Ret a => tr = [] /\ o = inr a
  | Throw e => tr = [] /\ o = inl e
  | Fetch r k => exists x tr', tr = EFetch r x :: tr' /\ exec (k x) tr' o
  | ReadJson r k => exists tr', tr = EJson r :: tr' /\ exec (k (rs_json r)) tr' o
  | Load c k => exists x tr', tr = ELoad c x :: tr' /\ (x = None -> may_throw c = true) /\ exec (k x) tr' o
  | Store c v k => exists b tr', tr = EStore c v b :: tr' /\ (b = false -> may_throw c = true) /\ exec (k b) tr' o
  | JoinRefresh k => exists b tr', tr = EJoin b :: tr' /\ exec (k b) tr' o
  | Log m k => exists tr', tr = ELog m :: tr' /\ exec k tr' o
  end.
Proof. destruct 1; eauto 6. Qed.

(** Splits [H : exec p tr o] along the shape of [p]. *)
Ltac exec_step H :=
  apply exec_inv in H; cbn in H;
  repeat match type of H with
  | exists _, _ => let x := fresh "x" in destruct H as [x H]
  | _ /\ _ => let H' := fresh "Hs" in destruct H as [H' H]
  end; subst.

Lemma exec_bind {A B} (p : prog A) (f : A -> prog B) tr o :
  exec (bind p f) tr o ->
  (exists e, exec p tr (inl e) /\ o = inl e)
  \/ exists a tr1 tr2, exec p tr1 (inr a) /\ exec (f a) tr2 o /\ tr = tr1 ++ tr2.
Proof.
  revert tr. induction p as [a|e|r k IH|r k IH|c k IH|c v k IH|k IH|m k IH]; intros tr H; simpl in H;
    [right; exists a, [], tr; split; [constructor|done]
    |inversion H; subst; left; eexists; split; [constructor|done]
    |exec_step H; apply IH in H as [(e & He & ->)|(a & t1 & t2 & H1 & H2 & ->)];
     [left; exists e; split; [by constructor|done]
     |right; eexists a, (_ :: t1), t2; split_and!; [by constructor|done|done]] ..].
Qed.

Lemma exec_catch {A} (p : prog A) h tr o :
  exec (catch p h) tr o ->
  (exists a, exec p tr (inr a) /\ o = inr a)
  \/ exists e tr1 tr2, exec p tr1 (inl e) /\ exec (h e) tr2 o /\ tr = tr1 ++ tr2.
Proof.
  revert tr. induction p as [a|e|r k IH|r k IH|c k IH|c v k IH|k IH|m k IH]; intros tr H; simpl in H;
    [inversion H; subst; left; eexists; split; [constructor|done]
    |right; exists e, [], tr; split; [constructor|done]
    |exec_step H; apply IH in H as [(a & Ha & ->)|(e & t1 & t2 & H1 & H2 & ->)];
     [left; exists a; split; [by constructor|done]
     |right; eexists e, (_ :: t1), t2; split_and!; [by constructor|done|done]] ..].
Qed.

Lemma exec_fetch r tr o :
  exec (fetch r) tr o ->
  (tr = [EFetch r None] /\ o = inl fetch_error)
  \/ exists res, tr = [EFetch r (Some res)] /\ o = inr res.
Proof.
  unfold fetch. intros H. inversion H as [| |? ? x ? ? Hk| | | | |]; subst.
  destruct x; inversion Hk; subst; eauto.
Qed.

Lemma exec_join {A} (k : bool -> prog A) tr o :
  exec (JoinRefresh k) tr o -> exists b tr', tr = EJoin b :: tr' /\ exec (k b) tr' o.
Proof. inversion 1; subst. eauto. Qed.

Lemma sent_app t1 t2 : sent (t1 ++ t2) = sent t1 ++ sent t2.
Proof. unfold sent. apply bind_app. Qed.
Lemma joins_app t1 t2 : joins (t1 ++ t2) = joins t1 ++ joins t2.
Proof. unfold joins. apply bind_app. Qed.
Lemma stores_app t1 t2 : stores (t1 ++ t2) = stores t1 ++ stores t2.
Proof. unfold stores. apply bind_app. Qed.

(** A program is [quiet] when no execution sends a request or joins a refresh. *)
Definition quiet {A} (p : prog A) : Prop :=
  forall tr o, exec p tr o -> sent tr = [] /\ joins tr = [].

Lemma quiet_ret {A} (a : A) : quiet (Ret a).
Proof. intros tr o H. by inversion H. Qed.

Lemma quiet_throw {A} e : quiet (@Throw A e).
Proof. intros tr o H. by inversion H. Qed.

Lemma quiet_load {A} c (k : _ -> prog A) : (forall x, quiet (k x)) -> quiet (Load c k).
Proof. intros Hk tr o H. inversion H; subst. simpl. by eapply Hk. Qed.

Lemma quiet_store {A} c v (k : _ -> prog A) : (forall x, quiet (k x)) -> quiet (Store c v k).
Proof. intros Hk tr o H. inversion H; subst. simpl. by eapply Hk. Qed.

Lemma quiet_json {A} r (k : _ -> prog A) : (forall x, quiet (k x)) -> quiet (ReadJson r k).
Proof. intros Hk tr o H. inversion H; subst. simpl. by eapply Hk. Qed.

Lemma quiet_log {A} m (k : prog A) : quiet k -> quiet (Log m k).
Proof. intros Hk tr o H. inversion H; subst. simpl. by eapply Hk. Qed.

Lemma quiet_bind {A B} (p : prog A) (f : A -> prog B) :
  quiet p -> (forall a, quiet (f a)) -> quiet (bind p f).
Proof.
  intros Hp Hf tr o H. apply exec_bind in H as [(e & H & ->)|(a & t1 & t2 & H1 & H2 & ->)].
  - by apply Hp in H.
  - apply Hp in H1 as [Hs Hj]. apply Hf in H2 as [Hs' Hj'].
    by rewrite sent_app, joins_app, Hs, Hj, Hs', Hj'.
Qed.

Lemma quiet_catch {A} (p : prog A) h : quiet p -> (forall e, quiet (h e)) -> quiet (catch p h).
Proof.
  intros Hp Hf tr o H. apply exec_catch in H as [(a & H & ->)|(e & t1 & t2 & H1 & H2 & ->)].
  - by apply Hp in H.
  - apply Hp in H1 as [Hs Hj]. apply Hf in H2 as [Hs' Hj'].
    by rewrite sent_app, joins_app, Hs, Hj, Hs', Hj'.
Qed.

#[export] Hint Resolve quiet_ret quiet_throw quiet_load quiet_store quiet_json quiet_log
  quiet_bind : postal.

(** ** Bounded, solo and fetching programs: composition *)

Lemma within_weaken {A} c n m (p : prog A) : within c n p -> n <= m -> within c m p.
Proof.
  intros H. revert m. induction H; intros m' Hm; try (destruct m' as [|m']; [lia|]);
    try (constructor; eauto with lia; fail).
  replace (S m') with (S (c + (m' - c))) by lia. constructor. intros. apply H0. lia.
Qed.

Lemma within_bind {A B} c n m (p : prog A) (f : A -> prog B) :
  within c n p -> (forall a, within c m (f a)) -> within c (n + m) (bind p f).
Proof.
  intros Hp Hf. induction Hp; simpl; try (constructor; auto; fail).
  - eapply within_weaken; [apply Hf|lia].
  - rewrite <- Nat.add_assoc. constructor. auto.
Qed.

Lemma within_catch {A} c n m (p : prog A) h :
  within c n p -> (forall e, within c m (h e)) -> within c (n + m) (catch p h).
Proof.
  intros Hp Hh. induction Hp; simpl; try (constructor; auto; fail).
  - eapply within_weaken; [apply Hh|lia].
  - rewrite <- Nat.add_assoc. constructor. auto.
Qed.

Lemma fetches_weaken {A} n m (p : prog A) : fetches n p -> n <= m -> fetches m p.
Proof.
  intros H. revert m. induction H; intros m' Hm;
    try (destruct m' as [|m']; [lia|]); constructor; intros; auto with lia.
Qed.

Lemma fetches_bind {A B} n m (p : prog A) (f : A -> prog B) :
  fetches n p -> (forall a, fetches m (f a)) -> fetches (n + m) (bind p f).
Proof.
  intros Hp Hf. induction Hp; simpl; try (constructor; auto; fail).
  eapply fetches_weaken; [apply Hf|lia].
Qed.

Lemma fetches_catch {A} n (p : prog A) h :
  fetches n p -> (forall e, fetches 0 (h e)) -> fetches n (catch p h).
Proof.
  intros Hp Hh. induction Hp; simpl; try (constructor; auto; fail).
  eapply fetches_weaken; [apply Hh|lia].
Qed.

Lemma joinless_bind {A B} (p : prog A) (f : A -> prog B) :
  joinless p -> (forall a, joinless (f a)) -> joinless (bind p f).
Proof. intros Hp Hf. induction Hp; simpl; try constructor; auto. Qed.

Lemma solo_catch {A} (p : prog A) h :
  joinless p -> (forall e, solo (h e)) -> solo (catch p h).
Proof. intros Hp Hh. induction Hp; simpl; try constructor; auto. Qed.

(** ** Running one call: composition *)

Definition after {A} (rs : list Request) (x : Run A) : Run A :=
  match x with (o, cs, ans, rs') => (o, cs, ans, rs ++ rs') end.

Lemma after_after {A} r1 r2 (x : Run A) : after r1 (after r2 x) = after (r1 ++ r2) x.
Proof. destruct x as [[[o cs] ans] rs]. simpl. by rewrite app_assoc. Qed.

Lemma run_bind {A B} oj (p : prog A) (f : A -> prog B) a cs ans cs1 ans1 rs1 :
  run oj p cs ans = (inr a, cs1, ans1, rs1) ->
  run oj (bind p f) cs ans = after rs1 (run oj (f a) cs1 ans1).
Proof.
  revert cs ans rs1. induction p as [x|e|r k IH|r k IH|c k IH|c v k IH|k IH|m k IH];
    intros cs ans rs1 H; simpl in *; simplify_eq; eauto.
  - by destruct (run oj (f a) cs1 ans1) as [[[? ?] ?] ?].
  - destruct (run oj (k _) cs (tail ans)) as [[[o c'] a'] rs] eqn:E. simplify_eq.
    rewrite (IH _ _ _ _ E). by destruct (run oj (f a) cs1 ans1) as [[[? ?] ?] ?].
  - destruct (oj cs ans) as [[[[e|b] c1] a1] rs0]; [done|].
    destruct (run oj (k b) c1 a1) as [[[o c'] a'] rs] eqn:E. simplify_eq.
    rewrite (IH _ _ _ _ E). destruct (run oj (f a) cs1 ans1) as [[[? ?] ?] ?]. simpl.
    by rewrite app_assoc.
Qed.

Lemma run_catch {A} oj (p : prog A) h a cs ans cs1 ans1 rs1 :
  run oj p cs ans = (inr a, cs1, ans1, rs1) ->
  run oj (catch p h) cs ans = (inr a, cs1, ans1, rs1).
Proof.
  revert cs ans rs1. induction p as [x|e|r k IH|r k IH|c k IH|c v k IH|k IH|m k IH];
    intros cs ans rs1 H; simpl in *; simplify_eq; eauto.
  - destruct (run oj (k _) cs (tail ans)) as [[[o c'] a'] rs] eqn:E. simplify_eq.
    by rewrite (IH _ _ _ _ E).
  - destruct (oj cs ans) as [[[[e|b] c1] a1] rs0]; [done|].
    destruct (run oj (k b) c1 a1) as [[[o c'] a'] rs] eqn:E. simplify_eq.
    by rewrite (IH _ _ _ _ E).
Qed.

Lemma run_fetch oj r cs x ans :
  run oj (fetch r) cs (Some x :: ans) = (inr x, cs, ans, [r]).
Proof. done. Qed.

Lemma run_join oj (k : bool -> prog Response) b cs ans cs1 ans1 rs1 :
  oj cs ans = (inr b, cs1, ans1, rs1) ->
  run oj (JoinRefresh k) cs ans = after rs1 (run oj (k b) cs1 ans1).
Proof. intros H. simpl. rewrite H. by destruct (run oj (k b) cs1 ans1) as [[[? ?] ?] ?]. Qed.
