(* ===== verification/SingleFlight.v ===== *)
(** * The single-flight scheduler: safety and termination

    Everything here is proved against the interface [RefreshClient]; ApiClient.v and
    MobileClient.v supply the instances. *)
From S2P Require Import Prelude JsValue ApiError Async.

Lemma sum_list_insert (ns : list nat) i n m :
  ns !! i = Some n -> sum_list (<[i := m]> ns) + n = sum_list ns + m.
Proof.
  revert i. induction ns as [|x ns IH]; intros [|i] H; simplify_eq/=; [lia|].
  specialize (IH _ H). lia.
Qed.

#[export] Instance sender_eq_dec : EqDecision sender.
Proof. solve_decision. Defined.

Lemma log_send_count s rq l :
  length (filter (fun e => e.1 = ByRefresh) (log_send s rq l))
  = length (filter (fun e => e.1 = ByRefresh) l)
    + match s, rq with ByRefresh, Some _ => 1 | _, _ => 0 end.
Proof.
  destruct rq as [r|]; simpl; [|destruct s; lia].
  rewrite filter_app, length_app. f_equal. destruct s; [by rewrite filter_cons_False|].
  by rewrite filter_cons_True.
Qed.

(** The requests sent by refreshes. *)
Definition refreshes_sent {A} (w : World A) : nat :=
  length (filter (fun e => e.1 = ByRefresh) (net w)).

Section Theorems.
Context {A : Type} {refreshBody : prog bool} {entry : prog A -> Prop}.
Context `{RC : !RefreshClient refreshBody entry}.

Abbreviation sched := (sched (A:=A) refreshBody).
Abbreviation reach := (reach (A:=A) refreshBody entry).

Lemma op_within {B} c cs (p p' : prog B) rq cs' n :
  within c n p -> op cs p rq cs' p' -> exists m, n = S m /\ within c m p'.
Proof. intros Hw Ho. destruct Ho; inversion Hw; subst; eexists; split; eauto. Qed.

Lemma op_solo {B} cs (p p' : prog B) rq cs' : solo p -> op cs p rq cs' p' -> solo p'.
Proof. intros Hs Ho. destruct Ho; inversion Hs; subst; auto. Qed.

Lemma op_fetches {B} cs (p p' : prog B) rq cs' n :
  fetches n p -> op cs p rq cs' p' ->
  exists m, fetches m p' /\ n = m + match rq with Some _ => 1 | None => 0 end.
Proof.
  intros Hf Ho. destruct Ho; inversion Hf; subst; eexists; (split; [eauto|lia]).
Qed.

(** *** Invariants *)

(** A refresh in flight is a solo program; a joined call implies one is in flight. *)
Definition flight_ok (w : World A) : Prop :=
  match refreshing w with
  | InFlight p _ => solo p
  | _ => forall i k, tasks w !! i <> Some (Joined k)
  end.

(** Each flight sends at most one request: those still to come are counted in [r]. *)
Definition flight_count (w : World A) : Prop :=
  exists r, refreshes_sent w + r <= flights w
    /\ match refreshing w with InFlight p _ => fetches r p | _ => r = 0 end.

Lemma no_joined_insert (ts : list (task A)) i p :
  (forall j k, ts !! j <> Some (Joined k)) ->
  forall j k, <[i := Running p]> ts !! j <> Some (Joined k).
Proof.
  intros H j k. rewrite list_lookup_insert. case_decide; [congruence|apply H].
Qed.

Lemma no_joined_wake b (ts : list (task A)) j k : map (wake b) ts !! j <> Some (Joined k).
Proof. intros (t & Ht & _)%list_lookup_fmap_Some. by destruct t. Qed.

Lemma sched_flight_ok w w' : flight_ok w -> sched w w' -> flight_ok w'.
Proof.
  unfold flight_ok. intros H Hs.
  destruct Hs as [i p rq cs p' Ht Ho|i k Ht Hn|i k b Ht Hb|p aw rq cs p' Hr Ho|b aw Hr]; simpl.
  - destruct (refreshing w); try done; by apply no_joined_insert.
  - destruct (refreshing w) as [|p aw|b]; [apply rc_refresh_solo|done|by destruct (Hn b)].
  - rewrite Hb in H. by apply no_joined_insert.
  - rewrite Hr in H. by eapply op_solo.
  - destruct aw; apply no_joined_wake.
Qed.

Lemma sched_flight_count w w' : flight_count w -> sched w w' -> flight_count w'.
Proof.
  unfold flight_count, refreshes_sent. intros (r & Hle & Hr) Hs.
  destruct Hs as [i p rq cs p' Ht Ho|i k Ht Hn|i k b Ht Hb|p aw rq cs p' Hp Ho|b aw Hp]; simpl.
  - exists r. rewrite log_send_count. split; [lia|done].
  - destruct (refreshing w) as [|p aw|b]; [|by exists r|by destruct (Hn b)].
    exists 1. subst r. split; [lia|apply rc_refresh_fetches].
  - exists r. by rewrite Hb in Hr.
  - rewrite Hp in Hr. destruct (op_fetches _ _ _ _ _ _ Hr Ho) as (m & Hm & ->).
    exists m. rewrite log_send_count. split; [lia|done].
  - exists 0. split; [lia|by destruct aw].
Qed.

Lemma reach_flight cs w : reach cs w -> flight_ok w /\ flight_count w.
Proof.
  induction 1 as [|w p Hw IH He|w w' Hw [IH1 IH2] Hs].
  - split; [by intros i k|]. by exists 0.
  - destruct IH as [H1 H2]. split; [|done]. unfold flight_ok in *. simpl.
    assert (Hs : (forall i k, tasks w !! i <> Some (Joined k)) ->
            forall i k, (tasks w ++ [Running p]) !! i <> Some (Joined k)).
    { intros H i k [Hi|Hi]%lookup_app_Some; [by apply (H i k)|].
      destruct Hi as [_ Hi]. apply list_lookup_singleton_Some in Hi as [_ [=]]. }
    destruct (refreshing w); [by apply Hs|done|by apply Hs].
  - split; [by eapply sched_flight_ok|by eapply sched_flight_count].
Qed.

(** A promise that settled before its assignment is never replaced. *)
Lemma sched_settled w w' b : refreshing w = Settled b -> sched w w' -> refreshing w' = Settled b.
Proof. intros Hb Hs. destruct Hs; simpl; congruence. Qed.

Lemma sched_settled_sent w w' b :
  refreshing w = Settled b -> sched w w' -> refreshes_sent w' = refreshes_sent w.
Proof.
  intros Hb Hs. unfold refreshes_sent.
  destruct Hs; simpl; try rewrite log_send_count; first [lia|congruence].
Qed.

Lemma evolves_settled w w' b :
  refreshing w = Settled b -> evolves refreshBody entry w w' ->
  refreshing w' = Settled b /\ refreshes_sent w' = refreshes_sent w.
Proof.
  intros Hb He. induction He as [|w1 p _ IH _|w1 w2 _ [IH1 IH2] Hs]; [done|done|].
  split; [by eapply sched_settled|]. rewrite <- IH2. by eapply sched_settled_sent.
Qed.

(** A body whose first operation is awaited never settles before the assignment. *)
Definition no_latch (w : World A) : Prop :=
  match refreshing w with
  | InFlight p aw => aw = true \/ p = refreshBody
  | Settled _ => False
  | Idle => True
  end.

Lemma sched_no_latch w w' :
  awaits refreshBody = true -> no_latch w -> sched w w' -> no_latch w'.
Proof.
  unfold no_latch. intros Ha H Hs.
  destruct Hs as [i p rq cs p' Ht Ho|i k Ht Hn|i k b Ht Hb|p aw rq cs p' Hr Ho|b aw Hr]; simpl.
  - done.
  - destruct (refreshing w); simpl; auto.
  - by rewrite Hb in H.
  - rewrite Hr in H. destruct H as [->| ->]; [auto|]. left. rewrite Ha. by destruct aw.
  - rewrite Hr in H. destruct H as [->|Hb]; [done|]. by rewrite <- Hb in Ha.
Qed.

Lemma reach_no_latch cs w : awaits refreshBody = true -> reach cs w -> no_latch w.
Proof. intros Ha H. induction H; [done|done|by eapply sched_no_latch]. Qed.

(** *** Progress *)

Lemma op_exists {B} cs (p : prog B) :
  (exists rq cs' p', op cs p rq cs' p') \/ (exists a, p = Ret a) \/ (exists e, p = Throw e)
  \/ exists k, p = JoinRefresh k.
Proof.
  destruct p; eauto 6; left; eexists _, _, _; constructor. Unshelve. exact None.
Qed.

Lemma flight_steps w p aw : refreshing w = InFlight p aw -> solo p -> exists w', sched w w'.
Proof.
  intros Hr Hs. destruct (op_exists (cells w) p) as [(rq & cs & p' & Ho)|[[b ->]|[[e ->]|[k ->]]]].
  - eexists. by eapply s_refresh.
  - eexists. by eapply s_refresh_done.
  - inversion Hs.
  - inversion Hs.
Qed.

Lemma sched_progress w i t :
  flight_ok w -> tasks w !! i = Some t -> is_done t = false -> exists w', sched w w'.
Proof.
  unfold flight_ok. intros Hok Ht Hd. destruct t as [p|k].
  - destruct (op_exists (cells w) p) as [(rq & cs & p' & Ho)|[[b ->]|[[e ->]|[k ->]]]];
      [|done|done|].
    + eexists. by eapply s_task.
    + destruct (refreshing w) as [|p aw|b] eqn:E; eexists;
        solve [by eapply s_join_settled | eapply s_join; [done|by rewrite E]].
  - destruct (refreshing w) eqn:E; [by destruct (Hok i k)|by eapply flight_steps|].
    by destruct (Hok i k).
Qed.

(** *** Termination *)

Definition cost : nat := S (rc_cost (refreshBody:=refreshBody) (entry:=entry)).

Definition task_within (t : task A) (n : nat) : Prop :=
  match t with
  | Running p => within cost n p
  | Joined k => forall b, within cost n (k b)
  end.

Definition flight_within (f : promise) (n : nat) : Prop :=
  match f with InFlight p _ => exists m, n = S m /\ within 0 m p | _ => n = 0 end.

(** The operations left in the whole system. *)
Definition work (w : World A) (n : nat) : Prop :=
  exists ns r, Forall2 task_within (tasks w) ns /\ flight_within (refreshing w) r
    /\ n = sum_list ns + r.

Lemma task_within_wake b t n : task_within t n -> task_within (wake b t) n.
Proof. destruct t; simpl; auto. Qed.

Lemma sched_work w w' n : work w n -> sched w w' -> exists m, m < n /\ work w' m.
Proof.
  intros (ns & r & Hns & Hr & ->) Hs.
  destruct Hs as [i p rq cs p' Ht Ho|i k Ht Hnb|i k b Ht Hb|p aw rq cs p' Hp Ho|b aw Hp].
  - destruct (Forall2_lookup_l _ _ _ _ _ Hns Ht) as (n & Hn & Hw).
    destruct (op_within _ _ _ _ _ _ _ Hw Ho) as (m & -> & Hm).
    pose proof (sum_list_insert _ _ _ m Hn). exists (sum_list (<[i:=m]> ns) + r).
    split; [lia|]. exists (<[i:=m]> ns), r. split_and!; [|done|done].
    simpl. by apply Forall2_insert.
  - destruct (Forall2_lookup_l _ _ _ _ _ Hns Ht) as (n & Hn & Hw).
    simpl in Hw. inversion Hw as [| | | | | |m k' Hk|]; subst.
    pose proof (sum_list_insert _ _ _ m Hn).
    exists (sum_list (<[i:=m]> ns) + match refreshing w with Idle => cost | _ => r end).
    split; [destruct (refreshing w); simpl in Hr; lia|].
    eexists (<[i:=m]> ns), _. split_and!; [simpl; by apply Forall2_insert| |done].
    simpl. destruct (refreshing w); [|done|done]. eexists. split; [done|]. apply rc_refresh_within.
  - destruct (Forall2_lookup_l _ _ _ _ _ Hns Ht) as (n & Hn & Hw).
    simpl in Hw. inversion Hw as [| | | | | |m k' Hk|]; subst.
    pose proof (sum_list_insert _ _ _ m Hn). exists (sum_list (<[i:=m]> ns) + r).
    split; [lia|]. exists (<[i:=m]> ns), r. rewrite Hb in Hr.
    split_and!; [simpl; apply Forall2_insert; [done|apply Hk]|done|done].
  - rewrite Hp in Hr. destruct Hr as (m & -> & Hm).
    destruct (op_within _ _ _ _ _ _ _ Hm Ho) as (m' & -> & Hm').
    exists (sum_list ns + S m'). split; [lia|]. exists ns, (S m'). split_and!; [done| |done].
    simpl. eauto.
  - rewrite Hp in Hr. destruct Hr as (m & -> & Hm). exists (sum_list ns + 0). split; [lia|].
    exists ns, 0. split_and!; [|by destruct aw|done]. simpl.
    apply Forall2_fmap_l. eapply Forall2_impl; [done|]. intros. by apply task_within_wake.
Qed.

Lemma reach_work cs w : reach cs w -> exists n, work w n.
Proof.
  induction 1 as [|w p Hw [n (ns & r & Hns & Hr & ->)] He|w w' Hw [n Hn] Hs].
  - exists 0, [], 0. by split_and!.
  - destruct (rc_entry_within p He) as [m Hm]. exists (sum_list (ns ++ [m]) + r).
    exists (ns ++ [m]), r. split_and!; [|done|done]. simpl. apply Forall2_app; [done|].
    by repeat constructor.
  - destruct (sched_work _ _ _ Hn Hs) as (m & _ & Hm). eauto.
Qed.

Lemma sched_n_bound n w w' k : work w k -> sched_n refreshBody n w w' -> n <= k.
Proof.
  intros Hk Hn. revert k Hk. induction Hn as [|n w w' w'' Hs _ IH]; intros k Hk; [lia|].
  destruct (sched_work _ _ _ Hk Hs) as (m & Hlt & Hm). specialize (IH _ Hm). lia.
Qed.

Definition all_done (w : World A) : bool := forallb is_done (tasks w).

Lemma not_all_done w : all_done w = false -> exists i t, tasks w !! i = Some t /\ is_done t = false.
Proof.
  unfold all_done. induction (tasks w) as [|t ts IH]; simpl; [done|].
  destruct (is_done t) eqn:E; simpl; [|by exists 0, t].
  intros H. destruct (IH H) as (i & t' & ? & ?). by exists (S i), t'.
Qed.

Lemma flight_ok_n n w w' : flight_ok w -> sched_n refreshBody n w w' -> flight_ok w'.
Proof. intros H Hn. induction Hn; eauto using sched_flight_ok. Qed.

(** Without new calls every run is finite, and from every state one leads to all calls
    being settled. *)
Lemma settles w k :
  flight_ok w -> work w k ->
  exists n w', sched_n refreshBody n w w' /\ all_done w' = true.
Proof.
  revert w. induction (lt_wf k) as [k _ IH]. intros w Hok Hk.
  destruct (all_done w) eqn:E; [by exists 0, w; split; [constructor|]|].
  destruct (not_all_done w E) as (i & t & Ht & Hd).
  destruct (sched_progress w i t Hok Ht Hd) as [w1 H1].
  destruct (sched_work _ _ _ Hk H1) as (m & Hlt & Hm).
  destruct (IH m Hlt w1 (sched_flight_ok _ _ Hok H1) Hm) as (n & w2 & H2 & Hdone).
  exists (S n), w2. split; [by econstructor|done].
Qed.

(** The contract of the scheduler, in one statement. *)
Definition single_flight_at (w : World A) : Prop :=
  refreshes_sent w <= flights w
  /\ (forall i k, tasks w !! i = Some (Joined k) -> exists p aw, refreshing w = InFlight p aw)
  /\ (forall w', sched w w' -> flights w < flights w' -> refreshing w = Idle).

Definition settles_at (w : World A) : Prop :=
  exists k, (forall n w', sched_n refreshBody n w w' -> n <= k)
    /\ exists n w', sched_n refreshBody n w w' /\ all_done w' = true.

Lemma reach_single_flight cs w : reach cs w -> single_flight_at w.
Proof.
  intros [Hok (r & Hle & _)]%reach_flight. split_and!; [lia| |].
  - intros i k Hi. unfold flight_ok in Hok.
    destruct (refreshing w); [by destruct (Hok i k)|eauto|by destruct (Hok i k)].
  - intros w' Hs. destruct Hs; simpl; try lia. destruct (refreshing w); [done|lia|lia].
Qed.

Lemma reach_settles cs w : reach cs w -> settles_at w.
Proof.
  intros Hr. destruct (reach_work _ _ Hr) as [k Hk]. exists k. split.
  - intros n w' Hn. by eapply sched_n_bound.
  - eapply settles; [exact (proj1 (reach_flight _ _ Hr))|exact Hk].
Qed.
End Theorems.
