(* ===== verification/ApiClient.v ===== *)
(** * The web API client: web/src/api/client.ts

    [apiFetch] as a program over the shared cells [SessionCsrf] (the session storage entry
    [postal_csrf_token]) and [DocumentCookie] ([document.cookie]); its concurrent
    behaviour is that of SingleFlight.v, whose interface is discharged here. *)
From S2P Require Import Prelude JsValue ApiError Async SingleFlight.

Local Open Scope js_scope.
Local Open Scope prog_scope.

(** *** decodeURIComponent *)

Definition hex_digit (c : N) : option N :=
  if ((48 <=? c) && (c <=? 57))%N then Some (c - 48)%N
  else if ((65 <=? c) && (c <=? 70))%N then Some (c - 55)%N
  else if ((97 <=? c) && (c <=? 102))%N then Some (c - 87)%N
  else None.

Definition hex_byte (a b : N) : option N :=
  match hex_digit a, hex_digit b with Some x, Some y => Some (16 * x + y)%N | _, _ => None end.

(** A continuation byte of a UTF-8 sequence carries six bits. *)
Definition continuation (a b : N) : option N :=
  match hex_byte a b with
  | Some x => if ((128 <=? x) && (x <? 192))%N then Some (x - 128)%N else None
  | None => None
  end.

Definition opt_cons (l : jstr) (r : option jstr) : option jstr :=
  match r with Some s => Some (l ++ s) | None => None end.

(** [None] is the URIError of a malformed sequence. [37] is the percent sign. *)
Fixpoint decodeURIComponent (s : jstr) : option jstr :=
  match s with
  | [] => Some []
  | 37%N :: a :: b :: s1 =>
      match hex_byte a b with
      | None => None
      | Some x =>
          if (x <? 128)%N then opt_cons [x] (decodeURIComponent s1)
          else if ((194 <=? x) && (x <? 224))%N then
            match s1 with
            | 37%N :: c :: d :: s2 =>
                match continuation c d with
                | Some y => opt_cons [((x - 192) * 64 + y)%N] (decodeURIComponent s2)
                | None => None
                end
            | _ => None
            end
          else if ((224 <=? x) && (x <? 240))%N then
            match s1 with
            | 37%N :: c :: d :: 37%N :: e :: f :: s3 =>
                match continuation c d, continuation e f with
                | Some y, Some z =>
                    let cp := ((x - 224) * 4096 + y * 64 + z)%N in
                    if ((cp <? 2048) || ((55296 <=? cp) && (cp <? 57344)))%N then None
                    else opt_cons [cp] (decodeURIComponent s3)
                | _, _ => None
                end
            | _ => None
            end
          else if ((240 <=? x) && (x <? 245))%N then
            match s1 with
            | 37%N :: c :: d :: 37%N :: e :: f :: 37%N :: g :: h :: s4 =>
                match continuation c d, continuation e f, continuation g h with
                | Some y, Some z, Some t =>
                    let cp := ((x - 240) * 262144 + y * 4096 + z * 64 + t)%N in
                    if ((cp <? 65536) || (1114111 <? cp))%N then None
                    else opt_cons (utf16_of_code_point cp) (decodeURIComponent s4)
                | _, _, _ => None
                end
            | _ => None
            end
          else None
      end
  | 37%N :: _ => None
  | c :: s' => opt_cons [c] (decodeURIComponent s')
  end.

(** *** Cookies *)

(** The capture group: the longest prefix without a semicolon. *)
Fixpoint until_semicolon (s : jstr) : jstr :=
  match s with [] => [] | c :: s' => if N.eqb c 59 then [] else c :: until_semicolon s' end.

(** The leftmost occurrence of [; name=], and the group after it. *)
Fixpoint scan (name s : jstr) : option jstr :=
  match s with
  | [] => None
  | _ :: s' =>
      if startsWith s ("; " ++ name ++ "=")
      then Some (until_semicolon (drop (length name + 3) s))
      else scan name s'
  end.

(** The group of the first match of the cookie pattern: [name=] at the start of the
    string, else after a semicolon and a space. *)
Definition cookie_match (name cookies : jstr) : option jstr :=
  if startsWith cookies (name ++ "=")
  then Some (until_semicolon (drop (length name + 1) cookies))
  else scan name cookies.

Definition URIError : Exn := JsError "URI malformed".
Definition SecurityError : Exn := JsError "SecurityError".

Section Client.
(** [typeof document !== "undefined"]; [typeof sessionStorage !== "undefined"], [None]
    when the getter of [sessionStorage] throws (a browser that blocks storage: [typeof]
    evaluates it); [API_ORIGIN]. *)
Variable has_document : bool.
Variable has_storage : option bool.
Variable API_ORIGIN : jstr.

Definition readCookie (name : jstr) : prog (option jstr) :=
  if negb has_document then Ret None
  else Load DocumentCookie (fun x =>
    match x with
    | None => Throw SecurityError
    | Some c =>
        match cookie_match name (default [] c) with
        | None => Ret None
        | Some v => match decodeURIComponent v with
                    | Some d => Ret (Some d)
                    | None => Throw URIError
                    end
        end
    end).

Definition csrfToken : prog (option jstr) :=
  match has_storage with
  | None => Throw SecurityError
  | Some false => readCookie "postal_csrf"
  | Some true =>
      Load SessionCsrf (fun x =>
        match x with
        | Some (Some stored) => if truthy stored then Ret (Some stored) else readCookie "postal_csrf"
        | _ => readCookie "postal_csrf"
        end)
  end.

Definition storeCsrf (token : option jstr) : prog unit :=
  match token with
  | Some t =>
      if negb (truthy t) then Ret tt
      else match has_storage with
           | None => Throw SecurityError
           | Some false => Ret tt
           | Some true => Store SessionCsrf (Some t) (fun _ => Ret tt)
           end
  | None => Ret tt
  end.

(** [body?.data?.csrf_token] when it is truthy, as the string that gets stored. *)
Definition csrf_of_body (body : json) : option jstr :=
  match get_prop body "data" with
  | Some d => match get_prop d "csrf_token" with
              | Some t => if jtruthy t then Some (to_key t) else None
              | None => None
              end
  | None => None
  end.

Definition captureCsrf (res : Response) (url : jstr) : prog unit :=
  if negb (rs_ok res) then Ret tt
  else if negb (includes url "/auth/login") && negb (includes url "/auth/refresh") then Ret tt
  else ReadJson res (fun j => match j with
                              | Some body => catch (storeCsrf (csrf_of_body body)) (fun _ => Ret tt)
                              | None => Ret tt
                              end).

(** The body of the promise [refreshing]. *)
Definition refreshBody : prog bool :=
  catch
    (csrf <- csrfToken;;
     res <- fetch {| rq_method := "POST"; rq_url := API_ORIGIN ++ "/api/v1/auth/refresh";
                     rq_headers := match csrf with
                       | Some t => if truthy t then {["x-csrf-token" := t]} else ∅
                       | None => ∅ end;
                     rq_body := JUndef |};;
     captureCsrf res "/auth/refresh";;;
     Ret (rs_ok res))
    (fun _ => Ret false).

(** [body?.error?.code === "csrf_failed"] *)
Definition code_is_csrf (body : json) : bool :=
  match get_prop body "error" with
  | Some e => match get_prop e "code" with Some c => is_str c "csrf_failed" | None => false end
  | None => false
  end.

Definition isCsrfFailure (res : Response) : prog bool :=
  if negb (Z.eqb (rs_status res) 403) then Ret false
  else ReadJson res (fun j => Ret match j with Some body => code_is_csrf body | None => false end).

Definition MUTATING : list jstr := ["POST"; "PUT"; "PATCH"; "DELETE"].
Definition upper (s : jstr) : jstr :=
  map (fun c => if ((97 <=? c) && (c <=? 122))%N then (c - 32)%N else c) s.
Definition is_mutating (r : Request) : bool := existsb (jeq (upper (rq_method r))) MUTATING.

Definition isAuthFlow (url : jstr) : bool :=
  includes url "/auth/refresh" || includes url "/auth/login" || includes url "/auth/logout".

(** [if (csrf) headers.set("X-CSRF-Token", csrf)] *)
Definition with_csrf (csrf : option jstr) (r : Request) : Request :=
  match csrf with
  | Some t => if truthy t then set_header "x-csrf-token" t r else r
  | None => r
  end.

(** [new URL(url).pathname] for the absolute URL of a [Request]: what follows the host, up
    to the query or the fragment. *)
Fixpoint until_query (s : jstr) : jstr :=
  match s with
  | [] => []
  | c :: s' => if N.eqb c 63 || N.eqb c 35 then [] else c :: until_query s'
  end.
Fixpoint from_slash (s : jstr) : jstr :=
  match s with [] => "/" | c :: s' => if N.eqb c 47 then s else from_slash s' end.
Fixpoint after_scheme (s : jstr) : jstr :=
  match s with
  | [] => []
  | _ :: s' => if startsWith s "://" then drop 3 s else after_scheme s'
  end.
Definition pathname (url : jstr) : jstr := from_slash (until_query (after_scheme url)).

(** [apiFetch(request)]; [rid] is [crypto.randomUUID()]. *)
Definition apiFetch (rid : jstr) (request : Request) : prog Response :=
  let mutating := is_mutating request in
  csrf <- (if mutating then csrfToken else Ret None);;
  let request := set_header "x-request-id" rid (with_csrf csrf request) in
  let retry := request in
  res <- fetch request;;
  captureCsrf res (rq_url request);;;
  recoverable <- (if Z.eqb (rs_status res) 401 then Ret true
                  else if mutating then isCsrfFailure res else Ret false);;
  res <- (if recoverable && negb (isAuthFlow (rq_url request)) then
            JoinRefresh (fun ok =>
              if ok then
                csrf <- csrfToken;;
                fetch (if mutating then with_csrf csrf retry else retry)
              else Ret res)
          else Ret res);;
  if (500 <=? rs_status res)%Z then
    Log {| lc_message := "api server error";
           lc_fields := [("requestId", match rs_headers res !! ("x-request-id" : jstr) with
                                       | Some i => JStr i | None => JUndef end);
                         ("status", JNum (rs_status res));
                         ("path", JStr (pathname (rq_url request)))] |} (Ret res)
  else Ret res.
End Client.

(** ** The contract of [apiFetch]

    What a caller may rely on, without the cells: the requests sent with their answers,
    the refreshes joined, and the outcome. *)

(** Same call: only the CSRF header may differ. *)
Definition same_call (r r' : Request) : Prop :=
  rq_method r' = rq_method r /\ rq_url r' = rq_url r /\ rq_body r' = rq_body r
  /\ forall k, k <> ("x-csrf-token" : jstr) -> rq_headers r' !! k = rq_headers r !! k.

(** Only a mutation carries the CSRF header. *)
Definition carries (r r' : Request) : Prop :=
  if is_mutating r then same_call r r' else r' = r.

(** An expired session (401), or a mutation refused for its CSRF token, outside the auth
    endpoints that would loop. *)
Definition needs_refresh (req : Request) (res : Response) : bool :=
  (Z.eqb (rs_status res) 401
   || (is_mutating req && (Z.eqb (rs_status res) 403
       && match rs_json res with Some b => code_is_csrf b | None => false end)))
  && negb (isAuthFlow (rq_url req)).

Definition answer (x : option Response) : outcome Response :=
  match x with Some res => inr res | None => inl fetch_error end.

(** [fetch_spec req sent joins o], for a request [req] that carries its request id. *)
Inductive fetch_spec (req : Request) : list (Request * option Response) -> list bool -> outcome Response -> Prop :=
  | fs_unreadable e : is_mutating req = true -> fetch_spec req [] [] (inl e)
  | fs_plain r1 x :
      carries req r1 ->
      match x with Some res => needs_refresh req res = false | None => True end ->
      fetch_spec req [(r1, x)] [] (answer x)
  | fs_refused r1 res :
      carries req r1 -> needs_refresh req res = true ->
      fetch_spec req [(r1, Some res)] [false] (inr res)
  | fs_retried r1 res r2 x :
      carries req r1 -> carries r1 r2 -> needs_refresh req res = true ->
      fetch_spec req [(r1, Some res); (r2, x)] [true] (answer x)
  | fs_retry_unreadable r1 res e :
      carries req r1 -> needs_refresh req res = true ->
      fetch_spec req [(r1, Some res)] [true] (inl e).

Ltac inv_exec :=
  repeat match goal with
  | H : exec (Ret _) _ _ |- _ => inversion H; clear H; subst
  | H : exec (Throw _) _ _ |- _ => inversion H; clear H; subst
  | H : exec (Load _ _) _ _ |- _ => inversion H; clear H; subst
  | H : exec (Store _ _ _) _ _ |- _ => inversion H; clear H; subst
  | H : exec (ReadJson _ _) _ _ |- _ => inversion H; clear H; subst
  | H : exec (Log _ _) _ _ |- _ => inversion H; clear H; subst
  | H : exec (JoinRefresh _) _ _ |- _ => inversion H; clear H; subst
  end.

Section ClientFacts.
Variable has_document : bool.
Variable has_storage : option bool.
Variable API_ORIGIN : jstr.

Lemma quiet_readCookie name : quiet (readCookie has_document name).
Proof.
  unfold readCookie. destruct (negb has_document); auto with postal.
  apply quiet_load. intros [c|]; auto with postal.
  destruct (cookie_match _ _) as [v|]; auto with postal.
  destruct (decodeURIComponent v); auto with postal.
Qed.

Lemma quiet_csrfToken : quiet (csrfToken has_document has_storage).
Proof.
  unfold csrfToken. destruct has_storage as [[|]|]; [|apply quiet_readCookie|apply quiet_throw].
  apply quiet_load. intros [[s|]|]; try apply quiet_readCookie.
  destruct (truthy s); [auto with postal|apply quiet_readCookie].
Qed.

Lemma quiet_storeCsrf t : quiet (storeCsrf has_storage t).
Proof. unfold storeCsrf. repeat case_match; auto with postal. Qed.

Lemma quiet_captureCsrf res url : quiet (captureCsrf has_storage res url).
Proof.
  unfold captureCsrf. repeat case_match; auto with postal.
  apply quiet_json. intros [b|]; [|auto with postal].
  apply quiet_catch; [apply quiet_storeCsrf|auto with postal].
Qed.

Lemma quiet_isCsrfFailure res : quiet (isCsrfFailure res).
Proof. unfold isCsrfFailure. case_match; auto with postal. Qed.

Lemma exec_isCsrfFailure res tr b :
  exec (isCsrfFailure res) tr (inr b) ->
  b = Z.eqb (rs_status res) 403 && match rs_json res with Some j => code_is_csrf j | None => false end.
Proof. unfold isCsrfFailure. intros H. destruct (Z.eqb _ 403); simpl in H; inv_exec; done. Qed.

Lemma isCsrfFailure_total res tr e : ~ exec (isCsrfFailure res) tr (inl e).
Proof. unfold isCsrfFailure. intros H. destruct (Z.eqb _ 403); simpl in H; inv_exec. Qed.

Lemma captureCsrf_total res url tr e : ~ exec (captureCsrf has_storage res url) tr (inl e).
Proof.
  unfold captureCsrf. intros H. repeat case_match; inv_exec.
  destruct (rs_json res) as [b|]; inv_exec.
  match goal with H : exec (catch _ _) _ _ |- _ =>
    apply exec_catch in H as [(a & _ & [=])|(e' & t1 & t2 & _ & ? & _)] end. inv_exec.
Qed.

Lemma is_mutating_set k v r : is_mutating (set_header k v r) = is_mutating r.
Proof. done. Qed.

Lemma is_mutating_csrf csrf r : is_mutating (with_csrf csrf r) = is_mutating r.
Proof. unfold with_csrf. destruct csrf as [t|]; [destruct (truthy t)|]; done. Qed.

Lemma url_csrf csrf r : rq_url (with_csrf csrf r) = rq_url r.
Proof. unfold with_csrf. destruct csrf as [t|]; [destruct (truthy t)|]; done. Qed.

Lemma same_call_csrf csrf r : same_call r (with_csrf csrf r).
Proof.
  unfold with_csrf. destruct csrf as [t|]; [destruct (truthy t)|]; repeat split.
  intros k Hk. by apply lookup_insert_ne.
Qed.

Lemma same_call_request csrf rid r :
  same_call (set_header "x-request-id" rid r) (set_header "x-request-id" rid (with_csrf csrf r)).
Proof.
  unfold with_csrf. destruct csrf as [t|]; [destruct (truthy t)|]; repeat split.
  intros k Hk. simpl. destruct (decide (k = "x-request-id")) as [->|Hr].
  - by rewrite !lookup_insert_eq.
  - by rewrite !lookup_insert_ne.
Qed.

(** The guarded read of the token: what the request it is put on then carries. *)
Definition guarded_token (mutating : bool) : prog (option jstr) :=
  if mutating then csrfToken has_document has_storage else Ret None.

Lemma quiet_guarded m : quiet (guarded_token m).
Proof. destruct m; [apply quiet_csrfToken|apply quiet_ret]. Qed.

Lemma exec_guarded_throw m tr e : exec (guarded_token m) tr (inl e) -> m = true.
Proof. destruct m; [done|]. intros H. simpl in H. inv_exec. Qed.

Lemma carries_request rid req tr csrf :
  exec (guarded_token (is_mutating req)) tr (inr csrf) ->
  carries (set_header "x-request-id" rid req)
          (set_header "x-request-id" rid (with_csrf csrf req)).
Proof.
  unfold carries. rewrite is_mutating_set. destruct (is_mutating req); intros H.
  - apply same_call_request.
  - simpl in H. inv_exec. done.
Qed.

Lemma carries_retry r csrf : carries r (if is_mutating r then with_csrf csrf r else r).
Proof. unfold carries. destruct (is_mutating r); [apply same_call_csrf|done]. Qed.

(** Whether the answer is recoverable, as [apiFetch] finds out. *)
Lemma exec_recoverable res (m : bool) tr (b : bool) :
  exec (if Z.eqb (rs_status res) 401 then Ret true
        else if m then isCsrfFailure res else Ret false : prog bool) tr (inr b) ->
  b = Z.eqb (rs_status res) 401 || (m && (Z.eqb (rs_status res) 403
       && match rs_json res with Some j => code_is_csrf j | None => false end)).
Proof.
  destruct (Z.eqb _ 401); [by intros; inv_exec|]. destruct m; [apply exec_isCsrfFailure|].
  by intros; inv_exec.
Qed.

Lemma recoverable_total res (m : bool) tr e :
  ~ exec (if Z.eqb (rs_status res) 401 then Ret true
          else if m then isCsrfFailure res else Ret false) tr (inl e).
Proof.
  destruct (Z.eqb _ 401); [by intros ?; inv_exec|]. destruct m; [apply isCsrfFailure_total|].
  by intros ?; inv_exec.
Qed.

Lemma quiet_recoverable res (m : bool) :
  quiet (if Z.eqb (rs_status res) 401 then Ret true
         else if m then isCsrfFailure res else Ret false).
Proof. repeat case_match; auto with postal. apply quiet_isCsrfFailure. Qed.

(** The tail of [apiFetch] adds nothing to the requests and joins. *)
Lemma exec_report res p tr o :
  exec (if (500 <=? rs_status res)%Z then Log p (Ret res) else Ret res) tr o ->
  sent tr = [] /\ joins tr = [] /\ o = inr res.
Proof. intros H. case_match; inv_exec; done. Qed.

(** Splits an execution of a quiet program off the front of a trace. *)
Ltac quiet_step Hq Htr :=
  match type of Htr with exec (bind _ _) _ _ =>
    let e := fresh "e" in let He := fresh "He" in let a := fresh "a" in
    let t1 := fresh "t" in let t2 := fresh "t" in let H1 := fresh "Hx" in
    let Hs := fresh "Hs" in let Hj := fresh "Hj" in
    apply exec_bind in Htr as [(e & He & ->)|(a & t1 & t2 & H1 & Htr & ->)];
    [destruct (Hq _ _ He) as [Hs Hj]; rewrite ?Hs, ?Hj
    |destruct (Hq _ _ H1) as [Hs Hj]; rewrite ?sent_app, ?joins_app, ?Hs, ?Hj; simpl]
  end.
(** The two ends of [apiFetch]. *)
Lemma exec_retry r m tr o :
  m = is_mutating r ->
  exec (bind (csrfToken has_document has_storage) (fun csrf => fetch (if m then with_csrf csrf r else r))) tr o ->
  joins tr = []
  /\ ((exists e, sent tr = [] /\ o = inl e)
      \/ exists r2 x, carries r r2 /\ sent tr = [(r2, x)] /\ o = answer x).
Proof.
  intros -> H. quiet_step quiet_csrfToken H.
  - split; [done|]. left. by exists e.
  - pose proof (carries_retry r a) as Hc.
    apply exec_fetch in H as [[-> ->]|(res & -> & ->)]; (split; [done|]); right.
    + by eexists _, None.
    + by eexists _, (Some res).
Qed.

Lemma exec_apiFetch rid req tr o :
  exec (apiFetch has_document has_storage rid req) tr o ->
  fetch_spec (set_header "x-request-id" rid req) (sent tr) (joins tr) o.
Proof.
  set (req0 := set_header "x-request-id" rid req).
  unfold apiFetch. cbv zeta. intros H. quiet_step (quiet_guarded (is_mutating req)) H.
  { apply fs_unreadable. by apply exec_guarded_throw in He. }
  pose proof (carries_request rid _ _ _ Hx) as Hc. fold req0 in Hc.
  set (r1 := set_header "x-request-id" rid (with_csrf a req)) in *.
  assert (Hm : is_mutating req = is_mutating r1).
  { unfold r1. by rewrite is_mutating_set, is_mutating_csrf. }
  assert (Hurl : rq_url r1 = rq_url req0). { unfold r1, req0. simpl. apply url_csrf. }
  apply exec_bind in H as [(e & H & ->)|(res & u1 & u2 & Hf & H & ->)].
  { apply exec_fetch in H as [[-> ->]|(? & _ & [=])]. simpl.
    by apply (fs_plain req0 r1 None). }
  apply exec_fetch in Hf as [[_ [=]]|(? & -> & [= <-])]. rewrite sent_app, joins_app. simpl.
  quiet_step (quiet_captureCsrf res (rq_url r1)) H; [by apply captureCsrf_total in He|].
  quiet_step (quiet_recoverable res (is_mutating req)) H; [by apply recoverable_total in He|].
  apply exec_recoverable in Hx1.
  assert (Hr : a1 && negb (isAuthFlow (rq_url r1)) = needs_refresh req0 res) by (by rewrite Hx1, Hurl).
  rewrite Hr in H. clear Hx0 Hx1 Hr.
  apply exec_bind in H as [(e & H & ->)|(res' & v1 & v2 & Hf & H & ->)].
  - destruct (needs_refresh req0 res) eqn:En; [|inv_exec].
    apply exec_join in H as ([|] & w & -> & H); [|inv_exec].
    simpl. destruct (exec_retry r1 _ _ _ Hm H) as (-> & [(e' & -> & [= <-])|(r2 & x & Hc2 & -> & Ho)]).
    + by apply fs_retry_unreadable.
    + rewrite Ho. by apply fs_retried.
  - apply exec_report in H as (Hs3 & Hj3 & ->). rewrite sent_app, joins_app, Hs3, Hj3, !app_nil_r.
    destruct (needs_refresh req0 res) eqn:En.
    + apply exec_join in Hf as ([|] & w & -> & H); [|inv_exec; by apply fs_refused].
      simpl. destruct (exec_retry r1 _ _ _ Hm H) as (-> & [(e' & -> & [=])|(r2 & x & Hc2 & -> & Ho)]).
      rewrite Ho. by apply fs_retried.
    + inv_exec. by apply (fs_plain req0 r1 (Some res')).
Qed.

(** *** The refresh and the calls are bounded: the interface of SingleFlight.v *)

Lemma within_readCookie c name : within c 1 (readCookie has_document name).
Proof.
  unfold readCookie. destruct (negb has_document); [constructor|].
  constructor. intros [x|]; [|constructor]. repeat case_match; constructor.
Qed.

Lemma within_csrfToken c : within c 2 (csrfToken has_document has_storage).
Proof.
  pose proof (within_readCookie c "postal_csrf") as Hr.
  unfold csrfToken. destruct has_storage as [[|]|]; [|by apply (within_weaken c 1 2); [|lia]|constructor].
  constructor. intros x. repeat case_match; try done; constructor.
Qed.

Lemma within_captureCsrf c res url : within c 2 (captureCsrf has_storage res url).
Proof.
  unfold captureCsrf. repeat case_match; [constructor..|]. constructor. intros [b|]; [|constructor].
  unfold storeCsrf. repeat case_match; simpl; repeat constructor.
Qed.

Lemma within_fetch c r : within c 1 (fetch r).
Proof. constructor. intros [x|]; constructor. Qed.

Lemma within_refreshBody : within 0 5 (refreshBody has_document has_storage API_ORIGIN).
Proof.
  change 5 with ((2 + (1 + (2 + 0))) + 0). apply within_catch; [|constructor].
  apply within_bind; [apply within_csrfToken|]. intros csrf.
  apply within_bind; [apply within_fetch|]. intros res.
  apply within_bind; [apply within_captureCsrf|]. constructor.
Qed.

Lemma joinless_csrfToken : joinless (csrfToken has_document has_storage).
Proof.
  assert (Hr : joinless (readCookie has_document "postal_csrf")).
  { unfold readCookie. destruct (negb has_document); [constructor|].
    constructor. intros [x|]; [|constructor]. repeat case_match; constructor. }
  unfold csrfToken. destruct has_storage as [[|]|]; [|done|constructor].
  constructor. intros x. repeat case_match; try done; constructor.
Qed.

Lemma joinless_captureCsrf res url : joinless (captureCsrf has_storage res url).
Proof.
  unfold captureCsrf. repeat case_match; [constructor..|]. constructor. intros [b|]; [|constructor].
  unfold storeCsrf. repeat case_match; simpl; repeat constructor.
Qed.

Lemma solo_refreshBody : solo (refreshBody has_document has_storage API_ORIGIN).
Proof.
  apply solo_catch; [|constructor].
  apply joinless_bind; [apply joinless_csrfToken|]. intros csrf.
  apply joinless_bind; [by constructor; intros [|]; constructor|]. intros res.
  apply joinless_bind; [apply joinless_captureCsrf|]. constructor.
Qed.

Lemma fetches_csrfToken : fetches 0 (csrfToken has_document has_storage).
Proof.
  assert (Hr : fetches 0 (readCookie has_document "postal_csrf")).
  { unfold readCookie. destruct (negb has_document); [constructor|].
    constructor. intros [x|]; [|constructor]. repeat case_match; constructor. }
  unfold csrfToken. destruct has_storage as [[|]|]; [|done|constructor].
  constructor. intros x. repeat case_match; try done; constructor.
Qed.

Lemma fetches_refreshBody : fetches 1 (refreshBody has_document has_storage API_ORIGIN).
Proof.
  apply fetches_catch; [|constructor]. change 1 with (0 + (1 + (0 + 0))).
  apply fetches_bind; [apply fetches_csrfToken|]. intros csrf.
  apply fetches_bind; [by constructor; intros [|]; constructor|]. intros res.
  apply fetches_bind; [|constructor].
  unfold captureCsrf. repeat case_match; [constructor..|]. constructor. intros [b|]; [|constructor].
  unfold storeCsrf. repeat case_match; simpl; repeat constructor.
Qed.

Lemma within_guarded c m : within c 2 (guarded_token m).
Proof. destruct m; [apply within_csrfToken|constructor]. Qed.

Lemma within_apiFetch rid req : within 6 (2 + (1 + (2 + (1 + (10 + 1)))))
  (apiFetch has_document has_storage rid req).
Proof.
  unfold apiFetch. cbv zeta.
  apply within_bind; [apply (within_guarded 6 (is_mutating req))|]. intros csrf.
  apply within_bind; [apply within_fetch|]. intros res.
  apply within_bind; [apply within_captureCsrf|]. intros _.
  apply within_bind.
  { unfold isCsrfFailure. repeat case_match; repeat constructor. }
  intros b. apply within_bind.
  - case_match; [|constructor]. apply w_join with (c := 6) (n := 3). intros [|]; [|constructor].
    apply (within_bind 6 2 1); [apply within_csrfToken|].
    intros. apply within_fetch.
  - intros res'. case_match; repeat constructor.
Qed.

(** The calls the application makes. *)
Definition is_call (p : prog Response) : Prop :=
  exists rid req, p = apiFetch has_document has_storage rid req.

#[export] Instance web_client :
  RefreshClient (refreshBody has_document has_storage API_ORIGIN) is_call.
Proof.
  refine {| rc_cost := 5 |}.
  - apply within_refreshBody.
  - apply solo_refreshBody.
  - apply fetches_refreshBody.
  - intros p (rid & req & ->). eexists. apply within_apiFetch.
Defined.
End ClientFacts.

(** *** Reading a cookie back *)

(** [document.cookie] as browsers render the cookie jar. *)
Definition pair (kv : jstr * jstr) : jstr := kv.1 ++ "=" ++ kv.2.
Definition cookie_string (l : list (jstr * jstr)) : jstr := join "; " (map pair l).

(** A cookie's name has neither [;] nor [=], its value has no [;] (RFC 6265). *)
Definition name_ok (k : jstr) : Prop := Forall (fun c => c <> 59%N /\ c <> 61%N) k.
Definition value_ok (v : jstr) : Prop := Forall (fun c => c <> 59%N) v.
Definition cookie_ok (kv : jstr * jstr) : Prop := name_ok kv.1 /\ value_ok kv.2.

Definition tail_string (l : list (jstr * jstr)) : jstr := l ≫= (fun kv => "; " ++ pair kv).

Lemma cookie_string_cons kv l : cookie_string (kv :: l) = pair kv ++ tail_string l.
Proof.
  unfold cookie_string, tail_string. revert kv. induction l as [|kv' l IH]; intros kv.
  - simpl. by rewrite app_nil_r.
  - change (join "; " (map pair (kv :: kv' :: l)))
      with (pair kv ++ "; " ++ join "; " (map pair (kv' :: l))).
    rewrite IH. simpl. done.
Qed.

Lemma until_semicolon_app v s : value_ok v -> until_semicolon (v ++ s) = v ++ until_semicolon s.
Proof.
  induction 1 as [|c v Hc _ IH]; [done|]. simpl. apply N.eqb_neq in Hc. by rewrite Hc, IH.
Qed.

Lemma until_semicolon_tail l : until_semicolon (tail_string l) = [].
Proof. by destruct l as [|kv l]. Qed.

(** The pattern [name=] matches at the start of a pair exactly when it is the pair's name. *)
Lemma startsWith_pair k name v s :
  name_ok k -> name_ok name -> startsWith (pair (k, v) ++ s) (name ++ "=") = jeq k name.
Proof.
  intros Hk. revert name. induction Hk as [|c k [Hc1 Hc2] Hk IH]; intros name Hn.
  - destruct Hn as [|d name [_ Hd] _]; [simpl; by destruct (v ++ s)|].
    unfold pair. simpl. apply N.eqb_neq in Hd. rewrite Hd. done.
  - destruct Hn as [|d name [_ Hd] Hn]; unfold pair in *; cbn [app startsWith fst snd].
    + apply not_eq_sym, N.eqb_neq in Hc2. by rewrite Hc2.
    + cbn [app fst snd] in IH. rewrite (IH _ Hn). unfold jeq. destruct (N.eqb_spec d c) as [->|Hne]; simpl.
      * apply bool_decide_ext. by split; [intros ->|intros [=]].
      * symmetry. apply bool_decide_eq_false. congruence.
Qed.

Lemma scan_cons name c s :
  scan name (c :: s) =
    if startsWith (c :: s) ("; " ++ name ++ "=")
    then Some (until_semicolon (drop (length name + 3) (c :: s)))
    else scan name s.
Proof. done. Qed.

Lemma scan_skip name seg s : value_ok seg -> scan name (seg ++ s) = scan name s.
Proof.
  induction 1 as [|c seg Hc _ IH]; [done|].
  rewrite <- app_comm_cons, scan_cons.
  assert (startsWith (c :: seg ++ s) ("; " ++ name ++ "=") = false) as ->; [|done].
  apply not_eq_sym, N.eqb_neq in Hc. cbn [app startsWith]. by rewrite Hc.
Qed.

Lemma pair_value_ok kv : cookie_ok kv -> value_ok (pair kv).
Proof.
  intros [Hk Hv]. unfold pair, value_ok. apply Forall_app. split; [by eapply Forall_impl; [exact Hk|intros c [? _]]|].
  by constructor.
Qed.

Lemma drop_pair k v s : drop (length k + 1) (pair (k, v) ++ s) = v ++ s.
Proof.
  unfold pair. simpl. rewrite <- app_assoc. rewrite drop_app_ge by lia.
  by replace (length k + 1 - length k) with 1 by lia.
Qed.

Definition lookup_cookie (name : jstr) (l : list (jstr * jstr)) : option jstr :=
  match find_first (fun kv => jeq kv.1 name) l with Some kv => Some kv.2 | None => None end.

Lemma scan_tail name l :
  name_ok name -> Forall cookie_ok l -> scan name (tail_string l) = lookup_cookie name l.
Proof.
  intros Hn. unfold lookup_cookie. induction 1 as [|[k v] l [Hk Hv] Hl IH]; [done|].
  change (tail_string ((k, v) :: l)) with (59%N :: 32%N :: pair (k, v) ++ tail_string l).
  rewrite scan_cons.
  assert (startsWith (59%N :: 32%N :: pair (k, v) ++ tail_string l) ("; " ++ name ++ "=")
          = startsWith (pair (k, v) ++ tail_string l) (name ++ "=")) as -> by done.
  rewrite startsWith_pair by done. cbn [find_first fst snd]. destruct (jeq k name) eqn:E.
  - apply jeq_true in E as ->. replace (length name + 3) with (S (S (length name + 1))) by lia.
    cbn [drop]. rewrite drop_pair, until_semicolon_app by done.
    by rewrite until_semicolon_tail, app_nil_r.
  - rewrite scan_cons.
    assert (startsWith (32%N :: pair (k, v) ++ tail_string l) ("; " ++ name ++ "=") = false) as -> by done.
    rewrite scan_skip by (by apply pair_value_ok). apply IH.
Qed.

Lemma cookie_match_lookup name l :
  name_ok name -> Forall cookie_ok l -> cookie_match name (cookie_string l) = lookup_cookie name l.
Proof.
  intros Hn Hl. destruct Hl as [|[k v] l [Hk Hv] Hl]; [by destruct name|].
  rewrite cookie_string_cons. unfold cookie_match, lookup_cookie.
  rewrite startsWith_pair by done. cbn [find_first fst snd]. destruct (jeq k name) eqn:E.
  - apply jeq_true in E as ->. rewrite drop_pair, until_semicolon_app by done.
    by rewrite until_semicolon_tail, app_nil_r.
  - rewrite scan_skip by (by apply pair_value_ok). by apply scan_tail.
Qed.

(** *** Percent-encoding *)

(** The bytes of a code point in UTF-8. *)
Definition utf8 (cp : N) : list N :=
  (if cp <? 128 then [cp]
   else if cp <? 2048 then [192 + cp / 64; 128 + cp mod 64]
   else if cp <? 65536 then [224 + cp / 4096; 128 + (cp / 64) mod 64; 128 + cp mod 64]
   else [240 + cp / 262144; 128 + (cp / 4096) mod 64; 128 + (cp / 64) mod 64; 128 + cp mod 64])%N.

(** A code point that is not half of a surrogate pair. *)
Definition scalar (cp : N) : Prop := (cp < 55296 \/ 57344 <= cp <= 1114111)%N.

(** Bytes written as percent signs and two hexadecimal digits, in either case. *)
Inductive percent : list N -> jstr -> Prop :=
  | pc_nil : percent [] []
  | pc_byte b bs a c e : hex_byte a c = Some b -> percent bs e -> percent (b :: bs) (37%N :: a :: c :: e).

(** The texts [s] that stand for [v]: any code point may be encoded, the percent sign is. *)
Inductive encodes : jstr -> jstr -> Prop :=
  | en_nil : encodes [] []
  | en_plain c v s : c <> 37%N -> encodes v s -> encodes (c :: v) (c :: s)
  | en_point cp e v s : scalar cp -> percent (utf8 cp) e -> encodes v s ->
      encodes (utf16_of_code_point cp ++ v) (e ++ s).

Lemma percent_cons b bs e : percent (b :: bs) e ->
  exists a c e', e = 37%N :: a :: c :: e' /\ hex_byte a c = Some b /\ percent bs e'.
Proof. inversion 1; subst. by eexists _, _, _. Qed.

Lemma percent_none e : percent [] e -> e = [].
Proof. by inversion 1. Qed.

(** Splits the encoding of some bytes. *)
Ltac percent_inv H :=
  repeat (let a := fresh "a" in let c := fresh "c" in let e := fresh "e" in let Hb := fresh "Hb" in
          apply percent_cons in H as (a & c & e & -> & Hb & H));
  apply percent_none in H as ->.

Lemma decode_plain c s : c <> 37%N -> decodeURIComponent (c :: s) = opt_cons [c] (decodeURIComponent s).
Proof.
  intros Hc. simpl.
  destruct c as [|p]; [done|]. do 6 (destruct p as [p|p|]; try done).
Qed.

Lemma continuation_byte a c b : hex_byte a c = Some (128 + b)%N -> (b < 64)%N -> continuation a c = Some b.
Proof.
  intros H Hb. unfold continuation. rewrite H.
  assert (((128 <=? 128 + b) && (128 + b <? 192))%N = true) as ->.
  { apply andb_true_iff. split; [apply N.leb_le|apply N.ltb_lt]; lia. }
  f_equal. lia.
Qed.

(** The branches of the decoder, by the number of bytes. *)
Lemma decode_1 a c x s : hex_byte a c = Some x -> (x < 128)%N ->
  decodeURIComponent (37%N :: a :: c :: s) = opt_cons [x] (decodeURIComponent s).
Proof. intros H Hx. cbn -[N.ltb]. rewrite H. by apply N.ltb_lt in Hx as ->. Qed.

Lemma decode_2 a c d e x y s :
  hex_byte a c = Some (192 + x)%N -> continuation d e = Some y -> (2 <= x < 32)%N ->
  decodeURIComponent (37%N :: a :: c :: 37%N :: d :: e :: s) = opt_cons [(x * 64 + y)%N] (decodeURIComponent s).
Proof.
  intros H Hy [H1 H2]. cbn -[N.ltb N.leb N.sub N.add N.mul]. rewrite H, Hy.
  assert ((192 + x <? 128)%N = false) as -> by (apply N.ltb_ge; lia).
  assert (((194 <=? 192 + x) && (192 + x <? 224))%N = true) as ->.
  { apply andb_true_iff. split; [apply N.leb_le|apply N.ltb_lt]; lia. }
  do 2 f_equal. lia.
Qed.

Lemma decode_3 a c d e f g x y z s :
  hex_byte a c = Some (224 + x)%N -> continuation d e = Some y -> continuation f g = Some z -> (x < 16)%N ->
  (2048 <= x * 4096 + y * 64 + z)%N -> scalar (x * 4096 + y * 64 + z) ->
  decodeURIComponent (37%N :: a :: c :: 37%N :: d :: e :: 37%N :: f :: g :: s)
  = opt_cons [(x * 4096 + y * 64 + z)%N] (decodeURIComponent s).
Proof.
  intros H Hy Hz Hx Hlo Hs. cbn -[N.ltb N.leb N.sub N.add N.mul]. rewrite H, Hy, Hz.
  assert ((224 + x <? 128)%N = false) as -> by (apply N.ltb_ge; lia).
  assert (((194 <=? 224 + x) && (224 + x <? 224))%N = false) as ->.
  { apply andb_false_iff. right. apply N.ltb_ge. lia. }
  assert (((224 <=? 224 + x) && (224 + x <? 240))%N = true) as ->.
  { apply andb_true_iff. split; [apply N.leb_le|apply N.ltb_lt]; lia. }
  replace (224 + x - 224)%N with x by lia. cbv zeta.
  assert (((x * 4096 + y * 64 + z <? 2048)
           || ((55296 <=? x * 4096 + y * 64 + z) && (x * 4096 + y * 64 + z <? 57344)))%N = false) as ->; [|done].
  apply orb_false_iff. split; [apply N.ltb_ge; lia|]. apply andb_false_iff.
  destruct Hs as [Hs|[Hs _]]; [left; by apply N.leb_gt|right; by apply N.ltb_ge].
Qed.

Lemma decode_4 a c d e f g h i x y z t s :
  hex_byte a c = Some (240 + x)%N -> continuation d e = Some y -> continuation f g = Some z ->
  continuation h i = Some t -> (x < 5)%N ->
  (65536 <= x * 262144 + y * 4096 + z * 64 + t <= 1114111)%N ->
  decodeURIComponent (37%N :: a :: c :: 37%N :: d :: e :: 37%N :: f :: g :: 37%N :: h :: i :: s)
  = opt_cons (utf16_of_code_point (x * 262144 + y * 4096 + z * 64 + t)) (decodeURIComponent s).
Proof.
  intros H Hy Hz Ht Hx [Hlo Hhi]. cbn -[N.ltb N.leb N.sub N.add N.mul utf16_of_code_point]. rewrite H, Hy, Hz, Ht.
  assert ((240 + x <? 128)%N = false) as -> by (apply N.ltb_ge; lia).
  assert (((194 <=? 240 + x) && (240 + x <? 224))%N = false) as ->.
  { apply andb_false_iff. right. apply N.ltb_ge. lia. }
  assert (((224 <=? 240 + x) && (240 + x <? 240))%N = false) as ->.
  { apply andb_false_iff. right. apply N.ltb_ge. lia. }
  assert (((240 <=? 240 + x) && (240 + x <? 245))%N = true) as ->.
  { apply andb_true_iff. split; [apply N.leb_le|apply N.ltb_lt]; lia. }
  replace (240 + x - 240)%N with x by lia. cbv zeta.
  assert (((x * 262144 + y * 4096 + z * 64 + t <? 65536)
           || (1114111 <? x * 262144 + y * 4096 + z * 64 + t))%N = false) as ->; [|done].
  apply orb_false_iff. split; apply N.ltb_ge; lia.
Qed.

(** The digits of a code point in base 64. *)
Lemma digits_64 cp : (cp = cp / 64 * 64 + cp mod 64 /\ cp mod 64 < 64)%N.
Proof. pose proof (N.div_mod cp 64 ltac:(lia)). pose proof (N.mod_lt cp 64 ltac:(lia)). lia. Qed.

Lemma digits_4096 cp : (cp / 4096 = cp / 64 / 64 /\ cp / 262144 = cp / 64 / 64 / 64)%N.
Proof. rewrite !N.Div0.div_div. done. Qed.

Lemma utf16_bmp cp : (cp < 65536)%N -> utf16_of_code_point cp = [cp].
Proof. unfold utf16_of_code_point. by intros ->%N.ltb_lt. Qed.

Lemma decode_point cp e s : scalar cp -> percent (utf8 cp) e ->
  decodeURIComponent (e ++ s) = opt_cons (utf16_of_code_point cp) (decodeURIComponent s).
Proof.
  intros Hs. unfold utf8. destruct (digits_4096 cp) as [H2 H3]. rewrite H2, H3.
  destruct (digits_64 cp) as [D0 B0], (digits_64 (cp / 64)) as [D1 B1], (digits_64 (cp / 64 / 64)) as [D2 B2].
  set (q1 := (cp / 64)%N) in *. set (q2 := (q1 / 64)%N) in *. set (q3 := (q2 / 64)%N) in *.
  set (m0 := (cp mod 64)%N) in *. set (m1 := (q1 mod 64)%N) in *. set (m2 := (q2 mod 64)%N) in *.
  assert (Htop : (cp <= 1114111)%N) by (destruct Hs; lia).
  destruct (N.ltb_spec cp 128) as [L1|L1]; [|destruct (N.ltb_spec cp 2048) as [L2|L2]; [|destruct (N.ltb_spec cp 65536) as [L3|L3]]];
    intros Hp.
  - percent_inv Hp. rewrite utf16_bmp by lia. by apply decode_1.
  - percent_inv Hp. cbn [app]. rewrite utf16_bmp by lia. rewrite (decode_2 _ _ _ _ q1 m0); [by rewrite <- D0|done|by apply continuation_byte|].
    split; [|lia]. destruct (N.le_gt_cases 2 q1); [done|]. lia.
  - percent_inv Hp. cbn [app].
    assert (Hcp : (q2 * 4096 + m1 * 64 + m0 = cp)%N) by lia. rewrite utf16_bmp by lia.
    rewrite (decode_3 _ _ _ _ _ _ q2 m1 m0); rewrite ?Hcp; try done; try (by apply continuation_byte); lia.
  - percent_inv Hp. cbn [app].
    assert (Hcp : (q3 * 262144 + m2 * 4096 + m1 * 64 + m0 = cp)%N) by lia.
    rewrite (decode_4 _ _ _ _ _ _ _ _ q3 m2 m1 m0); rewrite ?Hcp; try done; try (by apply continuation_byte); try lia.
Qed.

Lemma decode_encodes v s : encodes v s -> decodeURIComponent s = Some v.
Proof.
  induction 1 as [|c v s Hc _ IH|cp e v s Hs Hp _ IH]; [done| |].
  - by rewrite decode_plain, IH.
  - by rewrite (decode_point _ _ _ Hs Hp), IH.
Qed.

(** *** One call alone: what each part returns *)

Lemma with_csrf_truthy t r : truthy t = true -> with_csrf (Some t) r = set_header "x-csrf-token" t r.
Proof. intros H. unfold with_csrf. by rewrite H. Qed.

Lemma run_csrfToken hd oj cs ans t :
  cs SessionCsrf = Some t -> truthy t = true ->
  run oj (csrfToken hd (Some true)) cs ans = (inr (Some t), cs, ans, []).
Proof. intros H1 H2. simpl. by rewrite H1, H2. Qed.

Lemma run_captureCsrf_skip hs oj res url cs ans :
  rs_ok res = false -> run oj (captureCsrf hs res url) cs ans = (inr tt, cs, ans, []).
Proof. intros H. unfold captureCsrf. by rewrite H. Qed.

Lemma run_captureCsrf_store oj res url cs ans b t :
  rs_ok res = true -> includes url "/auth/login" || includes url "/auth/refresh" = true ->
  rs_json res = Some b -> csrf_of_body b = Some t -> truthy t = true ->
  run oj (captureCsrf (Some true) res url) cs ans
  = (inr tt, upd_cell SessionCsrf (Some t) cs, ans, []).
Proof.
  intros H1 Hu H2 H3 H4. unfold captureCsrf. rewrite H1, <- negb_orb, Hu. simpl.
  rewrite H2, H3. simpl. by rewrite H4.
Qed.

Lemma run_isCsrfFailure oj res cs ans b :
  rs_status res = 403%Z -> rs_json res = Some b ->
  run oj (isCsrfFailure res) cs ans = (inr (code_is_csrf b), cs, ans, []).
Proof. intros H1 H2. unfold isCsrfFailure. rewrite H1. simpl. by rewrite H2. Qed.

Definition refresh_request (origin stale : jstr) : Request :=
  {| rq_method := "POST"; rq_url := origin ++ "/api/v1/auth/refresh";
     rq_headers := {["x-csrf-token" := stale]}; rq_body := JUndef |}.

Lemma run_refreshBody hd origin cs ans stale fresh res b :
  cs SessionCsrf = Some stale -> truthy stale = true ->
  rs_ok res = true -> rs_json res = Some b -> csrf_of_body b = Some fresh -> truthy fresh = true ->
  run no_join (refreshBody hd (Some true) origin) cs (Some res :: ans)
  = (inr true, upd_cell SessionCsrf (Some fresh) cs, ans, [refresh_request origin stale]).
Proof.
  intros H1 H2 H3 H4 H5 H6. apply run_catch.
  rewrite (run_bind _ _ _ _ _ _ _ _ _ (run_csrfToken _ _ _ _ _ H1 H2)). rewrite H2.
  rewrite (run_bind _ _ _ _ _ _ _ _ _ (run_fetch _ _ _ _ _)).
  erewrite run_bind by (by eapply run_captureCsrf_store). simpl. by rewrite H3.
Qed.

(** The report of a server error changes nothing else. *)
Lemma run_report oj res m cs ans :
  run oj (if (500 <=? rs_status res)%Z then Log m (Ret res) else Ret res) cs ans
  = (inr res, cs, ans, []).
Proof. by case_match. Qed.

(** ** Properties *)

(** C1: every execution of [apiFetch] follows its contract: at most two requests, the second
    only after an answer that needs a refresh and a refresh that succeeded, with the same
    method, URL, body, request id and headers but the CSRF token, which only mutations
    carry; the outcome is the last answer, a network failure, or a CSRF token that could
    not be read (before a mutation, or before any second request). *)
Theorem apiFetch_refines_spec has_document has_storage rid req tr o
  (H : exec (apiFetch has_document has_storage rid req) tr o) :
  fetch_spec (set_header "x-request-id" rid req) (sent tr) (joins tr) o.
Proof. by apply exec_apiFetch in H. Qed.

Definition get_posts : Request :=
  {| rq_method := "GET"; rq_url := "/api/v1/posts"; rq_headers := ∅; rq_body := JUndef |}.
Definition answer_of (status : Z) (body : json) : Response :=
  {| rs_status := status; rs_headers := ∅; rs_json := Some body |}.

Lemma apiFetch_refines_spec_witness :
  let tr := [EFetch (set_header "x-request-id" "r1" get_posts) (Some (answer_of 401 JNull));
             EJoin true; ELoad SessionCsrf (Some (Some ("t" : jstr)));
             EFetch (set_header "x-request-id" "r1" get_posts) (Some (answer_of 200 JNull))] in
  exec (apiFetch true (Some true) "r1" get_posts) tr (inr (answer_of 200 JNull))
  /\ fetch_spec (set_header "x-request-id" "r1" get_posts) (sent tr) (joins tr) (inr (answer_of 200 JNull)).
Proof.
  intros tr. assert (H : exec (apiFetch true (Some true) "r1" get_posts) tr (inr (answer_of 200 JNull))).
  { unfold tr. simpl. repeat constructor; discriminate. }
  split; [exact H|]. exact (apiFetch_refines_spec _ _ _ _ _ _ H).
Defined.

(** C2: single flight: whatever the interleaving of calls, a refresh is started only when
    none is in flight, each sends at most one request, and a call that awaits a refresh
    awaits the one in flight. *)
Theorem single_flight has_document has_storage origin cs w
  (H : reach (refreshBody has_document has_storage origin) (is_call has_document has_storage) cs w) :
  single_flight_at (refreshBody:=refreshBody has_document has_storage origin) w.
Proof.
  by apply (reach_single_flight (entry:=is_call has_document has_storage) cs).
Qed.

(** C3: every call settles: from any reachable state, the runs without new calls are
    bounded in length, and one of them settles every call. *)
Theorem calls_settle has_document has_storage origin cs w
  (H : reach (refreshBody has_document has_storage origin) (is_call has_document has_storage) cs w) :
  settles_at (refreshBody:=refreshBody has_document has_storage origin) w.
Proof. by apply (reach_settles (entry:=is_call has_document has_storage) cs). Qed.

(** Two calls answered 401 that await one refresh. *)
Definition no_cells : Cell -> option jstr := fun _ => None.

Lemma two_waiting :
  exists w k1 k2,
    reach (refreshBody true (Some true) []) (is_call true (Some true)) no_cells w
    /\ tasks w = [Joined k1; Joined k2] /\ flights w = 1.
Proof.
  eexists _, _, _. split.
  - eapply ev_step; [eapply ev_step; [eapply ev_step; [eapply ev_step;
      [eapply ev_spawn; [eapply ev_spawn; [apply ev_refl|]|]|]|]|]|].
    + by exists "r1", get_posts.
    + by exists "r2", get_posts.
    + eapply (s_task _ _ 0); [reflexivity|]. apply (op_fetch _ _ _ (Some (answer_of 401 JNull))).
    + eapply (s_task _ _ 1); [reflexivity|]. apply (op_fetch _ _ _ (Some (answer_of 401 JNull))).
    + eapply (s_join _ _ 0); [reflexivity|done].
    + eapply (s_join _ _ 1); [reflexivity|done].
  - split; reflexivity.
Defined.

Lemma single_flight_witness :
  exists (w : World Response) k1 k2, tasks w = [Joined k1; Joined k2] /\ flights w = 1
    /\ single_flight_at (refreshBody:=refreshBody true (Some true) []) w.
Proof.
  destruct two_waiting as (w & k1 & k2 & Hr & Ht & Hf). exists w, k1, k2.
  split; [exact Ht|]. split; [exact Hf|]. exact (single_flight _ _ _ _ _ Hr).
Defined.

Lemma calls_settle_witness :
  exists (w : World Response) k1 k2, tasks w = [Joined k1; Joined k2]
    /\ settles_at (refreshBody:=refreshBody true (Some true) []) w.
Proof.
  destruct two_waiting as (w & k1 & k2 & Hr & Ht & Hf). exists w, k1, k2.
  split; [exact Ht|]. exact (calls_settle _ _ _ _ _ Hr).
Defined.

(** A call answered 401 while the cookie is malformed. *)
Lemma latched_world :
  exists w : World Response,
    reach (refreshBody true (Some true) []) (is_call true (Some true))
      (upd_cell DocumentCookie (Some "postal_csrf=%") no_cells) w
    /\ refreshing w = Settled false /\ refreshes_sent w = 0.
Proof.
  eexists. split.
  - eapply ev_step; [eapply ev_step; [eapply ev_step; [eapply ev_step; [eapply ev_step;
      [eapply ev_spawn; [apply ev_refl|]|]|]|]|]|].
    + by exists "r1", get_posts.
    + eapply (s_task _ _ 0); [reflexivity|]. apply (op_fetch _ _ _ (Some (answer_of 401 JNull))).
    + eapply (s_join _ _ 0); [reflexivity|done].
    + eapply s_refresh; [reflexivity|]. apply op_load.
    + eapply s_refresh; [reflexivity|]. apply op_load.
    + apply (s_refresh_done _ _ false false). reflexivity.
  - split; reflexivity.
Qed.

(** when storage and cookie yield no token because the cookie is malformed, the first
    refresh ends before its first [await], the variable [refreshing] keeps a promise of
    [false], and from then on no refresh is ever sent, whatever calls are issued. *)
Theorem refresh_latched :
  exists w, reach (refreshBody true (Some true) []) (is_call true (Some true))
              (upd_cell DocumentCookie (Some "postal_csrf=%") no_cells) w
    /\ refreshing w = Settled false
    /\ forall w', evolves (refreshBody true (Some true) []) (is_call true (Some true)) w w' ->
         refreshing w' = Settled false /\ refreshes_sent w' = 0.
Proof.
  destruct latched_world as (w & Hr & Hs & Hn). exists w. split; [exact Hr|]. split; [exact Hs|].
  intros w' Hw'. rewrite <- Hn. by eapply evolves_settled.
Qed.

(** C5: CSRF rotation: a mutation refused with [csrf_failed] is retried once, after a
    refresh that sent the stale token, with the token the refresh returned, which is also
    what the session storage then holds. *)
Theorem csrf_rotation has_document origin rid req cs stale fresh res1 res2 res3 b1 b2
  (Hm : is_mutating req = true) (Ha : isAuthFlow (rq_url req) = false)
  (Hs : cs SessionCsrf = Some stale) (Hst : truthy stale = true)
  (H1 : rs_status res1 = 403%Z) (Hb1 : rs_json res1 = Some b1) (Hc : code_is_csrf b1 = true)
  (H2 : rs_ok res2 = true) (Hb2 : rs_json res2 = Some b2) (Ht : csrf_of_body b2 = Some fresh)
  (Hf : truthy fresh = true) :
  let r1 := set_header "x-request-id" rid (set_header "x-csrf-token" stale req) in
  run_alone (refreshBody has_document (Some true) origin) (apiFetch has_document (Some true) rid req)
    cs [Some res1; Some res2; Some res3]
  = (inr res3, upd_cell SessionCsrf (Some fresh) cs, [],
     [r1;
      refresh_request origin stale;
      set_header "x-csrf-token" fresh r1]).
Proof.
  assert (Hok : rs_ok res1 = false) by (unfold rs_ok; rewrite H1; done).
  intros r1. unfold run_alone, apiFetch. rewrite Hm. cbv zeta.
  rewrite (run_bind _ _ _ _ _ _ _ _ _ (run_csrfToken _ _ _ _ _ Hs Hst)).
  rewrite (with_csrf_truthy stale) by done. fold r1.
  rewrite (run_bind _ _ _ _ _ _ _ _ _ (run_fetch _ _ _ _ _)).
  rewrite (run_bind _ _ _ _ _ _ _ _ _ (run_captureCsrf_skip _ _ _ _ _ _ Hok)).
  rewrite H1. cbn [Z.eqb Pos.eqb].
  rewrite (run_bind _ _ _ _ _ _ _ _ _ (run_isCsrfFailure _ _ _ _ _ H1 Hb1)).
  change (rq_url r1) with (rq_url req). rewrite Hc, Ha. cbn [andb negb].
  rewrite (run_bind _ _ _ res3 _ _ (upd_cell SessionCsrf (Some fresh) cs) []
             [refresh_request origin stale; set_header "x-csrf-token" fresh r1]).
  { by rewrite run_report. }
  erewrite run_join by (by eapply run_refreshBody).
  cbv beta iota. erewrite run_bind by (by apply run_csrfToken).
  rewrite with_csrf_truthy by done. done.
Qed.

Lemma csrf_rotation_witness :
  let req := {| rq_method := "POST"; rq_url := "/api/v1/posts"; rq_headers := ∅; rq_body := JUndef |} in
  let failed := JObj [("error", JObj [("code", JStr "csrf_failed")])] in
  let rotated := JObj [("data", JObj [("csrf_token", JStr "fresh")])] in
  run_alone (refreshBody true (Some true) []) (apiFetch true (Some true) "r1" req)
    (upd_cell SessionCsrf (Some "stale") no_cells)
    [Some (answer_of 403 failed); Some (answer_of 200 rotated); Some (answer_of 201 JNull)]
  = (inr (answer_of 201 JNull),
     upd_cell SessionCsrf (Some "fresh") (upd_cell SessionCsrf (Some "stale") no_cells), [],
     [set_header "x-request-id" "r1" (set_header "x-csrf-token" "stale" req);
      refresh_request [] "stale";
      set_header "x-csrf-token" "fresh"
        (set_header "x-request-id" "r1" (set_header "x-csrf-token" "stale" req))]).
Proof.
  intros req failed rotated.
  exact (csrf_rotation true [] "r1" req (upd_cell SessionCsrf (Some "stale") no_cells) "stale" "fresh"
    (answer_of 403 failed) (answer_of 200 rotated) (answer_of 201 JNull) failed rotated
    eq_refl eq_refl eq_refl eq_refl eq_refl eq_refl eq_refl eq_refl eq_refl eq_refl eq_refl).
Defined.


