(* ===== verification/Query.v ===== *)
(** * Queries, mutations and the query cache

    What the data hooks of both apps are made of: a call of the typed API client (the
    package that sends it is not part of the sources: a hook sees what it resolves to,
    [ApiResult]), the unwrapping of its envelope, the cache key of a query and the cache
    operations a mutation performs when it succeeds. *)
From S2P Require Import Prelude JsValue ApiError.

Local Open Scope js_scope.

(** A call of the typed client: [params.path], [params.query] and [body]. *)
Record ApiCall := { c_method : jstr; c_path : jstr; c_params : list (jstr * option jstr);
  c_query : list (jstr * option jstr); c_body : json }.

(** What it resolves to: [{ data, error, response }]. *)
Record ApiResult := { r_data : json; r_error : json; r_status : Z }.

Definition r_ok (r : ApiResult) : bool := (200 <=? r_status r)%Z && (r_status r <=? 299)%Z.

(** [v ?? d] *)
Definition nullish (v d : json) : json := match v with JUndef | JNull => d | _ => v end.

(** [v?.k] *)
Definition opt_prop (v : json) (k : jstr) : json :=
  match get_prop v k with Some w => w | None => JUndef end.

(** [v.k], which raises a TypeError on [null] and [undefined]. *)
Definition req_prop (v : json) (k : jstr) : outcome json :=
  match get_prop v k with Some w => inr w | None => inl TypeError end.

(** A value with the warnings logged on the way. *)
Definition logged (A : Type) : Type := list LogCall * A.

Section Unwrap.
(** [throw normalizeError(response.status, error)], of either app. *)
Variable normalizeError : Z -> json -> logged Exn.

Definition reject {A} (status : Z) (error : json) : logged (outcome A) :=
  let (logs, e) := normalizeError status error in (logs, inl e).

(** [if (!response.ok || !data) throw ...; return (data.data ?? [])] *)
Definition unwrap_list (r : ApiResult) : logged (outcome json) :=
  if negb (r_ok r) || negb (jtruthy (r_data r)) then reject (r_status r) (r_error r)
  else ([], match req_prop (r_data r) "data" with
            | inr v => inr (nullish v (JArr []))
            | inl e => inl e
            end).

(** [if (!response.ok || !data) throw ...; return data.data] *)
Definition unwrap_any (r : ApiResult) : logged (outcome json) :=
  if negb (r_ok r) || negb (jtruthy (r_data r)) then reject (r_status r) (r_error r)
  else ([], req_prop (r_data r) "data").

(** [if (!response.ok || !data?.data) throw ...; return data.data] *)
Definition unwrap_data (r : ApiResult) : logged (outcome json) :=
  if negb (r_ok r) || negb (jtruthy (opt_prop (r_data r) "data"))
  then reject (r_status r) (r_error r)
  else ([], req_prop (r_data r) "data").

(** [...; return data.data.k ?? d] *)
Definition unwrap_inner (k : jstr) (d : json) (r : ApiResult) : logged (outcome json) :=
  match unwrap_data r with
  | (logs, inr v) =>
      (logs, match req_prop v k with inr w => inr (nullish w d) | inl e => inl e end)
  | x => x
  end.

(** [if (!response.ok || !data?.data?.k) throw ...; return data.data.k] *)
Definition unwrap_url (k : jstr) (r : ApiResult) : logged (outcome json) :=
  let v := opt_prop (opt_prop (r_data r) "data") k in
  if negb (r_ok r) || negb (jtruthy v) then reject (r_status r) (r_error r) else ([], inr v).

(** [if (!response.ok || !data) throw ...] *)
Definition unwrap_void (r : ApiResult) : logged (outcome json) :=
  if negb (r_ok r) || negb (jtruthy (r_data r)) then reject (r_status r) (r_error r)
  else ([], inr JUndef).

(** [if (!response.ok) throw ...] *)
Definition unwrap_ok (r : ApiResult) : logged (outcome json) :=
  if negb (r_ok r) then reject (r_status r) (r_error r) else ([], inr JUndef).

(** [if (response.status === 401) return null; if (!response.ok || !data) throw ...;
    return data.data] *)
Definition unwrap_me (r : ApiResult) : logged (outcome json) :=
  if Z.eqb (r_status r) 401 then ([], inr JNull) else unwrap_any r.
End Unwrap.

(** ** Keys *)

(** An element of a query key: a string, or the object [{ from, to }]. *)
Inductive Part := KStr (s : jstr) | KRange (from to : option jstr).
Abbreviation Key := (list Part).

#[export] Instance Part_eq_dec : EqDecision Part.
Proof. solve_decision. Defined.

Record Query := { q_key : Key; q_enabled : bool; q_call : ApiCall;
  q_result : ApiResult -> logged (outcome json) }.

Inductive CacheOp :=
  | InvalidateQueries (k : Key)
  | SetQueryData (k : Key) (v : json)
  | RemoveQueries.

(** A mutation with variables of type [V]; [m_onSuccess data variables]: the cache
    operations, in order ([inl] when the callback throws). *)
Record Mutation (V : Type) := { m_call : V -> ApiCall;
  m_result : ApiResult -> logged (outcome json);
  m_onSuccess : json -> V -> outcome (list CacheOp) }.
Arguments m_call {_} _ _. Arguments m_result {_} _ _. Arguments m_onSuccess {_} _ _ _.

(** ** The cache *)

Record Entry := { e_data : json; e_stale : bool }.
Abbreviation Cache := (list (Key * Entry)).

Section Cache.
(** The cache package's test of a key against the key of a filter; its documentation:
    a filter key matches every key it is a prefix of. *)
Variable partialMatchKey : Key -> Key -> bool.

Definition set_entry (k : Key) (v : json) (c : Cache) : Cache :=
  (k, {| e_data := v; e_stale := false |}) :: keep (fun kv => negb (bool_decide (kv.1 = k))) c.

Definition cache_op (c : Cache) (o : CacheOp) : Cache :=
  match o with
  | InvalidateQueries f =>
      map (fun kv => (kv.1, {| e_data := e_data kv.2;
                               e_stale := e_stale kv.2 || partialMatchKey kv.1 f |})) c
  | SetQueryData k v => set_entry k v c
  | RemoveQueries => []
  end.

Definition cache_ops (os : list CacheOp) (c : Cache) : Cache := foldl cache_op c os.

Definition cached (k : Key) (c : Cache) : option Entry :=
  match find_first (fun kv => bool_decide (kv.1 = k)) c with
  | Some kv => Some kv.2 | None => None
  end.
End Cache.

Definition prefix_of (f k : Key) : bool := bool_decide (take (length f) k = f).

(** ** Lemmas *)

Lemma cached_invalidate pm k f c :
  cached k (cache_op pm c (InvalidateQueries f))
  = match cached k c with
    | Some e => Some {| e_data := e_data e; e_stale := e_stale e || pm k f |}
    | None => None
    end.
Proof.
  unfold cached. induction c as [|[k' e] c IH]; [done|]. simpl.
  case_bool_decide; [by subst|done].
Qed.

Lemma cached_set pm k k' v c :
  cached k (cache_op pm c (SetQueryData k' v))
  = if decide (k = k') then Some {| e_data := v; e_stale := false |} else cached k c.
Proof.
  unfold cached. simpl. destruct (decide (k = k')) as [->|Hne].
  - by rewrite bool_decide_eq_true_2.
  - rewrite bool_decide_eq_false_2 by congruence.
    induction c as [|[k1 e] c IH]; [done|]. simpl. destruct (decide (k1 = k')) as [->|H1].
    + rewrite bool_decide_eq_true_2, bool_decide_eq_false_2 by congruence. exact IH.
    + rewrite bool_decide_eq_false_2 by congruence. simpl. by case_bool_decide.
Qed.

(** Whether a list of operations leaves the entry of key [k] stale (or gone). *)
Fixpoint refetched (pm : Key -> Key -> bool) (os : list CacheOp) (k : Key) (st : bool) : bool :=
  match os with
  | [] => st
  | InvalidateQueries f :: os' => refetched pm os' k (st || pm k f)
  | SetQueryData k' _ :: os' => refetched pm os' k (if decide (k = k') then false else st)
  | RemoveQueries :: os' => refetched pm os' k st
  end.

Lemma cached_ops pm os k e c :
  Forall (fun o => o <> RemoveQueries) os -> cached k c = Some e ->
  exists e', cached k (cache_ops pm os c) = Some e' /\ e_stale e' = refetched pm os k (e_stale e).
Proof.
  intros H. revert c e. induction H as [|o os Ho _ IH]; intros c e Hc; [by eexists|].
  simpl. destruct o as [f|k' v|]; [| |done].
  - destruct (IH (cache_op pm c (InvalidateQueries f)) {| e_data := e_data e; e_stale := e_stale e || pm k f |})
      as (e' & H1 & H2); [by rewrite cached_invalidate, Hc|]. eauto.
  - pose proof (cached_set pm k k' v c) as Hs. destruct (decide (k = k')) as [Heq|Hne].
    + destruct (IH _ _ Hs) as (e' & H1 & H2). eauto.
    + rewrite Hc in Hs. destruct (IH _ _ Hs) as (e' & H1 & H2). eauto.
Qed.

Section UnwrapFacts.
Variable normalizeError : Z -> json -> logged Exn.

(** The hooks: every one of them rejects a failed response with the normalized error. *)
Definition rejects (h : ApiResult -> logged (outcome json)) : Prop :=
  forall r, r_ok r = false -> h r = reject normalizeError (r_status r) (r_error r).

(** A hook that a successful response with a [data] payload makes succeed. *)
Definition accepts (h : ApiResult -> logged (outcome json)) : Prop :=
  forall r, r_ok r = true ->
    h r = reject normalizeError (r_status r) (r_error r) \/ exists v, h r = ([], inr v).

Lemma get_prop_truthy v k : jtruthy v = true -> exists w, get_prop v k = Some w.
Proof. destruct v; simpl; try discriminate; eauto. Qed.

Lemma opt_prop_truthy v k : jtruthy (opt_prop v k) = true -> get_prop v k = Some (opt_prop v k).
Proof. unfold opt_prop. by destruct (get_prop v k). Qed.

Lemma rejects_list : rejects (unwrap_list normalizeError).
Proof. intros r H. unfold unwrap_list. by rewrite H. Qed.
Lemma rejects_any : rejects (unwrap_any normalizeError).
Proof. intros r H. unfold unwrap_any. by rewrite H. Qed.
Lemma rejects_data : rejects (unwrap_data normalizeError).
Proof. intros r H. unfold unwrap_data. by rewrite H. Qed.
Lemma rejects_inner k d : rejects (unwrap_inner normalizeError k d).
Proof.
  intros r H. unfold unwrap_inner. rewrite rejects_data by done.
  unfold reject. by destruct (normalizeError _ _).
Qed.
Lemma rejects_url k : rejects (unwrap_url normalizeError k).
Proof. intros r H. unfold unwrap_url. by rewrite H. Qed.
Lemma rejects_void : rejects (unwrap_void normalizeError).
Proof. intros r H. unfold unwrap_void. by rewrite H. Qed.
Lemma rejects_ok : rejects (unwrap_ok normalizeError).
Proof. intros r H. unfold unwrap_ok. by rewrite H. Qed.

Lemma accepts_list : accepts (unwrap_list normalizeError).
Proof.
  intros r H. unfold unwrap_list, req_prop. rewrite H. simpl.
  destruct (jtruthy (r_data r)) eqn:E; [|by left]. right.
  destruct (get_prop_truthy _ "data" E) as [w ->]. eauto.
Qed.
Lemma accepts_any : accepts (unwrap_any normalizeError).
Proof.
  intros r H. unfold unwrap_any, req_prop. rewrite H. simpl.
  destruct (jtruthy (r_data r)) eqn:E; [|by left]. right.
  destruct (get_prop_truthy _ "data" E) as [w ->]. eauto.
Qed.
Lemma accepts_data : accepts (unwrap_data normalizeError).
Proof.
  intros r H. unfold unwrap_data, req_prop. rewrite H. simpl.
  destruct (jtruthy (opt_prop (r_data r) "data")) eqn:E; [|by left]. right.
  rewrite (opt_prop_truthy _ _ E). eauto.
Qed.
Lemma accepts_inner k d : accepts (unwrap_inner normalizeError k d).
Proof.
  intros r H. unfold unwrap_inner, unwrap_data, req_prop. rewrite H. simpl.
  destruct (jtruthy (opt_prop (r_data r) "data")) eqn:E; simpl.
  - right. rewrite (opt_prop_truthy _ _ E). destruct (get_prop_truthy _ k E) as [w ->]. eauto.
  - left. unfold reject. by destruct (normalizeError _ _).
Qed.
Lemma accepts_url k : accepts (unwrap_url normalizeError k).
Proof.
  intros r H. unfold unwrap_url. rewrite H. simpl. destruct (jtruthy _); simpl; eauto.
Qed.
Lemma accepts_void : accepts (unwrap_void normalizeError).
Proof. intros r H. unfold unwrap_void. rewrite H. simpl. destruct (jtruthy _); simpl; eauto. Qed.
Lemma accepts_ok : accepts (unwrap_ok normalizeError).
Proof. intros r H. unfold unwrap_ok. rewrite H. simpl. eauto. Qed.
Lemma accepts_me : accepts (unwrap_me normalizeError).
Proof. intros r H. unfold unwrap_me. destruct (Z.eqb _ _); [eauto|by apply accepts_any]. Qed.
End UnwrapFacts.

#[export] Hint Resolve rejects_list rejects_any rejects_data rejects_inner rejects_url
  rejects_void rejects_ok accepts_list accepts_any accepts_data accepts_inner accepts_url
  accepts_void accepts_ok accepts_me : postal.
