(* ===== verification/DataWeb.v ===== *)
(** * The web data hooks: web/src/data/*.ts

    Each hook of the typed client is a [Query] or a [Mutation] of Query.v, with its key,
    its guard, the call it makes, the unwrapping of the answer and its cache operations.
    The hooks that call [fetch] themselves are in DirectWeb.v. *)
From S2P Require Import Prelude JsValue ApiError Query.

Local Open Scope js_scope.

Abbreviation reject := (reject Web.normalizeError).
Abbreviation unwrap_list := (unwrap_list Web.normalizeError).
Abbreviation unwrap_any := (unwrap_any Web.normalizeError).
Abbreviation unwrap_data := (unwrap_data Web.normalizeError).
Abbreviation unwrap_inner := (unwrap_inner Web.normalizeError).
Abbreviation unwrap_url := (unwrap_url Web.normalizeError).
Abbreviation unwrap_void := (unwrap_void Web.normalizeError).
Abbreviation unwrap_ok := (unwrap_ok Web.normalizeError).
Abbreviation unwrap_me := (unwrap_me Web.normalizeError).

(** [x ?? ""] and [Boolean(x)] on an optional identifier. *)
Definition or_empty (x : option jstr) : jstr := match x with Some s => s | None => [] end.
Definition present (x : option jstr) : bool := match x with Some s => truthy s | None => false end.

Definition GET path params query : ApiCall :=
  {| c_method := "GET"; c_path := path; c_params := params; c_query := query; c_body := JUndef |}.
Definition send method path params body : ApiCall :=
  {| c_method := method; c_path := path; c_params := params; c_query := []; c_body := body |}.

Definition ws_param (ws : option jstr) : list (jstr * option jstr) := [("workspaceID", ws)].
Definition ws_post (ws post : option jstr) : list (jstr * option jstr) :=
  [("workspaceID", ws); ("postID", post)].

(** An optional member of an object literal; [undefined] is not serialized. *)
Definition opt_str (x : option jstr) : json := match x with Some s => JStr s | None => JUndef end.

(** ** Keys *)

Module analyticsKeys.
Definition overview (ws : jstr) : Key := [KStr "workspaces"; KStr ws; KStr "analytics"].
Definition post (ws p : jstr) : Key := [KStr "workspaces"; KStr ws; KStr "analytics"; KStr p].
Definition series (ws p c m : jstr) : Key :=
  [KStr "workspaces"; KStr ws; KStr "analytics"; KStr p; KStr c; KStr m].
End analyticsKeys.

Definition authKeys_me : Key := [KStr "auth"; KStr "me"].

Module billingKeys.
Definition wallet (ws : jstr) : Key := [KStr "workspaces"; KStr ws; KStr "billing"; KStr "wallet"].
Definition ledger (ws : jstr) : Key := [KStr "workspaces"; KStr ws; KStr "billing"; KStr "ledger"].
End billingKeys.

Definition channelKeys_list (ws : jstr) : Key := [KStr "workspaces"; KStr ws; KStr "channels"].

Module governanceKeys.
Definition channels (ws user : jstr) : Key :=
  [KStr "workspaces"; KStr ws; KStr "member-channels"; KStr user].
Definition activity (ws : jstr) : Key := [KStr "workspaces"; KStr ws; KStr "activity"].
End governanceKeys.

Definition integrationKeys_list (ws : jstr) : Key :=
  [KStr "workspaces"; KStr ws; KStr "integrations"].
Definition mediaKeys_list (ws : jstr) : Key := [KStr "workspaces"; KStr ws; KStr "media"].

Module postKeys.
Definition list_ (ws : jstr) : Key := [KStr "workspaces"; KStr ws; KStr "posts"].
Definition detail (ws p : jstr) : Key := [KStr "workspaces"; KStr ws; KStr "posts"; KStr p].
End postKeys.

Module scheduleKeys.
Definition calendar (ws : jstr) (from to : option jstr) : Key :=
  [KStr "workspaces"; KStr ws; KStr "calendar"; KRange from to].
Definition slots (ws c : jstr) : Key := [KStr "workspaces"; KStr ws; KStr "slots"; KStr c].
End scheduleKeys.

Module wsKeys.
Definition list_ : Key := [KStr "workspaces"].
Definition members (id : jstr) : Key := [KStr "workspaces"; KStr id; KStr "members"].
End wsKeys.

(** ** Queries *)

Definition useAnalyticsOverview (ws : option jstr) : Query :=
  {| q_key := analyticsKeys.overview (or_empty ws); q_enabled := present ws;
     q_call := GET "/api/v1/workspaces/{workspaceID}/analytics/" (ws_param ws) [];
     q_result := unwrap_inner "posts" (JArr []) |}.

Definition usePostAnalytics (ws post : option jstr) : Query :=
  {| q_key := analyticsKeys.post (or_empty ws) (or_empty post);
     q_enabled := present ws && present post;
     q_call := GET "/api/v1/workspaces/{workspaceID}/analytics/posts/{postID}" (ws_post ws post) [];
     q_result := unwrap_inner "channels" (JArr []) |}.

Definition useMetricSeries (ws post channel : option jstr) (metric : jstr) (from to : option jstr) : Query :=
  {| q_key := analyticsKeys.series (or_empty ws) (or_empty post) (or_empty channel) metric
                ++ [KRange from to];
     q_enabled := present ws && present post && present channel && truthy metric;
     q_call := GET "/api/v1/workspaces/{workspaceID}/analytics/posts/{postID}/series"
                 (ws_post ws post)
                 [("channel_id", channel); ("metric", Some metric); ("from", from); ("to", to)];
     q_result := unwrap_inner "points" (JArr []) |}.

Definition useMe : Query :=
  {| q_key := authKeys_me; q_enabled := true; q_call := GET "/api/v1/auth/me" [] [];
     q_result := unwrap_me |}.

Definition useWallet (ws : option jstr) : Query :=
  {| q_key := billingKeys.wallet (or_empty ws); q_enabled := present ws;
     q_call := GET "/api/v1/workspaces/{workspaceID}/billing/wallet" (ws_param ws) [];
     q_result := unwrap_data |}.

Definition useLedger (ws : option jstr) : Query :=
  {| q_key := billingKeys.ledger (or_empty ws); q_enabled := present ws;
     q_call := GET "/api/v1/workspaces/{workspaceID}/billing/ledger" (ws_param ws) [];
     q_result := unwrap_list |}.

Definition useChannels (ws : option jstr) : Query :=
  {| q_key := channelKeys_list (or_empty ws); q_enabled := present ws;
     q_call := GET "/api/v1/workspaces/{workspaceID}/channels/" (ws_param ws) [];
     q_result := unwrap_list |}.

Definition useIntegrations (ws : option jstr) : Query :=
  {| q_key := integrationKeys_list (or_empty ws); q_enabled := present ws;
     q_call := GET "/api/v1/workspaces/{workspaceID}/integrations/" (ws_param ws) [];
     q_result := unwrap_list |}.

Definition useMedia (ws : option jstr) : Query :=
  {| q_key := mediaKeys_list (or_empty ws); q_enabled := present ws;
     q_call := GET "/api/v1/workspaces/{workspaceID}/media/" (ws_param ws) [];
     q_result := unwrap_list |}.

Definition usePosts (ws : option jstr) : Query :=
  {| q_key := postKeys.list_ (or_empty ws); q_enabled := present ws;
     q_call := GET "/api/v1/workspaces/{workspaceID}/posts/" (ws_param ws) [];
     q_result := unwrap_list |}.

Definition usePost (ws post : option jstr) : Query :=
  {| q_key := postKeys.detail (or_empty ws) (or_empty post);
     q_enabled := present ws && present post;
     q_call := GET "/api/v1/workspaces/{workspaceID}/posts/{postID}" (ws_post ws post) [];
     q_result := unwrap_data |}.

Definition useLinkPreview (ws url : option jstr) : Query :=
  {| q_key := [KStr "workspaces"; KStr (or_empty ws); KStr "link-preview"; KStr (or_empty url)];
     q_enabled := present ws && present url;
     q_call := GET "/api/v1/workspaces/{workspaceID}/posts/link-preview" (ws_param ws) [("url", url)];
     q_result := unwrap_data |}.

Definition useCalendar (ws : option jstr) (from to : option jstr) : Query :=
  {| q_key := scheduleKeys.calendar (or_empty ws) from to; q_enabled := present ws;
     q_call := GET "/api/v1/workspaces/{workspaceID}/calendar" (ws_param ws) [("from", from); ("to", to)];
     q_result := unwrap_inner "jobs" (JArr []) |}.

Definition useSlots (ws channel : option jstr) : Query :=
  {| q_key := scheduleKeys.slots (or_empty ws) (or_empty channel);
     q_enabled := present ws && present channel;
     q_call := GET "/api/v1/workspaces/{workspaceID}/slots/" (ws_param ws) [("channel_id", channel)];
     q_result := unwrap_list |}.

Definition useWorkspaces : Query :=
  {| q_key := wsKeys.list_; q_enabled := true; q_call := GET "/api/v1/workspaces/" [] [];
     q_result := unwrap_list |}.

Definition useMembers (ws : option jstr) : Query :=
  {| q_key := wsKeys.members (or_empty ws); q_enabled := present ws;
     q_call := GET "/api/v1/workspaces/{workspaceID}/members" (ws_param ws) [];
     q_result := unwrap_list |}.

(** ** Mutations *)

(** [onSuccess: () => qc.invalidateQueries({ queryKey: k })], for the keys in order. *)
Definition invalidates {V} (ks : list Key) (_ : json) (_ : V) : outcome (list CacheOp) :=
  inr (map InvalidateQueries ks).

(** The user of a login answer: [(data.data as Token).user]. *)
Definition unwrap_user (r : ApiResult) : logged (outcome json) :=
  match unwrap_any r with
  | (logs, inr v) => (logs, req_prop v "user")
  | x => x
  end.

Definition useLogin : Mutation json :=
  {| m_call body := send "POST" "/api/v1/auth/login" [] body; m_result := unwrap_user;
     m_onSuccess user _ := inr [SetQueryData authKeys_me user] |}.

Definition useSignup : Mutation json :=
  {| m_call body := send "POST" "/api/v1/auth/signup" [] body; m_result := unwrap_any;
     m_onSuccess := invalidates [] |}.

Definition useLogout : Mutation unit :=
  {| m_call _ := send "POST" "/api/v1/auth/logout" [] (JObj []); m_result := unwrap_ok;
     m_onSuccess _ _ := inr [SetQueryData authKeys_me JNull; RemoveQueries] |}.

Definition useVerifyEmail : Mutation jstr :=
  {| m_call token := send "POST" "/api/v1/auth/verify-email" [] (JObj [("token", JStr token)]);
     m_result := unwrap_ok; m_onSuccess := invalidates [] |}.

Definition useRequestReset : Mutation jstr :=
  {| m_call email := send "POST" "/api/v1/auth/password-reset/request" [] (JObj [("email", JStr email)]);
     m_result := unwrap_ok; m_onSuccess := invalidates [] |}.

Definition useConfirmReset : Mutation (jstr * jstr) :=
  {| m_call v := send "POST" "/api/v1/auth/password-reset/confirm" []
                   (JObj [("token", JStr v.1); ("new_password", JStr v.2)]);
     m_result := unwrap_ok; m_onSuccess := invalidates [] |}.

Definition useTopup (ws : jstr) : Mutation (jstr * Z) :=
  {| m_call v := send "POST" "/api/v1/workspaces/{workspaceID}/billing/topup" (ws_param (Some ws))
                   (JObj [("provider", JStr v.1); ("credits", JNum v.2)]);
     m_result := unwrap_url "checkout_url";
     m_onSuccess := invalidates [billingKeys.wallet ws; billingKeys.ledger ws] |}.

Definition useConnectChannel (ws : jstr) : Mutation jstr :=
  {| m_call platform := send "POST" "/api/v1/workspaces/{workspaceID}/channels/connect"
                          (ws_param (Some ws)) (JObj [("platform", JStr platform)]);
     m_result := unwrap_url "authorize_url"; m_onSuccess := invalidates [] |}.

Definition useCompleteOAuth : Mutation (jstr * jstr) :=
  {| m_call v := GET "/api/v1/channels/oauth/callback" [] [("state", Some v.1); ("code", Some v.2)];
     m_result := unwrap_data; m_onSuccess := invalidates [[KStr "workspaces"]] |}.

Definition useDisconnectChannel (ws : jstr) : Mutation jstr :=
  {| m_call c := send "DELETE" "/api/v1/workspaces/{workspaceID}/channels/{channelID}"
                   [("workspaceID", Some ws); ("channelID", Some c)] JUndef;
     m_result := unwrap_void; m_onSuccess := invalidates [channelKeys_list ws] |}.

Record ConfigureIntegrationInput := { ci_provider : jstr; ci_enabled : bool;
  ci_autoApply : option bool; ci_apiKey : option jstr }.

Definition useConfigureIntegration (ws : jstr) : Mutation ConfigureIntegrationInput :=
  {| m_call v := send "PUT" "/api/v1/workspaces/{workspaceID}/integrations/{provider}"
       [("workspaceID", Some ws); ("provider", Some (ci_provider v))]
       (JObj [("enabled", JBool (ci_enabled v));
              ("auto_apply", JBool match ci_autoApply v with Some b => b | None => false end);
              ("api_key", match ci_apiKey v with Some k => JStr k | None => JNull end)]);
     m_result := unwrap_data; m_onSuccess := invalidates [integrationKeys_list ws] |}.

Definition useShortenLinks (ws : jstr) : Mutation jstr :=
  {| m_call text := send "POST" "/api/v1/workspaces/{workspaceID}/integrations/ogshortener/shorten"
                      (ws_param (Some ws)) (JObj [("text", JStr text)]);
     m_result := unwrap_inner "text" (JStr []); m_onSuccess := invalidates [] |}.

Definition useDeleteMedia (ws : jstr) : Mutation jstr :=
  {| m_call m := send "DELETE" "/api/v1/workspaces/{workspaceID}/media/{mediaID}"
                   [("workspaceID", Some ws); ("mediaID", Some m)] JUndef;
     m_result := unwrap_void; m_onSuccess := invalidates [mediaKeys_list ws] |}.

(** The [variants] of a request body, already serialized. *)
Definition variants_body (variants : json) : json := JObj [("variants", variants)].

Definition useCreatePost (ws : jstr) : Mutation json :=
  {| m_call variants := send "POST" "/api/v1/workspaces/{workspaceID}/posts/" (ws_param (Some ws))
                          (variants_body variants);
     m_result := unwrap_data; m_onSuccess := invalidates [postKeys.list_ ws] |}.

Definition useUpdatePost (ws : jstr) : Mutation (jstr * json) :=
  {| m_call v := send "PUT" "/api/v1/workspaces/{workspaceID}/posts/{postID}"
                   (ws_post (Some ws) (Some v.1)) (variants_body v.2);
     m_result := unwrap_data;
     m_onSuccess post _ :=
       match req_prop post "id" with
       | inr id => inr [InvalidateQueries (postKeys.list_ ws);
                        SetQueryData (postKeys.detail ws (to_key id)) post]
       | inl e => inl e
       end |}.

Definition useDeletePost (ws : jstr) : Mutation jstr :=
  {| m_call p := send "DELETE" "/api/v1/workspaces/{workspaceID}/posts/{postID}"
                   (ws_post (Some ws) (Some p)) JUndef;
     m_result := unwrap_void; m_onSuccess := invalidates [postKeys.list_ ws] |}.

Definition useValidatePost (ws : jstr) : Mutation jstr :=
  {| m_call p := send "POST" "/api/v1/workspaces/{workspaceID}/posts/{postID}/validate"
                   (ws_post (Some ws) (Some p)) JUndef;
     m_result := unwrap_inner "variants" (JArr []); m_onSuccess := invalidates [] |}.

Definition useUtmPreview (ws : jstr) : Mutation json :=
  {| m_call body := send "POST" "/api/v1/workspaces/{workspaceID}/posts/utm-preview"
                      (ws_param (Some ws)) body;
     m_result := unwrap_inner "text" (JStr []); m_onSuccess := invalidates [] |}.

Record ScheduleInput := { si_postId : jstr; si_runAt : option jstr; si_toSlots : option bool }.

Definition useSchedulePost (ws : jstr) : Mutation ScheduleInput :=
  {| m_call v := send "POST" "/api/v1/workspaces/{workspaceID}/schedule" (ws_param (Some ws))
       (JObj [("post_id", JStr (si_postId v)); ("run_at", opt_str (si_runAt v));
              ("to_slots", match si_toSlots v with Some b => JBool b | None => JUndef end)]);
     m_result := unwrap_inner "jobs" (JArr []);
     m_onSuccess := invalidates [[KStr "workspaces"; KStr ws; KStr "calendar"];
                                 [KStr "workspaces"; KStr ws; KStr "posts"]] |}.

Definition useCancelJob (ws : jstr) : Mutation jstr :=
  {| m_call j := send "DELETE" "/api/v1/workspaces/{workspaceID}/scheduled-jobs/{jobID}"
                   [("workspaceID", Some ws); ("jobID", Some j)] JUndef;
     m_result := unwrap_void;
     m_onSuccess := invalidates [[KStr "workspaces"; KStr ws; KStr "calendar"]] |}.

Definition useCreateSlot (ws : jstr) : Mutation json :=
  {| m_call body := send "POST" "/api/v1/workspaces/{workspaceID}/slots/" (ws_param (Some ws)) body;
     m_result := unwrap_data;
     m_onSuccess slot _ :=
       match req_prop slot "channel_id" with
       | inr c => inr [InvalidateQueries (scheduleKeys.slots ws (to_key c))]
       | inl e => inl e
       end |}.

(** Variables: the slot and its channel. *)
Definition useDeleteSlot (ws : jstr) : Mutation (jstr * jstr) :=
  {| m_call v := {| c_method := "DELETE"; c_path := "/api/v1/workspaces/{workspaceID}/slots/{slotID}";
                    c_params := [("workspaceID", Some ws); ("slotID", Some v.1)];
                    c_query := [("channel_id", Some v.2)]; c_body := JUndef |};
     m_result := unwrap_void;
     m_onSuccess _ v := inr [InvalidateQueries (scheduleKeys.slots ws v.2)] |}.

Definition useAddMember (ws : jstr) : Mutation json :=
  {| m_call body := send "POST" "/api/v1/workspaces/{workspaceID}/members" (ws_param (Some ws)) body;
     m_result := unwrap_any; m_onSuccess := invalidates [wsKeys.members ws] |}.

(** Variables: the user, and the rest of the input. *)
Definition useUpdateCapabilities (ws : jstr) : Mutation (jstr * json) :=
  {| m_call v := send "PATCH" "/api/v1/workspaces/{workspaceID}/members/{userID}/capabilities"
                   [("workspaceID", Some ws); ("userID", Some v.1)] v.2;
     m_result := unwrap_any; m_onSuccess := invalidates [wsKeys.members ws] |}.

(** ** All the queries, and the mutations that write *)

Inductive WebQuery :=
  | qAnalyticsOverview (ws : option jstr) | qPostAnalytics (ws post : option jstr)
  | qMetricSeries (ws post channel : option jstr) (metric : jstr) (from to : option jstr)
  | qMe | qWallet (ws : option jstr) | qLedger (ws : option jstr) | qChannels (ws : option jstr)
  | qIntegrations (ws : option jstr) | qMedia (ws : option jstr) | qPosts (ws : option jstr)
  | qPost (ws post : option jstr) | qLinkPreview (ws url : option jstr)
  | qCalendar (ws from to : option jstr) | qSlots (ws channel : option jstr)
  | qWorkspaces | qMembers (ws : option jstr).

Definition web_query (q : WebQuery) : Query :=
  match q with
  | qAnalyticsOverview ws => useAnalyticsOverview ws
  | qPostAnalytics ws p => usePostAnalytics ws p
  | qMetricSeries ws p c m f t => useMetricSeries ws p c m f t
  | qMe => useMe | qWallet ws => useWallet ws | qLedger ws => useLedger ws
  | qChannels ws => useChannels ws | qIntegrations ws => useIntegrations ws
  | qMedia ws => useMedia ws | qPosts ws => usePosts ws | qPost ws p => usePost ws p
  | qLinkPreview ws u => useLinkPreview ws u | qCalendar ws f t => useCalendar ws f t
  | qSlots ws c => useSlots ws c | qWorkspaces => useWorkspaces | qMembers ws => useMembers ws
  end.

Inductive WebWrite :=
  | wTopup (ws : jstr) (v : jstr * Z) | wCompleteOAuth (v : jstr * jstr)
  | wDisconnect (ws c : jstr) | wConfigure (ws : jstr) (v : ConfigureIntegrationInput)
  | wDeleteMedia (ws m : jstr) | wCreatePost (ws : jstr) (v : json)
  | wUpdatePost (ws : jstr) (v : jstr * json) | wDeletePost (ws p : jstr)
  | wSchedule (ws : jstr) (v : ScheduleInput) | wCancelJob (ws j : jstr)
  | wCreateSlot (ws : jstr) (v : json) | wDeleteSlot (ws : jstr) (v : jstr * jstr)
  | wAddMember (ws : jstr) (v : json) | wUpdateCapabilities (ws : jstr) (v : jstr * json).

Definition on_success (w : WebWrite) (data : json) : outcome (list CacheOp) :=
  match w with
  | wTopup ws v => m_onSuccess (useTopup ws) data v
  | wCompleteOAuth v => m_onSuccess useCompleteOAuth data v
  | wDisconnect ws c => m_onSuccess (useDisconnectChannel ws) data c
  | wConfigure ws v => m_onSuccess (useConfigureIntegration ws) data v
  | wDeleteMedia ws m => m_onSuccess (useDeleteMedia ws) data m
  | wCreatePost ws v => m_onSuccess (useCreatePost ws) data v
  | wUpdatePost ws v => m_onSuccess (useUpdatePost ws) data v
  | wDeletePost ws p => m_onSuccess (useDeletePost ws) data p
  | wSchedule ws v => m_onSuccess (useSchedulePost ws) data v
  | wCancelJob ws j => m_onSuccess (useCancelJob ws) data j
  | wCreateSlot ws v => m_onSuccess (useCreateSlot ws) data v
  | wDeleteSlot ws v => m_onSuccess (useDeleteSlot ws) data v
  | wAddMember ws v => m_onSuccess (useAddMember ws) data v
  | wUpdateCapabilities ws v => m_onSuccess (useUpdateCapabilities ws) data v
  end.

(** The queries whose cached answer a successful write makes stale.  The answer [data] of
    the write matters twice: the updated post replaces the detail it was read from, and a
    new slot names its channel. *)
Definition same_ws (ws : option jstr) (w : jstr) : bool := bool_decide (or_empty ws = w).

Definition outdated (w : WebWrite) (data : json) (q : WebQuery) : bool :=
  match w, q with
  | wTopup w _, (qWallet ws | qLedger ws) => same_ws ws w
  | wCompleteOAuth _, qMe => false
  | wCompleteOAuth _, _ => true
  | wDisconnect w _, qChannels ws => same_ws ws w
  | wConfigure w _, qIntegrations ws => same_ws ws w
  | wDeleteMedia w _, qMedia ws => same_ws ws w
  | (wCreatePost w _ | wUpdatePost w _ | wDeletePost w _), qPosts ws => same_ws ws w
  | (wCreatePost w _ | wDeletePost w _), qPost ws _ => same_ws ws w
  | wUpdatePost w _, qPost ws p =>
      same_ws ws w && negb (bool_decide (or_empty p = to_key (opt_prop data "id")))
  | wSchedule w _, (qPosts ws | qPost ws _ | qCalendar ws _ _) => same_ws ws w
  | wCancelJob w _, qCalendar ws _ _ => same_ws ws w
  | wCreateSlot w _, qSlots ws c =>
      same_ws ws w && bool_decide (or_empty c = to_key (opt_prop data "channel_id"))
  | wDeleteSlot w v, qSlots ws c => same_ws ws w && bool_decide (or_empty c = v.2)
  | (wAddMember w _ | wUpdateCapabilities w _), qMembers ws => same_ws ws w
  | _, _ => false
  end.

(** ** Lemmas *)

Lemma or_empty_inj a b :
  present a = true -> present b = true -> or_empty a = or_empty b -> a = b.
Proof. destruct a, b; simpl; congruence. Qed.

Ltac merge_ids :=
  repeat match goal with
  | H : _ && _ = true |- _ => apply andb_true_iff in H as [? ?]
  | H : or_empty ?a = or_empty ?b |- _ =>
      apply or_empty_inj in H; [|assumption|assumption]
  end; subst.

Lemma query_key_inj q1 q2 :
  q_enabled (web_query q1) = true -> q_enabled (web_query q2) = true ->
  q_key (web_query q1) = q_key (web_query q2) -> q1 = q2.
Proof.
  destruct q1, q2; simpl; intros H1 H2 Hk; try discriminate Hk; try reflexivity;
    injection Hk; intros; subst; merge_ids; reflexivity.
Qed.

Lemma or_empty_present ws : present ws = true -> ws = Some (or_empty ws).
Proof. by destruct ws. Qed.

Lemma query_scoped q :
  q_enabled (web_query q) = true ->
  q = qMe \/ q = qWorkspaces \/
  exists ws, take 2 (q_key (web_query q)) = [KStr "workspaces"; KStr ws]
    /\ head (c_params (q_call (web_query q))) = Some ("workspaceID" : jstr, Some ws).
Proof.
  destruct q as [ws|ws ?|ws ? ? ? ? ?| |ws|ws|ws|ws|ws|ws|ws ?|ws ?|ws ? ?|ws ?| |ws]; simpl; intros H;
    try (by left); try (by right; left); right; right; exists (or_empty ws); (split; [done|]);
    merge_ids; by rewrite <- (or_empty_present ws).
Qed.

Lemma req_prop_opt v k w : req_prop v k = inr w -> opt_prop v k = w.
Proof. unfold req_prop, opt_prop. destruct (get_prop v k); congruence. Qed.

Lemma prefix_match (pm : Key -> Key -> bool) f k :
  (forall k f, pm k f = prefix_of f k) -> pm k f = bool_decide (take (length f) k = f).
Proof. intros H. by rewrite H. Qed.

Lemma outdated_iff pm w data ops q :
  (forall k f, pm k f = prefix_of f k) -> on_success w data = inr ops ->
  refetched pm ops (q_key (web_query q)) false = outdated w data q.
Proof.
  intros Hpm H.
  assert (Hid : forall k x, req_prop data k = inr x -> opt_prop data k = x) by (intros; by apply req_prop_opt).
  destruct w; simpl in H;
    unfold invalidates, billingKeys.wallet, billingKeys.ledger, channelKeys_list,
      integrationKeys_list, mediaKeys_list, postKeys.list_, postKeys.detail, scheduleKeys.slots,
      wsKeys.members in H;
    try (destruct (req_prop data _) as [?|x] eqn:E; [discriminate H|]; apply Hid in E);
    injection H as <-; destruct q; cbn [refetched outdated map]; rewrite ?Hpm; unfold prefix_of, same_ws;
    rewrite ?E; cbn; unfold postKeys.detail, scheduleKeys.slots in *;
    repeat case_bool_decide; repeat case_decide; simplify_eq/=; try done; try congruence.
Qed.

(** ** Properties *)

(** C11: the query cache is sound: two enabled queries that share a key are the same hook
    with the same arguments, so a cached answer is always the answer to the very request
    (path, parameters, query string) and decoding of whoever reads it. *)
Theorem web_cache_sound q1 q2
  (H1 : q_enabled (web_query q1) = true) (H2 : q_enabled (web_query q2) = true)
  (Hk : q_key (web_query q1) = q_key (web_query q2)) :
  q_call (web_query q1) = q_call (web_query q2)
  /\ q_result (web_query q1) = q_result (web_query q2).
Proof. by rewrite (query_key_inj q1 q2 H1 H2 Hk). Qed.

Lemma web_cache_sound_witness :
  let q := qPost (Some "w1") (Some "p1") in
  q_call (web_query q) = q_call (web_query q) /\ q_result (web_query q) = q_result (web_query q).
Proof. intros q. apply (web_cache_sound q q); reflexivity. Defined.

(** workspaces are isolated: an enabled query other than the user's own two is keyed
    under its workspace and asks the server for that workspace only. *)
Theorem web_workspace_scoped q (H : q_enabled (web_query q) = true) :
  q = qMe \/ q = qWorkspaces \/
  exists ws, take 2 (q_key (web_query q)) = [KStr "workspaces"; KStr ws]
    /\ head (c_params (q_call (web_query q))) = Some ("workspaceID" : jstr, Some ws).
Proof. by apply query_scoped. Qed.

Lemma web_workspace_scoped_witness :
  exists ws, take 2 (q_key (web_query (qSlots (Some "w1") (Some "c1")))) = [KStr "workspaces"; KStr ws]
    /\ head (c_params (q_call (web_query (qSlots (Some "w1") (Some "c1")))))
       = Some ("workspaceID" : jstr, Some ws).
Proof.
  destruct (web_workspace_scoped (qSlots (Some "w1") (Some "c1")) eq_refl) as [H|[H|H]];
    [discriminate H|discriminate H|exact H].
Defined.



(** every query fails the same way: a failed response rejects with exactly what the
    normalizer makes of its status and body (a 401 of the session query is an answer, not
    an error); a successful one is either unwrapped without an exception or, when its
    payload is missing, rejected by the normalizer. *)
Theorem web_query_errors q r :
  (r_ok r = false -> ~ (q = qMe /\ r_status r = 401%Z) ->
   q_result (web_query q) r = reject (r_status r) (r_error r))
  /\ (r_ok r = true ->
      q_result (web_query q) r = reject (r_status r) (r_error r)
      \/ exists v, q_result (web_query q) r = ([], inr v)).
Proof.
  split; intros H; [intros Hme|].
  - destruct q; simpl; try (first [by apply rejects_list|by apply rejects_data|by apply rejects_inner]).
    unfold Query.unwrap_me. destruct (Z.eqb_spec (r_status r) 401) as [E|E].
    + by destruct Hme.
    + by apply rejects_any.
  - destruct q; simpl;
      first [by apply accepts_list|by apply accepts_data|by apply accepts_inner|by apply accepts_me].
Qed.

Lemma web_query_errors_witness :
  let r := {| r_data := JUndef; r_error := JNull; r_status := 404 |} in
  q_result (web_query (qPosts (Some "w1"))) r = reject 404 JNull.
Proof.
  intros r. apply (proj1 (web_query_errors (qPosts (Some "w1")) r)); [reflexivity|].
  intros [H _]. discriminate H.
Defined.
