(* ===== verification/MobileClient.v ===== *)
(** * The mobile session and API client: mobile/src/lib/secure-session.ts,
    mobile/src/api/client.ts

    The access token is the variable [AccessToken], the refresh token the keystore entry
    [KeystoreRefresh].  Besides [apiFetch], the helpers that call [fetch] themselves
    (mobile/src/data: authedFetch, uploadMedia, useConnectManual) retry once on 401 in the
    same way. *)
From S2P Require Import Prelude JsValue ApiError Async SingleFlight ApiClient Query.

Local Open Scope js_scope.
Local Open Scope prog_scope.

(** ** secure-session.ts *)

Definition getAccessToken : prog (option jstr) :=
  Load AccessToken (fun x => Ret match x with Some t => t | None => None end).

Definition setAccessToken (token : option jstr) : prog unit :=
  Store AccessToken token (fun _ => Ret tt).

(** A failed read is [null]. *)
Definition getRefreshToken : prog (option jstr) :=
  Load KeystoreRefresh (fun x => Ret match x with Some t => t | None => None end).

(** A falsy token deletes the entry; a failed write is ignored. *)
Definition setRefreshToken (token : option jstr) : prog unit :=
  match token with
  | Some t => if truthy t then Store KeystoreRefresh (Some t) (fun _ => Ret tt)
              else Store KeystoreRefresh None (fun _ => Ret tt)
  | None => Store KeystoreRefresh None (fun _ => Ret tt)
  end.

Definition saveSession (access : jstr) (refresh : option jstr) : prog unit :=
  setAccessToken (Some access);;;
  match refresh with
  | Some t => if truthy t then setRefreshToken (Some t) else Ret tt
  | None => Ret tt
  end.

Definition clearSession : prog unit :=
  setAccessToken None;;; setRefreshToken None.

(** ** client.ts *)

(** A property read off the answer of the server, as the string it is declared to be:
    absent when it is falsy. *)
Definition string_prop (v : json) (k : jstr) : option jstr :=
  let w := opt_prop v k in if jtruthy w then Some (to_key w) else None.

Definition AUTH_PATHS : list jstr := ["/auth/refresh"; "/auth/login"; "/auth/logout"].
Definition is_auth_path (url : jstr) : bool := existsb (includes url) AUTH_PATHS.

Definition bearer (t : jstr) : jstr := "Bearer " ++ t.

Section Client.
Variable API_ORIGIN : jstr.

Definition refresh_call (refresh : jstr) : Request :=
  {| rq_method := "POST"; rq_url := API_ORIGIN ++ "/api/v1/auth/refresh";
     rq_headers := {["content-type" := "application/json"]};
     rq_body := JObj [("refresh_token", JStr refresh)] |}.

(** The body of the promise [refreshing]. *)
Definition refreshBody : prog bool :=
  catch
    (refresh <- getRefreshToken;;
     match refresh with
     | Some r =>
         if truthy r then
           res <- fetch (refresh_call r);;
           if negb (rs_ok res) then Ret false
           else ReadJson res (fun j =>
             match j with
             | None => Throw (JsError "SyntaxError")
             | Some body =>
                 match get_prop body "data" with
                 | None => Throw TypeError
                 | Some data =>
                     match string_prop data "access_token" with
                     | None => Ret false
                     | Some access =>
                         saveSession access (string_prop data "refresh_token");;; Ret true
                     end
                 end
             end)
         else Ret false
     | None => Ret false
     end)
    (fun _ => Ret false).

(** [if (token) headers.set("Authorization", ...)] *)
Definition with_bearer (token : option jstr) (r : Request) : Request :=
  match token with
  | Some t => if truthy t then set_header "authorization" (bearer t) r else r
  | None => r
  end.

(** [apiFetch(request)]; [rid] is the random request id. *)
Definition apiFetch (rid : jstr) (request : Request) : prog Response :=
  token <- getAccessToken;;
  let request := set_header "x-request-id" rid (with_bearer token request) in
  let retry := request in
  res <- fetch request;;
  res <- (if Z.eqb (rs_status res) 401 && negb (is_auth_path (rq_url request)) then
            JoinRefresh (fun ok =>
              if ok then
                token <- getAccessToken;;
                fetch (set_header "authorization"
                         (bearer match token with Some t => t | None => [] end) retry)
              else Ret res)
          else Ret res);;
  if (500 <=? rs_status res)%Z then
    Log {| lc_message := "api server error";
           lc_fields := [("requestId", match rs_headers res !! ("x-request-id" : jstr) with
                                       | Some i => JStr i | None => JUndef end);
                         ("status", JNum (rs_status res))] |} (Ret res)
  else Ret res.

(** The direct calls: [run] reads the token each time it is called. *)
Definition send_bearer (r : Request) : prog Response :=
  token <- getAccessToken;; fetch (with_bearer token r).

Definition refresh_once (r : Request) : prog Response :=
  res <- send_bearer r;;
  if Z.eqb (rs_status res) 401 then
    JoinRefresh (fun ok => if ok then send_bearer r else Ret res)
  else Ret res.

(** governance.ts: [authedFetch(path, init)]. *)
Definition authedFetch (path method : jstr) (headers : gmap jstr jstr) (body : json) : prog Response :=
  refresh_once {| rq_method := method; rq_url := API_ORIGIN ++ path; rq_headers := headers;
                  rq_body := body |}.

(** [await res.json().catch(() => d)] *)
Definition read_json_or (d : json) (res : Response) : prog json :=
  ReadJson res (fun j => Ret match j with Some b => b | None => d end).

(** [throw normalizeError(status, body)], after its warnings. *)
Fixpoint log_all {A} (logs : list LogCall) (p : prog A) : prog A :=
  match logs with [] => p | m :: ms => Log m (log_all ms p) end.
Definition throw_normalized {A} (status : Z) (body : json) : prog A :=
  let (logs, e) := Mobile.normalizeError status body in log_all logs (Throw e).

(** governance.ts: [authedJSON(path, init)]; [body?.data ?? body]. *)
Definition authedJSON (path method : jstr) (headers : gmap jstr jstr) (body : json) : prog json :=
  res <- authedFetch path method headers body;;
  b <- read_json_or JUndef res;;
  if negb (rs_ok res) then throw_normalized (rs_status res) b
  else Ret (nullish (opt_prop b "data") b).

(** media.ts: [uploadMedia]; the form is [{ uri, name, type }] under the field [file]. *)
Record PickedFile := { pf_uri : jstr; pf_name : jstr; pf_mime : jstr }.
Definition form_of (f : PickedFile) : json :=
  JObj [("file", JObj [("uri", JStr (pf_uri f)); ("name", JStr (pf_name f)); ("type", JStr (pf_mime f))])].

Definition uploadMedia (ws : jstr) (file : PickedFile) : prog json :=
  res <- refresh_once {| rq_method := "POST";
           rq_url := API_ORIGIN ++ "/api/v1/workspaces/" ++ ws ++ "/media/";
           rq_headers := ∅; rq_body := form_of file |};;
  body <- read_json_or JNull res;;
  let data := opt_prop body "data" in
  if negb (Z.eqb (rs_status res) 201) || negb (jtruthy data)
  then throw_normalized (rs_status res) body else Ret data.

(** channels.ts: the mutation of [useConnectManual]. *)
Definition connectManual (ws : jstr) (body : json) : prog unit :=
  res <- refresh_once {| rq_method := "POST";
           rq_url := API_ORIGIN ++ "/api/v1/workspaces/" ++ ws ++ "/channels/connect-manual";
           rq_headers := {["content-type" := "application/json"]}; rq_body := body |};;
  if negb (rs_ok res) then err <- read_json_or JUndef res;; throw_normalized (rs_status res) err
  else Ret tt.

(** auth.ts: the mutation of [useResendVerification]. *)
Definition resendVerification (email : jstr) : prog unit :=
  res <- fetch {| rq_method := "POST"; rq_url := API_ORIGIN ++ "/api/v1/auth/verify-email/resend";
                  rq_headers := {["content-type" := "application/json"]};
                  rq_body := JObj [("email", JStr email)] |};;
  if negb (rs_ok res) then err <- read_json_or JUndef res;; throw_normalized (rs_status res) err
  else Ret tt.

(** auth.ts: login and logout.  [api] is the typed client's send over [apiFetch]. *)
Section Session.
Variable api : ApiCall -> prog ApiResult.

Definition settle {A} (x : list LogCall * outcome A) : prog A :=
  match x with
  | (logs, inr a) => log_all logs (Ret a)
  | (logs, inl e) => log_all logs (Throw e)
  end.

Definition login_call (body : json) : ApiCall :=
  {| c_method := "POST"; c_path := "/api/v1/auth/login"; c_params := []; c_query := []; c_body := body |}.
Definition logout_call : ApiCall :=
  {| c_method := "POST"; c_path := "/api/v1/auth/logout"; c_params := []; c_query := [];
     c_body := JObj [] |}.

Definition login (body : json) : prog json :=
  r <- api (login_call body);;
  token <- settle (unwrap_any Mobile.normalizeError r);;
  match get_prop token "access_token" with
  | None => Throw TypeError
  | Some access =>
      saveSession (to_key access) (string_prop token "refresh_token");;;
      Ret (opt_prop token "user")
  end.

Definition logout : prog unit :=
  api logout_call;;; clearSession.
End Session.
End Client.

(** ** Lemmas *)

Lemma quiet_getAccessToken : quiet getAccessToken.
Proof. apply quiet_load. auto with postal. Qed.

Lemma getAccessToken_total tr e : ~ exec getAccessToken tr (inl e).
Proof. intros H. exec_step H. by exec_step H. Qed.

Lemma with_bearer_truthy t r : truthy t = true -> with_bearer (Some t) r = set_header "authorization" (bearer t) r.
Proof. intros H. unfold with_bearer. by rewrite H. Qed.

Lemma within_getAccessToken c : within c 1 getAccessToken.
Proof. repeat constructor. Qed.

Lemma within_saveSession c a r : within c 2 (saveSession a r).
Proof. unfold saveSession, setRefreshToken. simpl. repeat case_match; repeat constructor. Qed.

Lemma within_send_bearer c r : within c 2 (send_bearer r).
Proof. apply (within_bind c 1 1); [apply within_getAccessToken|]. intros. apply within_fetch. Qed.

Section Facts.
Variable API_ORIGIN : jstr.

Lemma mobile_within_refreshBody : within 0 5 (refreshBody API_ORIGIN).
Proof.
  change 5 with ((1 + (1 + (1 + 2))) + 0). apply within_catch; [|constructor].
  apply within_bind; [repeat constructor|]. intros [r|]; [|constructor].
  destruct (truthy r); [|constructor].
  apply within_bind; [apply within_fetch|]. intros res. destruct (negb (rs_ok res)); [constructor|].
  constructor. intros [b|]; [|constructor]. destruct (get_prop b "data") as [d|]; [|constructor].
  destruct (string_prop d "access_token") as [a|]; [|constructor].
  apply (within_bind 0 2 0); [apply within_saveSession|]. constructor.
Qed.

Lemma joinless_saveSession a r : joinless (saveSession a r).
Proof. unfold saveSession, setRefreshToken. simpl. repeat case_match; repeat constructor. Qed.

Lemma mobile_solo_refreshBody : solo (refreshBody API_ORIGIN).
Proof.
  apply solo_catch; [|constructor].
  apply joinless_bind; [repeat constructor|]. intros [r|]; [|constructor].
  destruct (truthy r); [|constructor].
  apply joinless_bind; [by constructor; intros [|]; constructor|]. intros res.
  destruct (negb (rs_ok res)); [constructor|].
  constructor. intros [b|]; [|constructor]. destruct (get_prop b "data") as [d|]; [|constructor].
  destruct (string_prop d "access_token") as [a|]; [|constructor].
  apply joinless_bind; [apply joinless_saveSession|]. constructor.
Qed.

Lemma mobile_fetches_refreshBody : fetches 1 (refreshBody API_ORIGIN).
Proof.
  apply fetches_catch; [|constructor]. change 1 with (0 + (1 + 0)).
  apply fetches_bind; [repeat constructor|]. intros [r|]; [|constructor].
  destruct (truthy r); [|constructor].
  apply fetches_bind; [by constructor; intros [|]; constructor|]. intros res.
  destruct (negb (rs_ok res)); [constructor|].
  constructor. intros [b|]; [|constructor]. destruct (get_prop b "data") as [d|]; [|constructor].
  destruct (string_prop d "access_token") as [a|]; [|constructor].
  apply (fetches_bind 0 0); [|constructor].
  unfold saveSession, setRefreshToken. simpl. repeat case_match; repeat constructor.
Qed.

Lemma mobile_within_apiFetch rid req : within 6 (1 + (1 + (9 + 1))) (apiFetch rid req).
Proof.
  unfold apiFetch. cbv zeta.
  apply within_bind; [apply within_getAccessToken|]. intros t.
  apply within_bind; [apply within_fetch|]. intros res.
  apply within_bind; [|intros res'; case_match; repeat constructor].
  case_match; [|constructor]. apply w_join with (c := 6) (n := 2). intros [|]; [|constructor].
  apply (within_bind 6 1 1); [apply within_getAccessToken|]. intros. apply within_fetch.
Qed.

Lemma within_refresh_once r : within 6 (2 + 9) (refresh_once r).
Proof.
  apply within_bind; [apply within_send_bearer|]. intros res.
  case_match; [|constructor]. apply w_join with (c := 6) (n := 2). intros [|]; [|constructor].
  apply within_send_bearer.
Qed.

(** The calls of the application: through the typed client or directly. *)
Definition is_call (p : prog Response) : Prop :=
  (exists rid req, p = apiFetch rid req) \/ exists req, p = refresh_once req.

#[export] Instance mobile_client : RefreshClient (refreshBody API_ORIGIN) is_call.
Proof.
  refine {| rc_cost := 5 |}.
  - apply mobile_within_refreshBody.
  - apply mobile_solo_refreshBody.
  - apply mobile_fetches_refreshBody.
  - intros p [(rid & req & ->)|(req & ->)]; eexists; [apply mobile_within_apiFetch|apply within_refresh_once].
Defined.
End Facts.

(** ** The contract of the calls *)

(** Same call: only the Authorization header may differ. *)
Definition same_but_auth (r r' : Request) : Prop :=
  rq_method r' = rq_method r /\ rq_url r' = rq_url r /\ rq_body r' = rq_body r
  /\ forall k, k <> ("authorization" : jstr) -> rq_headers r' !! k = rq_headers r !! k.

(** [auth_spec loops req sent joins o]: a request [req], on an endpoint that must not
    refresh when [loops]. *)
Inductive auth_spec (loops : bool) (req : Request) :
    list (Request * option Response) -> list bool -> outcome Response -> Prop :=
  | as_plain r1 x :
      same_but_auth req r1 ->
      match x with Some res => Z.eqb (rs_status res) 401 && negb loops = false | None => True end ->
      auth_spec loops req [(r1, x)] [] (answer x)
  | as_refused r1 res :
      same_but_auth req r1 -> rs_status res = 401%Z -> loops = false ->
      auth_spec loops req [(r1, Some res)] [false] (inr res)
  | as_retried r1 res r2 x :
      same_but_auth req r1 -> same_but_auth req r2 -> rs_status res = 401%Z -> loops = false ->
      auth_spec loops req [(r1, Some res); (r2, x)] [true] (answer x).

Lemma same_but_auth_set t r r' :
  same_but_auth r r' -> same_but_auth r (set_header "authorization" t r').
Proof.
  intros (H1 & H2 & H3 & H4). split_and!; [done..|]. intros k Hk. simpl.
  rewrite lookup_insert_ne by congruence. by apply H4.
Qed.

Lemma same_but_auth_refl r : same_but_auth r r.
Proof. by split_and!. Qed.

Lemma same_but_auth_bearer t r : same_but_auth r (with_bearer t r).
Proof.
  unfold with_bearer. repeat case_match; auto using same_but_auth_refl, same_but_auth_set.
Qed.

Lemma same_but_auth_request t rid r :
  same_but_auth (set_header "x-request-id" rid r) (set_header "x-request-id" rid (with_bearer t r)).
Proof.
  destruct (same_but_auth_bearer t r) as (H1 & H2 & H3 & H4). split_and!; [done..|].
  intros k Hk. simpl. destruct (decide (k = "x-request-id")) as [->|Hr].
  - by rewrite !lookup_insert_eq.
  - rewrite !lookup_insert_ne by done. by apply H4.
Qed.

(** A read of the token followed by one request made from it. *)
Lemma exec_token_fetch (f : option jstr -> Request) tr o :
  exec (bind getAccessToken (fun t => fetch (f t))) tr o ->
  joins tr = [] /\ exists t x, sent tr = [(f t, x)] /\ o = answer x.
Proof.
  intros H. apply exec_bind in H as [(e & He & ->)|(t & t1 & t2 & H1 & H2 & ->)].
  { by apply getAccessToken_total in He. }
  apply quiet_getAccessToken in H1 as [Hs Hj]. rewrite sent_app, joins_app, Hs, Hj.
  apply exec_fetch in H2 as [[-> ->]|(res & -> & ->)]; (split; [done|]).
  - by exists t, None.
  - by exists t, (Some res).
Qed.

(** The common shape of [apiFetch] and of the direct calls: a first request, then maybe a
    refresh and a second one. *)
Lemma exec_retry_once loops req r1 (f : option jstr -> Request) res tr o :
  same_but_auth req r1 -> (forall t, same_but_auth req (f t)) ->
  exec (if Z.eqb (rs_status res) 401 && negb loops
        then JoinRefresh (fun ok => if ok then bind getAccessToken (fun t => fetch (f t)) else Ret res)
        else Ret res) tr o ->
  auth_spec loops req ((r1, Some res) :: sent tr) (joins tr) o.
Proof.
  intros H1 Hf H. destruct (_ && _) eqn:E.
  - apply andb_true_iff in E as [E1%Z.eqb_eq E2%negb_true_iff].
    apply exec_join in H as ([|] & tr' & -> & H); simpl.
    + apply exec_token_fetch in H as (-> & t & x & -> & ->). by apply as_retried.
    + exec_step H. by apply as_refused.
  - exec_step H. by apply (as_plain loops req r1 (Some res)).
Qed.

Lemma mobile_exec_apiFetch rid req tr o :
  exec (apiFetch rid req) tr o ->
  auth_spec (is_auth_path (rq_url req)) (set_header "x-request-id" rid req) (sent tr) (joins tr) o.
Proof.
  unfold apiFetch. cbv zeta. intros H.
  apply exec_bind in H as [(e & He & ->)|(t & t1 & t2 & Ht & H & ->)].
  { by apply getAccessToken_total in He. }
  apply quiet_getAccessToken in Ht as [Hs Hj]. rewrite sent_app, joins_app, Hs, Hj. simpl.
  pose proof (same_but_auth_request t rid req) as Hr1.
  set (r1 := set_header "x-request-id" rid (with_bearer t req)) in *.
  assert (Hurl : rq_url r1 = rq_url req) by apply Hr1. rewrite Hurl in H.
  apply exec_bind in H as [(e & H & ->)|(res & u1 & u2 & Hf & H & ->)].
  { apply exec_fetch in H as [[-> [= ->]]|(? & _ & [=])]. by apply (as_plain _ _ r1 None). }
  apply exec_fetch in Hf as [[_ [=]]|(? & -> & [= <-])]. rewrite sent_app, joins_app. simpl.
  assert (Hf : forall t', same_but_auth (set_header "x-request-id" rid req)
    (set_header "authorization" (bearer match t' with Some t => t | None => [] end) r1))
    by (intros; by apply same_but_auth_set).
  apply exec_bind in H as [(e & H & ->)|(res' & v1 & v2 & Hv & H & ->)].
  - by apply (exec_retry_once _ _ r1 _ _ _ _ Hr1 Hf) in H.
  - apply exec_report in H as (Hs3 & Hj3 & ->). rewrite sent_app, joins_app, Hs3, Hj3, !app_nil_r.
    by apply (exec_retry_once _ _ r1 _ _ _ _ Hr1 Hf) in Hv.
Qed.

Lemma exec_refresh_once req tr o :
  exec (refresh_once req) tr o -> auth_spec false req (sent tr) (joins tr) o.
Proof.
  unfold refresh_once. intros H.
  apply exec_bind in H as [(e & H & ->)|(res & u1 & u2 & Hf & H & ->)].
  - apply exec_token_fetch in H as (-> & t & [x|] & -> & Ho); [discriminate Ho|].
    rewrite Ho. apply (as_plain _ _ _ None); [apply same_but_auth_bearer|done].
  - apply exec_token_fetch in Hf as (Hj & t & [x|] & Hs & Ho); [|discriminate Ho].
    injection Ho as ->. rewrite sent_app, joins_app, Hs, Hj. simpl.
    rewrite <- (andb_true_r (Z.eqb (rs_status x) 401)) in H.
    apply (exec_retry_once false req (with_bearer t req) (fun t => with_bearer t req)) in H; [done|..];
      intros; apply same_but_auth_bearer.
Qed.

(** *** One refresh alone *)

Definition tokens_of (access refresh : jstr) : json :=
  JObj [("data", JObj [("access_token", JStr access); ("refresh_token", JStr refresh)])].

(** The cells after a refresh that returned both tokens. *)
Definition rotated (access refresh : jstr) (cs : Cell -> option jstr) : Cell -> option jstr :=
  upd_cell KeystoreRefresh (Some refresh) (upd_cell AccessToken (Some access) cs).

Lemma run_refresh origin cs ans r access refresh res :
  cs KeystoreRefresh = Some r -> truthy r = true -> rs_ok res = true ->
  rs_json res = Some (tokens_of access refresh) -> truthy access = true -> truthy refresh = true ->
  run no_join (refreshBody origin) cs (Some res :: ans)
  = (inr true, rotated access refresh cs, ans, [refresh_call origin r]).
Proof.
  intros H1 H2 H3 H4 H5 H6. apply run_catch. simpl. rewrite H1, H2. simpl. rewrite H3. simpl. rewrite H4.
  destruct access as [|a access]; [done|]. by destruct refresh.
Qed.

Lemma run_getAccessToken oj cs ans : run oj getAccessToken cs ans = (inr (cs AccessToken), cs, ans, []).
Proof. simpl. by destruct (cs AccessToken). Qed.

(** ** Properties *)

(** every execution of a mobile call, through the typed client or direct, follows its
    contract: at most two requests that differ in the Authorization header only, the second
    only after a 401 outside the auth endpoints and a refresh that succeeded; it never
    rejects but for a network failure. *)
Theorem mobile_calls_refine_spec rid req tr o :
  (exec (apiFetch rid req) tr o ->
   auth_spec (is_auth_path (rq_url req)) (set_header "x-request-id" rid req) (sent tr) (joins tr) o)
  /\ (exec (refresh_once req) tr o -> auth_spec false req (sent tr) (joins tr) o).
Proof. split; [apply mobile_exec_apiFetch|apply exec_refresh_once]. Qed.

Lemma mobile_calls_refine_spec_witness :
  let tr := [ELoad AccessToken (Some (Some ("t" : jstr)));
             EFetch (set_header "authorization" "Bearer t" get_posts) (Some (answer_of 200 JNull))] in
  exec (refresh_once get_posts) tr (inr (answer_of 200 JNull))
  /\ auth_spec false get_posts (sent tr) (joins tr) (inr (answer_of 200 JNull)).
Proof.
  intros tr. assert (H : exec (refresh_once get_posts) tr (inr (answer_of 200 JNull))).
  { unfold tr. apply ex_load; [discriminate|]. apply ex_fetch. apply ex_ret. }
  split; [exact H|]. exact (proj2 (mobile_calls_refine_spec [] _ _ _) H).
Defined.

(** C8: on mobile, concurrent calls share one refresh, every call settles, and the variable
    [refreshing] never keeps a settled promise: the refresh awaits the keystore first. *)
Theorem mobile_single_flight origin cs w (H : reach (refreshBody origin) is_call cs w) :
  single_flight_at (refreshBody:=refreshBody origin) w
  /\ settles_at (refreshBody:=refreshBody origin) w
  /\ forall b, refreshing w <> Settled b.
Proof.
  split_and!.
  - by apply (reach_single_flight (entry:=is_call) cs).
  - by apply (reach_settles (entry:=is_call) cs).
  - intros b Hb. apply reach_no_latch in H; [|done]. unfold no_latch in H. by rewrite Hb in H.
Qed.

Lemma one_waiting :
  exists w : World Response, reach (refreshBody []) is_call no_cells w /\ flights w = 1.
Proof.
  eexists. split.
  - eapply ev_step; [eapply ev_step; [eapply ev_step;
      [eapply ev_spawn; [apply ev_refl|]|]|]|].
    + right. by exists get_posts.
    + eapply (s_task _ _ 0); [reflexivity|]. apply op_load.
    + eapply (s_task _ _ 0); [reflexivity|]. apply (op_fetch _ _ _ (Some (answer_of 401 JNull))).
    + eapply (s_join _ _ 0); [reflexivity|done].
  - reflexivity.
Defined.

Lemma mobile_single_flight_witness :
  exists w : World Response, flights w = 1
    /\ single_flight_at (refreshBody:=refreshBody []) w.
Proof.
  destruct one_waiting as (w & Hr & Hf). exists w. split; [exact Hf|].
  exact (proj1 (mobile_single_flight _ _ _ Hr)).
Defined.

(** C10: token rotation: after a 401, a refresh that returns both tokens stores the access
    token in memory and the refresh token in the keystore, and the retry carries the new
    access token. *)
Theorem mobile_token_rotation origin rid req cs r access refresh res1 res2 res3
  (Ha : is_auth_path (rq_url req) = false)
  (Hr : cs KeystoreRefresh = Some r) (Hrt : truthy r = true)
  (H1 : rs_status res1 = 401%Z)
  (H2 : rs_ok res2 = true) (Hb : rs_json res2 = Some (tokens_of access refresh))
  (Hat : truthy access = true) (Hft : truthy refresh = true) :
  let r1 := set_header "x-request-id" rid (with_bearer (cs AccessToken) req) in
  run_alone (refreshBody origin) (apiFetch rid req) cs [Some res1; Some res2; Some res3]
  = (inr res3, rotated access refresh cs, [],
     [r1; refresh_call origin r; set_header "authorization" (bearer access) r1]).
Proof.
  intros r1. unfold run_alone, apiFetch. cbv zeta.
  rewrite (run_bind _ _ _ _ _ _ _ _ _ (run_getAccessToken _ _ _)). fold r1.
  rewrite (run_bind _ _ _ _ _ _ _ _ _ (run_fetch _ _ _ _ _)).
  assert (Hurl : rq_url r1 = rq_url req) by (apply (same_but_auth_request (cs AccessToken) rid req)).
  rewrite Hurl, H1, Ha. cbn [Z.eqb Pos.eqb andb negb].
  rewrite (run_bind _ _ _ res3 _ _ (rotated access refresh cs) []
             [refresh_call origin r; set_header "authorization" (bearer access) r1]).
  { by rewrite run_report. }
  erewrite run_join by (by eapply run_refresh). cbv beta iota.
  rewrite (run_bind _ _ _ _ _ _ _ _ _ (run_getAccessToken _ _ _)). done.
Qed.

Lemma mobile_token_rotation_witness :
  let cs := upd_cell KeystoreRefresh (Some ("old" : jstr)) no_cells in
  run_alone (refreshBody []) (apiFetch "r1" get_posts) cs
    [Some (answer_of 401 JNull); Some (answer_of 200 (tokens_of "a" "new")); Some (answer_of 200 JNull)]
  = (inr (answer_of 200 JNull), rotated "a" "new" cs, [],
     [set_header "x-request-id" "r1" get_posts; refresh_call [] "old";
      set_header "authorization" "Bearer a" (set_header "x-request-id" "r1" get_posts)]).
Proof.
  intros cs.
  exact (mobile_token_rotation [] "r1" get_posts cs "old" "a" "new" (answer_of 401 JNull)
    (answer_of 200 (tokens_of "a" "new")) (answer_of 200 JNull)
    eq_refl eq_refl eq_refl eq_refl eq_refl eq_refl eq_refl eq_refl).
Defined.

(** What logging out does to the tokens: both are cleared, whatever the server answered,
    when the request settles; a request that rejects leaves both in place. *)
Definition logout_writes (o : outcome unit) : list (Cell * option jstr) :=
  match o with
  | inr _ => [(AccessToken, None); (KeystoreRefresh, None)]
  | inl _ => []
  end.

(** a logout deletes the access token and the refresh token whatever status the server
    answers; when the request itself rejects (no network), it rejects too and deletes
    neither. *)
Theorem mobile_logout_writes (api : ApiCall -> prog ApiResult) tr o
  (Hapi : forall tr o, exec (api logout_call) tr o -> stores tr = [])
  (H : exec (logout api) tr o) : stores tr = logout_writes o.
Proof.
  unfold logout in H. apply exec_bind in H as [(e & H & ->)|(r & t1 & t2 & H1 & H & ->)].
  - by apply Hapi in H.
  - rewrite stores_app, (Hapi _ _ H1).
    unfold clearSession, setAccessToken, setRefreshToken in H.
    exec_step H. exec_step H. by exec_step H.
Qed.

Lemma mobile_logout_writes_witness :
  let api := fun _ : ApiCall => Ret {| r_data := JNull; r_error := JUndef; r_status := 500 |} in
  let tr := [EStore AccessToken None true; EStore KeystoreRefresh None false] in
  exec (logout api) tr (inr tt) /\ stores tr = logout_writes (inr tt).
Proof.
  intros api tr. assert (H : exec (logout api) tr (inr tt)).
  { unfold tr. apply ex_store; [discriminate|]. apply ex_store; [reflexivity|]. apply ex_ret. }
  split; [exact H|]. refine (mobile_logout_writes api tr _ _ H).
  intros tr' o H'. inversion H'. reflexivity.
Defined.
