(* ===== verification/Interleave.v ===== *)
(** * Concurrent calls refine the contract of one call

    The scheduler of Async.v interleaves calls, which share the cells and the refresh in
    flight; the contracts of ApiClient.v and MobileClient.v are about the executions of one
    call.  Here the two meet: in every reachable world each call is a prefix of one of its
    own executions, the requests of the network are those of the executions, sender by
    sender, and what a call is told of a refresh is the outcome of an execution of the
    refresh.  So whatever holds of the executions of one call (its contract, the layers of
    EndToEnd.v above it) holds of every call of a burst. *)
From S2P Require Import Prelude JsValue ApiError Async SingleFlight.
From S2P Require ApiClient MobileClient.

Local Open Scope js_scope.
Local Open Scope prog_scope.

(** ** Partial executions *)

(** [p] has performed [tr] and [p'] is what is left of it. *)
Definition advances {A} (p : prog A) (tr : list event) (p' : prog A) : Prop :=
  forall tr' o, exec p' tr' o -> exec p (tr ++ tr') o.

(** What is left of a call: one that awaits a refresh has not had its answer. *)
Definition residual {A} (t : task A) : prog A :=
  match t with Running p => p | Joined k => JoinRefresh k end.

Definition waits {A} (t : task A) : nat := match t with Joined _ => 1 | Running _ => 0 end.

(** How a call settled, if it has. *)
Definition settled {A} (t : task A) : option (outcome A) :=
  match t with
  | Running (Ret a) => Some (inr a)
  | Running (Throw e) => Some (inl e)
  | _ => None
  end.

(** The requests of one sender, oldest first; those of an execution. *)
Definition sent_by (s : sender) (l : list (sender * Request)) : list Request :=
  map snd (filter (fun e => e.1 = s) l).
Abbreviation requests tr := (map fst (sent tr)).

Lemma advances_refl {A} (p : prog A) : advances p [] p.
Proof. by intros tr o H. Qed.

Lemma advances_step {A} (p p1 p2 : prog A) tr e :
  advances p tr p1 -> (forall tr' o, exec p2 tr' o -> exec p1 (e :: tr') o) ->
  advances p (tr ++ [e]) p2.
Proof. intros H1 H2 tr' o H. rewrite <- app_assoc. by apply H1, H2. Qed.

Lemma advances_join {A} (p : prog A) tr k b :
  advances p tr (JoinRefresh k) -> advances p (tr ++ [EJoin b]) (k b).
Proof. intros H. eapply advances_step; [exact H|]. by constructor. Qed.

(** An operation against the shared cells is an event of the program alone. *)
Lemma advances_op {A} cs (p p1 p2 : prog A) tr rq cs' :
  advances p tr p1 -> op cs p1 rq cs' p2 ->
  exists e, advances p (tr ++ [e]) p2 /\ joins [e] = [] /\ requests [e] = option_list rq.
Proof.
  intros Ha Ho.
  destruct Ho as [r k x|r k|c k|c k Hc|c v k|c v k Hc|m k];
    [exists (EFetch r x)|exists (EJson r)|exists (ELoad c (Some (cs c)))|exists (ELoad c None)
    |exists (EStore c v true)|exists (EStore c v false)|exists (ELog m)];
    (split; [eapply advances_step; [exact Ha|intros tr' o H; by constructor]|done]).
Qed.

(** A program that has ended has performed a complete execution. *)
Lemma advances_settled {A} (p : prog A) tr t o :
  advances p tr (residual t) -> settled t = Some o -> exec p tr o.
Proof.
  intros H Hs. rewrite <- (app_nil_r tr). apply H.
  destruct t as [[]|]; simplify_eq/=; constructor.
Qed.

(** Every program has an execution: a call in flight can be completed. *)
Lemma exec_exists {A} (p : prog A) : exists tr o, exec p tr o.
Proof.
  induction p as [a|e|r k IH|r k IH|c k IH|c v k IH|k IH|m k (tr & o & H)].
  - eexists _, _. constructor.
  - eexists _, _. constructor.
  - destruct (IH None) as (tr & o & H). eexists _, _. by eapply ex_fetch.
  - destruct (IH (rs_json r)) as (tr & o & H). eexists _, _. by apply ex_json.
  - destruct (IH (Some None)) as (tr & o & H). exists (ELoad c (Some None) :: tr), o. by apply ex_load.
  - destruct (IH true) as (tr & o & H). exists (EStore c v true :: tr), o. by apply ex_store.
  - destruct (IH true) as (tr & o & H). eexists _, _. by eapply ex_join.
  - eexists _, _. by apply ex_log.
Qed.

Lemma requests_app t1 t2 : requests (t1 ++ t2) = requests t1 ++ requests t2.
Proof. by rewrite sent_app, map_app. Qed.

Lemma sent_by_log s s' rq l :
  sent_by s (log_send s' rq l) = sent_by s l ++ if decide (s' = s) then option_list rq else [].
Proof.
  unfold sent_by. destruct rq as [r|]; simpl; [|case_decide; by rewrite app_nil_r].
  rewrite filter_app, map_app. f_equal. case_decide as E.
  - by rewrite filter_cons_True.
  - by rewrite filter_cons_False.
Qed.

Lemma refreshes_sent_by {A} (w : World A) : refreshes_sent w = length (sent_by ByRefresh (net w)).
Proof. unfold refreshes_sent, sent_by. by rewrite length_map. Qed.

(** ** The decomposition of a world *)

Section Decomposition.
Context {A C : Type} (refreshBody : prog bool) (call : C -> prog A).

(** [issued cs cl w]: from the cells [cs], the application has issued the calls [cl], in
    this order, at any moments, and the scheduler has led to [w]. *)
Inductive issued (cs : Cell -> option jstr) : list C -> World A -> Prop :=
  | is_start : issued cs [] {| cells := cs; refreshing := Idle; tasks := []; net := []; flights := 0 |}
  | is_call cl w c : issued cs cl w -> issued cs (cl ++ [c]) (spawn (call c) w)
  | is_sched cl w w' : issued cs cl w -> sched refreshBody w w' -> issued cs cl w'.

Lemma issued_reach (entry : prog A -> Prop) cs cl w :
  (forall c, entry (call c)) -> issued cs cl w -> reach refreshBody entry cs w.
Proof. intros He. induction 1; [constructor|by apply ev_spawn|by eapply ev_step]. Qed.

(** The calls of a world, each with what it has performed; the refreshes that have ended,
    with their outcomes; what the one in flight has performed. *)
Record history := {
  calls : list (C * list event);
  over : list (list event * bool);
  current : list event }.

Definition performed (h : history) (i : nat) : list event := default [] (snd <$> calls h !! i).

Definition in_flight (f : promise) : nat := match f with InFlight _ _ => 1 | _ => 0 end.

(** The joins of a call, that it awaits included. *)
Definition joined (c : C * list event) (t : task A) : nat := length (joins c.2) + waits t.

Record explains (cl : list C) (w : World A) (h : history) : Prop := {
  hs_issued : map fst (calls h) = cl;
  hs_calls : Forall2 (fun c t => advances (call c.1) c.2 (residual t)) (calls h) (tasks w);
  hs_sent i : sent_by (ByTask i) (net w) = requests (performed h i);
  hs_over : Forall (fun f => exec refreshBody f.1 (inr f.2)) (over h);
  hs_current : match refreshing w with
               | InFlight p _ => advances refreshBody (current h) p
               | Settled b => current h = [] /\ b ∈ map snd (over h)
               | Idle => current h = [] end;
  hs_refresh : sent_by ByRefresh (net w)
               = requests (mjoin (map fst (over h)) ++ current h);
  hs_told : Forall (fun c => Forall (fun b => b ∈ map snd (over h)) (joins c.2)) (calls h);
  hs_flights : flights w = length (over h) + in_flight (refreshing w);
  hs_joined : flights w <= sum_list (zip_with joined (calls h) (tasks w)) }.

(** The call [i] performs one more event. *)
Definition perform (i : nat) (c : C * list event) (e : event) (h : history) : history :=
  {| calls := <[i := (c.1, c.2 ++ [e])]> (calls h); over := over h; current := current h |}.

Lemma performed_at h i c : calls h !! i = Some c -> performed h i = c.2.
Proof. unfold performed. by intros ->. Qed.

Lemma performed_perform h i j e c :
  calls h !! i = Some c ->
  performed (perform i c e h) j = performed h j ++ if decide (j = i) then [e] else [].
Proof.
  intros Hc. unfold performed. simpl. pose proof (lookup_lt_Some _ _ _ Hc) as Hlt. case_decide as E.
  - subst j. rewrite list_lookup_insert_eq by done. by rewrite Hc.
  - rewrite list_lookup_insert_ne by done. by rewrite app_nil_r.
Qed.

Lemma zip_with_insert {X Y Z} (f : X -> Y -> Z) l k i x y :
  length l = length k ->
  zip_with f (<[i := x]> l) (<[i := y]> k) = <[i := f x y]> (zip_with f l k).
Proof.
  revert k i. induction l as [|a l IH]; intros [|b k] [|i] Hl; simplify_eq/=; [done..|].
  f_equal. by apply IH.
Qed.
Lemma sum_list_zip_insert (f : C * list event -> task A -> nat) cs ts i c t c' t' :
  length cs = length ts -> cs !! i = Some c -> ts !! i = Some t ->
  sum_list (zip_with f (<[i := c']> cs) (<[i := t']> ts)) + f c t = sum_list (zip_with f cs ts) + f c' t'.
Proof.
  intros Hl Hc Ht. rewrite zip_with_insert by done. apply sum_list_insert.
  by rewrite lookup_zip_with, Hc, Ht.
Qed.

(** A call performs an event, which the rest of the world does not see. *)
Lemma explains_perform cl w h i c t t' e rq cs :
  explains cl w h -> calls h !! i = Some c -> tasks w !! i = Some t ->
  advances (call c.1) (c.2 ++ [e]) (residual t') -> requests [e] = option_list rq ->
  Forall (fun b => b ∈ map snd (over h)) (joins [e]) -> waits t <= length (joins [e]) + waits t' ->
  explains cl {| cells := cs; refreshing := refreshing w; tasks := <[i := t']> (tasks w);
              net := log_send (ByTask i) rq (net w); flights := flights w |} (perform i c e h).
Proof.
  intros H Hc Ht Ha Hrq Hj Hw. pose proof (Forall2_length _ _ _ (hs_calls _ _ _ H)) as Hl.
  split; simpl; try apply H.
  - rewrite list_fmap_insert. simpl. rewrite list_insert_id; [apply H|]. by rewrite list_lookup_fmap, Hc.
  - apply Forall2_insert; [apply H|done].
  - intros j. rewrite (performed_perform _ _ _ _ _ Hc), requests_app, sent_by_log, (hs_sent _ _ _ H).
    f_equal. repeat case_decide; [done|naive_solver|naive_solver|done].
  - rewrite sent_by_log. rewrite decide_False by done. rewrite app_nil_r. apply H.
  - apply Forall_insert; [apply H|]. simpl. rewrite joins_app. apply Forall_app. split; [|done].
    exact (Forall_lookup_1 _ _ _ _ (hs_told _ _ _ H) Hc).
  - pose proof (hs_joined _ _ _ H) as Hle.
    pose proof (sum_list_zip_insert joined _ _ i c t (c.1, c.2 ++ [e]) t' Hl Hc Ht) as Hs.
    unfold joined in Hs at 2 4. simpl in Hs. rewrite joins_app, length_app in Hs. lia.
Qed.

(** A call starts to wait: what it has performed and what is left are the same. *)
Lemma explains_wait cl w h i k :
  explains cl w h -> tasks w !! i = Some (Running (JoinRefresh k)) ->
  (forall b, refreshing w <> Settled b) ->
  explains cl {| cells := cells w; refreshing := launch refreshBody (refreshing w);
              tasks := <[i := Joined k]> (tasks w); net := net w;
              flights := match refreshing w with Idle => S (flights w) | _ => flights w end |} h.
Proof.
  intros H Ht Hn. pose proof (Forall2_length _ _ _ (hs_calls _ _ _ H)) as Hl.
  destruct (Forall2_lookup_r _ _ _ _ _ (hs_calls _ _ _ H) Ht) as (c & Hc & Ha).
  split; simpl; try apply H.
  - rewrite <- (list_insert_id (calls h) i c) by done. by apply Forall2_insert; [apply H|].
  - pose proof (hs_current _ _ _ H) as Hcur. destruct (refreshing w); simpl; [|done|by destruct (Hn b)].
    rewrite Hcur. apply advances_refl.
  - pose proof (hs_flights _ _ _ H) as Hf. destruct (refreshing w); simpl in *; [lia|lia|by destruct (Hn b)].
  - pose proof (hs_joined _ _ _ H) as Hle.
    pose proof (sum_list_zip_insert joined _ _ i c _ c (Joined k) Hl Hc Ht) as Hs.
    rewrite list_insert_id in Hs by done. unfold joined in Hs at 2 4. simpl in Hs.
    destruct (refreshing w); lia.
Qed.

(** The refresh in flight performs an event. *)
Lemma explains_refresh cl w h p aw aw' rq cs p' :
  explains cl w h -> refreshing w = InFlight p aw -> op (cells w) p rq cs p' ->
  exists h', explains cl {| cells := cs; refreshing := InFlight p' aw'; tasks := tasks w;
    net := log_send ByRefresh rq (net w); flights := flights w |} h'.
Proof.
  intros H Hr Ho. pose proof (hs_current _ _ _ H) as Hcur. rewrite Hr in Hcur.
  destruct (advances_op _ _ _ _ _ _ _ Hcur Ho) as (e & He & _ & Hrq).
  exists {| calls := calls h; over := over h; current := current h ++ [e] |}.
  split; simpl; try apply H; try done.
  - intros i. rewrite sent_by_log, decide_False by done. rewrite app_nil_r. apply H.
  - rewrite sent_by_log, decide_True by done. rewrite app_assoc, requests_app, Hrq. f_equal. apply H.
  - pose proof (hs_flights _ _ _ H) as Hf. by rewrite Hr in Hf.
Qed.

(** The end of the refresh: its outcome is told to the calls that await it. *)
Definition told (b : bool) (c : C * list event) (t : task A) : C * list event :=
  (c.1, c.2 ++ match t with Joined _ => [EJoin b] | Running _ => [] end).

Lemma requests_told b c t : requests (told b c t).2 = requests c.2.
Proof. unfold told. simpl. rewrite requests_app. destruct t; by rewrite app_nil_r. Qed.

Lemma joined_told b c t : joined (told b c t) (wake b t) = joined c t.
Proof. unfold joined, told. simpl. rewrite joins_app, length_app. destruct t; simpl; lia. Qed.

Lemma fmap_told b cs ts : length cs = length ts -> map fst (zip_with (told b) cs ts) = map fst cs.
Proof.
  revert ts. induction cs as [|c cs IH]; intros [|t ts] Hl; simplify_eq/=; [done|]. f_equal. by apply IH.
Qed.

Lemma explains_over cl w h b aw :
  explains cl w h -> refreshing w = InFlight (Ret b) aw ->
  exists h', explains cl {| cells := cells w; refreshing := if aw then Idle else Settled b;
    tasks := map (wake b) (tasks w); net := net w; flights := flights w |} h'.
Proof.
  intros H Hr. pose proof (hs_current _ _ _ H) as Hcur. rewrite Hr in Hcur.
  pose proof (Forall2_length _ _ _ (hs_calls _ _ _ H)) as Hl.
  exists {| calls := zip_with (told b) (calls h) (tasks w); over := over h ++ [(current h, b)]; current := [] |}.
  split; simpl.
  - rewrite <- (hs_issued _ _ _ H). apply fmap_told, Hl.
  - pose proof (hs_calls _ _ _ H) as Hc. clear -Hc.
    induction Hc as [|c t cs ts Ha _ IH]; simpl; constructor; [|done].
    destruct t as [p|k]; simpl in *; [by rewrite app_nil_r|by apply advances_join].
  - intros i. rewrite (hs_sent _ _ _ H). unfold performed. simpl. rewrite lookup_zip_with.
    destruct (calls h !! i) as [c|] eqn:Ec; simpl; [|done].
    destruct (lookup_lt_is_Some_2 (tasks w) i) as [t Ht].
    { rewrite <- Hl. by eapply lookup_lt_Some. }
    rewrite Ht. symmetry. exact (requests_told b c t).
  - apply Forall_app. split; [apply H|]. apply Forall_singleton. simpl.
    rewrite <- (app_nil_r (current h)). apply Hcur. constructor.
  - destruct aw; [done|]. split; [done|]. rewrite map_app. set_solver.
  - rewrite (hs_refresh _ _ _ H), map_app, join_app. simpl. by rewrite !app_nil_r.
  - apply Forall_lookup_2. intros i c Hi. apply lookup_zip_with_Some in Hi as (c0 & t & -> & Hc & Ht).
    unfold told. simpl. rewrite joins_app. apply Forall_app. rewrite map_app. split.
    + eapply Forall_impl; [exact (Forall_lookup_1 _ _ _ _ (hs_told _ _ _ H) Hc)|]. intros b' Hb'. apply elem_of_app. by left.
    + destruct t; simpl; [constructor|]. apply Forall_singleton. set_solver.
  - pose proof (hs_flights _ _ _ H) as Hf. rewrite Hr in Hf. simpl in Hf. rewrite length_app. simpl.
    destruct aw; simpl; lia.
  - pose proof (hs_joined _ _ _ H) as Hle. etransitivity; [exact Hle|]. apply Nat.eq_le_incl. clear -Hl.
    revert Hl. generalize (tasks w) as ts. induction (calls h) as [|c cs IH]; intros [|t ts] Hl; simplify_eq/=; [done|].
    rewrite joined_told. f_equal. by apply IH.
Qed.

Lemma explains_spawn cl w h c :
  explains cl w h -> exists h', explains (cl ++ [c]) (spawn (call c) w) h'.
Proof.
  intros H. pose proof (Forall2_length _ _ _ (hs_calls _ _ _ H)) as Hl.
  exists {| calls := calls h ++ [(c, [])]; over := over h; current := current h |}.
  split; simpl; try apply H.
  - rewrite map_app. f_equal. apply H.
  - apply Forall2_app; [apply H|]. repeat constructor. apply advances_refl.
  - intros i. rewrite (hs_sent _ _ _ H). unfold performed. simpl.
    destruct (decide (i < length (calls h))) as [Hi|Hi].
    + by rewrite lookup_app_l.
    + rewrite lookup_app_r, (lookup_ge_None_2 (calls h)) by lia.
      destruct (i - length (calls h)) as [|[|n]]; done.
  - apply Forall_app. split; [apply H|]. by repeat constructor.
  - rewrite zip_with_app by done. rewrite sum_list_with_app || rewrite sum_list_app.
    pose proof (hs_joined _ _ _ H). lia.
Qed.

Lemma explains_sched cl w h w' : explains cl w h -> sched refreshBody w w' -> exists h', explains cl w' h'.
Proof.
  intros H Hs. destruct Hs as [i p rq cs p' Ht Ho|i k Ht Hn|i k b Ht Hb|p aw rq cs p' Hr Ho|b aw Hr].
  - destruct (Forall2_lookup_r _ _ _ _ _ (hs_calls _ _ _ H) Ht) as (c & Hc & Ha).
    destruct (advances_op _ _ _ _ _ _ _ Ha Ho) as (e & Ha' & Hj & Hrq).
    exists (perform i c e h). eapply explains_perform; try done; [by rewrite Hj|simpl; lia].
  - exists h. by apply explains_wait.
  - destruct (Forall2_lookup_r _ _ _ _ _ (hs_calls _ _ _ H) Ht) as (c & Hc & Ha).
    pose proof (hs_current _ _ _ H) as Hcur. rewrite Hb in Hcur.
    exists (perform i c (EJoin b) h). rewrite <- Hb.
    apply (explains_perform cl w h i c (Running (JoinRefresh k)) (Running (k b)) (EJoin b) None); try done;
      [exact (advances_join _ _ k b Ha)|apply Forall_singleton, Hcur|simpl; lia].
  - by eapply explains_refresh.
  - by eapply explains_over.
Qed.

Lemma issued_explains cs cl w : issued cs cl w -> exists h, explains cl w h.
Proof.
  induction 1 as [|cl w c _ [h IH]|cl w w' _ [h IH] Hs].
  - exists {| calls := []; over := []; current := [] |}. by split.
  - by eapply explains_spawn.
  - by eapply explains_sched.
Qed.
End Decomposition.
Arguments issued {_ _} _ _ _ _ _. Arguments explains {_ _} _ _ _ _ _.
Arguments calls {_} _. Arguments over {_} _. Arguments current {_} _. Arguments performed {_} _ _.

(** ** An executable scheduler

    A schedule says who moves next, and what the network answers it; playing it reaches a
    world of the relation. *)

Definition next_op {A} (cs : Cell -> option jstr) (p : prog A) (x : option Response)
    : option (option Request * (Cell -> option jstr) * prog A) :=
  match p with
  | Fetch r k => Some (Some r, cs, k x)
  | ReadJson r k => Some (None, cs, k (rs_json r))
  | Load c k => Some (None, cs, k (Some (cs c)))
  | Store c v k => Some (None, upd_cell c v cs, k true)
  | Log m k => Some (None, cs, k)
  | Ret _ | Throw _ | JoinRefresh _ => None
  end.

Lemma next_op_ok {A} cs (p : prog A) x rq cs' p' : next_op cs p x = Some (rq, cs', p') -> op cs p rq cs' p'.
Proof. destruct p; simpl; intros [= <- <- <-]; constructor. Qed.

Inductive turn (C : Type) :=
  | Issue (c : C)
  | Advance (i : nat) (x : option Response)
  | Refresh (x : option Response).
Arguments Issue {_} _. Arguments Advance {_} _ _. Arguments Refresh {_} _.

Section Play.
Context {A C : Type} (refreshBody : prog bool) (call : C -> prog A).

Definition advance (i : nat) (x : option Response) (w : World A) : World A :=
  match tasks w !! i with
  | Some (Running (JoinRefresh k)) =>
      match refreshing w with
      | Settled b => {| cells := cells w; refreshing := Settled b;
                        tasks := <[i := Running (k b)]> (tasks w); net := net w; flights := flights w |}
      | f => {| cells := cells w; refreshing := launch refreshBody f;
                tasks := <[i := Joined k]> (tasks w); net := net w;
                flights := match f with Idle => S (flights w) | _ => flights w end |}
      end
  | Some (Running p) =>
      match next_op (cells w) p x with
      | Some (rq, cs, p') => {| cells := cs; refreshing := refreshing w;
                                tasks := <[i := Running p']> (tasks w);
                                net := log_send (ByTask i) rq (net w); flights := flights w |}
      | None => w
      end
  | _ => w
  end.

Definition advance_refresh (x : option Response) (w : World A) : World A :=
  match refreshing w with
  | InFlight (Ret b) aw =>
      {| cells := cells w; refreshing := if aw then Idle else Settled b;
         tasks := map (wake b) (tasks w); net := net w; flights := flights w |}
  | InFlight p aw =>
      match next_op (cells w) p x with
      | Some (rq, cs, p') => {| cells := cs; refreshing := InFlight p' (aw || awaits p); tasks := tasks w;
                                net := log_send ByRefresh rq (net w); flights := flights w |}
      | None => w
      end
  | _ => w
  end.

Definition take_turn (t : turn C) (w : World A) : World A :=
  match t with
  | Issue c => spawn (call c) w
  | Advance i x => advance i x w
  | Refresh x => advance_refresh x w
  end.

Definition issues (ts : list (turn C)) : list C :=
  ts ≫= (fun t => match t with Issue c => [c] | _ => [] end).

(** The world after a schedule, the last turn first. *)
Fixpoint play (cs : Cell -> option jstr) (ts : list (turn C)) : World A :=
  match ts with
  | [] => {| cells := cs; refreshing := Idle; tasks := []; net := []; flights := 0 |}
  | t :: ts => take_turn t (play cs ts)
  end.

Lemma advance_sched i x w : advance i x w = w \/ sched refreshBody w (advance i x w).
Proof.
  unfold advance. destruct (tasks w !! i) as [[p|k]|] eqn:Et; [|by left..].
  destruct (next_op (cells w) p x) as [[[rq cs] p']|] eqn:Ep.
  - pose proof (next_op_ok _ _ _ _ _ _ Ep). destruct p; try discriminate; right; by eapply s_task.
  - destruct p; simplify_eq/=; try (by left). right.
    destruct (refreshing w) as [|p aw|b] eqn:Ef; simpl.
    + pose proof (s_join refreshBody w i k Et) as Hs. rewrite Ef in Hs. by apply Hs.
    + pose proof (s_join refreshBody w i k Et) as Hs. rewrite Ef in Hs. by apply Hs.
    + by apply s_join_settled.
Qed.

Lemma advance_refresh_sched x w : advance_refresh x w = w \/ sched refreshBody w (advance_refresh x w).
Proof.
  unfold advance_refresh. destruct (refreshing w) as [|p aw|b] eqn:Ef; [by left| |by left].
  destruct (next_op (cells w) p x) as [[[rq cs] p']|] eqn:Ep.
  - pose proof (next_op_ok _ _ _ _ _ _ Ep). destruct p; try discriminate; right; by eapply s_refresh.
  - destruct p; simplify_eq/=; try (by left). right. by eapply s_refresh_done.
Qed.

Lemma issued_play cs ts : issued refreshBody call cs (reverse (issues ts)) (play cs ts).
Proof.
  induction ts as [|[c|i x|x] ts IH]; simpl.
  - constructor.
  - rewrite reverse_cons. by apply is_call.
  - destruct (advance_sched i x (play cs ts)) as [->|Hs]; [done|]. by eapply is_sched.
  - destruct (advance_refresh_sched x (play cs ts)) as [->|Hs]; [done|]. by eapply is_sched.
Qed.
End Play.

(** ** Counting the requests of a world *)

Lemma sum_indicator j k m :
  sum_list (map (fun i => if decide (j = i) then 1 else 0) (seq k m)) = if decide (k <= j < k + m) then 1 else 0.
Proof.
  revert k. induction m as [|m IH]; intros k; simpl.
  - by rewrite decide_False by lia.
  - rewrite IH. destruct (decide (j = k)), (decide (S k <= j < S k + m)), (decide (k <= j < k + S m)); lia.
Qed.

Lemma sent_by_cons s e l : length (sent_by s (e :: l)) = (if decide (e.1 = s) then 1 else 0) + length (sent_by s l).
Proof. unfold sent_by. case_decide; [by rewrite filter_cons_True|by rewrite filter_cons_False]. Qed.

Lemma sum_list_plus {X} (f g : X -> nat) l :
  sum_list (map (fun x => f x + g x) l) = sum_list (map f l) + sum_list (map g l).
Proof. induction l as [|x l IH]; simpl; lia. Qed.

Lemma sum_list_zero {X} (f : X -> nat) l : (forall x, f x = 0) -> sum_list (map f l) = 0.
Proof. intros H. induction l as [|x l IH]; simpl; [done|]. rewrite H. lia. Qed.

(** Each request has one sender. *)
Lemma length_by_sender (n : nat) (l : list (sender * Request)) :
  (forall i, n <= i -> sent_by (ByTask i) l = []) ->
  length l = length (sent_by ByRefresh l) + sum_list (map (fun i => length (sent_by (ByTask i) l)) (seq 0 n)).
Proof.
  induction l as [|e l IH]; intros Hn.
  - by rewrite sum_list_zero.
  - assert (Hl : forall i, n <= i -> sent_by (ByTask i) l = []).
    { intros i Hi. apply length_zero_iff_nil. pose proof (sent_by_cons (ByTask i) e l) as Hc.
      rewrite (Hn i Hi) in Hc. simpl in Hc. lia. }
    specialize (IH Hl). rewrite sent_by_cons.
    rewrite (map_ext _ _ (fun i => sent_by_cons (ByTask i) e l)), sum_list_plus. cbn [length].
    destruct e as [[j|] r]; cbn [fst].
    + rewrite (map_ext _ (fun i => if decide (j = i) then 1 else 0)), sum_indicator.
      * rewrite decide_False by done. rewrite decide_True; [lia|]. destruct (decide (n <= j)) as [Hj|Hj]; [|lia].
        pose proof (sent_by_cons (ByTask j) (ByTask j, r) l) as Hc. rewrite (Hn j Hj) in Hc.
        by rewrite decide_True in Hc.
      * intros i. destruct (decide (j = i)) as [->|Hne]; [by rewrite decide_True|].
        rewrite decide_False by congruence. done.
    + rewrite sum_list_zero; [rewrite decide_True by done; lia|]. intros i. by rewrite decide_False.
Qed.

Lemma sum_list_bound {X} (f : X -> nat) n l :
  Forall (fun x => f x <= n) l -> sum_list (map f l) <= n * length l.
Proof. induction 1; simpl; lia. Qed.

(** ** The contract of a burst of calls *)

(** What the theorem asks of a client: a contract of each of its calls alone, the bounds it
    implies, and what a refresh that succeeds has sent. *)
Class CallContract {A C} (refreshBody : prog bool) (call : C -> prog A) := {
  cc_spec : C -> list (Request * option Response) -> list bool -> outcome A -> Prop;
  cc_refresh : Request -> Prop;
  cc_exec c tr o : exec (call c) tr o -> cc_spec c (sent tr) (joins tr) o;
  cc_bounds c xs js o : cc_spec c xs js o -> length xs <= 2 /\ length js <= 1;
  cc_accepted tr : exec refreshBody tr (inr true) ->
    exists r res, sent tr = [(r, Some res)] /\ rs_ok res = true /\ cc_refresh r }.

Section Burst.
Context {A C : Type} {refreshBody : prog bool} {call : C -> prog A} `{CC : !CallContract refreshBody call}.

(** The call [c], issued as the task [i], which is now [t]: what it has sent starts an
    exchange that its contract allows; once it has settled the exchange is the whole of it,
    the outcome is the contract's, and if the call was told that the session is refreshed,
    a refresh was sent, and accepted. *)
Definition call_follows (w : World A) (i : nat) (c : C) (t : task A) : Prop :=
  exists xs js o, cc_spec c xs js o
    /\ sent_by (ByTask i) (net w) `prefix_of` map fst xs
    /\ forall o', settled t = Some o' ->
         o' = o /\ sent_by (ByTask i) (net w) = map fst xs
         /\ (true ∈ js -> exists r, r ∈ sent_by ByRefresh (net w) /\ cc_refresh r).

(** What a call has performed extends to a complete execution. *)
Lemma completes (p : prog A) tr t :
  advances p tr (residual t) ->
  exists tr' o, exec p (tr ++ tr') o
    /\ (forall o', settled t = Some o' -> tr' = [] /\ o' = o)
    /\ waits t <= length (joins tr').
Proof.
  intros H. destruct (settled t) as [o|] eqn:E.
  - exists [], o. rewrite app_nil_r. split_and!; [by eapply advances_settled|naive_solver|].
    by destruct t as [p'|k].
  - destruct t as [p'|k]; simpl in H.
    + destruct (exec_exists p') as (tr' & o & He). exists tr', o. split_and!; [by apply H|by destruct p'|simpl; lia].
    + destruct (exec_exists (k true)) as (tr' & o & He). exists (EJoin true :: tr'), o.
      split_and!; [apply H; by constructor|by intros o'|simpl; lia].
Qed.

Lemma explained_at cl w h i c t :
  explains refreshBody call cl w h -> cl !! i = Some c -> tasks w !! i = Some t ->
  exists tr, calls h !! i = Some (c, tr) /\ advances (call c) tr (residual t).
Proof.
  intros H Hc Ht. rewrite <- (hs_issued _ _ _ _ _ H) in Hc.
  apply list_lookup_fmap_Some in Hc as ([c' tr] & -> & Hi). exists tr. split; [exact Hi|].
  exact (Forall2_lookup_lr _ _ _ _ _ _ (hs_calls _ _ _ _ _ H) Hi Ht).
Qed.

Lemma explained_sent cl w h i c tr :
  explains refreshBody call cl w h -> calls h !! i = Some (c, tr) ->
  sent_by (ByTask i) (net w) = requests tr.
Proof. intros H Hi. rewrite (hs_sent _ _ _ _ _ H). by rewrite (performed_at _ _ _ Hi). Qed.

(** A refresh that succeeded has sent its request. *)
Lemma explained_refresh cl w h :
  explains refreshBody call cl w h -> true ∈ map snd (over h) ->
  exists r, r ∈ sent_by ByRefresh (net w) /\ cc_refresh r.
Proof.
  intros H ([tr b] & Hb & Hin)%list_elem_of_fmap. simpl in Hb. subst b.
  pose proof (hs_over _ _ _ _ _ H) as Ho. rewrite Forall_forall in Ho. specialize (Ho _ Hin). simpl in Ho.
  destruct (cc_accepted _ Ho) as (r & res & Hs & _ & Hr). exists r. split; [|done].
  rewrite (hs_refresh _ _ _ _ _ H), requests_app. apply elem_of_app. left.
  apply list_elem_of_split in Hin as (l1 & l2 & ->).
  rewrite map_app, join_app. cbn [map mjoin list_join fst]. rewrite !requests_app, Hs. set_solver.
Qed.

Lemma issued_follows cs cl w i c t :
  issued refreshBody call cs cl w -> cl !! i = Some c -> tasks w !! i = Some t -> call_follows w i c t.
Proof.
  intros [h H]%issued_explains Hc Ht. destruct (explained_at _ _ _ _ _ _ H Hc Ht) as (tr & Hi & Ha).
  destruct (completes _ _ _ Ha) as (tr' & o & He & Hs & _).
  exists (sent (tr ++ tr')), (joins (tr ++ tr')), o. rewrite (explained_sent _ _ _ _ _ _ H Hi), requests_app.
  split_and!; [by apply cc_exec|by eexists|]. intros o' Ho.
  destruct (Hs _ Ho) as [-> ->]. rewrite !app_nil_r. split_and!; [done..|]. intros Hj.
  apply (explained_refresh _ _ _ H).
  pose proof (Forall_lookup_1 _ _ _ _ (hs_told _ _ _ _ _ H) Hi) as Hb. simpl in Hb.
  rewrite Forall_forall in Hb. by apply Hb.
Qed.

Lemma explained_joined cl w h :
  explains refreshBody call cl w h -> sum_list (zip_with joined (calls h) (tasks w)) <= length cl.
Proof.
  intros H. rewrite <- (hs_issued _ _ _ _ _ H), length_map.
  pose proof (hs_calls _ _ _ _ _ H) as Hc. induction Hc as [|[c tr] t hs ts Ha _ IH]; simpl; [lia|].
  destruct (completes _ _ _ Ha) as (tr' & o & He & _ & Hw). simpl in *.
  destruct (cc_bounds _ _ _ _ (cc_exec _ _ _ He)) as [_ Hj]. rewrite joins_app, length_app in Hj.
  unfold joined at 1. simpl. lia.
Qed.

Context {entry : prog A -> Prop} `{RC : !RefreshClient refreshBody entry}.
Hypothesis call_entry : forall c, entry (call c).

Lemma issued_bounds cs cl w :
  issued refreshBody call cs cl w ->
  length (tasks w) = length cl
  /\ length (sent_by ByRefresh (net w)) <= length cl
  /\ length (net w) <= 3 * length cl.
Proof.
  intros Hi. destruct (issued_explains _ _ _ _ _ Hi) as [h H].
  assert (Ht : length (tasks w) = length cl).
  { rewrite <- (hs_issued _ _ _ _ _ H), length_map. symmetry. exact (Forall2_length _ _ _ (hs_calls _ _ _ _ _ H)). }
  assert (Hr : length (sent_by ByRefresh (net w)) <= length cl).
  { rewrite <- refreshes_sent_by. pose proof (explained_joined _ _ _ H). pose proof (hs_joined _ _ _ _ _ H).
    destruct (reach_single_flight _ _ (issued_reach _ _ entry _ _ _ call_entry Hi)) as [Hf _]. lia. }
  split_and!; [done|done|]. rewrite (length_by_sender (length cl)).
  - assert (Hs : sum_list (map (fun i => length (sent_by (ByTask i) (net w))) (seq 0 (length cl))) <= 2 * length cl); [|lia].
    rewrite <- (length_seq (length cl) 0) at 2. apply sum_list_bound, Forall_seq. intros i Hlt.
    destruct (lookup_lt_is_Some_2 cl i) as [c Hc]; [lia|].
    destruct (lookup_lt_is_Some_2 (tasks w) i) as [t Htt]; [lia|].
    destruct (issued_follows _ _ _ _ _ _ Hi Hc Htt) as (xs & js & o & Hspec & Hp & _).
    apply prefix_length in Hp. rewrite length_map in Hp. pose proof (cc_bounds _ _ _ _ Hspec). lia.
  - intros i Hge. rewrite (hs_sent _ _ _ _ _ H). unfold performed.
    rewrite (lookup_ge_None_2 (calls h)); [done|]. apply Nat.le_trans with (length cl); [|done].
    by rewrite <- (hs_issued _ _ _ _ _ H), length_map.
Qed.
End Burst.

(** ** The two clients *)

(** The request of a refresh, on either client. *)
Definition refresh_sent (origin : jstr) (r : Request) : Prop :=
  rq_method r = "POST" /\ rq_url r = origin ++ "/api/v1/auth/refresh".

(** A quiet program in front sends nothing. *)
Lemma exec_quiet_bind {A B} (p : prog A) (f : A -> prog B) tr b :
  quiet p -> exec (bind p f) tr (inr b) -> exists a tr', exec (f a) tr' (inr b) /\ sent tr = sent tr'.
Proof.
  intros Hq [(e & _ & [=])|(a & t1 & t2 & H1 & H & ->)]%exec_bind.
  exists a, t2. split; [done|]. rewrite sent_app. by destruct (Hq _ _ H1) as [-> _].
Qed.

(** A request in front that is answered. *)
Lemma exec_fetch_bind {B} r (f : Response -> prog B) tr b :
  exec (bind (fetch r) f) tr (inr b) ->
  exists res tr', exec (f res) tr' (inr b) /\ sent tr = (r, Some res) :: sent tr'.
Proof.
  intros [(e & _ & [=])|(res & t1 & t2 & Hf & H & ->)]%exec_bind.
  apply exec_fetch in Hf as [[_ [=]]|(? & -> & [= <-])]. by exists res, t2.
Qed.

Section Web.
Variable has_document : bool.
Variable has_storage : option bool.
Variable API_ORIGIN : jstr.

(** A call of the web application: the request id it draws, and its request. *)
Definition web_call (c : jstr * Request) : prog Response :=
  ApiClient.apiFetch has_document has_storage c.1 c.2.

Lemma web_refresh_accepted tr :
  exec (ApiClient.refreshBody has_document has_storage API_ORIGIN) tr (inr true) ->
  exists r res, sent tr = [(r, Some res)] /\ rs_ok res = true /\ refresh_sent API_ORIGIN r.
Proof.
  unfold ApiClient.refreshBody. intros [(a & H & [= <-])|(e & t1 & t2 & _ & H & _)]%exec_catch; [|by inversion H].
  apply exec_quiet_bind in H as (csrf & t1 & H & ->); [|apply ApiClient.quiet_csrfToken].
  apply exec_fetch_bind in H as (res & t2 & H & ->).
  apply exec_quiet_bind in H as (u & t3 & H & ->); [|apply ApiClient.quiet_captureCsrf].
  exec_step H. injection H as H. eexists _, res. split_and!; [done|done|by split].
Qed.

#[export] Instance web_contract :
  CallContract (ApiClient.refreshBody has_document has_storage API_ORIGIN) web_call.
Proof.
  refine {| cc_spec := fun c => ApiClient.fetch_spec (set_header "x-request-id" c.1 c.2);
            cc_refresh := refresh_sent API_ORIGIN |}.
  - intros [rid req] tr o H. by apply ApiClient.exec_apiFetch in H.
  - intros c xs js o H. destruct H; simpl; lia.
  - apply web_refresh_accepted.
Defined.

Lemma web_call_entry c : ApiClient.is_call has_document has_storage (web_call c).
Proof. by exists c.1, c.2. Qed.
End Web.

Section MobileCalls.
Variable API_ORIGIN : jstr.

(** A call of the mobile application: through the typed client, or direct. *)
Definition mobile_call (c : (jstr * Request) + Request) : prog Response :=
  match c with
  | inl (rid, req) => MobileClient.apiFetch rid req
  | inr req => MobileClient.refresh_once req
  end.

Definition mobile_spec (c : (jstr * Request) + Request) :=
  match c with
  | inl (rid, req) => MobileClient.auth_spec (MobileClient.is_auth_path (rq_url req)) (set_header "x-request-id" rid req)
  | inr req => MobileClient.auth_spec false req
  end.

Lemma quiet_saveSession access refresh : quiet (MobileClient.saveSession access refresh).
Proof.
  unfold MobileClient.saveSession, MobileClient.setAccessToken, MobileClient.setRefreshToken.
  apply quiet_bind; [auto with postal|]. intros _.
  repeat case_match; auto with postal.
Qed.

Lemma mobile_refresh_accepted tr :
  exec (MobileClient.refreshBody API_ORIGIN) tr (inr true) ->
  exists r res, sent tr = [(r, Some res)] /\ rs_ok res = true /\ refresh_sent API_ORIGIN r.
Proof.
  unfold MobileClient.refreshBody. intros [(a & H & [= <-])|(e & t1 & t2 & _ & H & _)]%exec_catch; [|by inversion H].
  apply exec_quiet_bind in H as (t & t1 & H & ->); [|apply quiet_load; auto with postal].
  destruct t as [r|]; [destruct (truthy r)|]; [|by exec_step H..].
  apply exec_fetch_bind in H as (res & t2 & H & ->). destruct (rs_ok res) eqn:Eok; [|by exec_step H].
  apply exec_inv in H as (t3 & -> & H). destruct (rs_json res) as [body|]; [|by exec_step H].
  destruct (get_prop body "data") as [data|]; [|by exec_step H].
  destruct (MobileClient.string_prop data "access_token") as [access|]; [|by exec_step H].
  apply exec_quiet_bind in H as (u & t4 & H & Hs); [|apply quiet_saveSession].
  exec_step H. eexists _, res. split_and!; [f_equal; exact Hs|done|by split].
Qed.

#[export] Instance mobile_contract : CallContract (MobileClient.refreshBody API_ORIGIN) mobile_call.
Proof.
  refine {| cc_spec := mobile_spec; cc_refresh := refresh_sent API_ORIGIN |}.
  - intros [[rid req]|req] tr o H; [by apply MobileClient.mobile_exec_apiFetch in H|].
    by apply MobileClient.exec_refresh_once in H.
  - intros [[rid req]|req] xs js o H; destruct H; simpl; lia.
  - apply mobile_refresh_accepted.
Defined.

Lemma mobile_call_entry c : MobileClient.is_call (mobile_call c).
Proof. destruct c as [[rid req]|req]; [left; by exists rid, req|right; by exists req]. Qed.
End MobileCalls.

#[local] Existing Instances ApiClient.web_client MobileClient.mobile_client.

(** ** Properties *)

(** C4: a burst of calls of the web application refines the contract of one call: whatever
    the interleaving, each call has sent a prefix of an exchange that the contract of
    [apiFetch] allows, the whole of it once it has settled, with the contract's outcome; a
    call that was sent again had its session refreshed, by a request that was accepted;
    and [n] calls cause at most [n] refreshes and [3 n] requests in all. *)
Theorem web_burst_refines_spec has_document has_storage origin cs cl w
  (H : issued (ApiClient.refreshBody has_document has_storage origin)
         (web_call has_document has_storage) cs cl w) :
  length (tasks w) = length cl
  /\ (forall i rid req t, cl !! i = Some (rid, req) -> tasks w !! i = Some t ->
       exists xs js o, ApiClient.fetch_spec (set_header "x-request-id" rid req) xs js o
         /\ sent_by (ByTask i) (net w) `prefix_of` map fst xs
         /\ forall o', settled t = Some o' ->
              o' = o /\ sent_by (ByTask i) (net w) = map fst xs
              /\ (true ∈ js -> exists r, r ∈ sent_by ByRefresh (net w) /\ refresh_sent origin r))
  /\ length (sent_by ByRefresh (net w)) <= length cl
  /\ length (net w) <= 3 * length cl.
Proof.
  destruct (issued_bounds (web_call_entry has_document has_storage) _ _ _ H) as (Hl & Hr & Hn).
  split_and!; [done| |done|done]. intros i rid req t Hc Ht. exact (issued_follows _ _ _ _ _ _ H Hc Ht).
Qed.

(** Two calls answered 401, which share one refresh and are both sent again. *)
Definition expired : option Response := Some (ApiClient.answer_of 401 JNull).
Definition fine : option Response := Some (ApiClient.answer_of 200 JNull).
Definition two_reads : list (jstr * Request) := [("r1" : jstr, ApiClient.get_posts); ("r2" : jstr, ApiClient.get_posts)].
Definition shared_schedule : list (turn (jstr * Request)) :=
  map Issue two_reads
  ++ [Advance 0 expired; Advance 1 expired; Advance 1 None; Advance 0 None;
      Refresh None; Refresh None; Refresh fine; Refresh None; Refresh None;
      Advance 1 None; Advance 0 None; Advance 1 None; Advance 1 fine; Advance 0 None; Advance 0 fine].
Definition shared_refresh : World Response :=
  play (ApiClient.refreshBody true (Some true) []) (web_call true (Some true)) ApiClient.no_cells
    (reverse shared_schedule).

Lemma web_burst_refines_spec_witness :
  let w := shared_refresh in
    length (net w) = 5 /\ map settled (tasks w) = [Some (inr (ApiClient.answer_of 200 JNull)); Some (inr (ApiClient.answer_of 200 JNull))]
    /\ length (tasks w) = 2 /\ length (sent_by ByRefresh (net w)) <= 2 /\ length (net w) <= 6.
Proof.
  intros w. split; [vm_compute; reflexivity|]. split; [vm_compute; reflexivity|].
  destruct (web_burst_refines_spec true (Some true) [] ApiClient.no_cells two_reads w
    (issued_play _ _ _ (reverse shared_schedule))) as (H1 & _ & H2 & H3). split; [exact H1|]. split; [exact H2|exact H3].
Defined.

(** C9: the same for the mobile application, where a call is one of the typed client or a
    direct one: concurrent calls share the token and the refresh, and each of them still
    sends what its own contract says. *)
Theorem mobile_burst_refines_spec origin cs cl w
  (H : issued (MobileClient.refreshBody origin) mobile_call cs cl w) :
  length (tasks w) = length cl
  /\ (forall i c t, cl !! i = Some c -> tasks w !! i = Some t ->
       exists xs js o, mobile_spec c xs js o
         /\ sent_by (ByTask i) (net w) `prefix_of` map fst xs
         /\ forall o', settled t = Some o' ->
              o' = o /\ sent_by (ByTask i) (net w) = map fst xs
              /\ (true ∈ js -> exists r, r ∈ sent_by ByRefresh (net w) /\ refresh_sent origin r))
  /\ length (sent_by ByRefresh (net w)) <= length cl
  /\ length (net w) <= 3 * length cl.
Proof.
  destruct (issued_bounds mobile_call_entry _ _ _ H) as (Hl & Hr & Hn).
  split_and!; [done| |done|done]. intros i c t Hc Ht. exact (issued_follows _ _ _ _ _ _ H Hc Ht).
Qed.

(** A call of the typed client and a direct one, the second waiting for the refresh. *)
Definition mobile_pair : list ((jstr * Request) + Request) :=
  [inl ("r1" : jstr, ApiClient.get_posts); inr ApiClient.get_posts].
Definition direct_schedule : list (turn ((jstr * Request) + Request)) :=
  map Issue mobile_pair
  ++ [Advance 0 None; Advance 1 None; Advance 1 expired; Advance 0 fine; Advance 1 None].
Definition direct_waits : World Response :=
  play (MobileClient.refreshBody []) mobile_call ApiClient.no_cells (reverse direct_schedule).

Lemma mobile_burst_refines_spec_witness :
  let w := direct_waits in
    map settled (tasks w) = [Some (inr (ApiClient.answer_of 200 JNull)); None] /\ flights w = 1
    /\ length (tasks w) = 2 /\ length (sent_by ByRefresh (net w)) <= 2 /\ length (net w) <= 6.
Proof.
  intros w. split; [vm_compute; reflexivity|]. split; [vm_compute; reflexivity|].
  destruct (mobile_burst_refines_spec [] ApiClient.no_cells mobile_pair w
    (issued_play _ _ _ (reverse direct_schedule))) as (H1 & _ & H2 & H3). split; [exact H1|]. split; [exact H2|exact H3].
Defined.
