(* ===== verification/DataMobile.v ===== *)
(** * The mobile data hooks: mobile/src/data/*.ts

    The twins of DataWeb.v, with the mobile error mapper; the hooks that touch the session
    tokens or call [fetch] themselves are in MobileClient.v. *)
From S2P Require Import Prelude JsValue ApiError Query DataWeb.

Local Open Scope js_scope.

Abbreviation normalizeError := Mobile.normalizeError.
Abbreviation unwrap_list := (Query.unwrap_list normalizeError).
Abbreviation unwrap_any := (Query.unwrap_any normalizeError).
Abbreviation unwrap_data := (Query.unwrap_data normalizeError).
Abbreviation unwrap_inner := (Query.unwrap_inner normalizeError).
Abbreviation unwrap_url := (Query.unwrap_url normalizeError).
Abbreviation unwrap_void := (Query.unwrap_void normalizeError).
Abbreviation unwrap_ok := (Query.unwrap_ok normalizeError).
Abbreviation unwrap_me := (Query.unwrap_me normalizeError).

(** ** Keys *)

Module analyticsKeys.
Definition overview (ws : jstr) : Key := [KStr "workspaces"; KStr ws; KStr "analytics"].
Definition post (ws p : jstr) : Key := [KStr "workspaces"; KStr ws; KStr "analytics"; KStr p].
End analyticsKeys.

Definition authKeys_me : Key := [KStr "auth"; KStr "me"].

Module billingKeys.
Definition wallet (ws : jstr) : Key := [KStr "workspaces"; KStr ws; KStr "billing"; KStr "wallet"].
Definition ledger (ws : jstr) : Key := [KStr "workspaces"; KStr ws; KStr "billing"; KStr "ledger"].
End billingKeys.

Definition channelKeys_list (ws : jstr) : Key := [KStr "workspaces"; KStr ws; KStr "channels"].
Definition mediaKeys_list (ws : jstr) : Key := [KStr "workspaces"; KStr ws; KStr "media"].
Definition memberKeys_list (ws : jstr) : Key := [KStr "workspaces"; KStr ws; KStr "members"].

Module governanceKeys.
Definition channels (ws user : jstr) : Key :=
  [KStr "workspaces"; KStr ws; KStr "member-channels"; KStr user].
Definition activity (ws : jstr) : Key := [KStr "workspaces"; KStr ws; KStr "activity"].
End governanceKeys.

Module postKeys.
Definition list_ (ws : jstr) : Key := [KStr "workspaces"; KStr ws; KStr "posts"].
Definition detail (ws p : jstr) : Key := [KStr "workspaces"; KStr ws; KStr "posts"; KStr p].
End postKeys.

Definition scheduleKeys_calendar (ws : jstr) : Key :=
  [KStr "workspaces"; KStr ws; KStr "calendar"].
Definition wsKeys_list : Key := [KStr "workspaces"].

(** ** Queries *)

Definition useAnalyticsOverview (ws : option jstr) : Query :=
  {| q_key := analyticsKeys.overview (or_empty ws); q_enabled := present ws;
     q_call := GET "/api/v1/workspaces/{workspaceID}/analytics/" (ws_param ws) [];
     q_result := unwrap_inner "posts" (JArr []) |}.

Definition usePostAnalytics (ws post : option jstr) : Query :=
  {| q_key := analyticsKeys.post (or_empty ws) (or_empty post);
     q_enabled := present ws && present post;
     q_call := GET "/api/v1/workspaces/{workspaceID}/analytics/posts/{postID}" (ws_post ws post) [];
     q_result := unwrap_inner "channels" (JArr []) |}.

Definition useMe : Query :=
  {| q_key := authKeys_me; q_enabled := true; q_call := GET "/api/v1/auth/me" [] [];
     q_result := unwrap_me |}.

Definition useWallet (ws : option jstr) : Query :=
  {| q_key := billingKeys.wallet (or_empty ws); q_enabled := present ws;
     q_call := GET "/api/v1/workspaces/{workspaceID}/billing/wallet" (ws_param ws) [];
     q_result := unwrap_data |}.

Definition useLedger (ws : option jstr) : Query :=
  {| q_key := billingKeys.ledger (or_empty ws); q_enabled := present ws;
     q_call := GET "/api/v1/workspaces/{workspaceID}/billing/ledger" (ws_param ws) [];
     q_result := unwrap_list |}.

Definition useChannels (ws : option jstr) : Query :=
  {| q_key := channelKeys_list (or_empty ws); q_enabled := present ws;
     q_call := GET "/api/v1/workspaces/{workspaceID}/channels/" (ws_param ws) [];
     q_result := unwrap_list |}.

Definition useMedia (ws : option jstr) : Query :=
  {| q_key := mediaKeys_list (or_empty ws); q_enabled := present ws;
     q_call := GET "/api/v1/workspaces/{workspaceID}/media/" (ws_param ws) [];
     q_result := unwrap_list |}.

Definition useMembers (ws : option jstr) : Query :=
  {| q_key := memberKeys_list (or_empty ws); q_enabled := present ws;
     q_call := GET "/api/v1/workspaces/{workspaceID}/members" (ws_param ws) [];
     q_result := unwrap_list |}.

Definition usePosts (ws : option jstr) : Query :=
  {| q_key := postKeys.list_ (or_empty ws); q_enabled := present ws;
     q_call := GET "/api/v1/workspaces/{workspaceID}/posts/" (ws_param ws) [];
     q_result := unwrap_list |}.

Definition usePost (ws post : option jstr) : Query :=
  {| q_key := postKeys.detail (or_empty ws) (or_empty post);
     q_enabled := present ws && present post;
     q_call := GET "/api/v1/workspaces/{workspaceID}/posts/{postID}" (ws_post ws post) [];
     q_result := unwrap_data |}.

Definition useCalendar (ws from to : option jstr) : Query :=
  {| q_key := scheduleKeys_calendar (or_empty ws) ++ [KRange from to]; q_enabled := present ws;
     q_call := GET "/api/v1/workspaces/{workspaceID}/calendar" (ws_param ws) [("from", from); ("to", to)];
     q_result := unwrap_inner "jobs" (JArr []) |}.

Definition useWorkspaces : Query :=
  {| q_key := wsKeys_list; q_enabled := true; q_call := GET "/api/v1/workspaces/" [] [];
     q_result := unwrap_list |}.

(** ** Mutations *)

Definition useSignup : Mutation json :=
  {| m_call body := send "POST" "/api/v1/auth/signup" [] body; m_result := unwrap_any;
     m_onSuccess := invalidates [] |}.

Definition useRequestReset : Mutation jstr :=
  {| m_call email := send "POST" "/api/v1/auth/password-reset/request" [] (JObj [("email", JStr email)]);
     m_result := unwrap_ok; m_onSuccess := invalidates [] |}.

Definition useConfirmReset : Mutation (jstr * jstr) :=
  {| m_call v := send "POST" "/api/v1/auth/password-reset/confirm" []
                   (JObj [("token", JStr v.1); ("new_password", JStr v.2)]);
     m_result := unwrap_ok; m_onSuccess := invalidates [] |}.

Definition OAUTH_REDIRECT : jstr := "postal://oauth-callback".

Definition useConnectChannel (ws : jstr) : Mutation jstr :=
  {| m_call platform := send "POST" "/api/v1/workspaces/{workspaceID}/channels/connect"
       (ws_param (Some ws))
       (JObj [("platform", JStr platform); ("redirect_uri", JStr OAUTH_REDIRECT)]);
     m_result := unwrap_url "authorize_url"; m_onSuccess := invalidates [] |}.

Definition useCompleteOAuth : Mutation (jstr * jstr) :=
  {| m_call v := GET "/api/v1/channels/oauth/callback" [] [("state", Some v.1); ("code", Some v.2)];
     m_result := unwrap_data; m_onSuccess := invalidates [[KStr "workspaces"]] |}.

Definition useDisconnectChannel (ws : jstr) : Mutation jstr :=
  {| m_call c := send "DELETE" "/api/v1/workspaces/{workspaceID}/channels/{channelID}"
                   [("workspaceID", Some ws); ("channelID", Some c)] JUndef;
     m_result := unwrap_void; m_onSuccess := invalidates [channelKeys_list ws] |}.

Definition useDeleteMedia (ws : jstr) : Mutation jstr :=
  {| m_call m := send "DELETE" "/api/v1/workspaces/{workspaceID}/media/{mediaID}"
                   [("workspaceID", Some ws); ("mediaID", Some m)] JUndef;
     m_result := unwrap_void; m_onSuccess := invalidates [mediaKeys_list ws] |}.

Definition useAddMember (ws : jstr) : Mutation json :=
  {| m_call body := send "POST" "/api/v1/workspaces/{workspaceID}/members" (ws_param (Some ws)) body;
     m_result := unwrap_data; m_onSuccess := invalidates [memberKeys_list ws] |}.

Definition useCreatePost (ws : jstr) : Mutation json :=
  {| m_call variants := send "POST" "/api/v1/workspaces/{workspaceID}/posts/" (ws_param (Some ws))
                          (variants_body variants);
     m_result := unwrap_data; m_onSuccess := invalidates [postKeys.list_ ws] |}.

Definition useUpdatePost (ws : jstr) : Mutation (jstr * json) :=
  {| m_call v := send "PUT" "/api/v1/workspaces/{workspaceID}/posts/{postID}"
                   (ws_post (Some ws) (Some v.1)) (variants_body v.2);
     m_result := unwrap_data;
     m_onSuccess post _ :=
       match req_prop post "id" with
       | inr id => inr [InvalidateQueries (postKeys.list_ ws);
                        SetQueryData (postKeys.detail ws (to_key id)) post]
       | inl e => inl e
       end |}.

Definition useDeletePost (ws : jstr) : Mutation jstr :=
  {| m_call p := send "DELETE" "/api/v1/workspaces/{workspaceID}/posts/{postID}"
                   (ws_post (Some ws) (Some p)) JUndef;
     m_result := unwrap_void; m_onSuccess := invalidates [postKeys.list_ ws] |}.

Definition useValidatePost (ws : jstr) : Mutation jstr :=
  {| m_call p := send "POST" "/api/v1/workspaces/{workspaceID}/posts/{postID}/validate"
                   (ws_post (Some ws) (Some p)) JUndef;
     m_result := unwrap_inner "variants" (JArr []); m_onSuccess := invalidates [] |}.

Record ScheduleInput := { si_postId : jstr; si_runAt : option jstr; si_toSlots : option bool }.

Definition useSchedulePost (ws : jstr) : Mutation ScheduleInput :=
  {| m_call v := send "POST" "/api/v1/workspaces/{workspaceID}/schedule" (ws_param (Some ws))
       (JObj [("post_id", JStr (si_postId v)); ("run_at", opt_str (si_runAt v));
              ("to_slots", match si_toSlots v with Some b => JBool b | None => JUndef end)]);
     m_result := unwrap_inner "jobs" (JArr []);
     m_onSuccess := invalidates [[KStr "workspaces"; KStr ws; KStr "calendar"];
                                 [KStr "workspaces"; KStr ws; KStr "posts"]] |}.

Definition useCancelJob (ws : jstr) : Mutation jstr :=
  {| m_call j := send "DELETE" "/api/v1/workspaces/{workspaceID}/scheduled-jobs/{jobID}"
                   [("workspaceID", Some ws); ("jobID", Some j)] JUndef;
     m_result := unwrap_void;
     m_onSuccess := invalidates [[KStr "workspaces"; KStr ws; KStr "calendar"]] |}.

(** ** The mobile queries among the web ones *)

Inductive MobileQuery :=
  | qAnalyticsOverview (ws : option jstr) | qPostAnalytics (ws post : option jstr)
  | qMe | qWallet (ws : option jstr) | qLedger (ws : option jstr) | qChannels (ws : option jstr)
  | qMedia (ws : option jstr) | qMembers (ws : option jstr) | qPosts (ws : option jstr)
  | qPost (ws post : option jstr) | qCalendar (ws from to : option jstr) | qWorkspaces.

Definition mobile_query (q : MobileQuery) : Query :=
  match q with
  | qAnalyticsOverview ws => useAnalyticsOverview ws | qPostAnalytics ws p => usePostAnalytics ws p
  | qMe => useMe | qWallet ws => useWallet ws | qLedger ws => useLedger ws
  | qChannels ws => useChannels ws | qMedia ws => useMedia ws | qMembers ws => useMembers ws
  | qPosts ws => usePosts ws | qPost ws p => usePost ws p
  | qCalendar ws f t => useCalendar ws f t | qWorkspaces => useWorkspaces
  end.

Definition to_web (q : MobileQuery) : WebQuery :=
  match q with
  | qAnalyticsOverview ws => DataWeb.qAnalyticsOverview ws
  | qPostAnalytics ws p => DataWeb.qPostAnalytics ws p
  | qMe => DataWeb.qMe | qWallet ws => DataWeb.qWallet ws | qLedger ws => DataWeb.qLedger ws
  | qChannels ws => DataWeb.qChannels ws | qMedia ws => DataWeb.qMedia ws
  | qMembers ws => DataWeb.qMembers ws | qPosts ws => DataWeb.qPosts ws
  | qPost ws p => DataWeb.qPost ws p | qCalendar ws f t => DataWeb.qCalendar ws f t
  | qWorkspaces => DataWeb.qWorkspaces
  end.

Lemma unwrap_data_indep f g r x :
  Query.unwrap_data f r = ([], inr x) -> Query.unwrap_data g r = ([], inr x).
Proof.
  unfold Query.unwrap_data, Query.reject. destruct (_ || _); [by destruct (f _ _)|done].
Qed.

Lemma unwrap_list_indep f g r x :
  Query.unwrap_list f r = ([], inr x) -> Query.unwrap_list g r = ([], inr x).
Proof. unfold Query.unwrap_list, Query.reject. destruct (_ || _); [by destruct (f _ _)|done]. Qed.

Lemma unwrap_inner_indep f g k d r x :
  Query.unwrap_inner f k d r = ([], inr x) -> Query.unwrap_inner g k d r = ([], inr x).
Proof.
  unfold Query.unwrap_inner, Query.unwrap_data, Query.reject. destruct (_ || _); [by destruct (f _ _)|done].
Qed.

Lemma unwrap_me_indep f g r x :
  Query.unwrap_me f r = ([], inr x) -> Query.unwrap_me g r = ([], inr x).
Proof.
  unfold Query.unwrap_me, Query.unwrap_any, Query.reject. destruct (Z.eqb _ _); [done|].
  destruct (_ || _); [by destruct (f _ _)|done].
Qed.

(** ** Properties *)

(** C40: the two apps read alike: every mobile query has the key, the guard and the request
    of its web twin, and unwraps the same answers to the same data; only the texts of the
    errors differ. *)
Theorem mobile_queries_are_web q :
  q_key (mobile_query q) = q_key (web_query (to_web q))
  /\ q_enabled (mobile_query q) = q_enabled (web_query (to_web q))
  /\ q_call (mobile_query q) = q_call (web_query (to_web q))
  /\ forall r x, q_result (mobile_query q) r = ([], inr x)
       <-> q_result (web_query (to_web q)) r = ([], inr x).
Proof.
  split_and!; [by destruct q..|]. intros r x.
  destruct q; simpl; split;
    first [apply unwrap_list_indep|apply unwrap_data_indep|apply unwrap_inner_indep|apply unwrap_me_indep].
Qed.
