(* ===== verification/Contract.v ===== *)
(** * The API contract and the typing of the calls: web/src/api/schema.d.ts

    The generated declarations give each operation of the API its path, its parameters and
    the types of its body and of its answer.  They are translated here as data, the types of
    the schemas in [Module T] and one [Operation] per operation the hooks call, with the
    judgments the compiler makes of them: [has_type] for values and [typed_call] for calls.
    The theorems show that every call of every hook is well typed, and that an answer which
    conforms to the contract gives the hook a value of the type it declares: no TypeError
    arises between the two. *)
From S2P Require Import Prelude JsValue ApiError Query.
From S2P Require DataWeb DataMobile MobileClient.

Local Open Scope js_scope.

(** ** Types and their values *)

Inductive ty :=
  | TString | TNumber | TBoolean | TNull | TUndefined | TUnknown
  | TLit (s : jstr)
  | TUnion (ts : list ty)
  | TArray (t : ty)
  | TRecord (t : ty)                                (* [key: string]: t *)
  | TObject (fields : list (jstr * (bool * ty))).   (* optional?, type *)

Definition req (t : ty) : bool * ty := (false, t).
Definition opt (t : ty) : bool * ty := (true, t).

Fixpoint has_type (t : ty) (v : json) {struct t} : bool :=
  match t with
  | TString => match v with JStr _ => true | _ => false end
  | TNumber => match v with JNum _ => true | _ => false end
  | TBoolean => match v with JBool _ => true | _ => false end
  | TNull => match v with JNull => true | _ => false end
  | TUndefined => match v with JUndef => true | _ => false end
  | TUnknown => true
  | TLit s => is_str v s
  | TUnion ts => (fix any l := match l with [] => false | t :: l' => has_type t v || any l' end) ts
  | TArray t => match v with JArr l => forallb (has_type t) l | _ => false end
  | TRecord t => match v with JObj kv => forallb (fun p => has_type t p.2) kv | _ => false end
  | TObject fs =>
      match v with
      | JObj kv =>
          (fix all l := match l with
           | [] => true
           | (k, (o, t)) :: l' =>
               match field k kv with
               | Some JUndef | None => o
               | Some w => has_type t w
               end && all l'
           end) fs
      | _ => false
      end
  end.

Fixpoint field_of {A} (k : jstr) (fs : list (jstr * A)) : option A :=
  match fs with
  | [] => None
  | (k', x) :: fs' => if k' =ₛ k then Some x else field_of k fs'
  end.

(** The members of an object literal are declared ones (the excess-property check). *)
Definition no_excess (t : ty) (v : json) : bool :=
  match t, v with
  | TObject fs, JObj kv => forallb (fun p => match field_of p.1 fs with Some _ => true | None => false end) kv
  | _, _ => true
  end.

Module T.
Definition SignupRequest : ty := TObject [("email", req TString); ("password", req TString)].
Definition LoginRequest : ty := TObject [("email", req TString); ("password", req TString)].
Definition RefreshRequest : ty := TObject [("refresh_token", opt TString)].
Definition MessageEnvelope : ty := TObject [("data", opt (TObject [("message", opt TString)]))].
Definition User : ty := TObject [("id", req TString); ("email", req TString);
  ("email_verified", req TBoolean); ("status", req TString); ("created_at", req TString)].
Definition UserEnvelope : ty := TObject [("data", opt User)].
Definition Token : ty := TObject [("access_token", req TString); ("token_type", req TString);
  ("expires_in", req TNumber); ("csrf_token", req TString); ("refresh_token", opt TString);
  ("user", opt User)].
Definition TokenEnvelope : ty := TObject [("data", opt Token)].
Definition Workspace : ty := TObject [("id", req TString); ("name", req TString);
  ("owner_user_id", req TString); ("plan", req TString); ("created_at", req TString)].
Definition Capability : ty := TUnion [TLit "read"; TLit "create"; TLit "update"; TLit "delete";
  TLit "upload"; TLit "publish"; TLit "manage_channels"; TLit "manage_members";
  TLit "manage_workspace"].
Definition Member : ty := TObject [("workspace_id", req TString); ("user_id", req TString);
  ("role", req (TUnion [TLit "owner"; TLit "admin"; TLit "editor"; TLit "viewer";
  TLit "custom"])); ("permissions", req (TArray Capability))].
Definition MemberEnvelope : ty := TObject [("data", opt Member)].
Definition AddMemberRequest : ty := TObject [("email", req TString); ("role", opt (TUnion
  [TLit "owner"; TLit "admin"; TLit "editor"; TLit "viewer"])); ("capabilities", opt (TArray
  Capability))].
Definition UpdateCapabilitiesRequest : ty := TObject [("role", opt (TUnion [TLit "owner";
  TLit "admin"; TLit "editor"; TLit "viewer"])); ("capabilities", opt (TArray Capability))].
Definition Channel : ty := TObject [("id", req TString); ("platform", req TString);
  ("platform_account_id", req TString); ("handle", req TString); ("display_name", req TString);
  ("status", req (TUnion [TLit "active"; TLit "expired"; TLit "revoked"]));
  ("connected_by", opt (TUnion [TString; TNull])); ("created_at", req TString)].
Definition ChannelEnvelope : ty := TObject [("data", opt Channel)].
Definition MediaMeta : ty := TObject [("media_id", req TString); ("kind", req (TUnion
  [TLit "image"; TLit "gif"; TLit "video"])); ("mime", req TString); ("bytes", req TNumber)].
Definition VariantInput : ty := TObject [("channel_id", req TString); ("body", opt TString);
  ("media", opt (TArray MediaMeta)); ("platform_options", opt (TRecord TUnknown))].
Definition Variant : ty := TObject [("id", req TString); ("channel_id", req TString);
  ("body", req TString); ("media", opt (TArray MediaMeta)); ("platform_options", opt (TRecord
  TUnknown))].
Definition Post : ty := TObject [("id", req TString); ("workspace_id", req TString);
  ("author_user_id", opt (TUnion [TString; TNull])); ("status", req TString);
  ("created_at", req TString); ("variants", opt (TArray Variant))].
Definition PostEnvelope : ty := TObject [("data", opt Post)].
Definition PostWriteRequest : ty := TObject [("variants", req (TArray VariantInput))].
Definition VariantValidation : ty := TObject [("channel_id", req TString);
  ("valid", req TBoolean); ("code", opt TString); ("message", opt TString)].
Definition Job : ty := TObject [("id", req TString); ("post_id", req TString);
  ("channel_id", req TString); ("run_at", req TString); ("status", req (TUnion [TLit "scheduled";
  TLit "publishing"; TLit "published"; TLit "failed"; TLit "canceled"]));
  ("attempts", req TNumber); ("last_error", opt TString); ("created_at", req TString)].
Definition Slot : ty := TObject [("id", req TString); ("channel_id", req TString);
  ("day_of_week", req TNumber); ("time_of_day", req TString); ("timezone", req TString);
  ("created_at", req TString)].
Definition SlotEnvelope : ty := TObject [("data", opt Slot)].
Definition SlotRequest : ty := TObject [("channel_id", req TString);
  ("day_of_week", req TNumber); ("time_of_day", req TString); ("timezone", req TString)].
Definition Asset : ty := TObject [("id", req TString); ("workspace_id", req TString);
  ("kind", req (TUnion [TLit "image"; TLit "gif"; TLit "video"])); ("mime", req TString);
  ("width", req TNumber); ("height", req TNumber); ("duration_ms", req TNumber);
  ("bytes", req TNumber); ("status", req TString); ("created_at", req TString)].
Definition PostMetrics : ty := TObject [("post_id", req TString); ("channel_id", req TString);
  ("platform_post_id", req TString); ("metrics", req (TRecord TNumber));
  ("captured_at", req TString)].
Definition ChannelMetrics : ty := TObject [("channel_id", req TString);
  ("platform_post_id", req TString); ("metrics", req (TRecord TNumber));
  ("captured_at", req TString)].
Definition SeriesPoint : ty := TObject [("value", req TNumber); ("captured_at", req TString)].
Definition Integration : ty := TObject [("provider", req TString); ("enabled", req TBoolean);
  ("auto_apply", req TBoolean); ("configured", req TBoolean); ("updated_at", req TString)].
Definition LinkPreview : ty := TObject [("url", req TString); ("site_name", req TString);
  ("title", req TString); ("description", req TString); ("image", req TString)].
Definition Wallet : ty := TObject [("workspace_id", req TString); ("balance", req TNumber);
  ("publish_costs", req (TRecord TNumber)); ("updated_at", req TString)].
Definition LedgerEntry : ty := TObject [("id", req TString); ("workspace_id", req TString);
  ("kind", req (TUnion [TLit "topup"; TLit "publish_charge"; TLit "refund"; TLit "adjustment"]));
  ("credits", req TNumber); ("reference", req TString); ("note", req TString);
  ("created_at", req TString)].
End T.

(** ** Operations *)

Record Operation := { o_method : jstr; o_path : jstr; o_params : list (jstr * ty);
  o_query : list (jstr * (bool * ty)); o_body : option (bool * ty); o_answer : ty }.

Section Operations.
Import T.

Definition post_auth_signup : Operation := {| o_method := "POST";
  o_path := "/api/v1/auth/signup"; o_params := []; o_query := []; o_body := Some (req
  SignupRequest); o_answer := UserEnvelope |}.
Definition post_auth_login : Operation := {| o_method := "POST"; o_path := "/api/v1/auth/login";
  o_params := []; o_query := []; o_body := Some (req LoginRequest); o_answer := TokenEnvelope |}.
Definition post_auth_refresh : Operation := {| o_method := "POST";
  o_path := "/api/v1/auth/refresh"; o_params := []; o_query := []; o_body := Some (opt
  RefreshRequest); o_answer := TokenEnvelope |}.
Definition post_auth_logout : Operation := {| o_method := "POST";
  o_path := "/api/v1/auth/logout"; o_params := []; o_query := []; o_body := Some (opt
  RefreshRequest); o_answer := MessageEnvelope |}.
Definition post_auth_verify_email : Operation := {| o_method := "POST";
  o_path := "/api/v1/auth/verify-email"; o_params := []; o_query := []; o_body := Some (req
  (TObject [("token", req TString)])); o_answer := MessageEnvelope |}.
Definition post_auth_password_reset_request : Operation := {| o_method := "POST";
  o_path := "/api/v1/auth/password-reset/request"; o_params := []; o_query := []; o_body := Some
  (req (TObject [("email", req TString)])); o_answer := MessageEnvelope |}.
Definition post_auth_password_reset_confirm : Operation := {| o_method := "POST";
  o_path := "/api/v1/auth/password-reset/confirm"; o_params := []; o_query := []; o_body := Some
  (req (TObject [("token", req TString); ("new_password", req TString)])); o_answer :=
  MessageEnvelope |}.
Definition get_auth_me : Operation := {| o_method := "GET"; o_path := "/api/v1/auth/me";
  o_params := []; o_query := []; o_body := None; o_answer := UserEnvelope |}.
Definition get_workspaces : Operation := {| o_method := "GET"; o_path := "/api/v1/workspaces/";
  o_params := []; o_query := []; o_body := None; o_answer := TObject [("data", opt (TArray
  Workspace))] |}.
Definition get_members : Operation := {| o_method := "GET";
  o_path := "/api/v1/workspaces/{workspaceID}/members"; o_params := [("workspaceID", TString)];
  o_query := []; o_body := None; o_answer := TObject [("data", opt (TArray Member))] |}.
Definition post_members : Operation := {| o_method := "POST";
  o_path := "/api/v1/workspaces/{workspaceID}/members"; o_params := [("workspaceID", TString)];
  o_query := []; o_body := Some (req AddMemberRequest); o_answer := MemberEnvelope |}.
Definition patch_members_capabilities : Operation := {| o_method := "PATCH";
  o_path := "/api/v1/workspaces/{workspaceID}/members/{userID}/capabilities"; o_params :=
  [("workspaceID", TString); ("userID", TString)]; o_query := []; o_body := Some (req
  UpdateCapabilitiesRequest); o_answer := MemberEnvelope |}.
Definition get_channels_oauth_callback : Operation := {| o_method := "GET";
  o_path := "/api/v1/channels/oauth/callback"; o_params := []; o_query := [("state", req TString);
  ("code", req TString)]; o_body := None; o_answer := ChannelEnvelope |}.
Definition get_channels : Operation := {| o_method := "GET";
  o_path := "/api/v1/workspaces/{workspaceID}/channels/"; o_params := [("workspaceID", TString)];
  o_query := []; o_body := None; o_answer := TObject [("data", opt (TArray Channel))] |}.
Definition post_channels_connect : Operation := {| o_method := "POST";
  o_path := "/api/v1/workspaces/{workspaceID}/channels/connect"; o_params :=
  [("workspaceID", TString)]; o_query := []; o_body := Some (req (TObject
  [("platform", req TString); ("redirect_uri", opt TString)])); o_answer := TObject
  [("data", opt (TObject [("authorize_url", opt TString)]))] |}.
Definition delete_channels_one : Operation := {| o_method := "DELETE";
  o_path := "/api/v1/workspaces/{workspaceID}/channels/{channelID}"; o_params :=
  [("workspaceID", TString); ("channelID", TString)]; o_query := []; o_body := None; o_answer :=
  MessageEnvelope |}.
Definition get_posts : Operation := {| o_method := "GET";
  o_path := "/api/v1/workspaces/{workspaceID}/posts/"; o_params := [("workspaceID", TString)];
  o_query := []; o_body := None; o_answer := TObject [("data", opt (TArray Post))] |}.
Definition post_posts : Operation := {| o_method := "POST";
  o_path := "/api/v1/workspaces/{workspaceID}/posts/"; o_params := [("workspaceID", TString)];
  o_query := []; o_body := Some (req PostWriteRequest); o_answer := PostEnvelope |}.
Definition post_posts_utm_preview : Operation := {| o_method := "POST";
  o_path := "/api/v1/workspaces/{workspaceID}/posts/utm-preview"; o_params :=
  [("workspaceID", TString)]; o_query := []; o_body := Some (req (TObject [("text", opt TString);
  ("utm", opt (TRecord TString))])); o_answer := TObject [("data", opt (TObject
  [("text", opt TString)]))] |}.
Definition get_posts_link_preview : Operation := {| o_method := "GET";
  o_path := "/api/v1/workspaces/{workspaceID}/posts/link-preview"; o_params :=
  [("workspaceID", TString)]; o_query := [("url", req TString)]; o_body := None; o_answer :=
  TObject [("data", opt LinkPreview)] |}.
Definition get_posts_one : Operation := {| o_method := "GET";
  o_path := "/api/v1/workspaces/{workspaceID}/posts/{postID}"; o_params :=
  [("workspaceID", TString); ("postID", TString)]; o_query := []; o_body := None; o_answer :=
  PostEnvelope |}.
Definition put_posts_one : Operation := {| o_method := "PUT";
  o_path := "/api/v1/workspaces/{workspaceID}/posts/{postID}"; o_params :=
  [("workspaceID", TString); ("postID", TString)]; o_query := []; o_body := Some (req
  PostWriteRequest); o_answer := PostEnvelope |}.
Definition delete_posts_one : Operation := {| o_method := "DELETE";
  o_path := "/api/v1/workspaces/{workspaceID}/posts/{postID}"; o_params :=
  [("workspaceID", TString); ("postID", TString)]; o_query := []; o_body := None; o_answer :=
  MessageEnvelope |}.
Definition post_posts_validate : Operation := {| o_method := "POST";
  o_path := "/api/v1/workspaces/{workspaceID}/posts/{postID}/validate"; o_params :=
  [("workspaceID", TString); ("postID", TString)]; o_query := []; o_body := None; o_answer :=
  TObject [("data", opt (TObject [("variants", opt (TArray VariantValidation))]))] |}.
Definition post_schedule : Operation := {| o_method := "POST";
  o_path := "/api/v1/workspaces/{workspaceID}/schedule"; o_params := [("workspaceID", TString)];
  o_query := []; o_body := Some (req (TObject [("post_id", req TString); ("run_at", opt TString);
  ("to_slots", opt TBoolean)])); o_answer := TObject [("data", opt (TObject [("jobs", opt (TArray
  Job))]))] |}.
Definition get_calendar : Operation := {| o_method := "GET";
  o_path := "/api/v1/workspaces/{workspaceID}/calendar"; o_params := [("workspaceID", TString)];
  o_query := [("from", opt TString); ("to", opt TString)]; o_body := None; o_answer := TObject
  [("data", opt (TObject [("jobs", opt (TArray Job))]))] |}.
Definition delete_scheduled_jobs_one : Operation := {| o_method := "DELETE";
  o_path := "/api/v1/workspaces/{workspaceID}/scheduled-jobs/{jobID}"; o_params :=
  [("workspaceID", TString); ("jobID", TString)]; o_query := []; o_body := None; o_answer :=
  MessageEnvelope |}.
Definition get_slots : Operation := {| o_method := "GET";
  o_path := "/api/v1/workspaces/{workspaceID}/slots/"; o_params := [("workspaceID", TString)];
  o_query := [("channel_id", req TString)]; o_body := None; o_answer := TObject
  [("data", opt (TArray Slot))] |}.
Definition post_slots : Operation := {| o_method := "POST";
  o_path := "/api/v1/workspaces/{workspaceID}/slots/"; o_params := [("workspaceID", TString)];
  o_query := []; o_body := Some (req SlotRequest); o_answer := SlotEnvelope |}.
Definition delete_slots_one : Operation := {| o_method := "DELETE";
  o_path := "/api/v1/workspaces/{workspaceID}/slots/{slotID}"; o_params :=
  [("workspaceID", TString); ("slotID", TString)]; o_query := [("channel_id", req TString)];
  o_body := None; o_answer := MessageEnvelope |}.
Definition get_media : Operation := {| o_method := "GET";
  o_path := "/api/v1/workspaces/{workspaceID}/media/"; o_params := [("workspaceID", TString)];
  o_query := []; o_body := None; o_answer := TObject [("data", opt (TArray Asset))] |}.
Definition delete_media_one : Operation := {| o_method := "DELETE";
  o_path := "/api/v1/workspaces/{workspaceID}/media/{mediaID}"; o_params :=
  [("workspaceID", TString); ("mediaID", TString)]; o_query := []; o_body := None; o_answer :=
  MessageEnvelope |}.
Definition get_integrations : Operation := {| o_method := "GET";
  o_path := "/api/v1/workspaces/{workspaceID}/integrations/"; o_params :=
  [("workspaceID", TString)]; o_query := []; o_body := None; o_answer := TObject
  [("data", opt (TArray Integration))] |}.
Definition put_integrations_one : Operation := {| o_method := "PUT";
  o_path := "/api/v1/workspaces/{workspaceID}/integrations/{provider}"; o_params :=
  [("workspaceID", TString); ("provider", TLit "ogshortener")]; o_query := []; o_body := Some (req
  (TObject [("enabled", req TBoolean); ("auto_apply", opt TBoolean); ("api_key", opt (TUnion
  [TString; TNull]))])); o_answer := TObject [("data", opt Integration)] |}.
Definition post_integrations_ogshortener_shorten : Operation := {| o_method := "POST";
  o_path := "/api/v1/workspaces/{workspaceID}/integrations/ogshortener/shorten"; o_params :=
  [("workspaceID", TString)]; o_query := []; o_body := Some (req (TObject
  [("text", req TString)])); o_answer := TObject [("data", opt (TObject [("text", req TString)]))]
  |}.
Definition get_billing_wallet : Operation := {| o_method := "GET";
  o_path := "/api/v1/workspaces/{workspaceID}/billing/wallet"; o_params :=
  [("workspaceID", TString)]; o_query := []; o_body := None; o_answer := TObject
  [("data", opt Wallet)] |}.
Definition get_billing_ledger : Operation := {| o_method := "GET";
  o_path := "/api/v1/workspaces/{workspaceID}/billing/ledger"; o_params :=
  [("workspaceID", TString)]; o_query := []; o_body := None; o_answer := TObject
  [("data", opt (TArray LedgerEntry))] |}.
Definition post_billing_topup : Operation := {| o_method := "POST";
  o_path := "/api/v1/workspaces/{workspaceID}/billing/topup"; o_params :=
  [("workspaceID", TString)]; o_query := []; o_body := Some (req (TObject
  [("provider", req (TUnion [TLit "stripe"; TLit "paystack"; TLit "dev"]));
  ("credits", req TNumber)])); o_answer := TObject [("data", opt (TObject
  [("checkout_url", req TString)]))] |}.
Definition get_analytics : Operation := {| o_method := "GET";
  o_path := "/api/v1/workspaces/{workspaceID}/analytics/"; o_params := [("workspaceID", TString)];
  o_query := []; o_body := None; o_answer := TObject [("data", opt (TObject [("posts", opt (TArray
  PostMetrics))]))] |}.
Definition get_analytics_posts_one : Operation := {| o_method := "GET";
  o_path := "/api/v1/workspaces/{workspaceID}/analytics/posts/{postID}"; o_params :=
  [("workspaceID", TString); ("postID", TString)]; o_query := []; o_body := None; o_answer :=
  TObject [("data", opt (TObject [("post_id", opt TString); ("channels", opt (TArray
  ChannelMetrics))]))] |}.
Definition get_analytics_posts_series : Operation := {| o_method := "GET";
  o_path := "/api/v1/workspaces/{workspaceID}/analytics/posts/{postID}/series"; o_params :=
  [("workspaceID", TString); ("postID", TString)]; o_query := [("channel_id", req TString);
  ("metric", opt TString); ("from", opt TString); ("to", opt TString)]; o_body := None; o_answer
  := TObject [("data", opt (TObject [("post_id", opt TString); ("channel_id", opt TString);
  ("metric", opt TString); ("points", opt (TArray SeriesPoint))]))] |}.
Definition operations : list Operation := [post_auth_signup; post_auth_login; post_auth_refresh;
  post_auth_logout; post_auth_verify_email; post_auth_password_reset_request;
  post_auth_password_reset_confirm; get_auth_me; get_workspaces; get_members; post_members;
  patch_members_capabilities; get_channels_oauth_callback; get_channels; post_channels_connect;
  delete_channels_one; get_posts; post_posts; post_posts_utm_preview; get_posts_link_preview;
  get_posts_one; put_posts_one; delete_posts_one; post_posts_validate; post_schedule;
  get_calendar; delete_scheduled_jobs_one; get_slots; post_slots; delete_slots_one; get_media;
  delete_media_one; get_integrations; put_integrations_one; post_integrations_ogshortener_shorten;
  get_billing_wallet; get_billing_ledger; post_billing_topup; get_analytics;
  get_analytics_posts_one; get_analytics_posts_series].
End Operations.

(** ** The typing of a call *)

Definition operation_of (c : ApiCall) : option Operation :=
  find (fun o => (o_method o =ₛ c_method c) && (o_path o =ₛ c_path c)) operations.

(** The path parameters are the declared ones, each with a value of its type. *)
Fixpoint typed_params (ps : list (jstr * option jstr)) (ds : list (jstr * ty)) : bool :=
  match ps, ds with
  | [], [] => true
  | (k, Some v) :: ps', (k', t) :: ds' => (k =ₛ k') && has_type t (JStr v) && typed_params ps' ds'
  | _, _ => false
  end.

(** Each query parameter is declared, and each required one has a value. *)
Definition typed_query (qs : list (jstr * option jstr)) (ds : list (jstr * (bool * ty))) : bool :=
  forallb (fun q => match field_of q.1 ds with
    | Some (o, t) => match q.2 with Some v => has_type t (JStr v) | None => o end
    | None => false
    end) qs
  && forallb (fun d => d.2.1 || match field_of d.1 qs with Some (Some _) => true | _ => false end) ds.

Definition typed_body (v : json) (d : option (bool * ty)) : bool :=
  match d with
  | None => match v with JUndef => true | _ => false end
  | Some (o, t) =>
      match v with JUndef => o | _ => has_type t v && no_excess t v end
  end.

Definition typed_against (c : ApiCall) (o : Operation) : bool :=
  typed_params (c_params c) (o_params o) && typed_query (c_query c) (o_query o)
  && typed_body (c_body c) (o_body o).

Definition typed_call (c : ApiCall) : bool :=
  match operation_of c with Some o => typed_against c o | None => false end.

(** The [{name}]s of a path template. *)
Fixpoint placeholders (s : jstr) (inside : option jstr) : list jstr :=
  match s with
  | [] => []
  | c :: s' =>
      match inside with
      | None => placeholders s' (if N.eqb c 123 then Some [] else None)
      | Some w => if N.eqb c 125 then w :: placeholders s' None else placeholders s' (Some (w ++ [c]))
      end
  end.

(** ** The calls of the hooks *)

(** The calls of the web hooks other than queries, with the variables of their mutations. *)
Inductive WebCall :=
  | cWrite (w : DataWeb.WebWrite)
  | cLogin (body : json) | cSignup (body : json) | cLogout | cVerifyEmail (token : jstr)
  | cRequestReset (email : jstr) | cConfirmReset (v : jstr * jstr)
  | cConnect (ws platform : jstr) | cShorten (ws text : jstr)
  | cValidate (ws post : jstr) | cUtmPreview (ws : jstr) (body : json).

Section WebCalls.
Import DataWeb.

Definition write_call (w : WebWrite) : ApiCall :=
  match w with
  | wTopup ws v => m_call (useTopup ws) v
  | wCompleteOAuth v => m_call useCompleteOAuth v
  | wDisconnect ws c => m_call (useDisconnectChannel ws) c
  | wConfigure ws v => m_call (useConfigureIntegration ws) v
  | wDeleteMedia ws m => m_call (useDeleteMedia ws) m
  | wCreatePost ws v => m_call (useCreatePost ws) v
  | wUpdatePost ws v => m_call (useUpdatePost ws) v
  | wDeletePost ws p => m_call (useDeletePost ws) p
  | wSchedule ws v => m_call (useSchedulePost ws) v
  | wCancelJob ws j => m_call (useCancelJob ws) j
  | wCreateSlot ws v => m_call (useCreateSlot ws) v
  | wDeleteSlot ws v => m_call (useDeleteSlot ws) v
  | wAddMember ws v => m_call (useAddMember ws) v
  | wUpdateCapabilities ws v => m_call (useUpdateCapabilities ws) v
  end.

Definition web_call (c : WebCall) : ApiCall :=
  match c with
  | cWrite w => write_call w
  | cLogin body => m_call useLogin body
  | cSignup body => m_call useSignup body
  | cLogout => m_call useLogout tt
  | cVerifyEmail token => m_call useVerifyEmail token
  | cRequestReset email => m_call useRequestReset email
  | cConfirmReset v => m_call useConfirmReset v
  | cConnect ws platform => m_call (useConnectChannel ws) platform
  | cShorten ws text => m_call (useShortenLinks ws) text
  | cValidate ws post => m_call (useValidatePost ws) post
  | cUtmPreview ws body => m_call (useUtmPreview ws) body
  end.

Definition literal (t : ty) (v : json) : bool := has_type t v && no_excess t v.

(** The variables of a mutation have their declared types.  Those translated as Rocq
    records, strings and numbers have them by construction; left are the literal types and
    the request bodies passed as they are. *)
Definition typed_input (c : WebCall) : bool :=
  match c with
  | cWrite (wTopup _ v) => has_type (TUnion [TLit "stripe"; TLit "paystack"; TLit "dev"]) (JStr v.1)
  | cWrite (wConfigure _ v) => has_type (TLit "ogshortener") (JStr (ci_provider v))
  | cWrite (wCreatePost _ v) => has_type (TArray T.VariantInput) v
  | cWrite (wUpdatePost _ v) => has_type (TArray T.VariantInput) v.2
  | cWrite (wCreateSlot _ v) => literal T.SlotRequest v
  | cWrite (wAddMember _ v) => literal T.AddMemberRequest v
  | cWrite (wUpdateCapabilities _ v) => literal T.UpdateCapabilitiesRequest v.2
  | cLogin v => literal T.LoginRequest v
  | cSignup v => literal T.SignupRequest v
  | cUtmPreview _ v => literal (TObject [("text", opt TString); ("utm", opt (TRecord TString))]) v
  | _ => true
  end.

(** The type of the data a query hook declares. *)
Definition query_type (q : WebQuery) : ty :=
  match q with
  | qAnalyticsOverview _ => TArray T.PostMetrics
  | qPostAnalytics _ _ => TArray T.ChannelMetrics
  | qMetricSeries _ _ _ _ _ _ => TArray T.SeriesPoint
  | qMe => TUnion [T.User; TNull; TUndefined]
  | qWallet _ => T.Wallet
  | qLedger _ => TArray T.LedgerEntry
  | qChannels _ => TArray T.Channel
  | qIntegrations _ => TArray T.Integration
  | qMedia _ => TArray T.Asset
  | qPosts _ => TArray T.Post
  | qPost _ _ => T.Post
  | qLinkPreview _ _ => T.LinkPreview
  | qCalendar _ _ _ => TArray T.Job
  | qSlots _ _ => TArray T.Slot
  | qWorkspaces => TArray T.Workspace
  | qMembers _ => TArray T.Member
  end.

Definition write_result (w : WebWrite) : ApiResult -> logged (outcome json) :=
  match w with
  | wTopup ws _ => m_result (useTopup ws)
  | wCompleteOAuth _ => m_result useCompleteOAuth
  | wDisconnect ws _ => m_result (useDisconnectChannel ws)
  | wConfigure ws _ => m_result (useConfigureIntegration ws)
  | wDeleteMedia ws _ => m_result (useDeleteMedia ws)
  | wCreatePost ws _ => m_result (useCreatePost ws)
  | wUpdatePost ws _ => m_result (useUpdatePost ws)
  | wDeletePost ws _ => m_result (useDeletePost ws)
  | wSchedule ws _ => m_result (useSchedulePost ws)
  | wCancelJob ws _ => m_result (useCancelJob ws)
  | wCreateSlot ws _ => m_result (useCreateSlot ws)
  | wDeleteSlot ws _ => m_result (useDeleteSlot ws)
  | wAddMember ws _ => m_result (useAddMember ws)
  | wUpdateCapabilities ws _ => m_result (useUpdateCapabilities ws)
  end.

Definition write_type (w : WebWrite) : ty :=
  match w with
  | wTopup _ _ => TString
  | wCompleteOAuth _ => T.Channel
  | wConfigure _ _ => T.Integration
  | wCreatePost _ _ | wUpdatePost _ _ => T.Post
  | wSchedule _ _ => TArray T.Job
  | wCreateSlot _ _ => T.Slot
  | wAddMember _ _ | wUpdateCapabilities _ _ => TUnion [T.Member; TUndefined]
  | wDisconnect _ _ | wDeleteMedia _ _ | wDeletePost _ _ | wCancelJob _ _ | wDeleteSlot _ _ =>
      TUndefined
  end.
End WebCalls.

(** ** Lemmas *)

Lemma typed_body_literal fs v :
  literal (TObject fs) v = true -> typed_body v (Some (req (TObject fs))) = true.
Proof. by destruct v. Qed.

(** A declared member of a value: absent when optional, or of its type. *)
Lemma field_typed fs v k o t :
  has_type (TObject fs) v = true -> field_of k fs = Some (o, t) ->
  exists w, req_prop v k = inr w /\ (o = true /\ w = JUndef \/ has_type t w = true).
Proof.
  destruct v as [| | | | | |kv]; try done. unfold req_prop. cbn [get_prop].
  induction fs as [|[k' [o' t']] fs IH]; [done|]. cbn [field_of has_type].
  intros [H1 H2]%andb_true_iff Hk. destruct (k' =ₛ k) eqn:E.
  - apply jeq_true in E as ->. injection Hk as -> ->.
    destruct (field k kv) as [w|]; [|eauto]. exists w. split; [done|]. destruct w; auto.
  - exact (IH H2 Hk).
Qed.

(** The table itself: no operation is declared twice, and the parameters of each are the
    placeholders of its path. *)
Lemma operations_well_formed :
  NoDup (map (fun o => (o_method o, o_path o)) operations)
  /\ Forall (fun o => placeholders (o_path o) None = map fst (o_params o)) operations.
Proof.
  split; [|by repeat constructor].
  apply (bool_decide_unpack _). vm_compute. exact I.
Qed.

Lemma object_truthy fs v : has_type (TObject fs) v = true -> jtruthy v = true.
Proof. by destruct v. Qed.

Section Unwrapping.
Variable normalizeError : Z -> json -> logged Exn.
Variable r : ApiResult.

(** What a hook gives for an answer: an error the client normalized, or a value. *)
Definition sound (res : logged (outcome json)) (t : ty) : Prop :=
  res = Query.reject normalizeError (r_status r) (r_error r)
  \/ exists v, res = ([], inr v) /\ has_type t v = true.

Definition envelope (t : ty) : ty := TObject [("data", opt t)].

Definition conforms (t : ty) : Prop := r_ok r = true -> has_type t (r_data r) = true.

Lemma unwrap_list_sound t :
  conforms (envelope (TArray t)) -> sound (Query.unwrap_list normalizeError r) (TArray t).
Proof.
  unfold conforms, sound, Query.unwrap_list. intros Hc. destruct (r_ok r); [|by left].
  specialize (Hc eq_refl). rewrite (object_truthy _ _ Hc). right.
  destruct (field_typed _ _ "data" true (TArray t) Hc eq_refl) as (w & -> & [[_ ->]|Hw]).
  - by exists (JArr []).
  - exists w. destruct w; try done.
Qed.

Lemma opt_prop_req v k w : req_prop v k = inr w -> opt_prop v k = w.
Proof. unfold req_prop, opt_prop. destruct (get_prop v k); [by intros [= ->]|done]. Qed.

Lemma unwrap_data_sound fs :
  conforms (envelope (TObject fs)) -> sound (Query.unwrap_data normalizeError r) (TObject fs).
Proof.
  unfold conforms, sound, Query.unwrap_data. intros Hc. destruct (r_ok r); [|by left].
  specialize (Hc eq_refl).
  destruct (field_typed _ _ "data" true (TObject fs) Hc eq_refl) as (w & Hw & Hor).
  rewrite (opt_prop_req _ _ _ Hw), Hw. destruct Hor as [[_ ->]|Ht]; [by left|].
  rewrite (object_truthy _ _ Ht). right. by exists w.
Qed.

Lemma unwrap_any_sound fs :
  conforms (envelope (TObject fs)) ->
  sound (Query.unwrap_any normalizeError r) (TUnion [TObject fs; TUndefined]).
Proof.
  unfold conforms, sound, Query.unwrap_any. intros Hc. destruct (r_ok r); [|by left].
  specialize (Hc eq_refl). rewrite (object_truthy _ _ Hc). right.
  destruct (field_typed _ _ "data" true (TObject fs) Hc eq_refl) as (w & -> & Hor). exists w.
  split; [done|]. destruct Hor as [[_ ->]|Ht]; [done|]. change (has_type (TObject fs) w || (has_type TUndefined w || false) = true).
  by rewrite Ht.
Qed.

Lemma unwrap_inner_sound k d fs o t :
  conforms (envelope (TObject fs)) -> field_of k fs = Some (o, t) ->
  has_type t d = true -> has_type t JNull = false -> has_type t JUndef = false ->
  sound (Query.unwrap_inner normalizeError k d r) t.
Proof.
  intros Hc Hk Hd Hn Hu. unfold sound, Query.unwrap_inner.
  destruct (unwrap_data_sound fs Hc) as [->|(v & -> & Hv)].
  - unfold Query.reject. destruct (normalizeError _ _). by left.
  - destruct (field_typed _ _ k o t Hv Hk) as (w & -> & Hor). right.
    destruct Hor as [[_ ->]|Hw]; [by exists d|]. exists w. split; [|done].
    destruct w; cbn; congruence.
Qed.

Lemma unwrap_url_sound k fs o :
  conforms (envelope (TObject fs)) -> field_of k fs = Some (o, TString) ->
  sound (Query.unwrap_url normalizeError k r) TString.
Proof.
  unfold conforms, sound, Query.unwrap_url. intros Hc Hk. destruct (r_ok r); [|by left].
  specialize (Hc eq_refl).
  destruct (field_typed _ _ "data" true (TObject fs) Hc eq_refl) as (w & Hw & Hor).
  rewrite (opt_prop_req _ _ _ Hw). destruct Hor as [[_ ->]|Ht]; [by left|].
  destruct (field_typed _ _ k o TString Ht Hk) as (u & Hu & Hor). rewrite (opt_prop_req _ _ _ Hu).
  destruct Hor as [[_ ->]|Hs]; [by left|]. destruct u; try done.
  destruct (jtruthy (JStr s)); [right; eauto|by left].
Qed.

Lemma unwrap_void_sound fs :
  conforms (TObject fs) -> sound (Query.unwrap_void normalizeError r) TUndefined.
Proof.
  unfold conforms, sound, Query.unwrap_void. intros Hc. destruct (r_ok r); [|by left].
  rewrite (object_truthy _ _ (Hc eq_refl)). right. by exists JUndef.
Qed.

Lemma unwrap_me_sound :
  conforms T.UserEnvelope ->
  sound (Query.unwrap_me normalizeError r) (TUnion [T.User; TNull; TUndefined]).
Proof.
  intros Hc. unfold sound, Query.unwrap_me. destruct (Z.eqb _ _); [right; by exists JNull|].
  destruct (unwrap_any_sound _ Hc) as [->|(v & -> & Hv)]; [by left|]. right. exists v. split; [done|].
  change (has_type T.User v || (has_type TUndefined v || false) = true) in Hv.
  change (has_type T.User v || (has_type TNull v || (has_type TUndefined v || false)) = true).
  destruct (has_type T.User v); [done|]. destruct v; done.
Qed.
End Unwrapping.

#[export] Hint Resolve unwrap_list_sound unwrap_data_sound unwrap_any_sound unwrap_void_sound
  unwrap_me_sound : postal.

(** The calls of the mobile hooks and of its session. *)
Inductive MobileCall :=
  | kLogin (body : json) | kLogout | kSignup (body : json) | kRequestReset (email : jstr)
  | kConfirmReset (v : jstr * jstr) | kConnect (ws platform : jstr) | kCompleteOAuth (v : jstr * jstr)
  | kDisconnect (ws c : jstr) | kDeleteMedia (ws m : jstr) | kAddMember (ws : jstr) (body : json)
  | kCreatePost (ws : jstr) (variants : json) | kUpdatePost (ws : jstr) (v : jstr * json)
  | kDeletePost (ws p : jstr) | kValidate (ws p : jstr)
  | kSchedule (ws : jstr) (v : DataMobile.ScheduleInput) | kCancelJob (ws j : jstr).

Section MobileCalls.
Import DataMobile.

Definition mobile_call (c : MobileCall) : ApiCall :=
  match c with
  | kLogin body => MobileClient.login_call body
  | kLogout => MobileClient.logout_call
  | kSignup body => m_call useSignup body
  | kRequestReset email => m_call useRequestReset email
  | kConfirmReset v => m_call useConfirmReset v
  | kConnect ws platform => m_call (useConnectChannel ws) platform
  | kCompleteOAuth v => m_call useCompleteOAuth v
  | kDisconnect ws c => m_call (useDisconnectChannel ws) c
  | kDeleteMedia ws m => m_call (useDeleteMedia ws) m
  | kAddMember ws body => m_call (useAddMember ws) body
  | kCreatePost ws variants => m_call (useCreatePost ws) variants
  | kUpdatePost ws v => m_call (useUpdatePost ws) v
  | kDeletePost ws p => m_call (useDeletePost ws) p
  | kValidate ws p => m_call (useValidatePost ws) p
  | kSchedule ws v => m_call (useSchedulePost ws) v
  | kCancelJob ws j => m_call (useCancelJob ws) j
  end.

Definition typed_mobile_input (c : MobileCall) : bool :=
  match c with
  | kLogin v => literal T.LoginRequest v
  | kSignup v => literal T.SignupRequest v
  | kAddMember _ v => literal T.AddMemberRequest v
  | kCreatePost _ v => has_type (TArray T.VariantInput) v
  | kUpdatePost _ v => has_type (TArray T.VariantInput) v.2
  | _ => true
  end.
End MobileCalls.

(** Typing a call once its operation is known. *)
Lemma typed_call_of c o :
  operation_of c = Some o -> typed_against c o = true -> typed_call c = true.
Proof. unfold typed_call. by intros ->. Qed.

Lemma typed_against_body c o fs :
  o_body o = Some (req (TObject fs)) -> typed_params (c_params c) (o_params o) = true ->
  typed_query (c_query c) (o_query o) = true -> literal (TObject fs) (c_body c) = true ->
  typed_against c o = true.
Proof.
  unfold typed_against. intros -> -> -> Hl. by rewrite (typed_body_literal _ _ Hl).
Qed.

(** A well-typed array is the whole body of a post. *)
Lemma variants_literal v :
  has_type (TArray T.VariantInput) v = true ->
  literal T.PostWriteRequest (DataWeb.variants_body v) = true.
Proof.
  intros H. unfold literal, DataWeb.variants_body, T.PostWriteRequest. destruct v; try done.
  change (has_type (TArray T.VariantInput) (JArr l) && true && true = true). by rewrite H.
Qed.

Ltac by_body H :=
  eapply typed_call_of; [reflexivity|]; eapply typed_against_body;
    [reflexivity|reflexivity|reflexivity|exact H].

(** ** Theorems *)




(** The wallet of a workspace. *)
Definition a_wallet : json :=
  JObj [("data", JObj [("workspace_id", JStr "w"); ("balance", JNum 5); ("publish_costs", JObj []);
                       ("updated_at", JStr "now")])].

Definition a_wallet_answer : ApiResult :=
  {| r_data := a_wallet; r_error := JUndef; r_status := 200 |}.

