(* ===== verification/DirectWeb.v ===== *)
(** * The web hooks that call [fetch] or XMLHttpRequest themselves

    web/src/data/governance.ts, and useConnectManual, useResendVerification and
    uploadMedia of channels.ts, auth.ts and media.ts.  They bypass [apiFetch]: no refresh
    on 401, no retry.  An XMLHttpRequest is a [Fetch] whose [None] is its [error] or
    [abort] event. *)
From S2P Require Import Prelude JsValue ApiError Async ApiClient Query.

Local Open Scope js_scope.
Local Open Scope prog_scope.

Section Direct.
Variable has_document : bool.
Variable has_storage : option bool.
Variable API_ORIGIN : jstr.

Abbreviation csrfToken := (csrfToken has_document has_storage).

(** [await res.json().catch(() => d)] *)
Definition json_or (d : json) (res : Response) : prog json :=
  ReadJson res (fun j => Ret match j with Some b => b | None => d end).

(** [throw normalizeError(status, body)], after its warnings. *)
Fixpoint log_all {A} (logs : list LogCall) (p : prog A) : prog A :=
  match logs with [] => p | m :: ms => Log m (log_all ms p) end.
Definition throw_normalized {A} (status : Z) (body : json) : prog A :=
  let (logs, e) := Web.normalizeError status body in log_all logs (Throw e).

(** governance.ts *)
Definition getJSON (url : jstr) : prog json :=
  res <- fetch {| rq_method := "GET"; rq_url := url; rq_headers := ∅; rq_body := JUndef |};;
  body <- json_or JUndef res;;
  if negb (rs_ok res) then throw_normalized (rs_status res) body
  else Ret (nullish (opt_prop body "data") body).

Definition member_channels_url (ws user : jstr) : jstr :=
  "/api/v1/workspaces/" ++ ws ++ "/members/" ++ user ++ "/channels".

Definition memberChannels (ws user : jstr) : prog json := getJSON (member_channels_url ws user).
Definition activity (ws : jstr) : prog json := getJSON ("/api/v1/workspaces/" ++ ws ++ "/activity").

(** [{ "Content-Type": "application/json", ...(csrf ? { "X-CSRF-Token": csrf } : {}) }] *)
Definition json_request (method url : jstr) (csrf : option jstr) (body : json) : Request :=
  with_csrf csrf {| rq_method := method; rq_url := url;
    rq_headers := {["content-type" := "application/json"]}; rq_body := body |}.

Definition setMemberChannels (ws user : jstr) (body : json) : prog json :=
  csrf <- csrfToken;;
  res <- fetch (json_request "PUT" (member_channels_url ws user) csrf body);;
  data <- json_or JUndef res;;
  if negb (rs_ok res) then throw_normalized (rs_status res) data
  else Ret (nullish (opt_prop data "data") data).

(** channels.ts *)
Definition connectManual (ws : jstr) (body : json) : prog unit :=
  csrf <- csrfToken;;
  res <- fetch (json_request "POST" ("/api/v1/workspaces/" ++ ws ++ "/channels/connect-manual") csrf body);;
  if negb (rs_ok res) then err <- json_or JUndef res;; throw_normalized (rs_status res) err
  else Ret tt.

(** auth.ts *)
Definition resendVerification (email : jstr) : prog unit :=
  res <- fetch (json_request "POST" "/api/v1/auth/verify-email/resend" None
                  (JObj [("email", JStr email)]));;
  if negb (rs_ok res) then err <- json_or JUndef res;; throw_normalized (rs_status res) err
  else Ret tt.

(** media.ts: the request of [uploadMedia], its form holding the file. *)
Definition upload_request (ws rid : jstr) (csrf : option jstr) (file : json) : Request :=
  set_header "x-request-id" rid (with_csrf csrf
    {| rq_method := "POST"; rq_url := API_ORIGIN ++ "/api/v1/workspaces/" ++ ws ++ "/media/";
       rq_headers := ∅; rq_body := JObj [("file", file)] |}).

(** The [load], [error] and [abort] listeners; a body that is not JSON is [null]. *)
Definition uploadMedia (ws rid : jstr) (file : json) : prog json :=
  csrf <- csrfToken;;
  Fetch (upload_request ws rid csrf file) (fun x =>
    match x with
    | None => throw_normalized 0 JNull
    | Some res =>
        body <- json_or JNull res;;
        let data := opt_prop body "data" in
        if Z.eqb (rs_status res) 201 && jtruthy data then Ret data
        else throw_normalized (rs_status res) body
    end).

(** [analyticsCsvURL], [mediaDownloadURL] *)
Definition analyticsCsvURL (ws : jstr) : jstr :=
  API_ORIGIN ++ "/api/v1/workspaces/" ++ ws ++ "/analytics/export.csv".
Definition mediaDownloadURL (ws media : jstr) : jstr :=
  API_ORIGIN ++ "/api/v1/workspaces/" ++ ws ++ "/media/" ++ media ++ "/download".
End Direct.

(** ** Lemmas *)

Lemma exec_log_all {A} logs (p : prog A) tr o :
  exec (log_all logs p) tr o -> exists tr', exec p tr' o /\ sent tr = sent tr' /\ joins tr = joins tr'.
Proof.
  revert tr. induction logs as [|m ms IH]; intros tr H; [by exists tr|]. simpl in H.
  exec_step H. destruct (IH _ H) as (tr' & H' & Hs & Hj). by exists tr'.
Qed.

Lemma exec_throw_normalized {A} status body tr (o : outcome A) :
  exec (throw_normalized status body) tr o ->
  sent tr = [] /\ joins tr = [] /\ o = inl (Web.normalizeError status body).2.
Proof.
  unfold throw_normalized. destruct (Web.normalizeError status body) as [logs e]. simpl.
  intros (tr' & H & -> & ->)%exec_log_all. exec_step H. done.
Qed.

Lemma exec_json_or d res tr o :
  exec (json_or d res) tr o ->
  sent tr = [] /\ joins tr = []
  /\ o = inr match rs_json res with Some b => b | None => d end.
Proof. intros H. exec_step H. exec_step H. done. Qed.

(** What an upload resolves to, from the answer. *)
Definition upload_outcome (x : option Response) : outcome json :=
  match x with
  | None => inl (Web.normalizeError 0 JNull).2
  | Some res =>
      let body := match rs_json res with Some b => b | None => JNull end in
      if Z.eqb (rs_status res) 201 && jtruthy (opt_prop body "data")
      then inr (opt_prop body "data")
      else inl (Web.normalizeError (rs_status res) body).2
  end.

Lemma exec_upload_answer (x : option Response) tr o :
  exec match x with
       | None => throw_normalized 0 JNull
       | Some res =>
           bind (json_or JNull res) (fun body =>
             if Z.eqb (rs_status res) 201 && jtruthy (opt_prop body "data")
             then Ret (opt_prop body "data") else throw_normalized (rs_status res) body)
       end tr o ->
  sent tr = [] /\ joins tr = [] /\ o = upload_outcome x.
Proof.
  destruct x as [res|]; [|apply exec_throw_normalized].
  intros [(e & H & ->)|(b & t1 & t2 & H1 & H & ->)]%exec_bind.
  { apply exec_json_or in H as (_ & _ & [=]). }
  apply exec_json_or in H1 as (Hs & Hj & [= ->]). rewrite sent_app, joins_app, Hs, Hj.
  unfold upload_outcome. destruct (_ && _) eqn:E.
  - by exec_step H.
  - by apply exec_throw_normalized in H.
Qed.

(** ** Properties *)

(** an upload sends exactly one request, never refreshes the session, and its outcome is
    a function of the answer alone: the asset of a 201, otherwise the normalized error; a
    network failure or an aborted upload too is a normalized error (status 0).  It sends
    nothing when the CSRF token cannot be read. *)
Theorem web_upload_outcome has_document has_storage origin ws rid file tr o
  (H : exec (uploadMedia has_document has_storage origin ws rid file) tr o) :
  joins tr = [] /\
  ((exists e, sent tr = [] /\ o = inl e)
   \/ exists csrf x, sent tr = [(upload_request origin ws rid csrf file, x)] /\ o = upload_outcome x).
Proof.
  unfold uploadMedia in H. apply exec_bind in H as [(e & H & ->)|(csrf & t1 & t2 & H1 & H & ->)].
  { apply quiet_csrfToken in H as [Hs Hj]. split; [done|]. left. eauto. }
  apply quiet_csrfToken in H1 as [Hs Hj]. rewrite sent_app, joins_app, Hs, Hj. simpl.
  apply exec_inv in H as (x & tr' & -> & H). apply exec_upload_answer in H as (Hs' & Hj' & ->).
  simpl. rewrite Hs', Hj'. split; [done|]. right. eauto.
Qed.

Lemma web_upload_outcome_witness :
  let tr := [ELoad SessionCsrf (Some (Some ("t" : jstr)));
             EFetch (upload_request [] "w1" "r1" (Some ("t" : jstr)) JNull) None;
             ELog {| lc_message := "api error (unstructured)"; lc_fields := [("status", JNum 0)] |}] in
  exec (uploadMedia true (Some true) [] "w1" "r1" JNull) tr (inl (Web.normalizeError 0 JNull).2)
  /\ joins tr = [].
Proof.
  intros tr.
  assert (H : exec (uploadMedia true (Some true) [] "w1" "r1" JNull) tr (inl (Web.normalizeError 0 JNull).2)).
  { unfold tr. apply ex_load; [discriminate|]. apply ex_fetch. apply ex_log. apply ex_throw. }
  split; [exact H|]. exact (proj1 (web_upload_outcome _ _ _ _ _ _ _ _ H)).
Defined.
