(* ===== verification/Governance.v ===== *)
(** * The direct hooks of the two apps: data/governance.ts and the hooks around [fetch]

    Channel access and the activity feed are not in the typed contract, so both apps call
    [fetch] themselves: the web app without the refresh of its client, the mobile app with a
    refresh on 401 of its own.  Here are the hooks of mobile/src/data/governance.ts and the
    guards and cache operations of the direct hooks of both apps, with what an answer gives
    on each side. *)
From S2P Require Import Prelude JsValue ApiError Async ApiClient Query.
From S2P Require DataWeb DataMobile MobileClient DirectWeb.

Local Open Scope js_scope.
Local Open Scope prog_scope.

(** ** Web *)

Module WebHooks.
Import DataWeb.

Definition member_channels_enabled (ws user : jstr) : bool := truthy ws && truthy user.
Definition activity_enabled (ws : option jstr) : bool := present ws.
Definition setMemberChannels_onSuccess (ws user : jstr) : list CacheOp :=
  [InvalidateQueries (governanceKeys.channels ws user)].
Definition connectManual_onSuccess (ws : jstr) : list CacheOp := [InvalidateQueries (channelKeys_list ws)].
Definition upload_onSuccess (ws : jstr) : list CacheOp := [InvalidateQueries (mediaKeys_list ws)].
End WebHooks.

(** ** Mobile *)

Module MobileHooks.
Import DataMobile.

Section Hooks.
Variable API_ORIGIN : jstr.

Definition member_channels_path (ws user : jstr) : jstr :=
  "/api/v1/workspaces/" ++ ws ++ "/members/" ++ user ++ "/channels".

Definition memberChannels (ws user : jstr) : prog json :=
  MobileClient.authedJSON API_ORIGIN (member_channels_path ws user) "GET" ∅ JUndef.

Definition setMemberChannels (ws user : jstr) (body : json) : prog json :=
  MobileClient.authedJSON API_ORIGIN (member_channels_path ws user) "PUT"
    {["content-type" : jstr := ("application/json" : jstr)]} body.

Definition activity (ws : jstr) : prog json :=
  MobileClient.authedJSON API_ORIGIN ("/api/v1/workspaces/" ++ ws ++ "/activity") "GET" ∅ JUndef.

(** media.ts: [mediaSource]: the address of a file, with the token it is read with. *)
Definition mediaSource (ws media : jstr) (token : option jstr) : jstr * list (jstr * jstr) :=
  (API_ORIGIN ++ "/api/v1/workspaces/" ++ ws ++ "/media/" ++ media ++ "/download",
   match token with Some t => if truthy t then [("Authorization" : jstr, "Bearer " ++ t)] else [] | None => [] end).
End Hooks.

Definition member_channels_enabled (ws user : jstr) : bool := truthy ws && truthy user.
Definition activity_enabled (ws : option jstr) : bool := DataWeb.present ws.
Definition setMemberChannels_onSuccess (ws user : jstr) : list CacheOp :=
  [InvalidateQueries (governanceKeys.channels ws user)].
Definition connectManual_onSuccess (ws : jstr) : list CacheOp := [InvalidateQueries (channelKeys_list ws)].
Definition upload_onSuccess (ws : jstr) : list CacheOp := [InvalidateQueries (mediaKeys_list ws)].
Definition login_onSuccess (user : json) : list CacheOp := [SetQueryData authKeys_me user].
Definition logout_onSuccess : list CacheOp := [SetQueryData authKeys_me JNull; RemoveQueries].
End MobileHooks.

(** ** What an answer gives *)

Section Outcome.
Variable normalizeError : Z -> json -> logged Exn.

(** A network failure rejects as [fetch] does; an answer gives its [data] (or the whole
    body), or the normalized error. *)
Definition data_outcome (x : option Response) : outcome json :=
  match x with
  | None => inl fetch_error
  | Some res =>
      let body := match rs_json res with Some b => b | None => JUndef end in
      if rs_ok res then inr (nullish (opt_prop body "data") body)
      else inl (normalizeError (rs_status res) body).2
  end.
End Outcome.

(** ** Lemmas *)

Lemma exec_web_tail res tr o :
  exec (bind (DirectWeb.json_or JUndef res) (fun body =>
          if negb (rs_ok res) then DirectWeb.throw_normalized (rs_status res) body
          else Ret (nullish (opt_prop body "data") body))) tr o ->
  sent tr = [] /\ joins tr = [] /\ o = data_outcome Web.normalizeError (Some res).
Proof.
  intros [(e & H & ->)|(b & t1 & t2 & H1 & H & ->)]%exec_bind.
  { apply DirectWeb.exec_json_or in H as (_ & _ & [=]). }
  apply DirectWeb.exec_json_or in H1 as (Hs & Hj & [= ->]). rewrite sent_app, joins_app, Hs, Hj.
  unfold data_outcome. destruct (rs_ok res); cbn [negb] in H.
  - by exec_step H.
  - by apply DirectWeb.exec_throw_normalized in H.
Qed.

Lemma exec_getJSON url tr o :
  exec (DirectWeb.getJSON url) tr o ->
  joins tr = [] /\ exists r x, sent tr = [(r, x)] /\ rq_url r = url /\ rq_method r = "GET"
    /\ o = data_outcome Web.normalizeError x.
Proof.
  unfold DirectWeb.getJSON. intros [(e & H & ->)|(res & t1 & t2 & H1 & H & ->)]%exec_bind.
  - apply exec_fetch in H as [[-> [= ->]]|(res & _ & [=])]. split; [done|]. by eexists _, None.
  - apply exec_fetch in H1 as [[_ [=]]|(res' & -> & [= ->])].
    apply exec_web_tail in H as (Hs & Hj & ->). rewrite sent_app, joins_app, Hs, Hj. split; [done|].
    by eexists _, (Some res').
Qed.

Lemma exec_mobile_log_all {A} logs (p : prog A) tr o :
  exec (MobileClient.log_all logs p) tr o ->
  exists tr', exec p tr' o /\ sent tr = sent tr' /\ joins tr = joins tr'.
Proof.
  revert tr. induction logs as [|m ms IH]; intros tr H; [by exists tr|]. simpl in H.
  exec_step H. destruct (IH _ H) as (tr' & H' & Hs & Hj). by exists tr'.
Qed.

Lemma exec_read_json_or d res tr o :
  exec (MobileClient.read_json_or d res) tr o ->
  sent tr = [] /\ joins tr = [] /\ o = inr match rs_json res with Some b => b | None => d end.
Proof. intros H. exec_step H. exec_step H. done. Qed.

Lemma exec_mobile_tail res tr o :
  exec (bind (MobileClient.read_json_or JUndef res) (fun body =>
          if negb (rs_ok res) then MobileClient.throw_normalized (rs_status res) body
          else Ret (nullish (opt_prop body "data") body))) tr o ->
  sent tr = [] /\ joins tr = [] /\ o = data_outcome Mobile.normalizeError (Some res).
Proof.
  intros [(e & H & ->)|(b & t1 & t2 & H1 & H & ->)]%exec_bind.
  { apply exec_read_json_or in H as (_ & _ & [=]). }
  apply exec_read_json_or in H1 as (Hs & Hj & [= ->]). rewrite sent_app, joins_app, Hs, Hj.
  unfold data_outcome.
  destruct (rs_ok res); cbn [negb] in H.
  - by exec_step H.
  - unfold MobileClient.throw_normalized in H. destruct (Mobile.normalizeError _ _) as [logs e].
    apply exec_mobile_log_all in H as (tr' & H & -> & ->). by exec_step H.
Qed.

(** The request and the answer that decides. *)
Lemma exec_authedJSON origin path method headers body tr o :
  exec (MobileClient.authedJSON origin path method headers body) tr o ->
  exists x, MobileClient.auth_spec false {| rq_method := method; rq_url := origin ++ path;
      rq_headers := headers; rq_body := body |} (sent tr) (joins tr) (answer x)
    /\ o = data_outcome Mobile.normalizeError x.
Proof.
  unfold MobileClient.authedJSON, MobileClient.authedFetch.
  intros [(e & H & ->)|(res & t1 & t2 & H1 & H & ->)]%exec_bind.
  - pose proof H as Hspec. apply MobileClient.exec_refresh_once in Hspec. exists None.
    assert (e = fetch_error) as ->; [|done]. inversion Hspec as [? [?|] | | ? ? ? [?|]]; subst; done.
  - apply MobileClient.exec_refresh_once in H1. apply exec_mobile_tail in H as (Hs & Hj & ->).
    rewrite sent_app, joins_app, Hs, Hj, !app_nil_r. by exists (Some res).
Qed.

(** ** Theorems *)

(** the direct reads of the two apps.  On the web, every execution sends one request and
    never joins a refresh, so an access token that has expired fails the read; on mobile the
    same 401 is retried once after a refresh that succeeds.  Both sides make the same value
    of the same deciding answer: its [data], or the normalized error. *)
Theorem direct_reads origin ws user tr o :
  (exec (DirectWeb.memberChannels ws user) tr o ->
     joins tr = [] /\ exists r x, sent tr = [(r, x)]
       /\ rq_url r = MobileHooks.member_channels_path ws user
       /\ o = data_outcome Web.normalizeError x)
  /\ (exec (MobileHooks.memberChannels origin ws user) tr o ->
     exists r x, rq_url r = origin ++ MobileHooks.member_channels_path ws user
       /\ MobileClient.auth_spec false r (sent tr) (joins tr) (answer x)
       /\ o = data_outcome Mobile.normalizeError x)
  /\ (forall x v, data_outcome Web.normalizeError x = inr v <-> data_outcome Mobile.normalizeError x = inr v).
Proof.
  split; [|split].
  - intros H. apply exec_getJSON in H as (Hj & r & x & Hs & Hu & _ & ->). split; [done|].
    by exists r, x.
  - intros H. apply exec_authedJSON in H as (x & Hspec & ->). refine (ex_intro _ _ (ex_intro _ x (conj _ (conj Hspec eq_refl)))). done.
  - intros [res|] v; cbn; [|done]. by destruct (rs_ok res).
Qed.

(** An expired session, read on the web, then on mobile. *)
Definition data_answer : Response := answer_of 200 (JObj [("data", JBool true)]).

Lemma direct_reads_witness :
  let r := {| rq_method := "GET"; rq_url := MobileHooks.member_channels_path "w" "u";
              rq_headers := ∅; rq_body := JUndef |} in
  let web := [EFetch r (Some data_answer); EJson data_answer] in
  exec (DirectWeb.memberChannels "w" "u") web (inr (JBool true)) /\ joins web = [].
Proof.
  intros r web.
  assert (H : exec (DirectWeb.memberChannels "w" "u") web (inr (JBool true))).
  { unfold web, DirectWeb.memberChannels, DirectWeb.getJSON. cbn. apply ex_fetch. cbn. apply ex_json. cbn. apply ex_ret. }
  split; [exact H|]. exact (proj1 (proj1 (direct_reads [] "w" "u" _ _) H)).
Defined.
