(* ===== verification/Format.v ===== *)
(** * Formatting: web/src/lib/format.ts and [firstURL] of data/posts.ts *)
From S2P Require Import Prelude.

Local Open Scope js_scope.

(** [handle.startsWith("@") ? handle : `@${handle}`] *)
Definition atHandle (handle : jstr) : jstr :=
  if startsWith handle "@" then handle else "@" ++ handle.

(** [(num / den).toFixed(1)] for an exactly representable quotient: the nearest tenth,
    the larger of two. *)
Definition tenths (num den : Z) : Z := ((20 * num + den) / (2 * den))%Z.
Definition toFixed1 (num den : Z) : jstr :=
  let n := tenths num den in showZ (n / 10) ++ "." ++ showZ (n mod 10).

(** The loop over the units: [value] is kept as [bytes / den], which a double holds
    exactly, the divisor being a power of two. *)
Fixpoint scale (bytes den : Z) (unit : jstr) (units : list jstr) : Z * jstr :=
  match units with
  | [] => (den, unit)
  | next :: rest =>
      if (bytes <? 1024 * den)%Z then (den, unit) else scale bytes (den * 1024) next rest
  end.

Definition formatBytes (bytes : Z) : jstr :=
  if (bytes <? 1024)%Z then showZ bytes ++ " B"
  else let (den, unit) := scale bytes 1 "B" ["KiB"; "MiB"; "GiB"] in
       toFixed1 bytes den ++ " " ++ unit.

(** The class [[^\s)]] of the URL pattern; [41] is the closing parenthesis. *)
Definition url_char (c : N) : bool := negb (is_space c) && negb (N.eqb c 41).

Fixpoint take_while (p : N -> bool) (s : jstr) : jstr :=
  match s with [] => [] | c :: s' => if p c then c :: take_while p s' else [] end.

(** A match of [https?://] at the start of [s], and the longest run of URL characters. *)
Definition url_at (s : jstr) : option jstr :=
  let from p := match take_while url_char (drop (length p) s) with
                | [] => None | rest => Some (p ++ rest) end in
  if startsWith s "https://" then from "https://"
  else if startsWith s "http://" then from "http://" else None.

(** [body.match(/https?:\/\/[^\s)]+/)?.[0]]: the leftmost match. *)
Fixpoint firstURL (body : jstr) : option jstr :=
  match body with
  | [] => None
  | _ :: body' => match url_at body with Some u => Some u | None => firstURL body' end
  end.

(** ** Lemmas *)

Lemma atHandle_at h : exists t, atHandle h = "@" ++ t.
Proof.
  unfold atHandle. destruct (startsWith h "@") eqn:E; [|by eexists].
  apply startsWith_spec in E as [t ->]. by exists t.
Qed.

Lemma atHandle_idem h : atHandle (atHandle h) = atHandle h.
Proof.
  destruct (atHandle_at h) as [t Ht]. rewrite Ht. unfold atHandle at 1.
  assert (startsWith ("@" ++ t) "@" = true) as ->; [|done].
  apply startsWith_spec. by exists t.
Qed.

Lemma tenths_bound num den :
  (0 < den)%Z -> (2 * Z.abs (tenths num den * den - 10 * num) <= den)%Z.
Proof.
  intros H. unfold tenths.
  pose proof (Z.div_mod (20 * num + den) (2 * den) ltac:(lia)).
  pose proof (Z.mod_pos_bound (20 * num + den) (2 * den) ltac:(lia)).
  set (q := ((20 * num + den) / (2 * den))%Z) in *. nia.
Qed.

(** What the scaling loop guarantees: the unit is the largest that fits. *)
Lemma scale_spec bytes den unit units :
  (0 < den)%Z -> (den <= bytes)%Z ->
  let r := scale bytes den unit units in
  exists k : nat, r.1 = (den * 1024 ^ Z.of_nat k)%Z /\ (k <= length units)%nat
    /\ (r.1 <= bytes)%Z /\ ((k < length units)%nat -> (bytes < 1024 * r.1)%Z)
    /\ nth_error (unit :: units) k = Some r.2.
Proof.
  revert den unit. induction units as [|u us IH]; intros den unit Hd Hb; cbn [scale].
  - exists 0%nat. simpl. split_and!; lia || done.
  - destruct (Z.ltb_spec bytes (1024 * den)).
    + exists 0%nat. simpl. split_and!; lia || done.
    + destruct (IH (den * 1024)%Z u) as (k & H1 & H2 & H3 & H4 & H5); [lia..|].
      exists (S k). split_and!; [|simpl; lia|done| |done].
      * rewrite H1, Nat2Z.inj_succ, Z.pow_succ_r by lia. ring.
      * intros Hk. apply H4. simpl in Hk. lia.
Qed.

Lemma take_while_spec p s :
  exists t, s = take_while p s ++ t /\ Forall (fun c => p c = true) (take_while p s)
    /\ match t with [] => True | c :: _ => p c = false end.
Proof.
  induction s as [|c s (t & H1 & H2 & H3)]; [by exists []|]. simpl.
  destruct (p c) eqn:E; [|by exists (c :: s)]. exists t. split_and!; [|by constructor|done].
  simpl. by f_equal.
Qed.

(** [u] is a maximal URL at the start of [s]. *)
Definition starts_url (s u : jstr) : Prop :=
  exists p rest t, (p = ("https://" : jstr) \/ p = ("http://" : jstr))
    /\ u = p ++ rest /\ s = u ++ t /\ rest <> []
    /\ Forall (fun c => url_char c = true) rest
    /\ match t with [] => True | c :: _ => url_char c = false end.

Lemma url_from s p :
  startsWith s p = true -> p = ("https://" : jstr) \/ p = ("http://" : jstr) ->
  match match take_while url_char (drop (length p) s) with
        | [] => None | rest => Some (p ++ rest) end with
  | Some u => starts_url s u
  | None => forall t, s <> p ++ t \/ match t with [] => True | c :: _ => url_char c = false end
  end.
Proof.
  intros [t ->]%startsWith_spec Hp. rewrite drop_app_length.
  destruct (take_while_spec url_char t) as (t' & Ht & Hf & Hn).
  destruct (take_while url_char t) as [|c rest] eqn:E.
  - intros t2. destruct (decide (t2 = t)) as [->|Hne].
    + right. rewrite Ht. done.
    + left. intros H. apply (inj (app p)) in H. by subst.
  - exists p, (c :: rest), t'. split_and!; try done. by rewrite Ht at 1; rewrite <- app_assoc.
Qed.

Lemma url_at_Some s u : url_at s = Some u -> starts_url s u.
Proof.
  unfold url_at. destruct (startsWith s "https://") eqn:E1.
  - intros H. pose proof (url_from s "https://" E1 ltac:(by left)) as Hu. by rewrite H in Hu.
  - destruct (startsWith s "http://") eqn:E2; [|done].
    intros H. pose proof (url_from s "http://" E2 ltac:(by right)) as Hu. by rewrite H in Hu.
Qed.

Lemma url_at_complete s u : starts_url s u -> url_at s = Some u.
Proof.
  intros (p & rest & t & Hp & -> & -> & Hne & Hf & Ht).
  assert (Htw : take_while url_char (rest ++ t) = rest).
  { clear Hne Hp. induction Hf as [|c rest Hc _ IH]; simpl.
    - destruct t; [done|]. simpl. by rewrite Ht.
    - by rewrite Hc, IH. }
  unfold url_at. destruct Hp as [->| ->]; rewrite <- app_assoc.
  - rewrite (proj2 (startsWith_spec _ _)) by eauto. rewrite drop_app_length, Htw. by destruct rest.
  - destruct (startsWith ("http://" ++ rest ++ t) "https://") eqn:E.
    { discriminate E. }
    rewrite (proj2 (startsWith_spec _ _)) by eauto. rewrite drop_app_length, Htw. by destruct rest.
Qed.

(** ** Properties *)

(** [firstURL] finds the leftmost link, whole: it returns [u] exactly when the text
    splits before a position where [u] is an http(s) link followed by a space, a closing
    parenthesis or the end, and no earlier position starts one. *)
Theorem firstURL_leftmost body u :
  firstURL body = Some u <->
  exists a s, body = a ++ s /\ starts_url s u
    /\ forall b t v, a = b ++ t -> t <> [] -> ~ starts_url (t ++ s) v.
Proof.
  induction body as [|c body IH]; cbn [firstURL].
  - split; [done|]. intros (a & s & H & (p & rest & t & [->| ->] & -> & -> & _) & _);
      by destruct a.
  - destruct (url_at (c :: body)) as [v|] eqn:E.
    + apply url_at_Some in E as Hv. split.
      * intros [= <-]. exists [], (c :: body). split_and!; [done|done|].
        intros b t w Hb Ht. destruct b; [|done]. simpl in Hb. by subst.
      * intros (a & s & H & Hs & Hn). destruct a as [|d a].
        -- simpl in H. subst s. apply url_at_complete in Hs. congruence.
        -- exfalso. apply (Hn [] (d :: a) v); [done|done|]. by rewrite <- H.
    + rewrite IH. split.
      * intros (a & s & -> & Hs & Hn). exists (c :: a), s. split_and!; [done|done|].
        intros b t w Hb Ht Hw. destruct b as [|d b]; simpl in Hb.
        -- subst t. apply url_at_complete in Hw. simpl in Hw. congruence.
        -- injection Hb as _ Hb. by apply (Hn b t w).
      * intros (a & s & H & Hs & Hn). destruct a as [|d a]; simpl in H.
        -- subst s. apply url_at_complete in Hs. congruence.
        -- injection H as <- ->. exists a, s. split_and!; [done|done|].
           intros b t w Hb Ht. apply (Hn (c :: b) t w); [by rewrite Hb|done].
Qed.

(** [formatBytes] is exact below 1 KiB and otherwise rounds to the nearest tenth of the
    largest unit not above the size, KiB to GiB. *)
Theorem formatBytes_spec b (H : (0 <= b)%Z) :
  if (b <? 1024)%Z then formatBytes b = showZ b ++ " B"
  else exists k n unit,
    (1 <= k <= 3)%nat /\ nth_error ["B"; "KiB"; "MiB"; "GiB"] k = Some unit
    /\ (1024 ^ Z.of_nat k <= b)%Z /\ ((k < 3)%nat -> (b < 1024 ^ (Z.of_nat k + 1))%Z)
    /\ (2 * Z.abs (n * 1024 ^ Z.of_nat k - 10 * b) <= 1024 ^ Z.of_nat k)%Z
    /\ formatBytes b = showZ (n / 10) ++ "." ++ showZ (n mod 10) ++ " " ++ unit.
Proof.
  unfold formatBytes. destruct (Z.ltb_spec b 1024) as [Hlt|Hge]; [done|].
  pose proof (scale_spec b 1 "B" ["KiB"; "MiB"; "GiB"] ltac:(lia) ltac:(lia)) as (k & H1 & H2 & H3 & H4 & H5).
  destruct (scale b 1 "B" ["KiB"; "MiB"; "GiB"]) as [den unit]. cbn [fst snd] in *.
  rewrite Z.mul_1_l in H1. subst den. exists k, (tenths b (1024 ^ Z.of_nat k)), unit.
  assert (Hp : (0 < 1024 ^ Z.of_nat k)%Z) by (apply Z.pow_pos_nonneg; lia).
  assert (Hk : (1 <= k)%nat).
  { destruct k; [|lia]. simpl in H4. specialize (H4 ltac:(lia)). lia. }
  split_and!; [lia|simpl in H2; lia|done|done| |by apply tenths_bound|].
  - intros Hk3. rewrite Z.pow_add_r by lia. specialize (H4 ltac:(simpl; lia)). lia.
  - unfold toFixed1. by rewrite <- !app_assoc.
Qed.

Lemma formatBytes_spec_witness :
  formatBytes 1536 = "1.5 KiB" /\ formatBytes 1048575 = "1024.0 KiB"
  /\ exists k n unit, (1 <= k <= 3)%nat /\ nth_error ["B"; "KiB"; "MiB"; "GiB"] k = Some unit
    /\ (1024 ^ Z.of_nat k <= 1536)%Z /\ ((k < 3)%nat -> (1536 < 1024 ^ (Z.of_nat k + 1))%Z)
    /\ (2 * Z.abs (n * 1024 ^ Z.of_nat k - 10 * 1536) <= 1024 ^ Z.of_nat k)%Z
    /\ formatBytes 1536 = showZ (n / 10) ++ "." ++ showZ (n mod 10) ++ " " ++ unit.
Proof.
  split; [reflexivity|]. split; [reflexivity|].
  exact (formatBytes_spec 1536 ltac:(lia)).
Defined.
