(* ===== verification/Platforms.v ===== *)
(** * The platform registries: config/platforms.tsx of both apps

    The icons are names here; Icons.v has their drawings. *)
From S2P Require Import Prelude.

Local Open Scope js_scope.

(** The icon components of the registries; [Radio] is one of the package lucide-react. *)
Inductive Icon := XGlyph | InstagramGlyph | FacebookGlyph | TelegramGlyph | TikTokGlyph | Radio.

Record PlatformInfo := { pi_key : jstr; pi_label : jstr; pi_hint : jstr;
  pi_charLimit : option Z; pi_payPerUse : option bool; pi_requiresMedia : option bool;
  pi_caveat : option jstr; pi_manual : option bool;
  pi_icon : Icon }.

(** [Boolean(flag)] of an optional flag. *)
Definition flag (b : option bool) : bool := match b with Some v => v | None => false end.

Definition plain (key label hint : jstr) (icon : Icon) : PlatformInfo :=
  {| pi_key := key; pi_label := label; pi_hint := hint; pi_charLimit := None;
     pi_payPerUse := None; pi_requiresMedia := None; pi_caveat := None; pi_manual := None;
     pi_icon := icon |}.

Definition twitter : PlatformInfo :=
  {| pi_key := "twitter"; pi_label := "X (Twitter)";
     pi_hint := "Publish posts and threads to an X account.";
     pi_charLimit := Some 280%Z; pi_payPerUse := Some true; pi_requiresMedia := None;
     pi_caveat := None; pi_manual := None; pi_icon := XGlyph |}.
Definition instagram : PlatformInfo :=
  {| pi_key := "instagram"; pi_label := "Instagram";
     pi_hint := "Publish images and Reels to an Instagram Business or Creator account.";
     pi_charLimit := Some 2200%Z; pi_payPerUse := None; pi_requiresMedia := Some true;
     pi_caveat := Some ("Needs a Business/Creator account linked to a Facebook Page. No text-only posts." : jstr);
     pi_manual := None; pi_icon := InstagramGlyph |}.
Definition facebook : PlatformInfo :=
  {| pi_key := "facebook"; pi_label := "Facebook";
     pi_hint := "Publish text, links, photos, and videos to a Facebook Page.";
     pi_charLimit := None; pi_payPerUse := None; pi_requiresMedia := None;
     pi_caveat := Some ("Posts to a Facebook Page you manage, not a personal profile." : jstr);
     pi_manual := None; pi_icon := FacebookGlyph |}.
Definition telegram (caveat : jstr) : PlatformInfo :=
  {| pi_key := "telegram"; pi_label := "Telegram";
     pi_hint := "Publish to a Telegram channel or group via your own bot.";
     pi_charLimit := None; pi_payPerUse := None; pi_requiresMedia := None;
     pi_caveat := Some caveat; pi_manual := Some true; pi_icon := TelegramGlyph |}.
Definition tiktok : PlatformInfo :=
  {| pi_key := "tiktok"; pi_label := "TikTok";
     pi_hint := "Publish videos and photo posts to a TikTok account.";
     pi_charLimit := Some 2200%Z; pi_payPerUse := None; pi_requiresMedia := Some true;
     pi_caveat := Some ("No text-only posts. Until the app passes TikTok's audit, API posts stay private to you." : jstr);
     pi_manual := None; pi_icon := TikTokGlyph |}.

Module Web.
Definition PLATFORMS : list PlatformInfo :=
  [twitter; instagram; facebook;
   telegram "Create a bot with @BotFather, add it as an admin, then enter its token and chat id.";
   tiktok].

Definition platformInfo (key : jstr) : PlatformInfo :=
  match find_first (fun p => pi_key p =ₛ key) PLATFORMS with
  | Some p => p
  | None => plain key key [] Radio
  end.
End Web.

Module Mobile.
Definition PLATFORMS : list PlatformInfo :=
  [twitter; instagram; facebook;
   telegram "Create a bot with @BotFather, add it as admin, then enter its token and chat id.";
   tiktok].

Definition platformInfo (key : jstr) : PlatformInfo :=
  match find_first (fun p => pi_key p =ₛ key) PLATFORMS with
  | Some p => p
  | None => plain key key [] XGlyph
  end.
End Mobile.

(** ** Lemmas *)

Lemma web_limit_pos key l : pi_charLimit (Web.platformInfo key) = Some l -> (280 <= l <= 2200)%Z.
Proof.
  unfold Web.platformInfo. destruct (find_first _ _) as [p|] eqn:E; [|done].
  apply find_first_Some in E as [Hp _]. unfold Web.PLATFORMS in Hp.
  repeat (apply elem_of_cons in Hp as [->|Hp]; [intros [= <-]; lia|]). by apply elem_of_nil in Hp.
Qed.

(** ** Properties *)

(** looking a platform up returns an entry under its own key, so the constraints the
    composer applies are those of the platform asked for; the two registries agree on
    every constraint (limits, cost, media, credentials), known platform or not. *)
Theorem platformInfo_registries key :
  pi_key (Web.platformInfo key) = key
  /\ pi_key (Mobile.platformInfo key) = key
  /\ pi_label (Mobile.platformInfo key) = pi_label (Web.platformInfo key)
  /\ pi_charLimit (Mobile.platformInfo key) = pi_charLimit (Web.platformInfo key)
  /\ pi_payPerUse (Mobile.platformInfo key) = pi_payPerUse (Web.platformInfo key)
  /\ pi_requiresMedia (Mobile.platformInfo key) = pi_requiresMedia (Web.platformInfo key)
  /\ pi_manual (Mobile.platformInfo key) = pi_manual (Web.platformInfo key).
Proof.
  unfold Web.platformInfo, Mobile.platformInfo, Web.PLATFORMS, Mobile.PLATFORMS.
  cbn [find_first].
  repeat match goal with
  | |- context [jeq ?a key] =>
      let E := fresh in destruct (jeq a key) eqn:E; [apply jeq_true in E; by subst|]
  end.
  by split_and!.
Qed.
