(* ===== verification/Composer.v ===== *)
(** * The web composer: web/src/features/composer/composer.tsx and its stateless parts

    [Composer.component] is the editor: its React state, the tree of its render and its
    handlers.  A save is two awaited calls (create or update, then validate) whose
    continuations hold the values of the render they started from. *)
From S2P Require Import Prelude JsValue Ui Schema Format Platforms.

Local Open Scope js_scope.

(** ** State *)

(** [overrides] is an object used as a map from channel id to text. *)
Record ComposerState := { selected : list jstr; masterBody : jstr;
  overrides : gmap jstr jstr; media : list MediaMeta }.

Definition set_selected (l : list jstr) (s : ComposerState) : ComposerState :=
  {| selected := l; masterBody := masterBody s; overrides := overrides s; media := media s |}.
Definition set_master (b : jstr) (s : ComposerState) : ComposerState :=
  {| selected := selected s; masterBody := b; overrides := overrides s; media := media s |}.
Definition set_overrides (o : gmap jstr jstr) (s : ComposerState) : ComposerState :=
  {| selected := selected s; masterBody := masterBody s; overrides := o; media := media s |}.
Definition set_media (m : list MediaMeta) (s : ComposerState) : ComposerState :=
  {| selected := selected s; masterBody := masterBody s; overrides := overrides s; media := m |}.

(** [post?.variants ?? []] *)
Definition variants_of (post : option Post) : list Variant :=
  match post with
  | Some p => match p_variants p with Some vs => vs | None => [] end
  | None => []
  end.

(** The loop [for (const v of variants) if (v.body !== master) overrides[v.channel_id] = v.body]. *)
Definition override_loop (master : jstr) (vs : list Variant) (o : gmap jstr jstr) : gmap jstr jstr :=
  foldl (fun o v => if v_body v =ₛ master then o else <[v_channel_id v := v_body v]> o) o vs.

Definition fromPost (post : option Post) : ComposerState :=
  let variants := variants_of post in
  let master := match variants with v :: _ => v_body v | [] => [] end in
  {| selected := map v_channel_id variants; masterBody := master;
     overrides := override_loop master variants ∅;
     media := match variants with
              | v :: _ => match v_media v with Some m => m | None => [] end
              | [] => [] end |}.

(** [state.overrides[channelId] ?? state.masterBody] *)
Definition bodyFor (s : ComposerState) (channelId : jstr) : jstr :=
  match overrides s !! channelId with Some b => b | None => masterBody s end.

Definition toggle (channelId : jstr) (l : list jstr) : list jstr :=
  if is_in channelId l then keep (fun id => negb (id =ₛ channelId)) l else l ++ [channelId].

(** The [variants] of a save. *)
Definition save_variants (s : ComposerState) : list VariantInput :=
  map (fun id => {| vi_channel_id := id; vi_body := Some (bodyFor s id);
                    vi_media := match media s with [] => None | m => Some m end |}) (selected s).

(** [const byId = new Map(...)], [selectedChannels] *)
Definition by_id (channels : list Channel) : gmap jstr Channel := index_by ch_id channels.
Definition selectedChannels (channels : list Channel) (s : ComposerState) : list Channel :=
  omap (fun id => by_id channels !! id) (selected s).

(** What a save awaits. *)
Inductive Saving := SavingPost | ValidatingPost.

#[export] Instance Saving_eq_dec : EqDecision Saving.
Proof. solve_decision. Defined.

Record St := {
  props_channels : list Channel;               (* prop *)
  wallet_costs : option (gmap jstr Z);         (* wallet?.publish_costs *)
  state : ComposerState;
  postId : option jstr;
  tab : jstr;                                  (* "all" or a channel id *)
  error : option json;
  verdicts : option (list VariantValidation);
  saving : option Saving;
  shortening : option jstr;                    (* the tab the pending call was made on *)
  shortenError : option Exn }.

Definition init (channels : list Channel) (initial : option Post) : St :=
  {| props_channels := channels; wallet_costs := None; state := fromPost initial;
     postId := option_map p_id initial; tab := "all"; error := None; verdicts := None;
     saving := None; shortening := None; shortenError := None |}.

Inductive Act :=
  (* the user *)
  | ToggleChannel (id : jstr) | SetTab (t : jstr) | EditMaster (b : jstr) | EditTab (b : jstr)
  | ResetTab | SetMedia (m : list MediaMeta) | Save | Shorten
  (* answers and props *)
  | PostSaved (o : outcome Post) | Validated (o : outcome (list VariantValidation))
  | Shortened (o : outcome jstr)
  | NewChannels (cs : list Channel) | NewWallet (c : option (gmap jstr Z)).

Inductive Eff :=
  | CreatePost (vs : list VariantInput) | UpdatePost (id : jstr) (vs : list VariantInput)
  | ValidatePost (id : jstr) | ShortenLinks (text : jstr).

(** [postId ? ... : ...] *)
Definition has_post (s : St) : bool := match postId s with Some i => truthy i | None => false end.

Definition editingBody (s : St) : jstr :=
  if tab s =ₛ "all" then masterBody (state s) else bodyFor (state s) (tab s).

(** *** Setters *)
Definition upd_state (f : ComposerState -> ComposerState) (s : St) : St :=
  {| props_channels := props_channels s; wallet_costs := wallet_costs s; state := f (state s);
     postId := postId s; tab := tab s; error := error s; verdicts := verdicts s;
     saving := saving s; shortening := shortening s; shortenError := shortenError s |}.
Definition upd_tab (t : jstr) (s : St) : St :=
  {| props_channels := props_channels s; wallet_costs := wallet_costs s; state := state s;
     postId := postId s; tab := t; error := error s; verdicts := verdicts s;
     saving := saving s; shortening := shortening s; shortenError := shortenError s |}.
Definition upd_save (id : option jstr) (e : option json) (v : option (list VariantValidation))
    (p : option Saving) (s : St) : St :=
  {| props_channels := props_channels s; wallet_costs := wallet_costs s; state := state s;
     postId := id; tab := tab s; error := e; verdicts := v;
     saving := p; shortening := shortening s; shortenError := shortenError s |}.
Definition upd_shorten (p : option jstr) (e : option Exn) (s : St) : St :=
  {| props_channels := props_channels s; wallet_costs := wallet_costs s; state := state s;
     postId := postId s; tab := tab s; error := error s; verdicts := verdicts s;
     saving := saving s; shortening := p; shortenError := e |}.
Definition upd_props (cs : list Channel) (w : option (gmap jstr Z)) (s : St) : St :=
  {| props_channels := cs; wallet_costs := w; state := state s;
     postId := postId s; tab := tab s; error := error s; verdicts := verdicts s;
     saving := saving s; shortening := shortening s; shortenError := shortenError s |}.

(** The text of a tab, as the handlers write it. *)
Definition write_tab (t b : jstr) (s : ComposerState) : ComposerState :=
  if t =ₛ "all" then set_master b s else set_overrides (<[t := b]> (overrides s)) s.

Definition update (a : Act) (s : St) : St * list Eff :=
  match a with
  | ToggleChannel id =>
      let s1 := upd_state (fun c => set_selected (toggle id (selected c)) c)
                  (upd_save (postId s) (error s) None (saving s) s) in
      (if tab s =ₛ id then upd_tab "all" s1 else s1, [])
  | SetTab t => (upd_tab t s, [])
  | EditMaster b => (upd_state (set_master b) s, [])
  | EditTab b => (upd_state (fun c => set_overrides (<[tab s := b]> (overrides c)) c) s, [])
  | ResetTab => (upd_state (fun c => set_overrides (delete (tab s) (overrides c)) c) s, [])
  | SetMedia m => (upd_state (set_media m) s, [])
  | Save =>
      let variants := save_variants (state s) in
      (upd_save (postId s) None None (Some SavingPost) s,
       [match postId s with
        | Some i => if truthy i then UpdatePost i variants else CreatePost variants
        | None => CreatePost variants
        end])
  | PostSaved (inr post) =>
      (upd_save (Some (p_id post)) (error s) (verdicts s) (Some ValidatingPost) s,
       [ValidatePost (p_id post)])
  | Validated (inr vs) => (upd_save (postId s) (error s) (Some vs) None s, [])
  | PostSaved (inl e) | Validated (inl e) =>
      (upd_save (postId s) (Some (exn_message e)) (verdicts s) None s, [])
  | Shorten => (upd_shorten (Some (tab s)) None s, [ShortenLinks (editingBody s)])
  | Shortened (inr text) =>
      (upd_shorten None (shortenError s)
         (match shortening s with Some t => upd_state (write_tab t text) s | None => s end), [])
  | Shortened (inl e) => (upd_shorten None (Some e) s, [])
  | NewChannels cs => (upd_props cs (wallet_costs s) s, [])
  | NewWallet w => (upd_props (props_channels s) w s, [])
  end.

(** ** View *)

(** variant-editor.tsx: the label, the counter and the text area. *)
Definition counter_text (value : jstr) (charLimit : option Z) : option jstr :=
  match charLimit with
  | None => None
  | Some limit =>
      let remaining := (limit - Z.of_nat (length value))%Z in
      Some (if (remaining <? 0)%Z
            then showZ (- remaining) ++ " over the " ++ showZ limit ++ " limit"
            else showZ remaining ++ " left")
  end.

Definition VariantEditor {A} (label value : jstr) (charLimit : option Z) (disabled : bool)
    (onChange : jstr -> A) : list (node A) :=
  text label ::
  match counter_text value charLimit with Some t => [text t] | None => [] end
  ++ [Field label value (negb disabled) onChange].

(** channel-picker.tsx *)
Definition ChannelPicker {A} (channels : list Channel) (sel : list jstr) (onToggle : jstr -> A) : list (node A) :=
  [Box "group" (text "Publish to" ::
    map (fun c => Toggle "checkbox" (atHandle (ch_handle c)) (is_in (ch_id c) sel)
                    (bool_decide (ch_status c = ch_active)) (onToggle (ch_id c))) channels)].

(** The label of a tab: [all], or a selected id. *)
Definition tab_label (channels : list Channel) (t : jstr) : jstr :=
  match (if t =ₛ "all" then None else by_id channels !! t) with
  | Some c => atHandle (ch_handle c)
  | None => "All channels"
  end.

Definition tab_list (s : St) : list (node Act) :=
  when (Nat.ltb 1 (length (selectedChannels (props_channels s) (state s))))
    [Box "tablist" (map (fun t => Toggle "tab" (tab_label (props_channels s) t) (tab s =ₛ t) true (SetTab t))
                        (("all" : jstr) :: selected (state s)))].

Definition MAX_SAFE_INTEGER : Z := 9007199254740991.

Definition limit_of (c : Channel) : Z :=
  match pi_charLimit (Web.platformInfo (ch_platform c)) with
  | Some l => l | None => MAX_SAFE_INTEGER end.

(** [Math.min(...ls)] of a non-empty list. *)
Fixpoint min_of (x : Z) (l : list Z) : Z :=
  match l with [] => x | y :: l' => Z.min x (min_of y l') end.

(** The limit shown on the "all" tab. *)
Definition all_limit (cs : list Channel) : option Z :=
  match cs with [] => None | c :: cs' => Some (min_of (limit_of c) (map limit_of cs')) end.

Definition editor (s : St) : list (node Act) :=
  let cs := selectedChannels (props_channels s) (state s) in
  if tab s =ₛ "all" then
    VariantEditor "Post text" (masterBody (state s)) (all_limit cs) false EditMaster
  else match by_id (props_channels s) !! tab s with
  | None => []
  | Some channel =>
      VariantEditor ("Text for " ++ atHandle (ch_handle channel)) (bodyFor (state s) (tab s))
        (pi_charLimit (Web.platformInfo (ch_platform channel))) false EditTab
      ++ when (bool_decide (is_Some (overrides (state s) !! tab s)))
           [Btn "Reset to master text" true ResetTab]
  end.

Definition shorten_view (s : St) : list (node Act) :=
  match firstURL (editingBody s) with
  | None => []
  | Some _ =>
      let pending := bool_decide (is_Some (shortening s)) in
      Btn (if pending then "Shortening" else "Shorten links") (negb pending) Shorten ::
      match shortenError s with
      | None => []
      | Some e =>
          [Box "alert" (Txt (exn_message e) ::
             when (is_str (exn_code e) "integration_not_configured")
               [Anchor "Open Integrations" "/integrations"])]
      end
  end.

(** [costs.a ?? costs.twitter] *)
Definition tier_cost (costs : gmap jstr Z) (a : jstr) : option Z :=
  match costs !! a with Some c => Some c | None => costs !! ("twitter" : jstr) end.

Definition show_opt (x : option Z) : jstr := match x with Some z => showZ z | None => [] end.

Definition cost_notice (s : St) : list (node Act) :=
  match wallet_costs s with
  | None => []
  | Some costs =>
      if negb (existsb (fun c => flag (pi_payPerUse (Web.platformInfo (ch_platform c))))
                 (selectedChannels (props_channels s) (state s))) then []
      else
        let hasLink := bool_decide (is_Some (firstURL (masterBody (state s)))) in
        let hasMedia := match media (state s) with [] => false | _ => true end in
        let cost := if hasLink then tier_cost costs "twitter_url"
                    else if hasMedia then tier_cost costs "twitter_media"
                    else costs !! ("twitter" : jstr) in
        let tier : jstr := if hasLink then "link posts" else if hasMedia then "media posts"
                           else "plain posts" in
        [text ("Publishing to X costs " ++ show_opt cost ++ " credits per channel for " ++ tier
               ++ match costs !! ("twitter" : jstr) with
                  | Some c => if hasLink && negb (Z.eqb c 0)
                              then " (plain posts cost " ++ showZ c ++ ")" else []
                  | None => [] end
               ++ ". Other platforms are free.")]
  end.

Definition error_view (s : St) : list (node Act) :=
  Ui.alert (error s).

Definition verdict_view (s : St) : list (node Act) :=
  match verdicts s with
  | None => []
  | Some vs =>
      [Box "status"
        (text ("Draft saved. " ++ if forallb vv_valid vs then "All channels look good." else []) ::
         map (fun v => Box "listitem"
           [text (if vv_valid v then "Ready" else "Needs changes");
            text ((match by_id (props_channels s) !! vv_channel_id v with
                   | Some c => atHandle (ch_handle c) | None => vv_channel_id v end)
                  ++ match vv_message v with
                     | Some m => if negb (vv_valid v) && truthy m then " - " ++ m else []
                     | None => [] end)]) vs)]
  end.

Definition can_save (s : St) : bool :=
  negb (bool_decide (is_Some (saving s)))
  && match selected (state s) with [] => false | _ => true end
  && truthy (trim (masterBody (state s))).

Definition save_label (s : St) : jstr :=
  if bool_decide (is_Some (saving s)) then "Saving…"
  else if has_post s then "Update draft" else "Save draft".

(** The preview's channel: the tab's, or the first selected one. *)
Definition previewChannel (s : St) : option Channel :=
  if tab s =ₛ "all" then head (selectedChannels (props_channels s) (state s))
  else by_id (props_channels s) !! tab s.
Definition preview_body (s : St) : jstr :=
  match previewChannel s with
  | Some c => bodyFor (state s) (ch_id c)
  | None => masterBody (state s)
  end.

Definition view (s : St) : list (node Act) :=
  ChannelPicker (props_channels s) (selected (state s)) ToggleChannel
  ++ tab_list s ++ editor s
  ++ [Ui.Slot "MediaAttach"] ++ shorten_view s ++ cost_notice s ++ [Ui.Slot "UtmPreview"]
  ++ error_view s ++ verdict_view s
  ++ [Btn (save_label s) (can_save s) Save]
  ++ when (match selected (state s) with [] => true | _ => false end)
       [text "Pick at least one channel to save."]
  ++ [Ui.Slot "PostPreview"].

(** What the environment may deliver: the answers awaited, new props, and the attachments
    chosen in the child [MediaAttach]. *)
Definition awaiting (s : St) (a : Act) : Prop :=
  match a with
  | PostSaved _ => saving s = Some SavingPost
  | Validated _ => saving s = Some ValidatingPost
  | Shortened _ => is_Some (shortening s)
  | SetMedia _ | NewChannels _ | NewWallet _ => True
  | _ => False
  end.

Definition component : component :=
  {| Ui.st := St; Ui.act := Act; Ui.eff := Eff; Ui.view := view; Ui.awaiting := awaiting;
     Ui.update := update |}.

(** ** Lemmas *)

Lemma toggle_NoDup id l : NoDup l -> NoDup (toggle id l).
Proof.
  intros H. unfold toggle. destruct (is_in id l) eqn:E; [by apply keep_NoDup|].
  apply NoDup_app. split; [done|]. split; [|apply NoDup_singleton].
  intros x Hx ->%list_elem_of_singleton. apply is_in_spec in Hx. congruence.
Qed.

Lemma toggle_In id l x : x ∈ toggle id l <-> (if is_in id l then x ∈ l /\ x <> id else x ∈ l \/ x = id).
Proof.
  unfold toggle. destruct (is_in id l).
  - by rewrite keep_In, negb_true_iff, jeq_false.
  - by rewrite elem_of_app, list_elem_of_singleton.
Qed.

Lemma bodyFor_set_overrides s o id :
  bodyFor (set_overrides o s) id = match o !! id with Some b => b | None => masterBody s end.
Proof. done. Qed.

(** *** [fromPost] *)

Lemma override_loop_lookup master vs o id :
  NoDup (map v_channel_id vs) ->
  override_loop master vs o !! id =
    match find_first (fun v => v_channel_id v =ₛ id) vs with
    | Some v => if v_body v =ₛ master then o !! id else Some (v_body v)
    | None => o !! id
    end.
Proof.
  revert o. induction vs as [|v vs IH]; intros o Hnd; [done|].
  apply NoDup_cons in Hnd as [Hv Hnd]. cbn [find_first].
  change (override_loop master (v :: vs) o)
    with (override_loop master vs (if v_body v =ₛ master then o else <[v_channel_id v := v_body v]> o)).
  rewrite IH by done. destruct (v_channel_id v =ₛ id) eqn:E.
  - apply jeq_true in E as <-.
    assert (find_first (fun w => v_channel_id w =ₛ v_channel_id v) vs = None) as ->.
    { apply find_first_None, Forall_forall. intros w Hw. apply jeq_false. intros Heq.
      apply Hv. rewrite <- Heq. by apply list_elem_of_fmap_2. }
    destruct (v_body v =ₛ master); [done|]. by rewrite lookup_insert_eq.
  - apply jeq_false in E.
    assert ((if v_body v =ₛ master then o else <[v_channel_id v := v_body v]> o) !! id = o !! id) as ->;
      [|done].
    destruct (v_body v =ₛ master); [done|]. by rewrite lookup_insert_ne.
Qed.

Lemma find_first_channel vs v :
  NoDup (map v_channel_id vs) -> v ∈ vs ->
  find_first (fun w => v_channel_id w =ₛ v_channel_id v) vs = Some v.
Proof.
  induction vs as [|w vs IH]; intros Hnd Hv; [by apply elem_of_nil in Hv|].
  apply NoDup_cons in Hnd as [Hw Hnd]. cbn [find_first].
  apply elem_of_cons in Hv as [->|Hv]; [by rewrite jeq_refl|].
  destruct (v_channel_id w =ₛ v_channel_id v) eqn:E; [|by apply IH].
  apply jeq_true in E. exfalso. apply Hw. rewrite E. by apply list_elem_of_fmap_2.
Qed.

(** Each channel of a loaded draft keeps its own text. *)
Lemma fromPost_body post v :
  NoDup (map v_channel_id (variants_of (Some post))) -> v ∈ variants_of (Some post) ->
  bodyFor (fromPost (Some post)) (v_channel_id v) = v_body v.
Proof.
  intros Hnd Hv. unfold bodyFor, fromPost. cbn [overrides masterBody].
  rewrite override_loop_lookup, find_first_channel, lookup_empty by done.
  destruct (v_body v =ₛ _) eqn:E; [|done]. by apply jeq_true in E.
Qed.

Definition draft_media (post : Post) : option (list MediaMeta) :=
  match media (fromPost (Some post)) with [] => None | m => Some m end.

Lemma save_fromPost post :
  NoDup (map v_channel_id (variants_of (Some post))) ->
  save_variants (fromPost (Some post))
  = map (fun v => {| vi_channel_id := v_channel_id v; vi_body := Some (v_body v);
                     vi_media := draft_media post |}) (variants_of (Some post)).
Proof.
  intros Hnd. unfold save_variants. cbn [selected fromPost]. rewrite map_map.
  apply map_ext_in. intros v Hv%list_elem_of_In. by rewrite fromPost_body.
Qed.

(** *** Limits *)

Lemma min_of_lt x l n : (min_of x l < n)%Z <-> (x < n)%Z \/ Exists (fun y => (y < n)%Z) l.
Proof.
  revert x. induction l as [|y l IH]; intros x; simpl.
  - rewrite Exists_nil. tauto.
  - rewrite Exists_cons, Z.min_lt_iff, IH. tauto.
Qed.

Lemma all_limit_lt cs limit n :
  all_limit cs = Some limit -> ((limit < n)%Z <-> Exists (fun c => (limit_of c < n)%Z) cs).
Proof.
  destruct cs as [|c cs]; [done|]. intros [= <-]. rewrite min_of_lt, Exists_cons, Exists_exists.
  split; (intros [H|H]; [by left|right]).
  - destruct H as (l & Hl & Hlt). apply list_elem_of_fmap in Hl as (c' & -> & Hc').
    apply Exists_exists. eauto.
  - apply Exists_exists in H as (c' & Hc' & Hlt). exists (limit_of c').
    split; [by apply list_elem_of_fmap_2|done].
Qed.

Lemma limit_of_lt c n :
  (n <= MAX_SAFE_INTEGER)%Z ->
  (limit_of c < n)%Z <->
    exists l, pi_charLimit (Web.platformInfo (ch_platform c)) = Some l /\ (l < n)%Z.
Proof.
  intros Hn. unfold limit_of. destruct (pi_charLimit _) as [l|].
  { split; [eauto|]. by intros (l2 & [= <-] & H). }
  split; [lia|by intros (? & ? & _)].
Qed.

(** *** Runs *)

Lemma offers_editor s a : offers (editor s) a -> (exists b, a = EditMaster b) \/ (exists b, a = EditTab b) \/ a = ResetTab.
Proof.
  unfold editor, VariantEditor. destruct (tab s =ₛ "all").
  - destruct (counter_text _ _); simpl; intros H; decompose [or and ex] H; subst; eauto; done.
  - destruct (by_id _ !! _); [|done]. destruct (counter_text _ _), (bool_decide _); simpl;
      intros H; decompose [or and ex] H; subst; eauto; done.
Qed.

Lemma offers_shorten s a : offers (shorten_view s) a -> a = Shorten /\ shortening s = None.
Proof.
  unfold shorten_view. destruct (firstURL _); [|done]. simpl.
  intros [[H ->]|H].
  - split; [done|]. apply negb_true_iff, bool_decide_eq_false in H.
    destruct (shortening s); [|done]. destruct H. eauto.
  - destruct (shortenError s); [|done]. destruct (is_str _ _); simpl in H; tauto.
Qed.

(** What the controls of the tree can do. *)
Definition user_act (s : St) (a : Act) : Prop :=
  match a with
  | Save => can_save s = true
  | Shorten => shortening s = None
  | ToggleChannel _ | SetTab _ | EditMaster _ | EditTab _ | ResetTab => True
  | _ => False
  end.

Lemma offers_user s a : offers (view s) a -> user_act s a.
Proof.
  intros H. unfold view in H. rewrite !offers_app in H.
  destruct H as [H|[H|[H|[H|[H|[H|[H|[H|[H|[H|[H|H]]]]]]]]]]].
  - destruct H as [H|H]; [|done]. rewrite offered_Box in H. destruct H as [H|H]; [done|].
    apply offers_map in H as (c & _ & [_ ->]). done.
  - unfold tab_list in H. apply offers_when in H as [_ H].
    destruct H as [H|H]; [|done]. rewrite offered_Box in H.
    apply offers_map in H as (t & _ & [_ ->]). done.
  - apply offers_editor in H as [[? ->]|[[? ->]| ->]]; done.
  - by destruct H.
  - apply offers_shorten in H as [-> H]. done.
  - unfold cost_notice in H. repeat case_match; simpl in H; try done; by destruct H.
  - by destruct H.
  - by apply offers_alert in H.
  - unfold verdict_view in H. destruct (verdicts s) as [vs|]; [|done].
    destruct H as [H|H]; [|done]. rewrite offered_Box in H. destruct H as [H|H]; [done|].
    apply offers_map in H as (v & _ & H). simpl in H. tauto.
  - destruct H as [[H ->]|H]; [done|by destruct H].
  - apply offers_when in H as [_ H]. simpl in H. tauto.
  - by destruct H.
Qed.

Lemma can_save_spec s :
  can_save s = true -> saving s = None /\ selected (state s) <> [] /\ trim (masterBody (state s)) <> [].
Proof.
  unfold can_save. intros [[H1 H2]%andb_true_iff H3]%andb_true_iff.
  apply negb_true_iff, bool_decide_eq_false in H1. split_and!.
  - destruct (saving s); [|done]. destruct H1. eauto.
  - by destruct (selected (state s)).
  - by apply truthy_true.
Qed.

(** A save starts only from a state that can save. *)
Lemma step_save s es s' : step component s Save es s' -> can_save s = true.
Proof.
  inversion 1; subst; [|done]. by apply (offers_user s Save).
Qed.

Definition saves_ok (e : Eff) : Prop :=
  match e with
  | CreatePost vs | UpdatePost _ vs => vs <> [] /\ NoDup (map vi_channel_id vs)
  | _ => True
  end.

Lemma save_variants_ids s : map vi_channel_id (save_variants s) = selected s.
Proof. unfold save_variants. rewrite map_map. simpl. apply map_id. Qed.

Lemma step_ok s a es s' :
  NoDup (selected (state s)) -> step component s a es s' ->
  NoDup (selected (state s')) /\ Forall saves_ok es.
Proof.
  intros Hnd Hs. assert (Hu : Ui.update component a s = (s', es)) by (by inversion Hs).
  cbn in Hu. destruct a as [id|t|b|b| |m| | |[e|p]|[e|vs]|[e|x]|cs|w]; cbn in Hu.
  - injection Hu as <- <-. split; [|done].
    destruct (tab s =ₛ id); cbn; by apply toggle_NoDup.
  - injection Hu as <- <-. by split.
  - injection Hu as <- <-. by split.
  - injection Hu as <- <-. by split.
  - injection Hu as <- <-. by split.
  - injection Hu as <- <-. by split.
  - apply step_save, can_save_spec in Hs as (_ & Hne & _). injection Hu as <- <-.
    split; [done|]. apply Forall_singleton.
    assert (Hok : save_variants (state s) <> [] /\ NoDup (map vi_channel_id (save_variants (state s)))).
    { rewrite save_variants_ids. split; [|done]. unfold save_variants. by destruct (selected (state s)). }
    destruct (postId s) as [i|]; [destruct (truthy i)|]; done.
  - injection Hu as <- <-. split; [done|]. by apply Forall_singleton.
  - injection Hu as <- <-. by split.
  - injection Hu as <- <-. split; [done|]. by apply Forall_singleton.
  - injection Hu as <- <-. by split.
  - injection Hu as <- <-. by split.
  - injection Hu as <- <-. by split.
  - injection Hu as <- <-. split; [|done]. destruct (shortening s) as [t|]; [|done].
    cbn. unfold write_tab. by destruct (t =ₛ "all").
  - injection Hu as <- <-. by split.
  - injection Hu as <- <-. by split.
Qed.

(** *** Counting the creations *)

Definition creates (es : list Eff) : nat :=
  length (keep (fun e => match e with CreatePost _ => true | _ => false end) es).
Definition failed_saves (tr : list (Act * list Eff)) : nat :=
  length (keep (fun x => match x.1 with PostSaved (inl _) => true | _ => false end) tr).

(** A save that may still create: none is saved and none is being saved. *)
Definition saving_post (s : St) : bool :=
  match saving s with Some SavingPost => true | _ => false end.
Definition slack (s : St) : nat := if has_post s || saving_post s then 0 else 1.

Definition ids_ok (a : Act) : Prop :=
  match a with PostSaved (inr p) => truthy (p_id p) = true | _ => True end.

Lemma creates_app a b : creates (a ++ b) = creates a + creates b.
Proof.
  unfold creates. induction a as [|e a IH]; [done|]. simpl. destruct e; simpl; lia.
Qed.

Lemma step_slack s a es s' :
  step component s a es s' -> ids_ok a ->
  creates es + slack s'
  <= slack s + (match a with PostSaved (inl _) => 1 | _ => 0 end).
Proof.
  intros Hs Hid. assert (Hu : Ui.update component a s = (s', es)) by (by inversion Hs).
  cbn in Hu. destruct a as [id|t|b|b| |m| | |[e|p]|[e|vs]|[e|x]|cs|w]; cbn in Hu.
  - injection Hu as <- <-. destruct (tab s =ₛ id); cbn; unfold slack, has_post, saving_post; cbn; lia.
  - injection Hu as <- <-. unfold slack, has_post, saving_post; cbn; lia.
  - injection Hu as <- <-. unfold slack, has_post, saving_post; cbn; lia.
  - injection Hu as <- <-. unfold slack, has_post, saving_post; cbn; lia.
  - injection Hu as <- <-. unfold slack, has_post, saving_post; cbn; lia.
  - injection Hu as <- <-. unfold slack, has_post, saving_post; cbn; lia.
  - apply step_save, can_save_spec in Hs as (Hn & _ & _). injection Hu as <- <-.
    unfold slack, has_post, saving_post. cbn. rewrite Hn. cbn. rewrite orb_true_r.
    destruct (postId s) as [i|]; [destruct (truthy i)|]; cbn; lia.
  - injection Hu as <- <-. unfold slack, has_post, saving_post; cbn; lia.
  - injection Hu as <- <-. unfold slack, has_post, saving_post; cbn. destruct (postId s) as [i|]; [destruct (truthy i)|]; cbn; lia.
  - injection Hu as <- <-. unfold slack, has_post, saving_post; cbn. simpl in Hid. rewrite Hid. cbn. lia.
  - injection Hu as <- <-.
    assert (saving s = Some ValidatingPost) as Hv.
    { inversion Hs; subst; [|done]. by apply (offers_user s (Validated (inl e))) in H. }
    unfold slack, has_post, saving_post. cbn. rewrite Hv. cbn. lia.
  - injection Hu as <- <-.
    assert (saving s = Some ValidatingPost) as Hv.
    { inversion Hs; subst; [|done]. by apply (offers_user s (Validated (inr vs))) in H. }
    unfold slack, has_post, saving_post. cbn. rewrite Hv. cbn. lia.
  - injection Hu as <- <-. unfold slack, has_post, saving_post; cbn; lia.
  - injection Hu as <- <-. destruct (shortening s) as [t|]; unfold slack, has_post, saving_post; cbn; lia.
  - injection Hu as <- <-. unfold slack, has_post, saving_post; cbn; lia.
  - injection Hu as <- <-. unfold slack, has_post, saving_post; cbn; lia.
Qed.

Lemma failed_cons a es tr :
  failed_saves ((a, es) :: tr)
  = (match a with PostSaved (inl _) => 1 | _ => 0 end) + failed_saves tr.
Proof. unfold failed_saves. destruct a as [| | | | | | | |[]| | | |]; done. Qed.

Lemma steps_creates s tr s' :
  steps component s tr s' -> Forall (fun x => ids_ok x.1) tr ->
  creates (issued tr) + slack s' <= slack s + failed_saves tr.
Proof.
  intros Hrun. induction Hrun as [s|s a es s1 tr s2 Hs _ IH]; intros Hids; [simpl; lia|].
  apply Forall_cons in Hids as [Ha Hids]. specialize (IH Hids).
  pose proof (step_slack _ _ _ _ Hs Ha) as H1. rewrite failed_cons.
  change (issued ((a, es) :: tr)) with (es ++ issued tr). rewrite creates_app. lia.
Qed.

(** *** A shortening in flight *)

Definition waits (a : Act) : bool := match a with Shortened _ => false | _ => true end.

Lemma step_shortening s t a es s' :
  shortening s = Some t -> step component s a es s' -> waits a = true -> shortening s' = Some t.
Proof.
  intros H Hs Hw. assert (Hu : Ui.update component a s = (s', es)) by (by inversion Hs).
  assert (Ha : a <> Shorten).
  { intros ->. inversion Hs as [? ? ? Ho|? ? ? Ho]; subst; [|done].
    apply offers_user in Ho. cbn in Ho. by rewrite H in Ho. }
  destruct a as [id|t'|b|b| |m| | |[e|p]|[e|vs]|o|cs|w]; try done; cbn in Hu; injection Hu as <- _; try done.
  by destruct (tab s =ₛ id).
Qed.

Lemma steps_shortening s t tr s' :
  shortening s = Some t -> steps component s tr s' ->
  Forall (fun x => waits x.1 = true) tr -> shortening s' = Some t.
Proof.
  intros H Hrun. induction Hrun as [s|s a es s1 tr s2 Hs _ IH]; [done|].
  intros [Ha Hw]%Forall_cons. apply IH; [|done]. by eapply step_shortening.
Qed.

(** ** Properties *)

(** C6: a composer never duplicates its post: along any run of edits, saves, answers and new
    props, the posts it asks the server to create are at most one more than its failed
    saves (none more when it edits a saved draft), the server's ids being non-empty.  In
    particular every save after a successful one is an update. *)
Theorem composer_creates_once channels initial tr s
  (Hrun : steps component (init channels initial) tr s)
  (Hids : Forall (fun x => ids_ok x.1) tr) :
  creates (issued tr)
  <= failed_saves tr + (if has_post (init channels initial) then 0 else 1).
Proof.
  pose proof (steps_creates _ _ _ Hrun Hids) as H.
  unfold slack, saving_post in H. cbn [saving init] in H. rewrite orb_false_r in H. lia.
Qed.

Definition x_channel : Channel :=
  {| ch_id := "c1"; ch_platform := "twitter"; ch_platform_account_id := "1"; ch_handle := "@a";
     ch_display_name := "A"; ch_status := ch_active; ch_connected_by := None; ch_created_at := [] |}.
Definition saved_post : Post :=
  {| p_id := "p1"; p_workspace_id := "w1"; p_author_user_id := None; p_status := "draft";
     p_created_at := []; p_variants := None |}.

(** A run: pick a channel, type, save, the answer arrives, and a second save. *)
Lemma saving_run :
  exists tr s, steps component (init [x_channel] None) tr s
    /\ Forall (fun x => ids_ok x.1) tr
    /\ creates (issued tr) = 1
    /\ exists vs, issued tr = [CreatePost vs; ValidatePost "p1"; UpdatePost "p1" vs].
Proof.
  eexists _, _. split; [|split; [|split]].
  - eapply steps_cons; [eapply (by_user component _ (ToggleChannel "c1")); [|reflexivity]|].
    { pick. }
    eapply steps_cons; [eapply (by_user component _ (EditMaster "hi")); [|reflexivity]|].
    { pick. }
    eapply steps_cons; [eapply (by_user component _ Save); [|reflexivity]|].
    { pick. }
    eapply steps_cons; [eapply (by_env component _ (PostSaved (inr saved_post))); [|reflexivity]|].
    { reflexivity. }
    eapply steps_cons; [eapply (by_env component _ (Validated (inr []))); [|reflexivity]|].
    { reflexivity. }
    eapply steps_cons; [eapply (by_user component _ Save); [|reflexivity]|].
    { pick. }
    apply steps_refl.
  - repeat constructor.
  - reflexivity.
  - eexists. reflexivity.
Defined.

Lemma composer_creates_once_witness :
  exists tr s, steps component (init [x_channel] None) tr s
    /\ creates (issued tr) <= failed_saves tr + 1.
Proof.
  destruct saving_run as (tr & s & Hrun & Hids & _). exists tr, s. split; [exact Hrun|].
  exact (composer_creates_once _ _ _ _ Hrun Hids).
Defined.

(** C15: what a composer saves is well formed: along any run, every create or update names at
    least one channel and each channel once, when the draft it started from did. *)
Theorem composer_saves_ok channels initial tr s
  (Hnd : NoDup (map v_channel_id (variants_of initial)))
  (Hrun : steps component (init channels initial) tr s) :
  Forall saves_ok (issued tr) /\ NoDup (selected (state s)).
Proof.
  destruct (steps_issued component (fun s => NoDup (selected (state s))) saves_ok step_ok
              _ _ _ Hrun Hnd) as [H1 H2].
  by split.
Qed.

Lemma composer_saves_ok_witness :
  exists tr s, steps component (init [x_channel] None) tr s /\ Forall saves_ok (issued tr).
Proof.
  destruct saving_run as (tr & s & Hrun & _). exists tr, s. split; [exact Hrun|].
  exact (proj1 (composer_saves_ok [x_channel] None tr s (NoDup_nil_2) Hrun)).
Defined.

(** C38: loading a draft and saving it unchanged sends back its channels in order with their
    own texts, whichever text became the master; the media sent for every channel are those
    of the first. *)
Theorem draft_roundtrip post
  (Hnd : NoDup (map v_channel_id (variants_of (Some post)))) :
  save_variants (fromPost (Some post))
  = map (fun v => {| vi_channel_id := v_channel_id v; vi_body := Some (v_body v);
                     vi_media := draft_media post |}) (variants_of (Some post)).
Proof. by apply save_fromPost. Qed.

Definition variant_of (c b : jstr) : Variant :=
  {| v_id := c; v_channel_id := c; v_body := b; v_media := None |}.
Definition draft_of (vs : list Variant) : Post :=
  {| p_id := "p1"; p_workspace_id := "w1"; p_author_user_id := None; p_status := "draft";
     p_created_at := []; p_variants := Some vs |}.

Lemma draft_roundtrip_witness :
  let post := draft_of [variant_of "c1" "a"; variant_of "c2" "b"; variant_of "c3" "a"] in
  save_variants (fromPost (Some post))
  = [{| vi_channel_id := "c1"; vi_body := Some ("a" : jstr); vi_media := None |};
     {| vi_channel_id := "c2"; vi_body := Some ("b" : jstr); vi_media := None |};
     {| vi_channel_id := "c3"; vi_body := Some ("a" : jstr); vi_media := None |}].
Proof.
  intros post. refine (draft_roundtrip post _).
  apply NoDup_ListNoDup. repeat constructor; cbn; intuition discriminate.
Defined.

(** the counter of the "all" tab is right: for a text shorter than 2^53 units, it says
    "over" exactly when some selected channel's platform has a limit that the text exceeds,
    and the excess is counted against the smallest limit. *)
Theorem all_counter_over cs text limit
  (Hl : all_limit cs = Some limit) (Ht : (Z.of_nat (length text) <= MAX_SAFE_INTEGER)%Z) :
  (counter_text text (Some limit)
     = Some (showZ (Z.of_nat (length text) - limit) ++ " over the " ++ showZ limit ++ " limit")
   /\ exists c l, c ∈ cs /\ pi_charLimit (Web.platformInfo (ch_platform c)) = Some l
        /\ (l < Z.of_nat (length text))%Z)
  \/ (counter_text text (Some limit) = Some (showZ (limit - Z.of_nat (length text)) ++ " left")
      /\ forall c l, c ∈ cs -> pi_charLimit (Web.platformInfo (ch_platform c)) = Some l ->
         (Z.of_nat (length text) <= l)%Z).
Proof.
  pose proof (all_limit_lt cs limit (Z.of_nat (length text)) Hl) as Hiff.
  unfold counter_text. destruct (Z.ltb_spec (limit - Z.of_nat (length text)) 0) as [Hlt|Hge].
  - left. split; [by replace (- (limit - Z.of_nat (length text)))%Z
                    with (Z.of_nat (length text) - limit)%Z by lia|].
    pose proof (proj1 Hiff ltac:(lia)) as (c & Hc & Hlim)%Exists_exists.
    apply limit_of_lt in Hlim as (l & Hl1 & Hl2); [|done]. eauto.
  - right. split; [done|]. intros c l Hc Hcl.
    destruct (Z.le_gt_cases (Z.of_nat (length text)) l) as [|Hgt]; [done|].
    assert (limit < Z.of_nat (length text))%Z; [|lia]. apply Hiff, Exists_exists. exists c.
    split; [done|]. apply limit_of_lt; eauto.
Qed.

Lemma all_counter_over_witness :
  counter_text "hello" (Some 280%Z) = Some ("275 left" : jstr)
  /\ forall c l, c ∈ [x_channel] -> pi_charLimit (Web.platformInfo (ch_platform c)) = Some l ->
       (5 <= l)%Z.
Proof.
  destruct (all_counter_over [x_channel] "hello" 280 eq_refl ltac:(vm_compute; discriminate))
    as [[H _]|[H1 H2]]; [vm_compute in H; discriminate H|].
  split; [exact H1|exact H2].
Defined.

(** edits are local: editing the master text changes exactly the channels that follow
    it; editing a channel's tab changes that channel only; resetting it makes it follow the
    master again; and toggling channels changes no text. *)
Theorem edits_local s b id :
  bodyFor (state (Ui.update component (EditMaster b) s).1) id
    = match overrides (state s) !! id with Some o => o | None => b end
  /\ bodyFor (state (Ui.update component (EditTab b) s).1) id
    = (if decide (id = tab s) then b else bodyFor (state s) id)
  /\ bodyFor (state (Ui.update component ResetTab s).1) id
    = (if decide (id = tab s) then masterBody (state s) else bodyFor (state s) id)
  /\ forall id', bodyFor (state (Ui.update component (ToggleChannel id') s).1) id
    = bodyFor (state s) id.
Proof.
  unfold bodyFor. cbn. split_and!.
  - done.
  - case_decide as E; [subst; by rewrite lookup_insert_eq|by rewrite lookup_insert_ne].
  - case_decide as E; [subst; by rewrite lookup_delete_eq|by rewrite lookup_delete_ne].
  - intros id'. by destruct (tab s =ₛ id').
Qed.

(** shortening replaces the text of the tab it was asked on by the shortened text,
    whatever happened to that text, or to the tabs, while the call was pending: the edits
    made meanwhile are lost, and no other text changes. *)
Theorem shorten_overwrites s t tr s1 answer
  (H : shortening s = Some t) (Hrun : steps component s tr s1)
  (Hp : Forall (fun x => waits x.1 = true) tr) :
  let s' := (Ui.update component (Shortened (inr answer)) s1).1 in
  awaiting s1 (Shortened (inr answer)) /\ shortening s' = None
  /\ (if decide (t = "all") then masterBody (state s') else bodyFor (state s') t) = answer
  /\ forall id, id <> t -> t <> "all" -> bodyFor (state s') id = bodyFor (state s1) id.
Proof.
  pose proof (steps_shortening _ _ _ _ H Hrun Hp) as H1. cbn. rewrite H1.
  unfold write_tab, bodyFor. split_and!; [by exists t|done| |].
  - case_decide as E; [by rewrite (proj2 (jeq_true _ _) E)|].
    rewrite (proj2 (jeq_false _ _) E). cbn. by rewrite lookup_insert_eq.
  - intros id Hne Ht. rewrite (proj2 (jeq_false _ _) Ht). cbn. by rewrite lookup_insert_ne.
Qed.

Lemma shorten_overwrites_witness :
  let s := upd_shorten (Some ("all" : jstr)) None (init [x_channel] None) in
  exists s1, steps component s [(EditMaster "new text", [])] s1
    /\ masterBody (state s1) = "new text"
    /\ masterBody (state (Ui.update component (Shortened (inr ("short" : jstr))) s1).1) = "short".
Proof.
  intros s. assert (Hrun : exists s1, steps component s [(EditMaster "new text", [])] s1
                              /\ masterBody (state s1) = "new text").
  { eexists. split.
    - eapply steps_cons; [eapply (by_user component _ (EditMaster "new text")); [pick|reflexivity]|].
      apply steps_refl.
    - reflexivity. }
  destruct Hrun as (s1 & Hrun & Hb). exists s1. split; [exact Hrun|]. split; [exact Hb|].
  assert (Hp : Forall (fun x : Act * list Eff => waits x.1 = true) [(EditMaster "new text", [])]).
  { apply List.Forall_cons; [reflexivity|apply List.Forall_nil]. }
  exact (proj1 (proj2 (proj2 (shorten_overwrites s "all" _ s1 "short" eq_refl Hrun Hp)))).
Defined.
