(* ===== verification/Confirm.v ===== *)
(** * Confirmed actions: confirm-dialog.tsx and the rows that use it

    web/src/ui/primitives/confirm-dialog.tsx, and its four clients, which share one flow of
    state ([open], [error], a pending call): JobItem (schedule/job-item.tsx), DraftRow
    (composer/drafts-list.tsx), ChannelCard (channels/channel-card.tsx) and AssetTile
    (media/asset-tile.tsx).  The dialog package renders its content while open and asks for
    [open = false] on its close buttons, the escape key and a press outside. *)
From S2P Require Import Prelude JsValue Ui Schema Format Platforms.

Local Open Scope js_scope.

(** ** The flow *)

Section Flow.
Context {E : Type}.

Inductive Act :=
  | OpenChange (next : bool)     (* the trigger, the close button, escape, press outside *)
  | Confirm                      (* onConfirm *)
  | Settled (o : outcome unit)   (* the awaited call *)
  | Emit (e : E).                (* the other buttons of the row *)

(** What a row shows and does.  [c_trigger] is [None] when the row offers no action. *)
Record Row := { c_row : list (node Act); c_trigger : option jstr; c_title : jstr;
  c_description : jstr; c_confirmLabel : jstr; c_call : E }.

Record St := { open : bool; error : option json; pending : bool }.
Definition init : St := {| open := false; error := None; pending := false |}.

Definition update (r : Row) (a : Act) (s : St) : St * list E :=
  match a with
  | OpenChange next =>
      ({| open := next; error := if next then error s else None; pending := pending s |}, [])
  | Confirm => ({| open := open s; error := None; pending := true |}, [c_call r])
  | Settled (inr _) => ({| open := false; error := error s; pending := false |}, [])
  | Settled (inl e) => ({| open := open s; error := Some (exn_message e); pending := false |}, [])
  | Emit e => (s, [e])
  end.

Definition error_alert (s : St) : list (node Act) :=
  Ui.alert (error s).

Definition ConfirmDialog (r : Row) (trigger : jstr) (s : St) : list (node Act) :=
  Btn trigger true (OpenChange true) ::
  when (open s)
    [Box "dialog"
       (text (c_title r) :: text (c_description r) :: error_alert s ++
        [Btn "Cancel" (negb (pending s)) (OpenChange false);
         Btn (if pending s then "Working…" else c_confirmLabel r) (negb (pending s)) Confirm])].

Definition view (r : Row) (s : St) : list (node Act) :=
  c_row r ++ match c_trigger r with Some t => ConfirmDialog r t s | None => [] end.

(** Escape and a press outside close an open dialog, pending or not. *)
Definition awaiting (s : St) (a : Act) : Prop :=
  match a with
  | Settled _ => pending s = true
  | OpenChange next => next = false /\ open s = true
  | _ => False
  end.

Definition row_component (r : Row) : component :=
  {| Ui.st := St; Ui.act := Act; Ui.eff := E; Ui.view := view r; Ui.awaiting := awaiting;
     Ui.update := update r |}.
End Flow.
Arguments Act : clear implicits. Arguments Row : clear implicits.

(** ** The rows *)

Inductive Call :=
  | CancelJob (id : jstr) | DeletePost (id : jstr) | EditPost (p : Post)
  | DisconnectChannel (id : jstr) | DeleteMedia (id : jstr).

Definition status_label (s : JobStatus) : jstr :=
  match s with
  | scheduled => "scheduled" | publishing => "publishing" | published => "published"
  | failed => "failed" | canceled => "canceled"
  end.

(** [x && ` - ${x}`] for an optional text. *)
Definition dash (x : option jstr) : jstr :=
  match x with Some m => if truthy m then " - " ++ m else [] | None => [] end.

(** schedule/job-item.tsx; [HHmm] formats a timestamp (the date package). *)
Definition JobItem (HHmm : jstr -> jstr) (job : Job) (channel : option Channel) : Row Call :=
  {| c_row :=
       [text (HHmm (j_run_at job));
        text ((match channel with Some c => atHandle (ch_handle c)
               | None => slice0 8 (j_channel_id job) end)
              ++ (if bool_decide (j_status job = failed) then dash (j_last_error job) else []));
        text (status_label (j_status job))];
     c_trigger := if bool_decide (j_status job = scheduled) then Some ("Cancel" : jstr) else None;
     c_title := "Cancel this scheduled post?";
     c_description := "It won't be published to "
       ++ (match channel with Some c => atHandle (ch_handle c) | None => "its channel" end)
       ++ ". The draft itself is kept.";
     c_confirmLabel := "Cancel job"; c_call := CancelJob (j_id job) |}.

(** composer/drafts-list.tsx; [localeDate] formats a timestamp. *)
Definition DraftRow (localeDate : jstr -> jstr) (post : Post) : Row Call :=
  let excerpt := match p_variants post with Some (v :: _) => v_body v | _ => [] end in
  {| c_row :=
       [text (if truthy excerpt then excerpt else "Saved post");
        text ((match p_variants post with
               | Some vs => shownat (length vs) ++ " channel"
                            ++ (if Nat.eqb (length vs) 1 then [] else "s") ++ " · "
               | None => [] end) ++ localeDate (p_created_at post));
        text (p_status post)]
       ++ when (p_status post =ₛ "draft") [Ui.Slot "ScheduleDialog"]
       ++ [Btn "Edit" true (Emit (EditPost post))];
     c_trigger := Some ("Delete" : jstr); c_title := "Delete this draft?";
     c_description := "The draft and its per-channel variants are removed. Scheduled jobs for it are not.";
     c_confirmLabel := "Delete"; c_call := DeletePost (p_id post) |}.

(** channels/channel-card.tsx *)
Definition STATUS (s : ChannelStatus) : jstr :=
  match s with ch_active => "Active" | ch_expired => "Expired" | ch_revoked => "Revoked" end.
Definition STATUS_HINT (s : ChannelStatus) : jstr :=
  match s with
  | ch_active => "This account is connected and ready to publish."
  | ch_expired => "Access expired - reconnect the account to keep publishing."
  | ch_revoked => "Access was revoked on the platform - reconnect to use it again."
  end.

Definition ChannelCard (channel : Channel) : Row Call :=
  {| c_row :=
       [text (ch_display_name channel);
        text (atHandle (ch_handle channel) ++ " · "
              ++ pi_label (Web.platformInfo (ch_platform channel)));
        Box "tooltip" [text (STATUS_HINT (ch_status channel)); text (STATUS (ch_status channel))]];
     c_trigger := Some ("Disconnect" : jstr);
     c_title := "Disconnect " ++ atHandle (ch_handle channel) ++ "?";
     c_description := "Scheduled posts targeting this account will fail to publish until it is reconnected.";
     c_confirmLabel := "Disconnect"; c_call := DisconnectChannel (ch_id channel) |}.

(** media/asset-tile.tsx; [download] is [mediaDownloadURL(workspaceId, -)]. *)
Definition kind_label (k : MediaKind) : jstr :=
  match k with image => "image" | gif => "gif" | video => "video" end.

Definition AssetTile (download : jstr -> jstr) (asset : Asset) : Row Call :=
  {| c_row :=
       [(if bool_decide (a_kind asset = video) then text "Video"
         else Box "img" [text (download (a_id asset));
                         text (kind_label (a_kind asset) ++ " asset (" ++ a_mime asset ++ ")")]);
        text (a_mime asset ++ " · " ++ formatBytes (a_bytes asset))];
     c_trigger := Some ("Delete " ++ kind_label (a_kind asset) ++ " asset");
     c_title := "Delete this asset?";
     c_description := "Posts already referencing it keep their copy, but it can't be attached to new posts.";
     c_confirmLabel := "Delete"; c_call := DeleteMedia (a_id asset) |}.

(** ** Lemmas *)

Section Facts.
Context {E : Type}.
Implicit Types (r : Row E) (s : St).

(** The row's own controls only emit: they neither open nor confirm. *)
Definition passive r : Prop := forall a, offers (c_row r) a -> exists e, a = Emit e.

Lemma offers_dialog r t s a :
  offers (ConfirmDialog r t s) a ->
  a = OpenChange true \/ (open s = true /\ pending s = false /\ (a = OpenChange false \/ a = Confirm)).
Proof.
  unfold ConfirmDialog. intros [[_ ->]|H]; [by left|]. right.
  apply offers_when in H as [Ho H]. split; [done|].
  destruct H as [H|H]; [|done]. rewrite offered_Box in H. destruct H as [H|[H|H]]; [done|done|].
  rewrite offers_app in H. destruct H as [H|H].
  - by apply offers_alert in H.
  - destruct H as [[H ->]|[[H ->]|H]]; [| |done]; apply negb_true_iff in H; auto.
Qed.

Lemma step_confirm r s es s' :
  passive r -> step (row_component r) s Confirm es s' ->
  open s = true /\ pending s = false /\ is_Some (c_trigger r).
Proof.
  intros Hp. inversion 1 as [a es' s'' H1|a es' s'' H1]; subst; [|done]. cbn in H1. unfold view in H1.
  rewrite offers_app in H1. destruct H1 as [H1|H1]; [by apply Hp in H1 as [e ?]|].
  destruct (c_trigger r) as [t|]; [|done]. apply offers_dialog in H1 as [H1|(H1 & H2 & _)]; [done|eauto].
Qed.

Definition confirms (tr : list (Act E * list E)) : nat :=
  length (keep (fun x => match x.1 with Confirm => true | _ => false end) tr).
Definition answers (tr : list (Act E * list E)) : nat :=
  length (keep (fun x => match x.1 with Settled _ => true | _ => false end) tr).

Lemma confirms_cons a es tr :
  confirms ((a, es) :: tr) = (match a with Confirm => 1 | _ => 0 end) + confirms tr.
Proof. unfold confirms. by destruct a. Qed.
Lemma answers_cons a es tr :
  answers ((a, es) :: tr) = (match a with Settled _ => 1 | _ => 0 end) + answers tr.
Proof. unfold answers. by destruct a. Qed.

Definition in_flight s : nat := if pending s then 1 else 0.

Lemma step_in_flight r s a es s' :
  passive r -> step (row_component r) s a es s' ->
  in_flight s' + (match a with Settled _ => 1 | _ => 0 end)
  = in_flight s + (match a with Confirm => 1 | _ => 0 end).
Proof.
  intros Hp Hs. assert (Hu : update r a s = (s', es)) by (by inversion Hs).
  destruct a as [next| |[e|[]]|e]; cbn in Hu; injection Hu as <- <-; unfold in_flight; cbn.
  - lia.
  - apply step_confirm in Hs as (_ & -> & _); [|done]. lia.
  - inversion Hs as [? ? ? H|? ? ? H]; subst.
    + cbn in H. unfold view in H. rewrite offers_app in H.
      destruct H as [H|H]; [by apply Hp in H as [? ?]|].
      destruct (c_trigger r); [|done]. apply offers_dialog in H as [H|(_ & _ & [H|H])]; done.
    + cbn in H. rewrite H. lia.
  - inversion Hs as [? ? ? H|? ? ? H]; subst.
    + cbn in H. unfold view in H. rewrite offers_app in H.
      destruct H as [H|H]; [by apply Hp in H as [? ?]|].
      destruct (c_trigger r); [|done]. apply offers_dialog in H as [H|(_ & _ & [H|H])]; done.
    + cbn in H. rewrite H. lia.
  - lia.
Qed.

Lemma steps_in_flight r s tr s' :
  passive r -> steps (row_component r) s tr s' ->
  in_flight s' + answers tr = in_flight s + confirms tr.
Proof.
  intros Hp Hrun. induction Hrun as [s|s a es s1 tr s2 Hs _ IH]; [done|].
  rewrite confirms_cons, answers_cons. pose proof (step_in_flight _ _ _ _ _ Hp Hs). lia.
Qed.

(** The calls other than those of the row's own buttons. *)
Lemma step_effects r s a es s' :
  step (row_component r) s a es s' ->
  es = match a with Confirm => [c_call r] | Emit e => [e] | _ => [] end.
Proof.
  intros Hs. assert (Hu : update r a s = (s', es)) by (by inversion Hs).
  destruct a as [next| |[e|[]]|e]; cbn in Hu; by injection Hu as <- <-.
Qed.

(** What a settled call does. *)
Lemma settled_outcome r s o :
  let s' := (update r (Settled o) s).1 in
  match o with
  | inr _ => open s' = false /\ pending s' = false
  | inl e => open s' = open s /\ pending s' = false /\ error s' = Some (exn_message e)
  end.
Proof. by destruct o. Qed.
End Facts.

Lemma job_passive HHmm job channel : passive (JobItem HHmm job channel).
Proof. intros a H. simpl in H. tauto. Qed.
Lemma draft_passive localeDate post : passive (DraftRow localeDate post).
Proof.
  intros a H. unfold DraftRow in H. cbn [c_row] in H. rewrite !offers_app in H.
  destruct H as [H|[H|[[_ ->]|H]]]; [simpl in H; tauto| |eauto|done].
  apply offers_when in H as [_ H]. simpl in H. tauto.
Qed.
Lemma card_passive channel : passive (ChannelCard channel).
Proof. intros a H. simpl in H. tauto. Qed.
Lemma tile_passive download asset : passive (AssetTile download asset).
Proof. intros a H. simpl in H. destruct (bool_decide _) in H; simpl in H; tauto. Qed.

(** A destructive call of a row is the one its dialog announces, made by confirming the
    open dialog; at most one is in flight. *)
Definition guarded (r : Row Call) : Prop :=
  forall tr s, steps (row_component r) init tr s ->
    confirms tr <= answers tr + 1
    /\ forall es s', step (row_component r) s Confirm es s' ->
         open s = true /\ pending s = false /\ es = [c_call r] /\ is_Some (c_trigger r).

Lemma passive_guarded r : passive r -> guarded r.
Proof.
  intros Hp tr s Hrun. split.
  - pose proof (steps_in_flight _ _ _ _ Hp Hrun) as H. unfold in_flight in H.
    destruct (pending s), (pending init); lia.
  - intros es s' Hs. destruct (step_confirm _ _ _ _ Hp Hs) as (H1 & H2 & H3).
    split_and!; [done|done|by apply (step_effects _ _ _ _ _ Hs)|done].
Qed.

(** ** Properties *)


(** how a confirmed call ends: on success the dialog closes; on failure it stays as it
    is, shows the error's message as an alert when it is open, and can be confirmed again;
    closing it clears the error. *)
Theorem confirm_settles r s t e
  (Ht : c_trigger r = Some t) (Ho : open s = true) (Hm : jtruthy (exn_message e) = true) :
  let failed := (update r (Settled (inl e)) s).1 in
  (shows_role "dialog" (c_row r) = false ->
     shows_role "dialog" (view (E:=Call) r (update r (Settled (inr tt)) s).1) = false)
  /\ shows_role "alert" (view r failed) = true
  /\ offers (view r failed) Confirm
  /\ error (update r (OpenChange false) failed).1 = None.
Proof.
  unfold view. rewrite Ht. cbn. rewrite Ho. split_and!.
  - intros H. rewrite shows_role_app, H. done.
  - rewrite shows_role_app. apply orb_true_iff. right. unfold error_alert. cbn. by rewrite Hm.
  - rewrite offers_app. right. right. left. apply offered_Box. right. right. rewrite offers_app.
    right. right. by left.
  - done.
Qed.

Lemma confirm_settles_witness :
  let r := ChannelCard {| ch_id := "c1"; ch_platform := "twitter"; ch_platform_account_id := "1";
    ch_handle := "@a"; ch_display_name := "A"; ch_status := ch_active; ch_connected_by := None;
    ch_created_at := [] |} in
  let s := {| open := true; error := None; pending := true |} in
  shows_role "alert" (view r (update r (Settled (inl (JsError "no"))) s).1) = true.
Proof.
  intros r s.
  exact (proj1 (proj2 (confirm_settles r s "Disconnect" (JsError "no") eq_refl eq_refl eq_refl))).
Defined.
