(* ===== verification/Schedule.v ===== *)
(** * Publishing a draft: schedule-dialog.tsx (web), publish-sheet.tsx (mobile) and the
    posting slots (slots-manager.tsx)

    The clock and the reading of local dates are the environment's: a publish time is either
    [NowPlus ms] or the instant an input denotes. *)
From S2P Require Import Prelude JsValue Ui Schema Format.

Local Open Scope js_scope.

Inductive Mode := now | slots | time.
#[export] Instance Mode_eq_dec : EqDecision Mode.
Proof. solve_decision. Defined.

(** [new Date(Date.now() + ms).toISOString()], or the ISO string of a chosen instant. *)
Inductive RunAt := NowPlus (ms : Z) | Instant (iso : jstr).

(** The variables of [useSchedulePost]. *)
Record Input := { in_postId : jstr; in_runAt : option RunAt; in_toSlots : option bool }.

(** What the alert under the form says: the message, and where to top up. *)
Definition alert_of {A} (hint : node A) (e : option Exn) : list (node A) :=
  match e with
  | Some x => [Box "alert" (Txt (exn_message x) ::
                 when (is_str (exn_code x) "insufficient_credits") [hint])]
  | None => []
  end.

Definition jobs_created (n : nat) : jstr :=
  shownat n ++ " job" ++ (if Nat.eqb n 1 then [] else "s") ++ " created. Track them on the ".

Module Dialog.
Section Dialog.
(** The props, the user's time zone and [new Date(when).toISOString()] ([None]: the
    RangeError of an invalid date). *)
Variable postId trigger timeZone : jstr.
Variable localISO : jstr -> option jstr.

Record St := { open : bool; mode : Mode; when_ : jstr; error : option Exn;
  scheduled : option nat; pending : bool }.

Definition init : St := {| open := false; mode := now; when_ := []; error := None;
  scheduled := None; pending := false |}.

Inductive Act :=
  | OpenChange (next : bool) | SetMode (m : Mode) | SetWhen (w : jstr) | Submit
  | Settled (o : outcome (list Job)).

Definition RangeError : Exn := JsError "Invalid time value".

(** The argument of [mutateAsync]; [None] when building it throws. *)
Definition input (s : St) : option Input :=
  match mode s with
  | slots => Some {| in_postId := postId; in_runAt := None; in_toSlots := Some true |}
  | now => Some {| in_postId := postId; in_runAt := Some (NowPlus 3000); in_toSlots := None |}
  | time => match localISO (when_ s) with
            | Some iso => Some {| in_postId := postId; in_runAt := Some (Instant iso); in_toSlots := None |}
            | None => None
            end
  end.

Definition update (a : Act) (s : St) : St * list Input :=
  match a with
  | OpenChange true =>
      ({| open := true; mode := mode s; when_ := when_ s; error := error s;
          scheduled := scheduled s; pending := pending s |}, [])
  | OpenChange false =>
      ({| open := false; mode := now; when_ := []; error := None; scheduled := None;
          pending := pending s |}, [])
  | SetMode m =>
      ({| open := open s; mode := m; when_ := when_ s; error := error s;
          scheduled := scheduled s; pending := pending s |}, [])
  | SetWhen w =>
      ({| open := open s; mode := mode s; when_ := w; error := error s;
          scheduled := scheduled s; pending := pending s |}, [])
  | Submit =>
      match input s with
      | Some i => ({| open := open s; mode := mode s; when_ := when_ s; error := None;
                      scheduled := scheduled s; pending := true |}, [i])
      | None => ({| open := open s; mode := mode s; when_ := when_ s; error := Some RangeError;
                    scheduled := scheduled s; pending := pending s |}, [])
      end
  | Settled (inr jobs) =>
      ({| open := open s; mode := mode s; when_ := when_ s; error := error s;
          scheduled := Some (length jobs); pending := false |}, [])
  | Settled (inl e) =>
      ({| open := open s; mode := mode s; when_ := when_ s; error := Some e;
          scheduled := scheduled s; pending := false |}, [])
  end.

Definition can_submit (s : St) : bool :=
  negb (pending s || (bool_decide (mode s = time) && negb (truthy (when_ s)))).

Definition option_row (s : St) (m : Mode) (title sub : jstr) : list (node Act) :=
  [Toggle "radio" title (bool_decide (mode s = m)) true (SetMode m); text sub].

Definition form (s : St) : list (node Act) :=
  text "When to publish" ::
  option_row s now "Publish now" "Goes out within seconds."
  ++ option_row s slots "Next open slots" "Use each channel's posting schedule."
  ++ option_row s time "Specific time" ("In your timezone (" ++ timeZone ++ ").")
  ++ when (bool_decide (mode s = time)) [Field "Publish at" (when_ s) true SetWhen]
  ++ alert_of (Anchor "Open Wallet" "/wallet") (error s)
  ++ [Btn "Cancel" (negb (pending s)) (OpenChange false);
      Btn (if pending s then "Working…" else if bool_decide (mode s = now) then "Publish now"
           else "Schedule") (can_submit s) Submit].

Definition done_view (n : nat) : list (node Act) :=
  [Box "status" [text (jobs_created n ++ "calendar."); Btn "Done" true (OpenChange false)]].

Definition view (s : St) : list (node Act) :=
  Btn trigger true (OpenChange true) ::
  when (open s)
    [Box "dialog"
      ([text "Publish post";
        text "Publish right away or pick a time. One job is created per channel."]
       ++ (match scheduled s with Some n => done_view n | None => form s end)
       ++ [Btn "Close" true (OpenChange false)])].

(** Escape and a press outside close the open dialog, pending or not. *)
Definition awaiting (s : St) (a : Act) : Prop :=
  match a with
  | Settled _ => pending s = true
  | OpenChange next => next = false /\ open s = true
  | _ => False
  end.

Definition component : component :=
  {| Ui.st := St; Ui.act := Act; Ui.eff := Input; Ui.view := view; Ui.awaiting := awaiting;
     Ui.update := update |}.
End Dialog.
End Dialog.

Module Sheet.
Section Sheet.
(** [iso t] is [when.toISOString()], [dateText]/[timeText] its locale formats; a date is its
    time value. *)
Variable postId timeZone : jstr.
Variable iso dateText timeText : Z -> jstr.

Inductive Picker := date_picker | time_picker.

Record St := { mode : Mode; when_ : Z; picker : option Picker; error : option Exn;
  scheduled : option nat; pending : bool }.

(** [opened] is [Date.now()] when the sheet is mounted. *)
Definition init (opened : Z) : St := {| mode := now; when_ := opened + 60 * 60 * 1000; picker := None;
  error := None; scheduled := None; pending := false |}.

Inductive Act :=
  | Close | SetMode (m : Mode) | SetPicker (p : Picker) | Picked (d : option Z) | Submit
  | Settled (o : outcome (list Job)).

Inductive Eff := OnClose | Schedule (i : Input).

Definition input (s : St) : Input :=
  match mode s with
  | slots => {| in_postId := postId; in_runAt := None; in_toSlots := Some true |}
  | now => {| in_postId := postId; in_runAt := Some (NowPlus 3000); in_toSlots := None |}
  | time => {| in_postId := postId; in_runAt := Some (Instant (iso (when_ s))); in_toSlots := None |}
  end.

Definition update (a : Act) (s : St) : St * list Eff :=
  match a with
  | Close =>
      ({| mode := now; when_ := when_ s; picker := None; error := None; scheduled := None;
          pending := pending s |}, [OnClose])
  | SetMode m =>
      ({| mode := m; when_ := when_ s; picker := picker s; error := error s;
          scheduled := scheduled s; pending := pending s |}, [])
  | SetPicker p =>
      ({| mode := mode s; when_ := when_ s; picker := Some p; error := error s;
          scheduled := scheduled s; pending := pending s |}, [])
  | Picked d =>
      ({| mode := mode s; when_ := match d with Some t => t | None => when_ s end; picker := None;
          error := error s; scheduled := scheduled s; pending := pending s |}, [])
  | Submit =>
      ({| mode := mode s; when_ := when_ s; picker := picker s; error := None;
          scheduled := scheduled s; pending := true |}, [Schedule (input s)])
  | Settled (inr jobs) =>
      ({| mode := mode s; when_ := when_ s; picker := picker s; error := error s;
          scheduled := Some (length jobs); pending := false |}, [])
  | Settled (inl e) =>
      ({| mode := mode s; when_ := when_ s; picker := picker s; error := Some e;
          scheduled := scheduled s; pending := false |}, [])
  end.

Definition option_row (s : St) (m : Mode) (title sub : jstr) : list (node Act) :=
  [Toggle "radio" title (bool_decide (mode s = m)) true (SetMode m); text sub].

Definition form (s : St) : list (node Act) :=
  option_row s now "Publish now" "Goes out within seconds."
  ++ option_row s slots "Next open slots" "Use each channel's posting schedule."
  ++ option_row s time "Specific time" ("In your timezone (" ++ timeZone ++ ").")
  ++ when (bool_decide (mode s = time))
       [Btn (dateText (when_ s)) true (SetPicker date_picker);
        Btn (timeText (when_ s)) true (SetPicker time_picker)]
  ++ (match picker s with Some _ => [Ui.Slot "DateTimePicker"] | None => [] end)
  ++ alert_of (text " Top up on the Wallet tab.") (error s)
  ++ [Btn "Cancel" true Close;
      Btn (if pending s then [] else if bool_decide (mode s = now) then "Publish now" else "Schedule")
        (negb (pending s)) Submit].

Definition view (s : St) : list (node Act) :=
  [Btn "backdrop" true Close; text "Publish post"]
  ++ match scheduled s with
     | Some n => [text (jobs_created n ++ "Calendar."); Btn "Done" true Close]
     | None => form s
     end.

(** The picker answers once; the back button asks to close. *)
Definition awaiting (s : St) (a : Act) : Prop :=
  match a with
  | Settled _ => pending s = true
  | Picked _ => is_Some (picker s)
  | Close => True
  | _ => False
  end.

Definition component : component :=
  {| Ui.st := St; Ui.act := Act; Ui.eff := Eff; Ui.view := view; Ui.awaiting := awaiting;
     Ui.update := update |}.
End Sheet.
End Sheet.

Module Slots.
Section Slots.
(** [Intl.supportedValuesOf("timeZone")] *)
Variable timeZones : list jstr.

Definition DAYS : list jstr :=
  ["Sunday"; "Monday"; "Tuesday"; "Wednesday"; "Thursday"; "Friday"; "Saturday"].

(** [slots] and [isPending] are those of [useSlots(workspaceId, channelId || undefined)]. *)
Record St := {
  workspaceId : jstr; channels : list Channel;                        (* props *)
  channelId : jstr; data : option (list Slot); loading : bool; day : Z; time_ : jstr;
  timezone : jstr; error : option json; creating : bool; removing : bool }.

(** The state of the first render; [tz] is the browser's zone. *)
Definition init (ws : jstr) (channels : list Channel) (tz : jstr) : St :=
  {| workspaceId := ws; channels := channels;
     channelId := match channels with c :: _ => ch_id c | [] => [] end; data := None;
     loading := true; day := 1; time_ := "09:00"; timezone := tz; error := None;
     creating := false; removing := false |}.

Inductive Act :=
  | SetChannel (id : jstr) | SetDay (d : Z) | SetTime (t : jstr) | SetZone (z : jstr)
  | Add | Remove (s : Slot)
  | Created (o : outcome Slot) | Removed (o : outcome unit)
  | Loaded (d : option (list Slot)) (p : bool) | NewProps (ws : jstr) (cs : list Channel).

(** The calls go to the workspace of the latest render. *)
Inductive Eff :=
  | CreateSlot (workspaceId : jstr) (r : SlotRequest)
  | DeleteSlot (workspaceId slotId channelId : jstr).

Definition upd (c : jstr) (d : Z) (t z : jstr) (e : option json) (cr rm : bool) (s : St) : St :=
  {| workspaceId := workspaceId s; channels := channels s;
     channelId := c; data := data s; loading := loading s; day := d; time_ := t; timezone := z;
     error := e; creating := cr; removing := rm |}.

Definition update (a : Act) (s : St) : St * list Eff :=
  match a with
  | SetChannel id => (upd id (day s) (time_ s) (timezone s) (error s) (creating s) (removing s) s, [])
  | SetDay d => (upd (channelId s) d (time_ s) (timezone s) (error s) (creating s) (removing s) s, [])
  | SetTime t => (upd (channelId s) (day s) t (timezone s) (error s) (creating s) (removing s) s, [])
  | SetZone z => (upd (channelId s) (day s) (time_ s) z (error s) (creating s) (removing s) s, [])
  | Add =>
      (upd (channelId s) (day s) (time_ s) (timezone s) None true (removing s) s,
       [CreateSlot (workspaceId s) {| sr_channel_id := channelId s; sr_day_of_week := day s;
                      sr_time_of_day := time_ s; sr_timezone := timezone s |}])
  | Created (inr _) =>
      (upd (channelId s) (day s) (time_ s) (timezone s) (error s) false (removing s) s, [])
  | Created (inl e) =>
      (upd (channelId s) (day s) (time_ s) (timezone s) (Some (exn_message e)) false (removing s) s, [])
  | Remove sl =>
      (upd (channelId s) (day s) (time_ s) (timezone s) (error s) (creating s) true s,
       [DeleteSlot (workspaceId s) (s_id sl) (s_channel_id sl)])
  | Removed _ =>
      (upd (channelId s) (day s) (time_ s) (timezone s) (error s) (creating s) false s, [])
  | Loaded d p =>
      ({| workspaceId := workspaceId s; channels := channels s;
          channelId := channelId s; data := d; loading := p; day := day s; time_ := time_ s;
          timezone := timezone s; error := error s; creating := creating s; removing := removing s |}, [])
  | NewProps ws cs =>
      ({| workspaceId := ws; channels := cs;
          channelId := channelId s; data := data s; loading := loading s; day := day s; time_ := time_ s;
          timezone := timezone s; error := error s; creating := creating s; removing := removing s |}, [])
  end.

(** [{DAYS[d]}] renders nothing out of range; in a template literal it is "undefined". *)
Definition day_name (d : Z) : option jstr := if (d <? 0)%Z then None else nth_error DAYS (Z.to_nat d).
Definition day_text (d : Z) : jstr := match day_name d with Some n => n | None => [] end.
Definition day_label (d : Z) : jstr := match day_name d with Some n => n | None => "undefined" end.

Definition slot_row (s : St) (sl : Slot) : list (node Act) :=
  [text (day_text (s_day_of_week sl) ++ " at " ++ s_time_of_day sl); text (s_timezone sl);
   Btn ("Delete " ++ day_label (s_day_of_week sl) ++ " " ++ s_time_of_day sl ++ " slot")
     (negb (removing s)) (Remove sl)].

Definition day_option (s : St) (i : nat) (d : jstr) : node Act :=
  Toggle "option" d (Z.eqb (day s) (Z.of_nat i)) true (SetDay (Z.of_nat i)).

Definition view (s : St) : list (node Act) :=
  [text "Posting slots"; text "Channel"]
  ++ map (fun c => Toggle "option" (atHandle (ch_handle c) ++ " (" ++ ch_platform c ++ ")")
                     (channelId s =ₛ ch_id c) true (SetChannel (ch_id c))) (channels s)
  ++ when (loading s) [text "Loading slots"]
  ++ match data s with
     | Some [] => [text "No slots yet for this channel."]
     | Some l => l ≫= slot_row s
     | None => []
     end
  ++ [text "Day"] ++ imap (day_option s) DAYS
  ++ [Field "Time" (time_ s) true SetTime; text "Timezone"]
  ++ map (fun tz => Toggle "option" tz (timezone s =ₛ tz) true (SetZone tz)) timeZones
  ++ [Btn (if creating s then "Adding…" else "Add slot")
        (negb (creating s || negb (truthy (channelId s)) || negb (truthy (time_ s)))) Add]
  ++ Ui.alert (error s).

Definition awaiting (s : St) (a : Act) : Prop :=
  match a with
  | Created _ => creating s = true
  | Removed _ => removing s = true
  | Loaded _ _ | NewProps _ _ => True
  | _ => False
  end.

Definition component : component :=
  {| Ui.st := St; Ui.act := Act; Ui.eff := Eff; Ui.view := view; Ui.awaiting := awaiting;
     Ui.update := update |}.
End Slots.
End Slots.

(** ** Lemmas *)

(** Either the exact time or the slots, never both nor none. *)
Definition exclusive (postId : jstr) (i : Input) : Prop :=
  in_postId i = postId
  /\ ((in_toSlots i = Some true /\ in_runAt i = None)
      \/ (in_toSlots i = None /\ exists r, in_runAt i = Some r)).

Lemma offers_alert_of {A} (hint : node A) e a :
  ~ offered hint a -> ~ offers (alert_of hint e) a.
Proof.
  unfold alert_of. intros Hh H. destruct e as [x|]; [|done]. destruct H as [H|H]; [|done].
  rewrite offered_Box in H. destruct H as [H|H]; [done|].
  apply offers_when in H as [_ [H|H]]; done.
Qed.

Section DialogFacts.
Variable postId trigger timeZone : jstr.
Variable localISO : jstr -> option jstr.
Abbreviation dialog := (Dialog.component postId trigger timeZone localISO).
Import Dialog.

Definition dialog_answer (a : Dialog.Act) : bool := match a with Settled _ => true | _ => false end.

Lemma offers_dialog_view s a :
  offers (Dialog.view trigger timeZone s) a ->
  match a with
  | Submit => scheduled s = None /\ pending s = false
  | Settled _ => False
  | SetMode _ | SetWhen _ => scheduled s = None
  | OpenChange _ => True
  end.
Proof.
  unfold Dialog.view. intros [[_ ->]|H]; [done|]. apply offers_when in H as [_ [H|H]]; [|done].
  rewrite offered_Box, !offers_app in H. destruct H as [H|[H|H]].
  - simpl in H. tauto.
  - destruct (scheduled s) as [n|].
    + destruct H as [H|H]; [|done]. rewrite offered_Box in H. destruct H as [H|[[_ ->]|H]]; done.
    + unfold form in H. cbn [offers] in H. rewrite !offers_app in H.
      destruct H as [H|[H|[H|[H|[H|[H|H]]]]]]; [done| | | | | |].
      * destruct H as [[_ ->]|[H|H]]; done.
      * destruct H as [[_ ->]|[H|H]]; done.
      * destruct H as [[_ ->]|[H|H]]; done.
      * apply offers_when in H as [_ [[_ [w ->]]|H]]; done.
      * apply offers_alert_of in H; [done|intros []].
      * destruct H as [[_ ->]|[[H ->]|H]]; [done| |done]. unfold can_submit in H.
        apply negb_true_iff, orb_false_iff in H as [H _]. done.
  - destruct H as [[_ ->]|H]; done.
Qed.

Lemma dialog_step s a es s' :
  step dialog s a es s' ->
  bit (pending s') + bit (dialog_answer a) = bit (pending s) + length es
  /\ Forall (exclusive postId) es
  /\ (is_Some (scheduled s) -> a <> OpenChange false -> es = [] /\ is_Some (scheduled s')).
Proof.
  intros Hs. assert (Hu : Dialog.update postId localISO a s = (s', es)) by (by inversion Hs).
  assert (Ha : match a with
               | Submit => scheduled s = None /\ pending s = false
               | Settled _ => pending s = true
               | _ => True end).
  { inversion Hs as [? ? ? H|? ? ? H]; subst.
    - apply offers_dialog_view in H. by destruct a.
    - destruct a; cbn in H; try done. }
  destruct a as [[]|m|w| |[e|jobs]]; cbn in Hu.
  - injection Hu as <- <-. cbn. split_and!; [lia|constructor|done].
  - injection Hu as <- <-. cbn. split_and!; [lia|constructor|done].
  - injection Hu as <- <-. cbn. split_and!; [lia|constructor|done].
  - injection Hu as <- <-. cbn. split_and!; [lia|constructor|done].
  - destruct Ha as [Hsch Hp].
    assert (Hx : forall i, input postId localISO s = Some i -> exclusive postId i).
    { intros i Hi. unfold input in Hi. destruct (mode s).
      - injection Hi as <-. split; [done|]. right. eauto.
      - injection Hi as <-. split; [done|]. by left.
      - destruct (localISO _); [|done]. injection Hi as <-. split; [done|]. right. eauto. }
    destruct (input postId localISO s) as [i|].
    + injection Hu as <- <-. cbn. rewrite Hp, Hsch. split_and!; [done| |by intros [? [=]]].
      apply Forall_singleton. by apply Hx.
    + injection Hu as <- <-. cbn. rewrite Hsch. split_and!; [lia|constructor|by intros [? [=]]].
  - injection Hu as <- <-. cbn. rewrite Ha. split_and!; [done|constructor|done].
  - injection Hu as <- <-. cbn. rewrite Ha. split_and!; [done|constructor|eauto].
Qed.

Lemma dialog_balanced : balanced dialog pending (fun _ => true) dialog_answer.
Proof.
  intros s a es s' Hs. destruct (dialog_step _ _ _ _ Hs) as (H & _).
  unfold count. rewrite keep_all by (by apply Forall_true). exact H.
Qed.
End DialogFacts.

Section SheetFacts.
Variable postId timeZone : jstr.
Variable iso dateText timeText : Z -> jstr.
Abbreviation sheet := (Sheet.component postId timeZone iso dateText timeText).
Import Sheet.

Definition sheet_answer (a : Sheet.Act) : bool := match a with Settled _ => true | _ => false end.
Definition is_schedule (e : Sheet.Eff) : bool := match e with Schedule _ => true | _ => false end.
Definition sheet_ok (e : Sheet.Eff) : Prop :=
  match e with Schedule i => exclusive postId i | OnClose => True end.

Lemma offers_sheet_view s a :
  offers (Sheet.view timeZone dateText timeText s) a ->
  match a with
  | Submit => scheduled s = None /\ pending s = false
  | Settled _ | Picked _ => False
  | SetMode _ | SetPicker _ => scheduled s = None
  | Close => True
  end.
Proof.
  unfold Sheet.view. rewrite offers_app. intros [H|H].
  { destruct H as [[_ ->]|[H|H]]; done. }
  destruct (scheduled s) as [n|].
  - destruct H as [H|[[_ ->]|H]]; done.
  - unfold form in H. rewrite !offers_app in H. destruct H as [H|[H|[H|[H|[H|[H|H]]]]]].
    + destruct H as [[_ ->]|[H|H]]; done.
    + destruct H as [[_ ->]|[H|H]]; done.
    + destruct H as [[_ ->]|[H|H]]; done.
    + apply offers_when in H as [_ [[_ ->]|[[_ ->]|H]]]; done.
    + destruct (picker s); [|done]. by destruct H.
    + apply offers_alert_of in H; [done|intros []].
    + destruct H as [[_ ->]|[[H ->]|H]]; [done| |done]. by apply negb_true_iff in H.
Qed.

Lemma sheet_step s a es s' :
  step sheet s a es s' ->
  bit (pending s') + bit (sheet_answer a) = bit (pending s) + count is_schedule es
  /\ Forall sheet_ok es
  /\ (is_Some (scheduled s) -> a <> Close -> count is_schedule es = 0 /\ is_Some (scheduled s')).
Proof.
  intros Hs. assert (Hu : Sheet.update postId iso a s = (s', es)) by (by inversion Hs).
  assert (Ha : match a with
               | Submit => scheduled s = None /\ pending s = false
               | Settled _ => pending s = true
               | _ => True end).
  { inversion Hs as [? ? ? H|? ? ? H]; subst.
    - apply offers_sheet_view in H. by destruct a.
    - destruct a; cbn in H; try done. }
  destruct a as [|m|p|d| |[e|jobs]]; cbn in Hu; injection Hu as <- <-; cbn.
  - split_and!; [lia|by repeat constructor|done].
  - split_and!; [lia|constructor|done].
  - split_and!; [lia|constructor|done].
  - split_and!; [lia|constructor|done].
  - destruct Ha as [Hsch Hp]. rewrite Hp, Hsch. split_and!; [done| |by intros [? [=]]].
    apply Forall_singleton. unfold sheet_ok, input. destruct (mode s); split; cbn; eauto.
  - rewrite Ha. split_and!; [done|constructor|done].
  - rewrite Ha. split_and!; [done|constructor|eauto].
Qed.

Lemma sheet_balanced : balanced sheet pending is_schedule sheet_answer.
Proof. intros s a es s' Hs. by destruct (sheet_step _ _ _ _ Hs) as (H & _). Qed.
End SheetFacts.

Section SlotsFacts.
Variable timeZones : list jstr.
Import Slots.

(** A slot the server can take: a day of the week, a time, one of the channels [seen]. *)
Definition slot_ok (seen : list Channel) (e : Slots.Eff) : Prop :=
  match e with
  | CreateSlot _ r =>
      (0 <= sr_day_of_week r <= 6)%Z /\ sr_time_of_day r <> []
      /\ exists c, c ∈ seen /\ sr_channel_id r = ch_id c
  | DeleteSlot _ _ _ => True
  end.

Definition slots_inv (seen : list Channel) (s : Slots.St) : Prop :=
  (0 <= day s <= 6)%Z /\ channels s ⊆ seen
  /\ (channelId s = [] \/ exists c, c ∈ seen /\ channelId s = ch_id c).

(** The channels an action brings. *)
Definition brings (a : Slots.Act) : list Channel := match a with NewProps _ cs => cs | _ => [] end.
Definition seen (cs : list Channel) (tr : list (Slots.Act * list Slots.Eff)) : list Channel :=
  cs ++ (tr ≫= fun x => brings x.1).

Lemma offers_slot_rows s l a : offers (l ≫= slot_row s) a -> exists sl, a = Remove sl.
Proof.
  induction l as [|sl l IH]; intros H; [done|].
  change (offers (slot_row s sl ++ (l ≫= slot_row s)) a) in H. rewrite offers_app in H.
  destruct H as [H|H]; [|by apply IH]. destruct H as [H|[H|[[_ ->]|H]]]; [done|done|eauto|done].
Qed.

Lemma offers_days s n l a :
  offers (imap (fun i => day_option s (n + i)) l) a ->
  exists i, a = SetDay (Z.of_nat i) /\ n <= i < n + length l.
Proof.
  revert n. induction l as [|d l IH]; intros n H; [done|].
  rewrite imap_cons in H. destruct H as [[_ ->]|H].
  - exists (n + 0). simpl. split; [done|lia].
  - rewrite (imap_ext _ (fun i => day_option s (S n + i))) in H.
    + destruct (IH _ H) as (i & -> & Hi). exists i. simpl. split; [done|lia].
    + intros i x _. cbn. unfold day_option. by replace (n + S i) with (S n + i) by lia.
Qed.

Lemma offers_slots_view s a :
  offers (Slots.view timeZones s) a ->
  match a with
  | SetChannel id => exists c, c ∈ channels s /\ id = ch_id c
  | SetDay d => (0 <= d <= 6)%Z
  | Add => channelId s <> [] /\ time_ s <> [] /\ creating s = false
  | Created _ | Removed _ | Loaded _ _ | NewProps _ _ => False
  | _ => True
  end.
Proof.
  unfold Slots.view. rewrite !offers_app. intros H.
  destruct H as [H|[H|[H|[H|[Hd|[H|[H|[H|[H|H]]]]]]]]].
  - simpl in H. tauto.
  - apply offers_map in H as (c & Hc & [_ ->]). eauto.
  - apply offers_when in H as [_ H]. simpl in H. tauto.
  - destruct (data s) as [[|sl l]|]; [simpl in H; tauto| |done].
    by apply offers_slot_rows in H as [? ->].
  - destruct Hd as [Hd|Hd]; done.
  - apply (offers_days s 0 DAYS) in H as (i & -> & Hi). simpl in Hi. lia.
  - destruct H as [[_ [t ->]]|[H|H]]; done.
  - by apply offers_map in H as (tz & _ & [_ ->]).
  - destruct H as [[H ->]|H]; [|done]. apply negb_true_iff in H.
    apply orb_false_iff in H as [[H1 H2]%orb_false_iff H3].
    apply negb_false_iff, truthy_true in H2, H3. done.
  - by apply offers_alert in H.
Qed.

Lemma slots_step cs s a es s' :
  slots_inv cs s -> step (Slots.component timeZones) s a es s' ->
  slots_inv (cs ++ brings a) s' /\ Forall (slot_ok cs) es.
Proof.
  intros (Hd & Hs & Hc) Hst. assert (Hu : Slots.update a s = (s', es)) by (by inversion Hst).
  assert (Ha : match a with
    | SetChannel id => exists c, c ∈ channels s /\ id = ch_id c
    | SetDay d => (0 <= d <= 6)%Z
    | Add => channelId s <> [] /\ time_ s <> []
    | _ => True end).
  { inversion Hst as [? ? ? H|? ? ? H]; subst.
    - apply offers_slots_view in H. destruct a; tauto.
    - by destruct a. }
  destruct a as [id|d|t|z| |sl|[e|o]|o|dt p|ws ncs]; cbn in Hu; injection Hu as <- <-; cbn;
    rewrite ?app_nil_r; try (split; [exact (conj Hd (conj Hs Hc))|constructor]; fail).
  - split; [|constructor]. split; [exact Hd|]. split; [exact Hs|]. right. destruct Ha as (c & Hin & ->).
    exists c. split; [by apply Hs|done].
  - split; [exact (conj Ha (conj Hs Hc))|constructor].
  - split; [exact (conj Hd (conj Hs Hc))|]. apply Forall_singleton. destruct Ha as [Hne Ht].
    split; [exact Hd|]. split; [exact Ht|]. destruct Hc as [Hc|Hc]; [done|exact Hc].
  - split; [exact (conj Hd (conj Hs Hc))|]. by apply Forall_singleton.
  - split; [|constructor]. split; [exact Hd|]. split; [set_solver|].
    destruct Hc as [Hc|(c & Hin & Hc)]; [by left|right]. exists c. set_solver.
Qed.

Lemma slot_ok_mono cs ds e : slot_ok cs e -> slot_ok (cs ++ ds) e.
Proof.
  destruct e as [ws r|]; [|done]. intros (H1 & H2 & c & Hc & H3).
  split; [done|]. split; [done|]. exists c. set_solver.
Qed.

Lemma slots_steps s tr s' :
  steps (Slots.component timeZones) s tr s' ->
  forall cs, slots_inv cs s -> Forall (slot_ok (seen cs tr)) (issued tr).
Proof.
  induction 1 as [s|s a es s1 tr s2 Hs Hss IH]; intros cs Hinv; [constructor|].
  destruct (slots_step _ _ _ _ _ Hinv Hs) as [Hinv' Hes]. apply Forall_app. split.
  - eapply Forall_impl; [exact Hes|]. intros e He. by apply slot_ok_mono.
  - specialize (IH _ Hinv'). unfold seen in *. simpl. by rewrite app_assoc.
Qed.

Lemma slots_inv_init ws cs tz : slots_inv cs (Slots.init ws cs tz).
Proof.
  unfold slots_inv. cbn. split; [lia|]. split; [done|]. destruct cs as [|c cs]; [by left|]. right. exists c.
  split; [|done]. apply elem_of_cons. by left.
Qed.

Lemma slot_ok_seen cs tr e :
  Forall (fun x => brings x.1 ⊆ cs) tr -> slot_ok (seen cs tr) e -> slot_ok cs e.
Proof.
  intros Hall. destruct e as [ws r|]; [|done]. intros (H1 & H2 & c & Hc & H3).
  split; [done|]. split; [done|]. exists c. split; [|done].
  apply elem_of_app in Hc as [Hc|Hc]; [done|].
  apply list_elem_of_bind in Hc as (x & Hc & Hx). rewrite Forall_forall in Hall.
  by apply (Hall x Hx).
Qed.
End SlotsFacts.

(** ** Properties *)

(** C7: publishing a draft, on the web: along any run of the dialog, every call schedules the
    dialog's own post either at one time or into the slots (never both, never neither), and
    no call is made while another is in flight; once the jobs are created, no further call
    can be made until the dialog is closed. *)
Theorem schedule_dialog_once postId trigger timeZone localISO tr s
  (Hrun : steps (Dialog.component postId trigger timeZone localISO) Dialog.init tr s) :
  Forall (exclusive postId) (issued tr)
  /\ length (issued tr) <= count dialog_answer (map fst tr) + 1
  /\ forall a es s', step (Dialog.component postId trigger timeZone localISO) s a es s' ->
       is_Some (Dialog.scheduled s) -> a <> Dialog.OpenChange false ->
       es = [] /\ is_Some (Dialog.scheduled s').
Proof.
  split_and!.
  - apply (steps_issued (Dialog.component postId trigger timeZone localISO) (fun _ => True)
             (exclusive postId)) in Hrun as [_ H]; [done| |done].
    intros s1 a es s2 _ Hs. split; [done|]. by apply dialog_step in Hs as (_ & H & _).
  - apply (one_at_a_time _ _ _ _ (dialog_balanced _ _ _ _)) in Hrun; [|done].
    unfold count at 1 in Hrun. rewrite keep_all in Hrun by (by apply Forall_true). exact Hrun.
  - intros a es s' Hs. by apply dialog_step in Hs as (_ & _ & H).
Qed.

Lemma schedule_dialog_once_witness :
  exists tr s, steps (Dialog.component "p1" "Publish" "UTC" (fun _ => None)) Dialog.init tr s
    /\ issued tr = [{| in_postId := "p1"; in_runAt := Some (NowPlus 3000); in_toSlots := None |}]
    /\ Forall (exclusive "p1") (issued tr).
Proof.
  assert (Hrun : exists s, steps (Dialog.component "p1" "Publish" "UTC" (fun _ => None)) Dialog.init
    [(Dialog.OpenChange true, []);
     (Dialog.Submit, [{| in_postId := "p1"; in_runAt := Some (NowPlus 3000); in_toSlots := None |}])] s).
  { eexists. eapply steps_cons; [eapply by_user; [|reflexivity]; pick|].
    eapply steps_cons; [eapply by_user; [|reflexivity]; pick|]. apply steps_refl. }
  destruct Hrun as [s Hrun]. eexists _, s. split; [exact Hrun|]. split; [reflexivity|].
  exact (proj1 (schedule_dialog_once _ _ _ _ _ _ Hrun)).
Defined.

(** the mobile sheet keeps the same promises: one call at a time, each for its own post
    and either at one time or into the slots; none after success until it is closed. *)
Theorem publish_sheet_once postId timeZone iso dateText timeText opened tr s
  (Hrun : steps (Sheet.component postId timeZone iso dateText timeText) (Sheet.init opened) tr s) :
  Forall (sheet_ok postId) (issued tr)
  /\ count is_schedule (issued tr) <= count sheet_answer (map fst tr) + 1
  /\ forall a es s', step (Sheet.component postId timeZone iso dateText timeText) s a es s' ->
       is_Some (Sheet.scheduled s) -> a <> Sheet.Close ->
       count is_schedule es = 0 /\ is_Some (Sheet.scheduled s').
Proof.
  split_and!.
  - apply (steps_issued (Sheet.component postId timeZone iso dateText timeText) (fun _ => True)
             (sheet_ok postId)) in Hrun as [_ H]; [done| |done].
    intros s1 a es s2 _ Hs. split; [done|]. by apply sheet_step in Hs as (_ & H & _).
  - by apply (one_at_a_time _ _ _ _ (sheet_balanced _ _ _ _ _)) in Hrun.
  - intros a es s' Hs. by apply sheet_step in Hs as (_ & _ & H).
Qed.

Lemma publish_sheet_once_witness :
  exists tr s, steps (Sheet.component "p1" "UTC" showZ showZ showZ) (Sheet.init 0) tr s
    /\ issued tr = [Sheet.Schedule {| in_postId := "p1"; in_runAt := Some (Instant "3600000");
                                      in_toSlots := None |}]
    /\ Forall (sheet_ok "p1") (issued tr).
Proof.
  assert (Hrun : exists s, steps (Sheet.component "p1" "UTC" showZ showZ showZ) (Sheet.init 0)
    [(Sheet.SetMode time, []);
     (Sheet.Submit, [Sheet.Schedule {| in_postId := "p1"; in_runAt := Some (Instant "3600000");
                                       in_toSlots := None |}])] s).
  { eexists. eapply steps_cons; [eapply by_user; [|reflexivity]; pick|].
    eapply steps_cons; [eapply by_user; [|reflexivity]; pick|]. apply steps_refl. }
  destruct Hrun as [s Hrun]. eexists _, s. split; [exact Hrun|]. split; [reflexivity|].
  exact (proj1 (publish_sheet_once _ _ _ _ _ _ _ _ Hrun)).
Defined.

(** every posting slot the manager asks to create, along any run, is on a day of the
    week, at a time that is set, and for a channel of one of the lists it was shown; while
    the list stays the same, for one of its channels. *)
Theorem created_slots_ok timeZones ws channels tz tr s
  (Hrun : steps (Slots.component timeZones) (Slots.init ws channels tz) tr s) :
  Forall (slot_ok (seen channels tr)) (issued tr)
  /\ (Forall (fun x => brings x.1 ⊆ channels) tr -> Forall (slot_ok channels) (issued tr)).
Proof.
  assert (H := slots_steps timeZones _ _ _ Hrun channels (slots_inv_init ws channels tz)).
  split; [done|]. intros Hsame. eapply Forall_impl; [exact H|].
  intros e He. by apply (slot_ok_seen _ tr).
Qed.

Definition slot_channel : Channel :=
  {| ch_id := "c1"; ch_platform := "twitter"; ch_platform_account_id := "1";
     ch_handle := "@a"; ch_display_name := "A"; ch_status := ch_active; ch_connected_by := None;
     ch_created_at := [] |}.

Definition slot_request : SlotRequest :=
  {| sr_channel_id := "c1"; sr_day_of_week := 1; sr_time_of_day := "09:00"; sr_timezone := "UTC" |}.

Lemma created_slots_ok_witness :
  Forall (slot_ok [slot_channel]) [Slots.CreateSlot "w1" slot_request].
Proof.
  assert (Hrun : exists s, steps (Slots.component []) (Slots.init "w1" [slot_channel] "UTC")
    [(Slots.Add, [Slots.CreateSlot "w1" slot_request])] s).
  { eexists. eapply steps_cons; [eapply by_user; [|reflexivity]; pick|]. apply steps_refl. }
  destruct Hrun as [s Hrun]. apply (proj2 (created_slots_ok _ _ _ _ _ _ Hrun)).
  repeat constructor. set_solver.
Defined.

(** the manager keeps its channel when its props change: shown another workspace's
    channels while mounted, it still offers "Add slot", and asks the new workspace for a slot
    of a channel that is not in the list it shows. *)
Theorem slots_stale_channel ws cs ws' cs' tz
  (Hc : match cs with c :: _ => truthy (ch_id c) = true /\ ch_id c ∉ map ch_id cs' | [] => False end) :
  exists tr s e, steps (Slots.component []) (Slots.init ws cs tz) tr s
    /\ issued tr = [Slots.CreateSlot ws' e]
    /\ map fst tr = [Slots.NewProps ws' cs'; Slots.Add]
    /\ Slots.channels s = cs' /\ sr_channel_id e ∉ map ch_id cs'.
Proof.
  destruct cs as [|c cs]; [done|]. destruct Hc as [Ht Hc].
  eexists [(Slots.NewProps ws' cs', []); (Slots.Add, _)], _, _. split.
  { eapply steps_cons; [apply by_env; [exact I|reflexivity]|].
    eapply steps_cons; [|apply steps_refl]. eapply by_user; [|reflexivity].
    match goal with |- offers (Ui.view _ ?st) _ =>
      change (offers (Slots.view [] st) Slots.Add) end.
    unfold Slots.view. rewrite !offers_app. do 8 right. left. left.
    cbn -[truthy]. by rewrite Ht. }
  split_and!; [reflexivity..|]. exact Hc.
Qed.

Lemma slots_stale_channel_witness :
  exists tr s e, steps (Slots.component []) (Slots.init "w1" [slot_channel] "UTC") tr s
    /\ issued tr = [Slots.CreateSlot "w2" e]
    /\ map fst tr = [Slots.NewProps "w2" []; Slots.Add]
    /\ Slots.channels s = [] /\ sr_channel_id e ∉ map ch_id [].
Proof. apply (slots_stale_channel "w1" [slot_channel] "w2" [] "UTC"). split; [done|]. set_solver. Defined.
