(* ===== verification/ComposerMobile.v ===== *)
(** * The mobile composer: mobile/src/features/compose/compose-screen.tsx

    One text for every channel.  The screen keeps its state across "New post" and "Edit":
    both only overwrite some of it. *)
From S2P Require Import Prelude JsValue Ui Schema Format Platforms Composer.

Local Open Scope js_scope.

Module Compose.
Section Compose.
(** [mediaSource(ws, id).uri] and [post.created_at] in the locale's format. *)
Variable mediaUri localeDate : jstr -> jstr.

Record St := {
  channels : list Channel;                   (* data of useChannels, [] until loaded *)
  costs : option (gmap jstr Z);              (* wallet?.publish_costs *)
  selected : list jstr; body : jstr; media : list MediaMeta; postId : option jstr;
  verdicts : option (list VariantValidation); error : option json;
  saving : option Saving;
  picking : nat;                             (* file pickers open *)
  uploads : nat; upload_pending : bool }.    (* calls in flight; [upload.isPending] *)

Definition init : St :=
  {| channels := []; costs := None; selected := []; body := []; media := []; postId := None;
     verdicts := None; error := None; saving := None; picking := 0; uploads := 0;
     upload_pending := false |}.

Inductive Act :=
  | Toggle_ (id : jstr) | EditBody (t : jstr) | RemoveMedia (id : jstr) | Attach | Save | Reset
  | OnEdit (p : Post)                                    (* from the drafts card *)
  | Picked (f : option json) | Uploaded (latest : bool) (o : outcome Asset)
  | PostSaved (o : outcome Post) | Validated (o : outcome (list VariantValidation))
  | NewChannels (cs : list Channel) | NewCosts (c : option (gmap jstr Z)).

Inductive Eff :=
  | PickMedia | UploadMedia (file : json)
  | CreatePost (vs : list VariantInput) | UpdatePost (id : jstr) (vs : list VariantInput)
  | ValidatePost (id : jstr).

Definition toMeta (a : Asset) : MediaMeta :=
  {| mm_media_id := a_id a; mm_kind := a_kind a; mm_mime := a_mime a; mm_bytes := a_bytes a |}.

(** [(e as { message?: string }).message ?? d] *)
Definition message_or (d : jstr) (e : Exn) : json :=
  match exn_message e with JUndef | JNull => JStr d | m => m end.

Definition selectedChannels (s : St) : list Channel :=
  omap (fun id => by_id (channels s) !! id) (selected s).

Definition info (c : Channel) : PlatformInfo := Mobile.platformInfo (ch_platform c).

Definition mobile_limit (c : Channel) : Z :=
  match pi_charLimit (info c) with Some l => l | None => MAX_SAFE_INTEGER end.

Definition charLimit (s : St) : option Z :=
  match selectedChannels s with
  | [] => None
  | c :: cs => Some (min_of (mobile_limit c) (map mobile_limit cs))
  end.

(** [undefined] without a selection or without any limit. *)
Definition remaining (s : St) : option Z :=
  match charLimit s with
  | Some l => if Z.eqb l MAX_SAFE_INTEGER then None else Some (l - Z.of_nat (length (body s)))%Z
  | None => None
  end.

Definition mediaRequiredBy (s : St) : list jstr :=
  dedupe (map (fun c => pi_label (info c)) (keep (fun c => flag (pi_requiresMedia (info c))) (selectedChannels s))).

Definition missingMedia (s : St) : bool :=
  match mediaRequiredBy s, media s with _ :: _, [] => true | _, _ => false end.

Definition save_variants (s : St) : list VariantInput :=
  map (fun id => {| vi_channel_id := id; vi_body := Some (body s);
                    vi_media := match media s with [] => None | m => Some m end |}) (selected s).

Definition upd_edit (sel : list jstr) (b : jstr) (m : list MediaMeta) (id : option jstr)
    (v : option (list VariantValidation)) (e : option json) (s : St) : St :=
  {| channels := channels s; costs := costs s; selected := sel; body := b; media := m; postId := id;
     verdicts := v; error := e; saving := saving s; picking := picking s; uploads := uploads s;
     upload_pending := upload_pending s |}.
Definition upd_calls (sv : option Saving) (p u : nat) (up : bool) (s : St) : St :=
  {| channels := channels s; costs := costs s; selected := selected s; body := body s;
     media := media s; postId := postId s; verdicts := verdicts s; error := error s;
     saving := sv; picking := p; uploads := u; upload_pending := up |}.
Definition upd_data (cs : list Channel) (c : option (gmap jstr Z)) (s : St) : St :=
  {| channels := cs; costs := c; selected := selected s; body := body s;
     media := media s; postId := postId s; verdicts := verdicts s; error := error s;
     saving := saving s; picking := picking s; uploads := uploads s;
     upload_pending := upload_pending s |}.

Definition set_error (e : option json) (s : St) : St :=
  upd_edit (selected s) (body s) (media s) (postId s) (verdicts s) e s.

Definition update (a : Act) (s : St) : St * list Eff :=
  match a with
  | Toggle_ id => (upd_edit (toggle id (selected s)) (body s) (media s) (postId s) None (error s) s, [])
  | EditBody t => (upd_edit (selected s) t (media s) (postId s) None (error s) s, [])
  | RemoveMedia id =>
      (upd_edit (selected s) (body s) (keep (fun m => negb (mm_media_id m =ₛ id)) (media s))
         (postId s) (verdicts s) (error s) s, [])
  | Attach =>
      (upd_calls (saving s) (S (picking s)) (uploads s) (upload_pending s) (set_error None s),
       [PickMedia])
  | Picked None => (upd_calls (saving s) (pred (picking s)) (uploads s) (upload_pending s) s, [])
  | Picked (Some f) =>
      (upd_calls (saving s) (pred (picking s)) (S (uploads s)) true s, [UploadMedia f])
  | Uploaded latest o =>
      let s1 := match o with
        | inr asset => upd_edit (selected s) (body s) (media s ++ [toMeta asset]) (postId s)
                         (verdicts s) (error s) s
        | inl e => set_error (Some (message_or "Upload failed." e)) s
        end in
      (upd_calls (saving s) (picking s) (pred (uploads s))
         (if latest then false else upload_pending s) s1, [])
  | Save =>
      (upd_calls (Some SavingPost) (picking s) (uploads s) (upload_pending s)
         (upd_edit (selected s) (body s) (media s) (postId s) None None s),
       [match postId s with
        | Some i => if truthy i then UpdatePost i (save_variants s) else CreatePost (save_variants s)
        | None => CreatePost (save_variants s)
        end])
  | PostSaved (inr post) =>
      (upd_calls (Some ValidatingPost) (picking s) (uploads s) (upload_pending s)
         (upd_edit (selected s) (body s) (media s) (Some (p_id post)) (verdicts s) (error s) s),
       [ValidatePost (p_id post)])
  | Validated (inr vs) =>
      (upd_calls None (picking s) (uploads s) (upload_pending s)
         (upd_edit (selected s) (body s) (media s) (postId s) (Some vs) (error s) s), [])
  | PostSaved (inl e) | Validated (inl e) =>
      (upd_calls None (picking s) (uploads s) (upload_pending s)
         (set_error (Some (message_or "Save failed." e)) s), [])
  | Reset => (upd_edit [] [] [] None None None s, [])
  | OnEdit p =>
      let vs := variants_of (Some p) in
      (upd_edit (map v_channel_id vs) (match vs with v :: _ => v_body v | [] => [] end)
         (match vs with v :: _ => match v_media v with Some m => m | None => [] end | [] => [] end)
         (Some (p_id p)) None (error s) s, [])
  | NewChannels cs => (upd_data cs (costs s) s, [])
  | NewCosts c => (upd_data (channels s) c s, [])
  end.

(** ** View *)

(** A button is inert while it is loading, and then shows a spinner instead of its label. *)
Definition button {A} (label : jstr) (disabled loading : bool) (a : A) : node A :=
  Btn (if loading then [] else label) (negb (disabled || loading)) a.

Definition has_post (s : St) : bool := match postId s with Some i => truthy i | None => false end.

Definition chips (s : St) : list (node Act) :=
  map (fun c => Toggle "checkbox" ("@" ++ ch_handle c) (is_in (ch_id c) (selected s))
                  (bool_decide (ch_status c = ch_active)) (Toggle_ (ch_id c))) (channels s).

Definition counter (s : St) : list (node Act) :=
  match remaining s with
  | None => []
  | Some r => [text (if (r <? 0)%Z then showZ (- r) ++ " over" else showZ r ++ " left")]
  end.

Definition thumb (m : MediaMeta) : list (node Act) :=
  [(if bool_decide (mm_kind m = video) then text "video" else text (mediaUri (mm_media_id m)));
   Btn "Remove attachment" true (RemoveMedia (mm_media_id m))].

Definition xCost (s : St) : option Z :=
  match costs s with
  | None => None
  | Some c =>
      if bool_decide (is_Some (firstURL (body s))) then tier_cost c "twitter_url"
      else match media s with
           | _ :: _ => tier_cost c "twitter_media"
           | [] => c !! ("twitter" : jstr)
           end
  end.

Definition cost_notice (s : St) : list (node Act) :=
  match xCost s with
  | Some c =>
      when (existsb (fun ch => flag (pi_payPerUse (info ch))) (selectedChannels s) && (0 <? c)%Z)
        [text ("Publishing to X costs " ++ showZ c ++ " credits per channel for "
               ++ (if bool_decide (is_Some (firstURL (body s))) then "link posts"
                   else match media s with _ :: _ => "media posts" | [] => "plain posts" end)
               ++ ". Other platforms are free.")]
  | None => []
  end.

Definition verdict_rows (s : St) : list (node Act) :=
  match verdicts s with
  | None => []
  | Some vs =>
      text "Draft saved" ::
      map (fun v => Box "listitem"
        [text (if vv_valid v then "Ready" else "Needs changes");
         text ((match by_id (channels s) !! vv_channel_id v with
                | Some c => "@" ++ ch_handle c | None => slice0 8 (vv_channel_id v) end)
               ++ match vv_message v with
                  | Some m => if negb (vv_valid v) && truthy m then " - " ++ m else []
                  | None => [] end)]) vs
  end.

Definition busy (s : St) : bool := bool_decide (is_Some (saving s)).
Definition blocked (s : St) : bool :=
  match selected s with [] => true | _ => false end || negb (truthy (trim (body s))) || missingMedia s.

Definition view (s : St) : list (node Act) :=
  [text "Compose"]
  ++ when (has_post s) [button "New post" false false Reset]
  ++ [text "Publish to"]
  ++ when (match channels s with [] => true | _ => false end)
       [text "Connect a channel first on the Channels tab."]
  ++ chips s
  ++ [text "Post text"] ++ counter s
  ++ [Field "Post text" (body s) true EditBody]
  ++ (media s ≫= thumb)
  ++ [button "Add media" false (upload_pending s) Attach; text "Preview"; Ui.Slot "PostPreview"]
  ++ cost_notice s
  ++ when (missingMedia s)
       [text (join " and " (mediaRequiredBy s)
              ++ " need an image or video. Attach media or deselect.")]
  ++ Ui.alert (error s)
  ++ verdict_rows s
  ++ [button (if has_post s then "Update draft" else "Save draft") (blocked s) (busy s) Save;
      Ui.Slot "DraftsCard"].

Definition awaiting (s : St) (a : Act) : Prop :=
  match a with
  | Picked _ => picking s > 0
  | Uploaded latest _ => uploads s > 0 /\ (latest = false -> uploads s > 1)
  | PostSaved _ => saving s = Some SavingPost
  | Validated _ => saving s = Some ValidatingPost
  | OnEdit _ | NewChannels _ | NewCosts _ => True
  | _ => False
  end.

Definition component : Ui.component :=
  {| Ui.st := St; Ui.act := Act; Ui.eff := Eff; Ui.view := view; Ui.awaiting := awaiting;
     Ui.update := update |}.
End Compose.
End Compose.

(** The drafts below the composer. *)
Module Drafts.
Section Drafts.
Variable localeDate : jstr -> jstr.

Record St := { posts : option (list Post); pending : bool; publishing : option jstr;
  asking : option jstr }.   (* the native delete alert in front, for a post *)

Inductive Act :=
  | Edit (p : Post) | Publish (id : jstr) | ClosePublish | AskDelete (id : jstr)
  | CancelDelete | ConfirmDelete | Loaded (ps : option (list Post)) (p : bool).

Inductive Eff := OnEdit (p : Post) | DeletePost (id : jstr).

Definition upd (pub ask : option jstr) (s : St) : St :=
  {| posts := posts s; pending := pending s; publishing := pub; asking := ask |}.

Definition update (a : Act) (s : St) : St * list Eff :=
  match a with
  | Edit p => (s, [OnEdit p])
  | Publish id => (upd (Some id) (asking s) s, [])
  | ClosePublish => (upd None (asking s) s, [])
  | AskDelete id => (upd (publishing s) (Some id) s, [])
  | CancelDelete => (upd (publishing s) None s, [])
  | ConfirmDelete =>
      (upd (publishing s) None s, match asking s with Some id => [DeletePost id] | None => [] end)
  | Loaded ps p => ({| posts := ps; pending := p; publishing := publishing s; asking := asking s |}, [])
  end.

Definition excerpt (p : Post) : jstr :=
  match variants_of (Some p) with
  | v :: _ => if truthy (v_body v) then v_body v else "Saved post"
  | [] => "Saved post"
  end.

Definition row (p : Post) : list (node Act) :=
  [Btn (excerpt p ++ " " ++ p_status p ++ " · " ++ localeDate (p_created_at p)) true (Edit p)]
  ++ when (p_status p =ₛ "draft") [Btn "Publish" true (Publish (p_id p))]
  ++ [Btn "Delete" true (AskDelete (p_id p))].

Definition alert (s : St) : list (node Act) :=
  match asking s with
  | None => []
  | Some _ => [Box "alertdialog" [text "Delete this draft?";
                 text "This removes the draft and its variants.";
                 Btn "Cancel" true CancelDelete; Btn "Delete" true ConfirmDelete]]
  end.

(** The native alert is modal: nothing behind it can be pressed. *)
Definition view (s : St) : list (node Act) :=
  match asking s with
  | Some _ => alert s
  | None =>
      [text "Your posts"] ++ when (pending s) [text "loading"]
      ++ match posts s with
         | Some [] => [text "Nothing saved yet."]
         | Some ps => ps ≫= row
         | None => []
         end
      ++ match publishing s with Some _ => [Ui.Slot "PublishSheet"] | None => [] end
  end.

Definition awaiting (s : St) (a : Act) : Prop :=
  match a with
  | ClosePublish => is_Some (publishing s)
  | Loaded _ _ => True
  | _ => False
  end.

Definition component : Ui.component :=
  {| Ui.st := St; Ui.act := Act; Ui.eff := Eff; Ui.view := view; Ui.awaiting := awaiting;
     Ui.update := update |}.
End Drafts.
End Drafts.

(** ** Lemmas *)

Section ComposeFacts.
Variable mediaUri : jstr -> jstr.
Import Compose.
Abbreviation compose := (Compose.component mediaUri).

Lemma offers_thumbs l a : offers (l ≫= thumb mediaUri) a -> exists id, a = RemoveMedia id.
Proof.
  induction l as [|m l IH]; intros H; [done|].
  change (offers (thumb mediaUri m ++ (l ≫= thumb mediaUri)) a) in H. rewrite offers_app in H.
  destruct H as [H|H]; [|by apply IH]. unfold thumb in H.
  destruct (bool_decide _) in H; destruct H as [H|[[_ ->]|H]]; try done; eauto.
Qed.

(** What the controls of the screen can do. *)
Lemma offers_compose s a :
  offers (Compose.view mediaUri s) a ->
  match a with
  | Save => blocked s = false /\ saving s = None
  | Attach => upload_pending s = false
  | Reset => has_post s = true
  | Toggle_ _ | EditBody _ | RemoveMedia _ => True
  | _ => False
  end.
Proof.
  unfold Compose.view. rewrite !offers_app. intros H.
  destruct H as [H|[H|[H|[H|[H|[H|[H|[H|[H|[H|[H|[H|[H|[H|H]]]]]]]]]]]]]].
  - simpl in H. tauto.
  - apply offers_when in H as [Hp [[_ ->]|H]]; done.
  - simpl in H. tauto.
  - apply offers_when in H as [_ H]. simpl in H. tauto.
  - by apply offers_map in H as (c & _ & [_ ->]).
  - simpl in H. tauto.
  - unfold counter in H. destruct (remaining s); simpl in H; tauto.
  - destruct H as [[_ [t ->]]|H]; done.
  - by apply offers_thumbs in H as [id ->].
  - destruct H as [[H ->]|[H|[H|H]]]; try done. by apply negb_true_iff in H.
  - unfold cost_notice in H. destruct (xCost s); [|done]. apply offers_when in H as [_ H].
    simpl in H. tauto.
  - apply offers_when in H as [_ H]. simpl in H. tauto.
  - by apply offers_alert in H.
  - unfold verdict_rows in H. destruct (verdicts s) as [vs|]; [|done]. destruct H as [H|H]; [done|].
    apply offers_map in H as (v & _ & H). simpl in H. tauto.
  - destruct H as [[H ->]|[H|H]]; try done. apply negb_true_iff, orb_false_iff in H as [H1 H2].
    split; [done|]. unfold busy in H2. destruct (saving s); [|done].
    apply bool_decide_eq_false in H2. destruct H2. eauto.
Qed.

Lemma missing_media s c :
  missingMedia s = false -> c ∈ selectedChannels s -> flag (pi_requiresMedia (info c)) = true ->
  media s <> [].
Proof.
  unfold missingMedia. intros Hm Hc Hf He. rewrite He in Hm.
  destruct (mediaRequiredBy s) as [|x l] eqn:E; [|done].
  unfold mediaRequiredBy in E. apply dedupe_nil in E.
  assert (Hin : c ∈ keep (fun c => flag (pi_requiresMedia (info c))) (selectedChannels s)) by (by apply keep_In).
  destruct (keep _ _); [by apply elem_of_nil in Hin|done].
Qed.

Lemma step_compose_save s es s' :
  step compose s Save es s' ->
  blocked s = false /\ saving s = None
  /\ (es = [CreatePost (save_variants s)] \/ exists id, es = [UpdatePost id (save_variants s)]).
Proof.
  intros Hs. assert (Hu : Compose.update Save s = (s', es)) by (by inversion Hs).
  assert (Ho : blocked s = false /\ saving s = None).
  { inversion Hs as [? ? ? H|? ? ? H]; subst; [by apply offers_compose in H|done]. }
  destruct Ho as [H1 H2]. split_and!; [done..|]. cbn in Hu. injection Hu as _ <-.
  destruct (postId s) as [i|]; [destruct (truthy i)|]; eauto.
Qed.
(** *** The target of the saves *)

(** Nothing makes another post the target; the server answers an update with its post. *)
Definition stays (id : jstr) (a : Compose.Act) : Prop :=
  match a with OnEdit _ | Reset => False | PostSaved (inr q) => p_id q = id | _ => True end.
Definition targets (id : jstr) (e : Compose.Eff) : Prop :=
  match e with CreatePost _ => False | UpdatePost i _ => i = id | _ => True end.

Lemma step_target id s a es s' :
  truthy id = true -> postId s = Some id -> step compose s a es s' -> stays id a ->
  postId s' = Some id /\ Forall (targets id) es.
Proof.
  intros Ht Hp Hs Ha. assert (Hu : Compose.update a s = (s', es)) by (by inversion Hs).
  destruct a as [i|t|i| | | |p|[f|]|l [e|x]|[e|q]|[e|vs]|cs|c]; try done; cbn in Hu;
    injection Hu as <- <-; try (split; [exact Hp|constructor]; fail).
  - split; [exact Hp|]. by apply Forall_singleton.
  - split; [exact Hp|]. rewrite Hp, Ht. by apply Forall_singleton.
  - split; [exact Hp|]. by apply Forall_singleton.
  - cbn in Ha. split; [by cbn; rewrite Ha|]. by apply Forall_singleton.
Qed.

Lemma steps_target id s tr s' :
  truthy id = true -> steps compose s tr s' -> postId s = Some id ->
  Forall (fun x => stays id x.1) tr -> postId s' = Some id /\ Forall (targets id) (issued tr).
Proof.
  intros Ht Hrun. induction Hrun as [s|s a es s1 tr s2 Hs _ IH]; intros Hp Hk; [by split|].
  apply Forall_cons in Hk as [Ha Hk]. destruct (step_target _ _ _ _ _ Ht Hp Hs Ha) as [Hp' He].
  destruct (IH Hp' Hk) as [H1 H2]. split; [done|]. apply Forall_app. by split.
Qed.
End ComposeFacts.

(** ** Properties *)


Definition ig_channel : Channel :=
  {| ch_id := "c2"; ch_platform := "instagram"; ch_platform_account_id := "1"; ch_handle := "b";
     ch_display_name := "B"; ch_status := ch_active; ch_connected_by := None; ch_created_at := [] |}.

(** A screen with the X channel selected and a text. *)
Definition x_screen : Compose.St :=
  Compose.upd_data [x_channel] None
    (Compose.upd_edit ["c1"] "hi" [] None None None Compose.init).


(** the web composer has no such guard: with only an Instagram channel selected and no
    media it offers the save, and sends a text-only post to a platform that rejects it. *)
Theorem web_saves_without_media :
  exists tr s, steps Composer.component (Composer.init [ig_channel] None) tr s
    /\ flag (pi_requiresMedia (Web.platformInfo (ch_platform ig_channel))) = true
    /\ issued tr = [Composer.CreatePost [{| vi_channel_id := "c2"; vi_body := Some ("hi" : jstr);
                                            vi_media := None |}]].
Proof.
  eexists _, _. split; [|split].
  - eapply steps_cons; [eapply (by_user Composer.component _ (ToggleChannel "c2")); [pick|reflexivity]|].
    eapply steps_cons; [eapply (by_user Composer.component _ (EditMaster "hi")); [pick|reflexivity]|].
    eapply steps_cons; [eapply (by_user Composer.component _ Save); [pick|reflexivity]|].
    apply steps_refl.
  - reflexivity.
  - reflexivity.
Qed.

Definition old_post : Post :=
  {| p_id := "old"; p_workspace_id := "w1"; p_author_user_id := None; p_status := "draft";
     p_created_at := []; p_variants := None |}.

(** editing a draft on mobile starts from the row of the list, which has no variants:
    whatever was being composed is replaced by an empty text, no channel and no media, while
    the draft stays the target: until another draft or "New post" is picked, along any run,
    every save replaces the variants of that draft by what was entered since. *)
Theorem mobile_edit_clears mediaUri s p tr s2
  (Hv : p_variants p = None) (Ht : truthy (p_id p) = true) (Hn : Compose.saving s = None)
  (Hrun : steps (Compose.component mediaUri) (Compose.update (Compose.OnEdit p) s).1 tr s2)
  (Hk : Forall (fun x => stays (p_id p) x.1) tr) :
  let s1 := (Compose.update (Compose.OnEdit p) s).1 in
  Compose.body s1 = [] /\ Compose.selected s1 = [] /\ Compose.media s1 = []
  /\ Compose.postId s2 = Some (p_id p) /\ Forall (targets (p_id p)) (issued tr).
Proof.
  cbn. rewrite Hv. split_and!; try done; by apply (steps_target mediaUri (p_id p) _ _ _ Ht Hrun).
Qed.

Lemma mobile_edit_clears_witness :
  exists s2, steps (Compose.component (fun i => i)) (Compose.update (Compose.OnEdit old_post) x_screen).1
      [(Compose.EditBody "new", []); (Compose.Toggle_ "c1", []);
       (Compose.Save, [Compose.UpdatePost "old" [{| vi_channel_id := "c1"; vi_body := Some ("new" : jstr);
                                                    vi_media := None |}]])] s2
    /\ Compose.body (Compose.update (Compose.OnEdit old_post) x_screen).1 = [].
Proof.
  assert (Hrun : exists s2, steps (Compose.component (fun i => i)) (Compose.update (Compose.OnEdit old_post) x_screen).1
      [(Compose.EditBody "new", []); (Compose.Toggle_ "c1", []);
       (Compose.Save, [Compose.UpdatePost "old" [{| vi_channel_id := "c1"; vi_body := Some ("new" : jstr);
                                                    vi_media := None |}]])] s2).
  { eexists.
    eapply steps_cons; [eapply (by_user (Compose.component _) _ (Compose.EditBody "new")); [pick|reflexivity]|].
    eapply steps_cons; [eapply (by_user (Compose.component _) _ (Compose.Toggle_ "c1")); [pick|reflexivity]|].
    eapply steps_cons; [eapply (by_user (Compose.component _) _ Compose.Save); [pick|reflexivity]|].
    apply steps_refl. }
  destruct Hrun as [s2 Hrun]. exists s2. split; [exact Hrun|].
  apply (mobile_edit_clears _ x_screen old_post _ _ eq_refl eq_refl eq_refl Hrun).
  repeat (apply List.Forall_cons || apply List.Forall_nil); exact I.
Defined.

(** "New post" does not forget a save in flight: pressed while an update of a post is
    pending, the answer makes that post the target again, and the new text then overwrites
    it instead of creating a post. *)
Theorem mobile_reset_race :
  exists tr s s0,
    Compose.postId s0 = Some ("old" : jstr) /\ Compose.saving s0 = Some SavingPost
    /\ steps (Compose.component (fun i => i)) s0 tr s
    /\ map fst tr = [Compose.Reset; Compose.PostSaved (inr old_post); Compose.Validated (inr []);
                     Compose.Toggle_ "c1"; Compose.EditBody "new"; Compose.Save]
    /\ issued tr = [Compose.ValidatePost "old";
                    Compose.UpdatePost "old" [{| vi_channel_id := "c1"; vi_body := Some ("new" : jstr);
                                                 vi_media := None |}]].
Proof.
  set (s0 := Compose.upd_calls (Some SavingPost) 0 0 false
    (Compose.upd_data [x_channel] None
      (Compose.upd_edit ["c1"] "hi" [] (Some ("old" : jstr)) None None Compose.init))).
  eexists _, _, s0. split; [done|]. split; [done|]. split; [|split].
  - eapply steps_cons; [eapply (by_user (Compose.component _) _ Compose.Reset); [pick|reflexivity]|].
    eapply steps_cons; [eapply (by_env (Compose.component _) _ (Compose.PostSaved (inr old_post))); [done|reflexivity]|].
    eapply steps_cons; [eapply (by_env (Compose.component _) _ (Compose.Validated (inr []))); [done|reflexivity]|].
    eapply steps_cons; [eapply (by_user (Compose.component _) _ (Compose.Toggle_ "c1")); [pick|reflexivity]|].
    eapply steps_cons; [eapply (by_user (Compose.component _) _ (Compose.EditBody "new")); [pick|reflexivity]|].
    eapply steps_cons; [eapply (by_user (Compose.component _) _ Compose.Save); [pick|reflexivity]|].
    apply steps_refl.
  - reflexivity.
  - reflexivity.
Qed.
