(* ===== verification/ComposerParts.v ===== *)
(** * The parts around the web composer: web/src/features/composer/

    media-attach.tsx, utm-preview.tsx, compose-screen.tsx, drafts-list.tsx (the list) and
    post-preview.tsx. *)
From S2P Require Import Prelude JsValue Ui Schema Format Platforms.
From S2P Require Composer.

Local Open Scope js_scope.

(** ** media-attach.tsx *)

Module Attach.
Section Attach.
(** [mediaDownloadURL(workspaceId, -)] *)
Variable download : jstr -> jstr.

Definition toMeta (a : Asset) : MediaMeta :=
  {| mm_media_id := a_id a; mm_kind := a_kind a; mm_mime := a_mime a; mm_bytes := a_bytes a |}.

Record St := { attached : list MediaMeta;        (* prop *)
  open : bool; assets : option (list Asset); loading : bool }.

Definition init (m : list MediaMeta) : St :=
  {| attached := m; open := false; assets := None; loading := true |}.

Inductive Act :=
  | SetOpen (b : bool) | Pick (a : Asset) | Remove (id : jstr)
  | NewAttached (m : list MediaMeta) | Loaded (as_ : option (list Asset)) (p : bool).

Inductive Eff := OnChange (m : list MediaMeta).

Definition is_attached (id : jstr) (m : list MediaMeta) : bool :=
  existsb (fun x => mm_media_id x =ₛ id) m.

Definition update (a : Act) (s : St) : St * list Eff :=
  match a with
  | SetOpen b => ({| attached := attached s; open := b; assets := assets s; loading := loading s |}, [])
  | Pick asset =>
      ({| attached := attached s; open := false; assets := assets s; loading := loading s |},
       if negb (is_attached (a_id asset) (attached s))
       then [OnChange (attached s ++ [toMeta asset])] else [])
  | Remove id => (s, [OnChange (keep (fun x => negb (mm_media_id x =ₛ id)) (attached s))])
  | NewAttached m => ({| attached := m; open := open s; assets := assets s; loading := loading s |}, [])
  | Loaded l p => ({| attached := attached s; open := open s; assets := l; loading := p |}, [])
  end.

Definition kind_text (k : MediaKind) : jstr :=
  match k with image => "image" | gif => "gif" | video => "video" end.

Definition chip (m : MediaMeta) : list (node Act) :=
  [text (kind_text (mm_kind m) ++ " · " ++ formatBytes (mm_bytes m));
   Btn ("Remove attached " ++ kind_text (mm_kind m)) true (Remove (mm_media_id m))].

Definition asset_item (a : Asset) : node Act :=
  Box "listitem"
    [(if bool_decide (a_kind a = video) then text "Video"
      else Box "img" [text (download (a_id a)); text (kind_text (a_kind a) ++ " (" ++ a_mime a ++ ")")]);
     Btn (a_mime a ++ " · " ++ formatBytes (a_bytes a)) true (Pick a)].

Definition picker (s : St) : list (node Act) :=
  [text "Attach media";
   text "Pick from this workspace's library. Upload new files on the Media page."]
  ++ when (loading s) [text "Loading media"]
  ++ match assets s with
     | Some [] => [text "The library is empty";
                   text "Upload images, GIFs or videos on the Media page first."]
     | Some l => map asset_item l
     | None => []
     end
  ++ [Btn "Close media picker" true (SetOpen false)].

Definition view (s : St) : list (node Act) :=
  (attached s ≫= chip) ++ [Btn "Attach media" true (SetOpen true)]
  ++ when (open s) [Box "dialog" (picker s)].

Definition awaiting (s : St) (a : Act) : Prop :=
  match a with
  | NewAttached _ | Loaded _ _ => True
  | SetOpen b => b = false /\ open s = true
  | _ => False
  end.

Definition component : Ui.component :=
  {| Ui.st := St; Ui.act := Act; Ui.eff := Eff; Ui.view := view; Ui.awaiting := awaiting;
     Ui.update := update |}.
End Attach.
End Attach.

(** ** utm-preview.tsx *)

Module Utm.
Record St := { text_ : jstr;                      (* prop *)
  source : jstr; campaign : jstr; result : option jstr; error : option json; pending : bool }.

Definition init (t : jstr) : St :=
  {| text_ := t; source := "postal"; campaign := []; result := None; error := None; pending := false |}.

Inductive Act :=
  | SetSource (v : jstr) | SetCampaign (v : jstr) | Run | Settled (o : outcome jstr) | NewText (t : jstr).

(** [preview.mutateAsync({ text, utm })] *)
Inductive Eff := Preview (text : jstr) (utm : list (jstr * jstr)).

(** [if (source) utm.utm_source = source; if (campaign) utm.utm_campaign = campaign] *)
Definition utm_of (s : St) : list (jstr * jstr) :=
  (if truthy (source s) then [("utm_source" : jstr, source s)] else [])
  ++ (if truthy (campaign s) then [("utm_campaign" : jstr, campaign s)] else []).

Definition upd (r : option jstr) (e : option json) (p : bool) (s : St) : St :=
  {| text_ := text_ s; source := source s; campaign := campaign s; result := r; error := e; pending := p |}.

Definition update (a : Act) (s : St) : St * list Eff :=
  match a with
  | SetSource v =>
      ({| text_ := text_ s; source := v; campaign := campaign s; result := result s;
          error := error s; pending := pending s |}, [])
  | SetCampaign v =>
      ({| text_ := text_ s; source := source s; campaign := v; result := result s;
          error := error s; pending := pending s |}, [])
  | Run => (upd (result s) None true s, [Preview (text_ s) (utm_of s)])
  | Settled (inr r) => (upd (Some r) (error s) false s, [])
  | Settled (inl e) => (upd (result s) (Some (exn_message e)) false s, [])
  | NewText t =>
      ({| text_ := t; source := source s; campaign := campaign s; result := result s;
          error := error s; pending := pending s |}, [])
  end.

Definition view (s : St) : list (node Act) :=
  [text "UTM link tagging"; text "optional";
   text "Links in your post get these parameters appended so visits show up in analytics.";
   Field "utm_source" (source s) true SetSource;
   Field "utm_campaign" (campaign s) true SetCampaign;
   Btn (if pending s then "Previewing…" else "Preview tagged links")
     (negb (pending s || negb (truthy (trim (text_ s))))) Run]
  ++ Ui.alert (error s)
  ++ match result s with Some r => [text r] | None => [] end.

Definition awaiting (s : St) (a : Act) : Prop :=
  match a with Settled _ => pending s = true | NewText _ => True | _ => False end.

Definition component : Ui.component :=
  {| Ui.st := St; Ui.act := Act; Ui.eff := Eff; Ui.view := view; Ui.awaiting := awaiting;
     Ui.update := update |}.
End Utm.

(** ** compose-screen.tsx and the list of drafts-list.tsx *)

(** The answer of a query, as a hook shows it. *)
Record Data (A : Type) := { d_data : option A; d_pending : bool; d_error : bool }.
Arguments d_data {_} _. Arguments d_pending {_} _. Arguments d_error {_} _.

Definition DraftsList {A} (q : Data (list Post)) : list (node A) :=
  if d_pending q then [text "Loading posts"]
  else if d_error q then [Box "alert" [text "Couldn't load posts. Please try again."]]
  else match d_data q with
  | None | Some [] => [text "Nothing saved yet - your drafts land here."]
  | Some ps => map (fun p => Ui.Slot ("DraftRow " ++ p_id p)) ps
  end.

Module Screen.
(** The workspace, the queries [useChannels(active?.id)] and
    [usePost(active?.id, editingId ?? undefined)], and the edited post. *)
Record St := { active : option jstr; channels : Data (list Channel);
  editingId : option jstr; detail : Data Post }.

Inductive Act := NewPost | OnEdit (p : Post)
  | NewWorkspace (w : option jstr) | NewChannels (c : Data (list Channel)) | NewDetail (d : Data Post).

Definition editing (s : St) : bool := match editingId s with Some i => truthy i | None => false end.

Definition upd (e : option jstr) (s : St) : St :=
  {| active := active s; channels := channels s; editingId := e; detail := detail s |}.

Definition update (a : Act) (s : St) : St * list unit :=
  match a with
  | NewPost => (upd None s, [])
  | OnEdit p => (upd (Some (p_id p)) s, [])
  | NewWorkspace w =>
      ({| active := w; channels := channels s; editingId := editingId s; detail := detail s |}, [])
  | NewChannels c =>
      ({| active := active s; channels := c; editingId := editingId s; detail := detail s |}, [])
  | NewDetail d =>
      ({| active := active s; channels := channels s; editingId := editingId s; detail := d |}, [])
  end.

(** What the screen mounts: nothing, or a composer under a key with its props. *)
Definition composer_of (s : St) : option (jstr * (list Channel * option Post)) :=
  match active s, d_data (channels s) with
  | Some _, Some (c :: cs) =>
      if d_pending (channels s) then None
      else if editing s && d_pending (detail s) then None
      else Some (match editingId s with Some i => i | None => "new" end,
                 (c :: cs, if editing s then d_data (detail s) else None))
  | _, _ => None
  end.

Definition view (s : St) : list (node Act) :=
  if match active s with None => true | _ => false end || d_pending (channels s)
  then [text "Loading composer"]
  else match d_data (channels s) with
  | None | Some [] =>
      [text "Connect a channel first";
       text "Posts are written once and published to the channels you pick - connect a social account to start composing.";
       Anchor "Go to Channels" "/channels"]
  | Some _ =>
      when (editing s) [text "Editing a saved draft."; Btn "New post" true NewPost]
      ++ (if editing s && d_pending (detail s) then [text "Loading draft"] else [Ui.Slot "Composer"])
      ++ [text "Your posts"; Ui.Slot "DraftsList"]
  end.

(** A mounted composer starts from its props. *)
Definition mount (s : St) : option Composer.St :=
  match composer_of s with
  | Some (_, (cs, initial)) => Some (Composer.init cs initial)
  | None => None
  end.
End Screen.

(** ** post-preview.tsx *)

Section Preview.
(** [new URL(url).hostname] ([None] when it throws), and [mediaDownloadURL]. *)
Variable hostname : jstr -> option jstr.
Variable download : jstr -> jstr.

Definition XMediaGrid {A} (media : list MediaMeta) : list (node A) :=
  map (fun m => if bool_decide (mm_kind m = video) then text "video"
                else Box "img" [text (download (mm_media_id m)); text "attached media"])
    (take 4 media).

(** [hostname.replace(/^www\./, "")], or the whole text when it is not a URL. *)
Definition domain_of (url : jstr) : jstr :=
  match hostname url with
  | Some h => if startsWith h "www." then drop 4 h else h
  | None => url
  end.

Definition XLinkCard {A} (preview : option LinkPreview) (isError : bool) (url : jstr) : list (node A) :=
  if isError then []
  else match preview with
       | Some p => when (truthy (lp_image p)) [Box "img" [text (lp_image p)]]
       | None => [] end
       ++ [text (domain_of url);
           text (match preview with
                 | Some p => if truthy (lp_title p) then lp_title p else url | None => url end)]
       ++ match preview with
          | Some p => when (truthy (lp_description p)) [text (lp_description p)]
          | None => [] end.

(** The link the card is for: only without media. *)
Definition link_of (body : jstr) (media : list MediaMeta) : option jstr :=
  match media with [] => firstURL body | _ => None end.

(** [(display_name || handle || "?").replace("@", "").charAt(0)] *)
Definition initial_of (c : Channel) : jstr :=
  charAt0 (remove_first 64
    (if truthy (ch_display_name c) then ch_display_name c
     else if truthy (ch_handle c) then ch_handle c else "?")).

Definition XPreview {A} (c : Channel) (body : jstr) (media : list MediaMeta)
    (preview : option LinkPreview) (isError : bool) : list (node A) :=
  [text ("Preview of how this looks on " ++ pi_label (Web.platformInfo (ch_platform c)));
   text (initial_of c); text (ch_display_name c); text (atHandle (ch_handle c) ++ " · now");
   text (if truthy body then body else "Your post text...")]
  ++ XMediaGrid media
  ++ match link_of body media with
     | Some url => when (truthy url) (XLinkCard preview isError url)
     | None => [] end.

Definition PostPreview {A} (channel : option Channel) (body : jstr) (media : list MediaMeta)
    (preview : option LinkPreview) (isError : bool) : list (node A) :=
  match channel with
  | None => []
  | Some c =>
      [text "Preview";
       text ("A close approximation of how this post renders on "
             ++ pi_label (Web.platformInfo (ch_platform c))
             ++ ". Final layout can differ slightly per device.")]
      ++ if ch_platform c =ₛ "twitter" then XPreview c body media preview isError
         else [text (ch_display_name c); text body]
  end.
End Preview.

(** ** Lemmas *)

Section AttachFacts.
Variable download : jstr -> jstr.
Import Attach.

Definition media_ids (m : list MediaMeta) : list jstr := map mm_media_id m.

(** What a change may be. *)
Definition change_ok (e : Attach.Eff) : Prop :=
  match e with OnChange m => NoDup (media_ids m) end.

Lemma is_attached_spec id m : is_attached id m = true <-> id ∈ media_ids m.
Proof.
  unfold is_attached, media_ids. induction m as [|x m IH]; simpl.
  - rewrite elem_of_nil. by split.
  - rewrite orb_true_iff, jeq_true, IH, elem_of_cons. naive_solver.
Qed.

Lemma media_ids_keep p m : NoDup (media_ids m) -> NoDup (media_ids (keep p m)).
Proof.
  unfold media_ids. induction m as [|x m IH]; simpl; [done|].
  intros [Hx Hnd]%NoDup_cons. destruct (p x); [|by apply IH]. simpl. apply NoDup_cons.
  split; [|by apply IH]. intros (y & Hy & Hin)%list_elem_of_fmap. apply Hx.
  apply list_elem_of_fmap. exists y. split; [done|]. by apply keep_In in Hin as [? _].
Qed.

Lemma media_ids_snoc m a :
  NoDup (media_ids m) -> is_attached (a_id a) m = false -> NoDup (media_ids (m ++ [toMeta a])).
Proof.
  intros Hnd Ha. unfold media_ids in *. rewrite map_app. apply NoDup_app. split; [done|].
  split; [|apply NoDup_singleton]. intros x Hx ->%list_elem_of_singleton.
  apply is_attached_spec in Hx. cbn in Hx. congruence.
Qed.

Lemma attach_step s a es s' :
  NoDup (media_ids (attached s)) -> step (Attach.component download) s a es s' ->
  Forall change_ok es
  /\ (match a with NewAttached m => NoDup (media_ids m) | _ => True end -> NoDup (media_ids (attached s'))).
Proof.
  intros Hnd Hs. assert (Hu : Attach.update a s = (s', es)) by (by inversion Hs).
  destruct a as [b|asset|id|m|l p]; cbn in Hu; injection Hu as <- <-; cbn.
  - by split.
  - split; [|done]. destruct (is_attached (a_id asset) (attached s)) eqn:E; [constructor|].
    apply Forall_singleton. by apply media_ids_snoc.
  - split; [|done]. apply Forall_singleton. by apply media_ids_keep.
  - split; [constructor|done].
  - by split.
Qed.
End AttachFacts.

(** ** Properties *)

(** an asset is attached at most once: as long as the parent gives back lists without
    repetition (it gives back the list of the last change), every list of attachments the
    picker hands over, along any run, has each asset once. *)
Theorem attachments_nodup download m0 tr s
  (H0 : NoDup (media_ids m0))
  (Hprops : Forall (fun x => match x.1 with Attach.NewAttached m => NoDup (media_ids m) | _ => True end) tr)
  (Hrun : steps (Attach.component download) (Attach.init m0) tr s) :
  Forall change_ok (issued tr).
Proof.
  remember (Attach.init m0) as s0 eqn:E.
  assert (Hs0 : NoDup (media_ids (Attach.attached s0))) by (by subst). clear E H0.
  induction Hrun as [s|s a es s1 tr s2 Hs Hrun IH]; [constructor|].
  apply Forall_cons in Hprops as [Ha Hprops].
  destruct (attach_step download s a es s1 Hs0 Hs) as [Hes Hs1].
  unfold issued. simpl. apply Forall_app. split; [done|]. apply IH; [done|by apply Hs1].
Qed.

Definition asset1 : Asset :=
  {| a_id := "a1"; a_workspace_id := "w1"; a_kind := image; a_mime := "image/png"; a_width := 1;
     a_height := 1; a_duration_ms := 0; a_bytes := 10; a_status := "ready"; a_created_at := [] |}.

Lemma attachments_nodup_witness :
  Forall change_ok [Attach.OnChange [Attach.toMeta asset1]].
Proof.
  assert (Hrun : exists s, steps (Attach.component (fun i => i)) (Attach.init [])
    [(Attach.Loaded (Some [asset1]) false, []); (Attach.SetOpen true, []);
     (Attach.Pick asset1, [Attach.OnChange [Attach.toMeta asset1]])] s).
  { eexists. eapply steps_cons; [eapply by_env; [exact I|reflexivity]|].
    eapply steps_cons; [eapply by_user; [|reflexivity]; pick|].
    eapply steps_cons; [eapply by_user; [|reflexivity]; pick|]. apply steps_refl. }
  destruct Hrun as [s Hrun]. refine (attachments_nodup (fun i => i) [] _ s _ _ Hrun).
  - constructor.
  - repeat constructor.
Defined.

(** what the compose screen mounts: without an edited post, or while its detail loads,
    nothing of another post; once the detail is there, a composer that targets that post and
    holds its variants; but when the detail cannot be loaded, a blank composer without a
    target, whose save would create a new post. *)
Theorem compose_screen_mounts s c cs w
  (Ha : Screen.active s = Some w) (Hp : d_pending (Screen.channels s) = false)
  (Hc : d_data (Screen.channels s) = Some (c :: cs)) :
  match Screen.editingId s with
  | Some id =>
      truthy id = true ->
      if d_pending (Screen.detail s) then Screen.mount s = None
      else exists st, Screen.mount s = Some st
        /\ match d_data (Screen.detail s) with
           | Some p => Composer.postId st = Some (p_id p)
                       /\ Composer.selected (Composer.state st)
                          = map v_channel_id (Composer.variants_of (Some p))
           | None => Composer.postId st = None /\ Composer.masterBody (Composer.state st) = []
           end
  | None => Screen.mount s = Some (Composer.init (c :: cs) None)
  end.
Proof.
  unfold Screen.mount, Screen.composer_of, Screen.editing. rewrite Ha, Hc, Hp.
  destruct (Screen.editingId s) as [id|]; [|done]. intros Ht. rewrite Ht. cbn [andb].
  destruct (d_pending (Screen.detail s)); [done|]. eexists. split; [done|].
  by destruct (d_data (Screen.detail s)).
Qed.

Lemma compose_screen_mounts_witness :
  let c := {| ch_id := "c1"; ch_platform := "twitter"; ch_platform_account_id := "1";
    ch_handle := "@a"; ch_display_name := "A"; ch_status := ch_active; ch_connected_by := None;
    ch_created_at := [] |} in
  let s := {| Screen.active := Some ("w1" : jstr);
              Screen.channels := {| d_data := Some [c]; d_pending := false; d_error := false |};
              Screen.editingId := Some ("p1" : jstr);
              Screen.detail := {| d_data := None; d_pending := false; d_error := true |} |} in
  exists st, Screen.mount s = Some st /\ Composer.postId st = None
    /\ Composer.masterBody (Composer.state st) = [].
Proof.
  intros c s. exact (compose_screen_mounts s c [] "w1" eq_refl eq_refl eq_refl eq_refl).
Defined.
