(* ===== verification/Security.v ===== *)
(** * The content security policy of the web app: web/src/proxy.ts

    [proxy] runs before every page: it draws a nonce, builds the policy and sets it on the
    request passed on and on the response.  The theorems read the header the way a browser
    does (directives at the semicolons, their values at the spaces) and find the directives
    of the source, with a nonce that identifies the random identifier it was drawn from. *)
From S2P Require Import Prelude JsValue.
From Stdlib Require Import Zify ZifyN ZifyBool.

Local Open Scope js_scope.

(** ** btoa *)

(** A digit of base 64. *)
Definition b64 (n : N) : N :=
  if (n <? 26)%N then n + 65
  else if (n <? 52)%N then n + 71
  else if (n <? 62)%N then n - 4
  else if N.eqb n 62 then 43 else 47.

(** Three octets make four digits; the last group is padded with [=]. *)
Fixpoint base64 (s : jstr) : jstr :=
  match s with
  | a :: b :: c :: s' =>
      b64 (a / 4) :: b64 ((a mod 4) * 16 + b / 16) :: b64 ((b mod 16) * 4 + c / 64)
      :: b64 (c mod 64) :: base64 s'
  | [a; b] => [b64 (a / 4); b64 ((a mod 4) * 16 + b / 16); b64 ((b mod 16) * 4); 61]
  | [a] => [b64 (a / 4); b64 ((a mod 4) * 16); 61; 61]
  | [] => []
  end%N.

(** [None] is the InvalidCharacterError raised on a code unit above 255. *)
Definition btoa (s : jstr) : option jstr :=
  if forallb (fun c => (c <? 256)%N) s then Some (base64 s) else None.

(** ** proxy *)

(** The headers passed on to the page and those of the response, under lower-case names. *)
Record Headers := { h_request : gmap jstr jstr; h_response : gmap jstr jstr }.

Definition csp (nonce : jstr) (isDev : bool) : jstr :=
  join "; " ([
    "default-src 'self'" : jstr;
    "script-src 'self' 'nonce-" ++ nonce ++ "' 'strict-dynamic'"
      ++ (if isDev then " 'unsafe-eval'" else []);
    "style-src 'self' 'unsafe-inline'";
    "img-src 'self' blob: data:";
    "font-src 'self'";
    "connect-src 'self'" ++ (if isDev then " ws: wss:" else []);
    "object-src 'none'";
    "base-uri 'self'";
    "form-action 'self'";
    "frame-ancestors 'none'";
    "frame-src 'none'";
    "manifest-src 'self'"]
    ++ (if isDev then [] else ["upgrade-insecure-requests" : jstr])).

(** [uuid] is what [crypto.randomUUID()] returned, [headers] those of the request. *)
Definition proxy (uuid : jstr) (isDev : bool) (headers : gmap jstr jstr) : option Headers :=
  match btoa uuid with
  | Some nonce =>
      Some {| h_request := <["content-security-policy" : jstr := csp nonce isDev]>
                             (<["x-nonce" : jstr := nonce]> headers);
              h_response := {["content-security-policy" : jstr := csp nonce isDev]} |}
  | None => None
  end.

(** ** How a browser reads the policy *)

Fixpoint split_on (sep : N) (s : jstr) : list jstr :=
  match s with
  | [] => [[]]
  | c :: s' =>
      if N.eqb c sep then [] :: split_on sep s'
      else match split_on sep s' with w :: l => (c :: w) :: l | [] => [[c]] end
  end.

(** The words of a directive: its name, then its values. *)
Definition words (s : jstr) : list jstr := keep truthy (split_on 32 s).

Definition parse_csp (s : jstr) : list (list jstr) :=
  keep (fun d => match d with [] => false | _ => true end) (map words (split_on 59 s)).

(** The directives of the source, as words. *)
Definition directives (nonce : jstr) (isDev : bool) : list (list jstr) :=
  [["default-src" : jstr; "'self'"];
   ["script-src"; "'self'"; "'nonce-" ++ nonce ++ "'"; "'strict-dynamic'"]
     ++ (if isDev then ["'unsafe-eval'" : jstr] else []);
   ["style-src"; "'self'"; "'unsafe-inline'"];
   ["img-src"; "'self'"; "blob:"; "data:"];
   ["font-src"; "'self'"];
   ["connect-src"; "'self'"] ++ (if isDev then ["ws:" : jstr; "wss:"] else []);
   ["object-src"; "'none'"];
   ["base-uri"; "'self'"];
   ["form-action"; "'self'"];
   ["frame-ancestors"; "'none'"];
   ["frame-src"; "'none'"];
   ["manifest-src"; "'self'"]]
  ++ (if isDev then [] else [["upgrade-insecure-requests" : jstr]]).

(** ** Lemmas *)

(** *** base 64 *)

Ltac Zify.zify_post_hook ::= Z.to_euclidean_division_equations.

Definition unb64 (c : N) : N :=
  if (c <? 48)%N then (if N.eqb c 43 then 62 else 63)
  else if (c <? 58)%N then c + 4
  else if (c <? 91)%N then c - 65 else c - 71.

Ltac by_cases :=
  repeat match goal with |- context [if ?b then _ else _] => destruct b eqn:? end.

Lemma unb64_b64 n : (n < 64)%N -> unb64 (b64 n) = n.
Proof.
  intros Hn. unfold b64. by_cases; unfold unb64; by_cases; lia.
Qed.

(** The digits and the padding. *)
Definition b64_char (c : N) : Prop :=
  (43 <= c <= 122)%N /\ c <> 59%N /\ c <> 39%N.

Lemma b64_range n : (n < 64)%N -> b64_char (b64 n) /\ b64 n <> 61%N.
Proof.
  intros Hn. unfold b64_char, b64. by_cases; lia.
Qed.

(** The decoder: groups of four digits. *)
Fixpoint atob (s : jstr) : jstr :=
  match s with
  | w :: x :: y :: z :: s' =>
      let (w, x) := (unb64 w, unb64 x) in
      (w * 4 + x / 16)%N ::
      if N.eqb y 61 then []
      else ((x mod 16) * 16 + unb64 y / 4)%N ::
        if N.eqb z 61 then [] else ((unb64 y mod 4) * 64 + unb64 z)%N :: atob s'
  | _ => []
  end.

(** Induction by groups of three. *)
Lemma triples_ind {A} (P : list A -> Prop) :
  P [] -> (forall a, P [a]) -> (forall a b, P [a; b]) ->
  (forall a b c l, P l -> P (a :: b :: c :: l)) -> forall l, P l.
Proof.
  intros H0 H1 H2 H3 l. assert (H : P l /\ (forall a, P (a :: l)) /\ forall a b, P (a :: b :: l)).
  { induction l as [|x l (IH0 & IH1 & IH2)]; auto. }
  tauto.
Qed.

Definition octets (s : jstr) : Prop := Forall (fun c => (c < 256)%N) s.

Ltac octet_cases H :=
  repeat match type of H with Forall _ (_ :: _) => let H' := fresh "Ho" in
    apply Forall_cons in H as [H' H] end.

Lemma atob_base64 s : octets s -> atob (base64 s) = s.
Proof.
  induction s as [|a|a b|a b c s IH] using triples_ind; intros H; unfold octets in H; octet_cases H.
  - done.
  - cbn [base64 atob]. rewrite !unb64_b64 by lia. cbn. f_equal. lia.
  - cbn [base64 atob]. rewrite !unb64_b64 by lia.
    rewrite (proj2 (N.eqb_neq _ _) (proj2 (b64_range (b mod 16 * 4) ltac:(lia)))). cbn.
    f_equal; [lia|]. f_equal. lia.
  - cbn [base64 atob]. rewrite !unb64_b64 by lia.
    rewrite (proj2 (N.eqb_neq _ _) (proj2 (b64_range (b mod 16 * 4 + c / 64) ltac:(lia)))).
    rewrite (proj2 (N.eqb_neq _ _) (proj2 (b64_range (c mod 64) ltac:(lia)))).
    rewrite (IH H). f_equal; [lia|]. f_equal; [lia|]. f_equal. lia.
Qed.

Lemma base64_chars s : octets s -> Forall b64_char (base64 s).
Proof.
  assert (Hpad : b64_char 61) by (unfold b64_char; lia).
  induction s as [|a|a b|a b c s IH] using triples_ind; intros H; unfold octets in H; octet_cases H;
    cbn [base64]; repeat (apply Forall_cons; split); try apply Forall_nil; auto;
    apply b64_range; lia.
Qed.

Lemma btoa_some s : octets s -> btoa s = Some (base64 s).
Proof.
  intros H. unfold btoa. replace (forallb _ s) with true; [done|]. symmetry.
  induction H as [|c s Hc _ IH]; [done|]. cbn. rewrite IH, andb_true_r. by apply N.ltb_lt.
Qed.

Lemma btoa_inv s n : btoa s = Some n -> octets s /\ n = base64 s.
Proof.
  unfold btoa. destruct (forallb _ s) eqn:E; [intros [= <-]; split; [|done]|done].
  unfold octets. induction s as [|c s IH]; constructor; apply andb_true_iff in E as [Hc E].
  - by apply N.ltb_lt.
  - by apply IH.
Qed.

(** *** Splitting *)

Lemma split_word sep w : Forall (fun c => c <> sep) w -> split_on sep w = [w].
Proof.
  induction 1 as [|c w Hc _ IH]; [done|]. cbn [split_on]. by rewrite (proj2 (N.eqb_neq _ _) Hc), IH.
Qed.

Lemma split_cons sep w s :
  Forall (fun c => c <> sep) w -> split_on sep (w ++ sep :: s) = w :: split_on sep s.
Proof.
  induction 1 as [|c w Hc _ IH]; cbn [app split_on]; [by rewrite N.eqb_refl|].
  by rewrite (proj2 (N.eqb_neq _ _) Hc), IH.
Qed.

(** A word of a directive. *)
Definition word (w : jstr) : Prop := w <> [] /\ Forall (fun c => c <> 32%N /\ c <> 59%N) w.

Lemma join_cons sep x y l : join sep (x :: y :: l) = x ++ sep ++ join sep (y :: l).
Proof. done. Qed.

Lemma words_join ws : Forall word ws -> words (join " " ws) = ws.
Proof.
  unfold words. induction ws as [|w ws IH]; [done|]. intros [[Hne Hw] Hws]%Forall_cons.
  assert (Hsp : Forall (fun c => c <> 32%N) w) by (eapply Forall_impl; [exact Hw|by intros ? [? ?]]).
  assert (Ht : truthy w = true) by (by apply truthy_true).
  destruct ws as [|w' ws].
  - cbn [join]. rewrite split_word by done. cbn. by rewrite Ht.
  - rewrite join_cons. change (" " ++ join " " (w' :: ws)) with (32%N :: join " " (w' :: ws)).
    rewrite split_cons by done. cbn [keep]. rewrite Ht. by rewrite IH.
Qed.

Lemma join_no_semicolon ws : Forall word ws -> Forall (fun c => c <> 59%N) (join " " ws).
Proof.
  induction ws as [|w ws IH]; [constructor|]. intros [[_ Hw] Hws]%Forall_cons.
  assert (Hsc : Forall (fun c => c <> 59%N) w) by (eapply Forall_impl; [exact Hw|by intros ? [? ?]]).
  destruct ws as [|w' ws]; [done|]. rewrite join_cons. apply Forall_app. split; [done|].
  apply Forall_app. split; [by repeat constructor|by apply IH].
Qed.

Lemma words_space s : words (32%N :: s) = words s.
Proof. done. Qed.

Lemma parse_join ds :
  Forall (fun ws => ws <> [] /\ Forall word ws) ds ->
  parse_csp (join "; " (map (join " ") ds)) = ds.
Proof.
  intros H. unfold parse_csp.
  assert (Hboth : forall s, map words (split_on 59 (32%N :: s)) = map words (split_on 59 s)).
  { intros s. change (split_on 59 (32%N :: s)) with
      (match split_on 59 s with w :: l => (32%N :: w) :: l | [] => [[32%N]] end).
    destruct (split_on 59 s) as [|w l] eqn:E; [|done].
    destruct s; cbn in E; [done|]. by repeat case_match. }
  induction H as [|ws ds [Hne Hws] Hds IH]; [done|].
  pose proof (join_no_semicolon _ Hws) as Hsc. destruct ds as [|ws' ds]; cbn [map].
  - cbn [join]. rewrite split_word by done. cbn [map]. rewrite words_join by done. by destruct ws.
  - rewrite join_cons. change ("; " ++ join "; " (join " " ws' :: map (join " ") ds))
      with (59%N :: 32%N :: join "; " (map (join " ") (ws' :: ds))).
    rewrite split_cons by done. cbn [map]. rewrite Hboth, words_join by done.
    destruct ws; [done|]. cbn [keep]. f_equal. exact IH.
Qed.

(** *** The policy *)

Lemma csp_directives nonce isDev : csp nonce isDev = join "; " (map (join " ") (directives nonce isDev)).
Proof.
  unfold csp, directives. destruct isDev; cbn [app map join]; do 2 f_equal;
    cbn -[app]; by rewrite <- !app_assoc.
Qed.

Lemma word_lit (w : jstr) : bool_decide (w <> []) && forallb (fun c => negb (N.eqb c 32) && negb (N.eqb c 59)) w = true -> word w.
Proof.
  intros [H1%bool_decide_eq_true H2]%andb_true_iff. split; [done|]. clear H1.
  induction w as [|c w IH]; constructor; cbn [forallb] in H2; apply andb_true_iff in H2 as [Hc H2].
  - apply andb_true_iff in Hc as [?%negb_true_iff%N.eqb_neq ?%negb_true_iff%N.eqb_neq]. done.
  - by apply IH.
Qed.

Lemma parse_policy nonce isDev :
  nonce <> [] -> Forall b64_char nonce -> parse_csp (csp nonce isDev) = directives nonce isDev.
Proof.
  intros Hne Hn. rewrite csp_directives. apply parse_join.
  assert (Hw : word ("'nonce-" ++ nonce ++ "'")).
  { split; [done|]. rewrite !Forall_app. split; [by apply (word_lit "'nonce-")|].
    split; [|by apply (word_lit "'")].
    eapply Forall_impl; [exact Hn|]. unfold b64_char. intros. lia. }
  unfold directives. destruct isDev; cbn [app];
    each; (split; [done|]); each; first [exact Hw|by apply word_lit].
Qed.

(** ** Theorems *)

(** read as a browser reads it, the policy of every page is the list of directives of
    the source: scripts only from the origin or with the nonce, evaluation allowed in
    development alone.  The page and the browser get the same policy and the page the nonce
    in it, whatever headers the request carried, and the nonce determines the random
    identifier it was drawn from, so two pages never share one by encoding. *)
Theorem csp_policy_sound uuid isDev headers h
    (Hp : proxy uuid isDev headers = Some h) (Hne : uuid <> []) :
  exists nonce policy,
    h_request h !! ("x-nonce" : jstr) = Some nonce
    /\ h_request h !! ("content-security-policy" : jstr) = Some policy
    /\ h_response h !! ("content-security-policy" : jstr) = Some policy
    /\ parse_csp policy = directives nonce isDev
    /\ atob nonce = uuid
    /\ forall k, k <> ("x-nonce" : jstr) -> k <> ("content-security-policy" : jstr) ->
         h_request h !! k = headers !! k.
Proof.
  unfold proxy in Hp. destruct (btoa uuid) as [nonce|] eqn:E; [|done]. injection Hp as <-.
  apply btoa_inv in E as [Ho ->]. exists (base64 uuid), (csp (base64 uuid) isDev). cbn [h_request h_response].
  assert (Hnn : base64 uuid <> []) by (by destruct uuid as [|a [|b [|c s]]]).
  split_and!.
  - rewrite lookup_insert_ne by done. apply lookup_insert_eq.
  - apply lookup_insert_eq.
  - apply lookup_singleton_eq.
  - apply parse_policy; [done|by apply base64_chars].
  - by apply atob_base64.
  - intros k H1 H2. by rewrite !lookup_insert_ne.
Qed.

(** A request that brings a nonce of its own. *)
Lemma csp_policy_sound_witness :
  exists nonce policy h, proxy "3b241101-e2bb-4255" false {["x-nonce" : jstr := ("evil" : jstr)]} = Some h
    /\ h_request h !! ("x-nonce" : jstr) = Some nonce
    /\ h_response h !! ("content-security-policy" : jstr) = Some policy
    /\ parse_csp policy = directives nonce false.
Proof.
  destruct (proxy "3b241101-e2bb-4255" false {["x-nonce" : jstr := ("evil" : jstr)]}) as [h|] eqn:E;
    [|discriminate E].
  destruct (csp_policy_sound "3b241101-e2bb-4255" false _ h E ltac:(done))
    as (nonce & policy & H1 & _ & H3 & H4 & _).
  exists nonce, policy, h. auto.
Defined.
