(* ===== verification/Auth.v ===== *)
(** * The authentication screens: web/src/features/auth/

    The four forms (login-form.tsx, signup-form.tsx, request-reset-form.tsx,
    confirm-reset-form.tsx) are one component over a [FormSpec]; auth-guard.tsx,
    resend-verification.tsx and verify-email-client.tsx are components of their own.

    The form package is not part of the sources; what the forms rely on is its documented
    contract: a submission validates the fields first, then either reports the errors of
    the fields or runs the handler with the values, and [isSubmitting] holds until the
    handler has settled.  The validation itself is left open here (Forms.v). *)
From S2P Require Import Prelude JsValue ApiError Ui Progress Query.
From S2P Require DataWeb.

Local Open Scope js_scope.

(** ** The forms *)

Inductive Phase := idle | validating | handling (values : gmap jstr jstr).

Inductive Call :=
  | Login (email password : jstr) | Signup (email password : jstr)
  | RequestReset (email : jstr) | ConfirmReset (token new_password : jstr)
  | Replace (href : jstr).                              (* router.replace *)

Definition is_request (e : Call) : bool := match e with Replace _ => false | _ => true end.

(** [values.name]; the schemas require every field. *)
Definition value (name : jstr) (vs : gmap jstr jstr) : jstr :=
  match vs !! name with Some v => v | None => [] end.

Record Input := { i_name : jstr; i_label : jstr; i_hint : option jstr }.

Inductive Act :=
  | Type_ (name v : jstr) | Submit | Back
  | Invalid (errs : gmap jstr json) | Handle (vs : gmap jstr jstr) | Answer (o : outcome unit).

(** What tells one form from another. *)
Record FormSpec := {
  f_missing : option jstr;                   (* shown instead of the form *)
  f_inputs : list Input;
  f_submit : jstr; f_submitting : jstr;
  f_call : gmap jstr jstr -> Call;
  f_redirect : option jstr;                  (* on success; otherwise [f_done] is shown *)
  f_intercept : Exn -> bool;                 (* errors that show [f_done] instead *)
  f_fields : bool;                           (* are field errors applied? *)
  f_done : jstr -> option (list (node Act)) }.   (* for the email of the submission *)

Record St := { typed : gmap jstr jstr; phase : Phase; errors : gmap jstr json;
  formError : option json; done_ : option jstr }.

Definition init : St :=
  {| typed := ∅; phase := idle; errors := ∅; formError := None; done_ := None |}.

Definition upd (p : Phase) (er : gmap jstr json) (fe : option json) (d : option jstr) (s : St) : St :=
  {| typed := typed s; phase := p; errors := er; formError := fe; done_ := d |}.

(** The [catch] of the handler: an exception thrown by [applyServerErrors] itself rejects
    the handler, and nothing is shown. *)
Definition failed (f : FormSpec) (e : Exn) (vs : gmap jstr jstr) (s : St) : St :=
  if f_intercept f e then upd idle (errors s) (formError s) (Some (value "email" vs)) s
  else if f_fields f then
    match applyServerErrors e (errors s) with
    | inl _ => upd idle (errors s) (formError s) (done_ s) s
    | inr (applied, er) =>
        upd idle er (if applied then formError s else Some (exn_message e)) (done_ s) s
    end
  else upd idle (errors s) (Some (exn_message e)) (done_ s) s.

Definition update (f : FormSpec) (a : Act) (s : St) : St * list Call :=
  match a with
  | Type_ name v =>
      ({| typed := <[name := v]> (typed s); phase := phase s; errors := errors s;
          formError := formError s; done_ := done_ s |}, [])
  | Submit => (upd validating (errors s) (formError s) (done_ s) s, [])
  | Invalid errs => (upd idle errs (formError s) (done_ s) s, [])
  | Handle vs => (upd (handling vs) ∅ None (done_ s) s, [f_call f vs])
  | Answer (inr _) =>
      match phase s with
      | handling vs =>
          match f_redirect f with
          | Some href => (upd idle (errors s) (formError s) (done_ s) s, [Replace href])
          | None => (upd idle (errors s) (formError s) (Some (value "email" vs)) s, [])
          end
      | _ => (s, [])
      end
  | Answer (inl e) =>
      (match phase s with handling vs => failed f e vs s | _ => s end, [])
  | Back => (upd (phase s) (errors s) (formError s) None s, [])
  end.

(** form-field.tsx: the hint gives way to the error.  The show/hide button of passwords
    changes the type of the input only, and is left out. *)
Definition FormField (s : St) (i : Input) : list (node Act) :=
  Field (i_label i) (value (i_name i) (typed s)) true (Type_ (i_name i)) ::
  match errors s !! i_name i with
  | Some m => if jtruthy m then [Box "alert" [Txt m]]
              else match i_hint i with Some h => [text h] | None => [] end
  | None => match i_hint i with Some h => [text h] | None => [] end
  end.

Definition submitting (s : St) : bool := match phase s with idle => false | _ => true end.

Definition view (f : FormSpec) (s : St) : list (node Act) :=
  match f_missing f with
  | Some m => [Box "alert" [text m]]
  | None =>
      match done_ s ≫= f_done f with
      | Some v => v
      | None =>
          alert (formError s) ++ (f_inputs f ≫= FormField s)
          ++ [Btn (if submitting s then f_submitting f else f_submit f) (negb (submitting s)) Submit]
      end
  end.

Definition awaiting (s : St) (a : Act) : Prop :=
  match a with
  | Invalid _ | Handle _ => phase s = validating
  | Answer _ => exists vs, phase s = handling vs
  | _ => False
  end.

Definition form (f : FormSpec) : component :=
  {| Ui.st := St; Ui.act := Act; Ui.eff := Call; Ui.view := view f; Ui.awaiting := awaiting;
     Ui.update := update f |}.

(** *** The four forms *)

Definition email_input : Input := {| i_name := "email"; i_label := "Email"; i_hint := None |}.
Definition new_password_hint : option jstr := Some ("At least 8 characters." : jstr).

Definition LoginForm : FormSpec :=
  {| f_missing := None;
     f_inputs := [email_input; {| i_name := "password"; i_label := "Password"; i_hint := None |}];
     f_submit := "Sign in"; f_submitting := "Signing in…";
     f_call vs := Login (value "email" vs) (value "password" vs);
     f_redirect := Some ("/" : jstr);
     f_intercept e := is_str (exn_code e) "email_not_verified";
     f_fields := true;
     f_done email :=
       if truthy email then
         Some [Box "status"
                 [text ("Please verify your email before signing in. We sent a link to " ++ email ++ ".");
                  Ui.Slot "ResendVerification"; Btn "Back to sign in" true Back]]
       else None |}.

Definition SignupForm : FormSpec :=
  {| f_missing := None;
     f_inputs := [email_input;
                  {| i_name := "password"; i_label := "Password"; i_hint := new_password_hint |}];
     f_submit := "Create account"; f_submitting := "Creating account…";
     f_call vs := Signup (value "email" vs) (value "password" vs);
     f_redirect := None; f_intercept _ := false; f_fields := true;
     f_done email :=
       Some [Box "status"
          [text ("Check your inbox. We sent a verification link to " ++ email
                 ++ ". Open it to finish setting up your account, then sign in.");
           Ui.Slot "ResendVerification"; Anchor "Go to sign in" "/login"]] |}.

Definition RequestResetForm : FormSpec :=
  {| f_missing := None; f_inputs := [email_input];
     f_submit := "Send reset link"; f_submitting := "Sending…";
     f_call vs := RequestReset (value "email" vs);
     f_redirect := None; f_intercept _ := false; f_fields := false;
     f_done _ :=
       Some [Box "status"
          [text "If that email is registered, we've sent a password-reset link. Check your inbox."]] |}.

Definition ConfirmResetForm (token : jstr) : FormSpec :=
  {| f_missing := if truthy token then None
                  else Some ("This reset link is invalid or missing its token." : jstr);
     f_inputs := [{| i_name := "new_password"; i_label := "New password"; i_hint := new_password_hint |}];
     f_submit := "Update password"; f_submitting := "Updating…";
     f_call vs := ConfirmReset token (value "new_password" vs);
     f_redirect := None; f_intercept _ := false; f_fields := true;
     f_done _ := Some [Box "status" [text "Your password has been updated."; Anchor "Sign in" "/login"]] |}.

(** ** auth-guard.tsx *)

Module Guard.
(** [useMe()]: its data ([null] signed out, [undefined] before or without an answer) and
    [isPending].  The effect runs after the renders in which they changed. *)
Record St := { user : json; isPending : bool; due : bool }.

Definition init (u : json) (p : bool) : St := {| user := u; isPending := p; due := true |}.

Inductive Act := Me (u : json) (p : bool) | Effect.

Definition update (a : Act) (s : St) : St * list Call :=
  match a with
  | Me u p => ({| user := u; isPending := p; due := true |}, [])
  | Effect =>
      ({| user := user s; isPending := isPending s; due := false |},
       if negb (isPending s) && negb (jtruthy (user s)) then [Replace "/login"] else [])
  end.

Definition view (s : St) : list (node Act) :=
  if isPending s || negb (jtruthy (user s)) then [text "Loading"] else [Ui.Slot "children"].

Definition awaiting (s : St) (a : Act) : Prop :=
  match a with Me _ _ => True | Effect => due s = true end.

Definition component : component :=
  {| Ui.st := St; Ui.act := Act; Ui.eff := Call; Ui.view := view; Ui.awaiting := awaiting;
     Ui.update := update |}.

(** The data of a query whose first load settled. *)
Definition first_data (o : outcome json) : json := match o with inr v => v | inl _ => JUndef end.
End Guard.

(** ** resend-verification.tsx

    The interval of a render ticks while [secondsLeft > 0]; a tick is rendered before the
    next one is due. *)
Module Resend.
Section Resend.
Variable email : jstr.

Definition COOLDOWN_SECONDS : Z := 60.

Record St := { secondsLeft : Z; sent : bool; error : option json; pending : bool }.

Definition init : St := {| secondsLeft := 0; sent := false; error := None; pending := false |}.

Inductive Act := Click | Settled (o : outcome unit) | Tick.

Definition update (a : Act) (s : St) : St * list unit :=
  match a with
  | Click =>
      ({| secondsLeft := secondsLeft s; sent := sent s; error := None; pending := true |}, [tt])
  | Settled (inr _) =>
      ({| secondsLeft := COOLDOWN_SECONDS; sent := true; error := error s; pending := false |}, [])
  | Settled (inl e) =>
      ({| secondsLeft := COOLDOWN_SECONDS; sent := sent s; error := Some (exn_message e);
          pending := false |}, [])
  | Tick =>
      ({| secondsLeft := secondsLeft s - 1; sent := sent s; error := error s;
          pending := pending s |}, [])
  end.

Definition disabled (s : St) : bool :=
  (0 <? secondsLeft s)%Z || pending s || negb (truthy email).

Definition label (s : St) : jstr :=
  if (0 <? secondsLeft s)%Z then "Resend in " ++ showZ (secondsLeft s) ++ "s"
  else if pending s then "Sending…" else "Resend verification email".

Definition view (s : St) : list (node Act) :=
  [Btn (label s) (negb (disabled s)) Click]
  ++ when (sent s && negb match error s with Some e => jtruthy e | None => false end)
       [text "Sent. Check your inbox, and your spam folder."]
  ++ match error s with Some e => when (jtruthy e) [Txt e] | None => [] end.

Definition awaiting (s : St) (a : Act) : Prop :=
  match a with
  | Settled _ => pending s = true
  | Tick => (0 < secondsLeft s)%Z
  | Click => False
  end.

Definition component : component :=
  {| Ui.st := St; Ui.act := Act; Ui.eff := unit; Ui.view := view; Ui.awaiting := awaiting;
     Ui.update := update |}.
End Resend.
End Resend.

(** ** verify-email-client.tsx

    The effect may run any number of times (its dependency [verify] changes with every
    render, and development mode runs effects twice). *)
Module Verify.
Section Verify.
Variable token : jstr.

Inductive Status := verifying | success | error_.

Record St := { status : Status; message : json; ran : bool }.

Definition init : St :=
  {| status := if truthy token then verifying else error_;
     message := JStr (if truthy token then [] else "This link is missing its token."); ran := false |}.

Inductive Act := Effect | Settled (o : outcome unit).

Definition update (a : Act) (s : St) : St * list jstr :=
  match a with
  | Effect =>
      if negb (truthy token) || ran s then (s, [])
      else ({| status := status s; message := message s; ran := true |}, [token])
  | Settled (inr _) => ({| status := success; message := message s; ran := ran s |}, [])
  | Settled (inl e) => ({| status := error_; message := exn_message e; ran := ran s |}, [])
  end.

Definition view (s : St) : list (node Act) :=
  [Box "status"
     match status s with
     | verifying => [text "Verifying your email…"]
     | success => [text "Your email address is verified."; Anchor "Sign in" "/login"]
     | error_ => [Txt (if jtruthy (message s) then message s else JStr "Verification failed.");
                  Anchor "Back to sign in" "/login"]
     end].

(** The one call settles once. *)
Definition awaiting (s : St) (a : Act) : Prop :=
  match a with Effect => True | Settled _ => ran s = true /\ status s = verifying end.

Definition component : component :=
  {| Ui.st := St; Ui.act := Act; Ui.eff := jstr; Ui.view := view; Ui.awaiting := awaiting;
     Ui.update := update |}.
End Verify.
End Verify.

(** ** Lemmas *)

Section FormFacts.
Variable f : FormSpec.

(** A form whose handler makes one request, and whose panel only goes back. *)
Definition plain_form : Prop :=
  (forall vs, is_request (f_call f vs) = true)
  /\ forall email v a, f_done f email = Some v -> offers v a -> a = Back.

Definition answer (a : Act) : bool := match a with Answer _ => true | _ => false end.
Definition success (a : Act) : bool := match a with Answer (inr _) => true | _ => false end.
Definition busy (s : St) : bool := match phase s with handling _ => true | _ => false end.

Lemma offers_field s i a : offers (FormField s i) a -> exists v, a = Type_ (i_name i) v.
Proof.
  unfold FormField. intros [[_ H]|H]; [exact H|].
  destruct (errors s !! i_name i) as [m|]; [destruct (jtruthy m); [simpl in H; tauto|]|];
    destruct (i_hint i); simpl in H; tauto.
Qed.

Lemma offers_fields s l a : offers (l ≫= FormField s) a -> exists n v, a = Type_ n v.
Proof.
  induction l as [|i l IH]; intros H; [done|].
  change (offers (FormField s i ++ (l ≫= FormField s)) a) in H. rewrite offers_app in H.
  destruct H as [H|H]; [|by apply IH]. apply offers_field in H as [v ->]. eauto.
Qed.

Lemma offers_form s a :
  plain_form -> offers (view f s) a ->
  match a with Submit => phase s = idle | Type_ _ _ | Back => True | _ => False end.
Proof.
  intros [_ Hd] H. unfold view in H. destruct (f_missing f); [simpl in H; tauto|].
  destruct (done_ s ≫= f_done f) as [v|] eqn:E.
  - destruct (done_ s) as [email|]; [|done]. by rewrite (Hd _ _ _ E H).
  - rewrite !offers_app in H. destruct H as [H|[H|H]].
    + by apply offers_alert in H.
    + by apply offers_fields in H as (n & v & ->).
    + destruct H as [[H ->]|H]; [|done]. apply negb_true_iff in H.
      unfold submitting in H. by destruct (phase s).
Qed.

Lemma form_balanced : plain_form -> balanced (form f) busy is_request answer.
Proof.
  intros Hf s a es s' Hs. assert (Hu : update f a s = (s', es)) by (by inversion Hs).
  assert (Ha : match a with
    | Submit => phase s = idle | Invalid _ | Handle _ => phase s = validating
    | Answer _ => exists vs, phase s = handling vs | _ => True end).
  { inversion Hs as [? ? ? H|? ? ? H]; subst.
    - apply offers_form in H; [|done]. by destruct a.
    - cbn in H. by destruct a. }
  unfold busy. destruct a as [n v| | |errs|vs|[e|[]]]; cbn in Hu.
  - by injection Hu as <- <-.
  - injection Hu as <- <-. by rewrite Ha.
  - by injection Hu as <- <-.
  - injection Hu as <- <-. by rewrite Ha.
  - injection Hu as <- <-. rewrite Ha. unfold count. cbn. by rewrite (proj1 Hf).
  - destruct Ha as [vs Hp]. rewrite Hp in Hu |- *. injection Hu as <- <-. unfold failed.
    destruct (f_intercept f e); [done|]. destruct (f_fields f); [|done].
    by destruct (applyServerErrors e (errors s)) as [|[? ?]].
  - destruct Ha as [vs Hp]. rewrite Hp in Hu |- *. destruct (f_redirect f); by injection Hu as <- <-.
Qed.

(** Each success redirects once, and nothing else does. *)
Lemma form_redirects s a es s' :
  plain_form -> is_Some (f_redirect f) -> step (form f) s a es s' ->
  count (fun e => negb (is_request e)) es = bit (success a).
Proof.
  intros Hf [href Hr] Hs. assert (Hu : update f a s = (s', es)) by (by inversion Hs).
  destruct a as [n v| | |errs|vs|[e|[]]]; cbn in Hu; try (injection Hu as _ <-; done).
  - injection Hu as _ <-. unfold count. cbn. by rewrite (proj1 Hf).
  - assert (exists vs, phase s = handling vs) as [vs Hp].
    { inversion Hs as [? ? ? H|? ? ? H]; subst; [|done]. by apply offers_form in H. }
    rewrite Hp, Hr in Hu. by injection Hu as _ <-.
Qed.
End FormFacts.

Lemma plain_forms token :
  Forall plain_form [LoginForm; SignupForm; RequestResetForm; ConfirmResetForm token].
Proof.
  repeat constructor; cbn; try done; intros email v a H.
  - destruct (truthy email); [|done]. injection H as <-. cbn. intros [[H|[H|[[_ ->]|H]]]|H]; done.
  - injection H as <-. cbn. tauto.
  - injection H as <-. cbn. tauto.
  - injection H as <-. cbn. tauto.
Qed.

Lemma steps_redirects f s tr s' :
  plain_form f -> is_Some (f_redirect f) -> steps (form f) s tr s' ->
  count (fun e => negb (is_request e)) (issued tr) = count success (map fst tr).
Proof.
  intros Hf Hr Hrun. induction Hrun as [s|s a es s1 tr s2 Hs _ IH]; [done|].
  change (issued ((a, es) :: tr)) with (es ++ issued tr). rewrite count_app, IH.
  rewrite (form_redirects _ _ _ _ _ Hf Hr Hs). unfold count. simpl. by destruct (success a).
Qed.

(** What a structured failure shows: its field errors on the inputs of the form if it has
    any, otherwise its message. *)
Definition visible (f : FormSpec) (n : NormalizedError) : bool :=
  if bool_decide (ne_fieldErrors n = ∅) then jtruthy (ne_message n)
  else existsb (fun i => match ne_fieldErrors n !! i_name i with Some m => jtruthy m | None => false end)
         (f_inputs f).

Lemma fields_role s l :
  shows_role "alert" (l ≫= FormField s)
  = existsb (fun i => match errors s !! i_name i with Some m => jtruthy m | None => false end) l.
Proof.
  induction l as [|i l IH]; [done|].
  change ((i :: l) ≫= FormField s) with (FormField s i ++ (l ≫= FormField s)).
  rewrite shows_role_app, IH. cbn [existsb]. f_equal. unfold FormField.
  destruct (errors s !! i_name i) as [m|]; [destruct (jtruthy m)|]; destruct (i_hint i); done.
Qed.

Lemma view_form_role f s :
  f_missing f = None -> done_ s = None ->
  shows_role "alert" (view f s)
  = match formError s with Some m => jtruthy m | None => false end
    || existsb (fun i => match errors s !! i_name i with Some m => jtruthy m | None => false end) (f_inputs f).
Proof.
  intros Hm Hd. unfold view. rewrite Hm, Hd.
  change (None ≫= f_done f) with (@None (list (node Act))).
  cbv beta iota. rewrite !shows_role_app, alert_role, fields_role. cbn. by rewrite orb_false_r.
Qed.

(** *** Progress of the forms *)

Section FormProgress.
Variable f : FormSpec.
Hypothesis Hf : plain_form f.

Definition validation (a : Act) : Prop :=
  match a with Invalid _ | Handle _ => True | _ => False end.
Definition settlement (a : Act) : Prop := match a with Answer _ => True | _ => False end.

Lemma form_phases s a es s' :
  step (form f) s a es s' ->
  match a with
  | Type_ _ _ | Back => phase s' = phase s
  | Submit => phase s = idle /\ phase s' = validating
  | Invalid _ => phase s = validating /\ phase s' = idle
  | Handle vs => phase s = validating /\ phase s' = handling vs
  | Answer _ => busy s = true /\ phase s' = idle
  end.
Proof.
  intros Hs. assert (Hu : update f a s = (s', es)) by (by inversion Hs).
  assert (Ha : match a with
    | Submit => phase s = idle | Invalid _ | Handle _ => phase s = validating
    | Answer _ => exists vs, phase s = handling vs | _ => True end).
  { inversion Hs as [? ? ? H|? ? ? H]; subst.
    - apply offers_form in H; [|done]. by destruct a.
    - cbn in H. by destruct a. }
  destruct a as [n v| | |errs|vs|[e|[]]]; cbn in Hu; try (injection Hu as <- <-; done);
    destruct Ha as [vs Hp]; unfold busy; rewrite Hp in Hu |- *.
  - injection Hu as <- <-. split; [done|]. unfold failed.
    destruct (f_intercept f e); [done|]. destruct (f_fields f); [|done].
    by destruct (applyServerErrors e (errors s)) as [|[? ?]].
  - destruct (f_redirect f); by injection Hu as <- <-.
Qed.

(** A form that waits keeps waiting until it is answered. *)
Lemma form_keeps s a es s' :
  step (form f) s a es s' ->
  (busy s = true -> busy s' = true \/ submitting s' = false)
  /\ (phase s = validating -> phase s' = validating \/ busy s' = true \/ submitting s' = false).
Proof.
  intros Hs. apply form_phases in Hs. unfold busy, submitting in *.
  destruct a as [n v| | |errs|vs|o]; [by rewrite Hs; auto|..|by rewrite Hs; auto| | |];
    destruct Hs as [Hs Hs']; rewrite ?Hs, Hs'; by auto.
Qed.
End FormProgress.

(** *** Resend *)

Section ResendFacts.
Variable email : jstr.
Import Resend.
Abbreviation resend := (Resend.component email).

Definition is_tick (a : Resend.Act) : bool := match a with Tick => true | _ => false end.

(** The seconds still owed by the calls made. *)
Definition owed (s : Resend.St) : Z := secondsLeft s + (if Resend.pending s then 60 else 0).
Definition cooled (s : Resend.St) : Prop :=
  (0 <= secondsLeft s <= 60)%Z /\ (Resend.pending s = true -> secondsLeft s = 0%Z).

(** When each action can happen. *)
Lemma resend_guard s a es s' :
  step resend s a es s' ->
  match a with
  | Click => secondsLeft s = 0%Z /\ Resend.pending s = false \/ (secondsLeft s < 0)%Z
  | Settled _ => Resend.pending s = true
  | Tick => (0 < secondsLeft s)%Z
  end.
Proof.
  inversion 1 as [? ? ? Hv|]; subst; [|by destruct a].
  unfold Resend.component, Resend.view in Hv. cbn [Ui.view] in Hv. rewrite !offers_app in Hv.
  destruct Hv as [[[He ->]|He]|[He|He]]; [|done| |].
  - apply negb_true_iff in He. apply orb_false_iff in He as [[He Hn]%orb_false_iff _].
    apply Z.ltb_ge in He. destruct (decide (secondsLeft s = 0%Z)); [by left|right; lia].
  - apply offers_when in He as [_ He]. simpl in He. tauto.
  - destruct (error s) as [e|]; [destruct (jtruthy e)|]; simpl in He; tauto.
Qed.

Lemma resend_step s a es s' :
  cooled s -> step resend s a es s' ->
  cooled s' /\ (60 * Z.of_nat (length es) + owed s = owed s' + Z.of_nat (bit (is_tick a)))%Z.
Proof.
  intros [Hr Hp] Hs. assert (Hu : Resend.update a s = (s', es)) by (by inversion Hs).
  pose proof (resend_guard _ _ _ _ Hs) as Ha.
  unfold cooled, owed. destruct a as [|[e|[]]|]; cbn in Hu; injection Hu as <- <-; cbn;
    unfold COOLDOWN_SECONDS.
  - destruct Ha as [[H0 Hn]|?]; [|lia]. rewrite Hn, H0. split; [split; [lia|done]|lia].
  - rewrite Ha, (Hp Ha). split; [split; [lia|done]|lia].
  - rewrite Ha, (Hp Ha). split; [split; [lia|done]|lia].
  - destruct (Resend.pending s) eqn:E; [specialize (Hp eq_refl); lia|].
    split; [split; [lia|done]|lia].
Qed.

Lemma resend_steps s tr s' :
  steps resend s tr s' -> cooled s ->
  cooled s' /\ (60 * Z.of_nat (length (issued tr)) + owed s
                = owed s' + Z.of_nat (count is_tick (map fst tr)))%Z.
Proof.
  induction 1 as [s|s a es s1 tr s2 Hs _ IH]; intros Hc; [split; [done|cbn; lia]|].
  destruct (resend_step _ _ _ _ Hc Hs) as [Hc1 H1]. destruct (IH Hc1) as [Hc2 H2]. split; [done|].
  change (issued ((a, es) :: tr)) with (es ++ issued tr). rewrite length_app.
  unfold count in *. simpl. destruct (is_tick a); simpl in *; lia.
Qed.

Lemma resend_click s es s' : step resend s Click es s' -> email <> [].
Proof.
  inversion 1 as [? ? ? H0|]; subst; [|done].
  unfold Resend.component, Resend.view in H0. cbn [Ui.view] in H0. rewrite !offers_app in H0.
  destruct H0 as [[[H0 _]|H0]|[H0|H0]]; [|done| |].
  - apply negb_true_iff, orb_false_iff in H0 as [_ H0].
    by apply negb_false_iff, truthy_true in H0.
  - apply offers_when in H0 as [_ H0]. simpl in H0. tauto.
  - destruct (error s) as [e|]; [destruct (jtruthy e)|]; simpl in H0; tauto.
Qed.

Lemma resend_none s tr s' : steps resend s tr s' -> email = [] -> issued tr = [].
Proof.
  intros Hrun He. induction Hrun as [s|s a es s1 tr s2 Hs _ IH]; [done|].
  change (issued ((a, es) :: tr)) with (es ++ issued tr). rewrite IH, app_nil_r.
  assert (Hu : Resend.update a s = (s1, es)) by (by inversion Hs).
  destruct a as [|[e|[]]|]; [by apply resend_click in Hs| | |]; cbn in Hu; by injection Hu as _ <-.
Qed.
(** What the button still waits for: the answer, then the ticks. *)
Definition is_answer (a : Resend.Act) : Prop := match a with Click => False | _ => True end.
Definition wait (s : Resend.St) : nat :=
  Z.to_nat (secondsLeft s) + (if Resend.pending s then 61 else 0).

Lemma resend_answer s a es s' :
  cooled s -> step resend s a es s' ->
  match a with
  | Click => wait s = 0
  | _ => wait s' < wait s
  end.
Proof.
  intros Hc Hs. assert (Hu : Resend.update a s = (s', es)) by (by inversion Hs).
  pose proof (resend_guard _ _ _ _ Hs) as Ha. destruct Hc as [Hr Hp].
  unfold wait in *. destruct a as [|[e|[]]|]; cbn in Hu; injection Hu as <- <-; cbn in *;
    unfold COOLDOWN_SECONDS in *; destruct (Resend.pending s);
    try specialize (Hp eq_refl); try done; lia.
Qed.

Lemma resend_waits s : cooled s -> 0 < wait s -> exists a, is_answer a /\ Resend.awaiting s a.
Proof.
  unfold wait. intros [Hr Hp] Hw. destruct (Resend.pending s) eqn:E.
  - by exists (Resend.Settled (inr tt)).
  - exists Tick. split; [done|]. cbn. lia.
Qed.

Lemma resend_enabled s :
  cooled s -> wait s = 0 -> email <> [] -> offers (Resend.view email s) Click.
Proof.
  intros [Hr Hp] Hw He. unfold wait in Hw. destruct (Resend.pending s) eqn:E; [lia|].
  left. split; [|done]. unfold disabled. rewrite E.
  replace (0 <? secondsLeft s)%Z with false by (symmetry; apply Z.ltb_ge; lia).
  by destruct email.
Qed.
End ResendFacts.

(** *** Guard and verification *)

(** Once its effect has run, a guard settled without a user has just redirected. *)
Definition redirected (acc : list Call) (s : Guard.St) : Prop :=
  Guard.due s = false -> Guard.isPending s = false -> jtruthy (Guard.user s) = false ->
  exists acc1, acc = acc1 ++ [Replace "/login"].

Lemma guard_redirects s tr s' :
  steps Guard.component s tr s' -> forall acc, redirected acc s -> redirected (acc ++ issued tr) s'.
Proof.
  induction 1 as [s|s a es s1 tr s2 Hs _ IH]; intros acc Hr; [by rewrite app_nil_r|].
  change (issued ((a, es) :: tr)) with (es ++ issued tr). rewrite app_assoc. apply IH.
  assert (Hu : Guard.update a s = (s1, es)) by (by inversion Hs).
  destruct a as [u p|]; cbn in Hu; injection Hu as <- <-; [done|].
  intros _ Hp Hn. cbn in Hp, Hn. rewrite Hp, Hn. by exists acc.
Qed.

(** A guard redirects only while it is settled without a user. *)
Lemma guard_step s a es s' :
  step Guard.component s a es s' -> es <> [] ->
  es = [Replace "/login"] /\ Guard.isPending s = false /\ jtruthy (Guard.user s) = false.
Proof.
  intros Hs Hne. assert (Hu : Guard.update a s = (s', es)) by (by inversion Hs).
  destruct a as [u p|]; cbn in Hu; injection Hu as <- <-; [done|].
  destruct (Guard.isPending s), (jtruthy (Guard.user s)); done.
Qed.

Lemma me_truthy r : jtruthy (Guard.first_data (q_result DataWeb.useMe r).2) = true -> r_ok r = true.
Proof.
  cbn. unfold Query.unwrap_me. destruct (Z.eqb_spec (r_status r) 401) as [E|_]; [done|].
  unfold Query.unwrap_any, Query.reject. destruct (r_ok r); [done|]. cbn.
  by destruct (Web.normalizeError _ _).
Qed.

Section VerifyFacts.
Variable token : jstr.
Import Verify.
Abbreviation verify := (Verify.component token).

Lemma verify_step s a es s' :
  step verify s a es s' ->
  length es + bit (ran s) <= bit (ran s') /\ Forall (fun t => t = token /\ truthy t = true) es.
Proof.
  intros Hs. assert (Hu : Verify.update token a s = (s', es)) by (by inversion Hs).
  destruct a as [|[e|[]]]; cbn in Hu.
  - destruct (truthy token) eqn:E, (ran s) eqn:R; cbn in Hu; injection Hu as <- <-; cbn; rewrite ?R;
      (split; [simpl; lia|by repeat constructor]).
  - by injection Hu as <- <-.
  - by injection Hu as <- <-.
Qed.

Lemma verify_steps s tr s' :
  steps verify s tr s' ->
  length (issued tr) + bit (ran s) <= bit (ran s')
  /\ Forall (fun t => t = token /\ truthy t = true) (issued tr).
Proof.
  induction 1 as [s|s a es s1 tr s2 Hs _ [IH1 IH2]]; [split; [simpl; lia|constructor]|].
  destruct (verify_step _ _ _ _ Hs) as [H1 H2].
  change (issued ((a, es) :: tr)) with (es ++ issued tr). rewrite length_app.
  split; [lia|]. by apply Forall_app.
Qed.
End VerifyFacts.

(** ** Properties *)

(** none of the four forms sends a second request while one is pending, along any run;
    and the sign-in form leaves for the application exactly once per successful sign-in. *)
Theorem forms_call_once token f tr s
  (Hf : f ∈ [LoginForm; SignupForm; RequestResetForm; ConfirmResetForm token])
  (Hrun : steps (form f) init tr s) :
  count is_request (issued tr) <= count answer (map fst tr) + 1
  /\ (is_Some (f_redirect f) ->
      count (fun e => negb (is_request e)) (issued tr) = count success (map fst tr)).
Proof.
  pose proof (plain_forms token) as Hp. rewrite Forall_forall in Hp. specialize (Hp f Hf). split.
  - by apply (one_at_a_time _ _ _ _ (form_balanced f Hp) init tr s).
  - intros Hr. by eapply steps_redirects.
Qed.

Definition a_login : gmap jstr jstr := {[ "email" := ("a@b.co" : jstr); "password" := ("pw" : jstr) ]}.

Lemma forms_call_once_witness :
  exists tr s, steps (form LoginForm) init tr s
    /\ issued tr = [Login "a@b.co" "pw"; Replace "/"]
    /\ count is_request (issued tr) <= count answer (map fst tr) + 1.
Proof.
  assert (Hrun : exists tr s, steps (form LoginForm) init tr s
    /\ issued tr = [Login "a@b.co" "pw"; Replace "/"]).
  { eexists _, _. split.
    - eapply steps_cons; [eapply (by_user (form LoginForm) _ Submit); [pick|reflexivity]|].
      eapply steps_cons; [eapply (by_env (form LoginForm) _ (Handle a_login)); [reflexivity|reflexivity]|].
      eapply steps_cons; [eapply (by_env (form LoginForm) _ (Answer (inr tt))); [by eexists|reflexivity]|].
      apply steps_refl.
    - reflexivity. }
  destruct Hrun as (tr & s & Hrun & Hi). exists tr, s. split; [exact Hrun|]. split; [exact Hi|].
  refine (proj1 (forms_call_once [] LoginForm tr s _ Hrun)). apply elem_of_cons. by left.
Defined.

(** what a failed submission shows, in the forms that apply field errors: with a
    structured error, an alert exactly when it has a field error for an input of the form,
    or no field error and a message; with a raw exception (the network failed), no alert at
    all, because [applyServerErrors] throws on it.  The form can be submitted again. *)
Theorem form_failure_shown token f vs s e
  (Hf : f ∈ [LoginForm; SignupForm; ConfirmResetForm token]) (Hm : f_missing f = None)
  (Hi : f_intercept f e = false)
  (Hs : phase s = handling vs) (He : errors s = ∅) (Hfe : formError s = None) (Hd : done_ s = None) :
  let s' := (Ui.update (form f) (Answer (inl e)) s).1 in
  shows_role "alert" (view f s') = match e with NErr n => visible f n | JsError _ => false end
  /\ offers (view f s') Submit.
Proof.
  assert (Hff : f_fields f = true).
  { repeat (apply elem_of_cons in Hf as [->|Hf]; [done|]). by apply elem_of_nil in Hf. }
  cbn. rewrite Hs. unfold failed. rewrite Hi, Hff. split.
  - destruct e as [n|m]; cbn; rewrite view_form_role; cbn; rewrite ?Hfe, ?He, ?Hd; try done.
    + unfold visible. rewrite (right_id_L ∅ (∪)).
      destruct (decide (ne_fieldErrors n = ∅)) as [E|E].
      * rewrite bool_decide_eq_false_2, bool_decide_eq_true_2 by tauto. rewrite E.
        induction (f_inputs f) as [|i l IH]; cbn; [by rewrite orb_false_r|].
        rewrite lookup_empty. exact IH.
      * by rewrite bool_decide_eq_true_2, bool_decide_eq_false_2 by tauto.
    + induction (f_inputs f) as [|i l IH]; [done|]. cbn. by rewrite lookup_empty.
  - unfold view. rewrite Hm. destruct e as [n|m]; cbn; rewrite Hd; cbn; rewrite !offers_app;
      right; right; by left.
Qed.

Lemma form_failure_shown_witness :
  shows_role "alert"
    (view LoginForm (Ui.update (form LoginForm) (Answer (inl (JsError "Failed to fetch")))
                       (upd (handling a_login) ∅ None None init)).1) = false.
Proof.
  refine (proj1 (form_failure_shown [] LoginForm a_login (upd (handling a_login) ∅ None None init)
            (JsError "Failed to fetch")
            _ eq_refl eq_refl eq_refl eq_refl eq_refl eq_refl)).
  apply elem_of_cons. by left.
Defined.

(** the resend button is rate-limited: along any run, [n + 1] calls take at least [n]
    minutes, failed calls included, and none is made without an address. *)
Theorem resend_cooldown email tr s (Hrun : steps (Resend.component email) Resend.init tr s) :
  (60 * (Z.of_nat (length (issued tr)) - 1) <= Z.of_nat (count is_tick (map fst tr)))%Z
  /\ (email = [] -> issued tr = []).
Proof.
  split.
  - destruct (resend_steps email _ _ _ Hrun) as [[Hr Hp] H].
    + split; [cbn; lia|done].
    + unfold owed in H. change (Resend.secondsLeft Resend.init) with 0%Z in H. cbn [Resend.pending Resend.init] in H.
      destruct (Resend.pending s); [specialize (Hp eq_refl)|]; lia.
  - by apply (resend_none email _ _ _ Hrun).
Qed.

Lemma resend_cooldown_witness :
  exists tr s, steps (Resend.component "a@b.co") Resend.init tr s /\ issued tr = [tt]
    /\ (60 * (Z.of_nat (length (issued tr)) - 1) <= Z.of_nat (count is_tick (map fst tr)))%Z.
Proof.
  assert (Hrun : exists tr s, steps (Resend.component "a@b.co") Resend.init tr s /\ issued tr = [tt]).
  { eexists _, _. split.
    - eapply steps_cons; [eapply (by_user (Resend.component _) _ Resend.Click); [pick|reflexivity]|].
      eapply steps_cons; [eapply (by_env (Resend.component _) _ (Resend.Settled (inr tt))); [reflexivity|reflexivity]|].
      apply steps_refl.
    - reflexivity. }
  destruct Hrun as (tr & s & Hrun & Hi). exists tr, s. split; [exact Hrun|]. split; [exact Hi|].
  exact (proj1 (resend_cooldown _ _ _ Hrun)).
Defined.

(** the guard: the application is shown only with a loaded, truthy user; the guard
    redirects only when it is settled without one, and once its effect has run there its
    last act is the redirect.  Since [useMe] does not retry, any first answer of [/auth/me]
    but a success leads to the sign-in page: a server error too. *)
Theorem guard_gate u p tr s (Hrun : steps Guard.component (Guard.init u p) tr s) :
  ((exists c, Ui.Slot c ∈ Guard.view s) -> Guard.isPending s = false /\ jtruthy (Guard.user s) = true)
  /\ (forall a es s', step Guard.component s a es s' -> es <> [] ->
        es = [Replace "/login"] /\ Guard.isPending s = false /\ jtruthy (Guard.user s) = false)
  /\ (Guard.due s = false -> Guard.isPending s = false -> jtruthy (Guard.user s) = false ->
      exists tr1, issued tr = tr1 ++ [Replace "/login"])
  /\ (forall r, r_ok r = false ->
        (Guard.update Guard.Effect
           (Guard.update (Guard.Me (Guard.first_data (q_result DataWeb.useMe r).2) false) s).1).2
        = [Replace "/login"]).
Proof.
  split_and!.
  - intros [c Hc]. unfold Guard.view in Hc. destruct (Guard.isPending s), (jtruthy (Guard.user s));
      try done; apply list_elem_of_singleton in Hc; done.
  - intros a es s'. apply guard_step.
  - by apply (guard_redirects _ _ _ Hrun []).
  - intros r Hr. cbn -[q_result]. destruct (jtruthy (Guard.first_data _)) eqn:E; [|done].
    apply me_truthy in E. by rewrite Hr in E.
Qed.

Lemma guard_gate_witness :
  exists s, steps Guard.component (Guard.init JUndef true)
      [(Guard.Me JNull false, []); (Guard.Effect, [Replace "/login"])] s
    /\ (Guard.update Guard.Effect
         (Guard.update (Guard.Me (Guard.first_data
            (q_result DataWeb.useMe {| r_data := JUndef; r_error := JNull; r_status := 500 |}).2) false) s).1).2
       = [Replace "/login"].
Proof.
  assert (Hrun : exists s, steps Guard.component (Guard.init JUndef true)
      [(Guard.Me JNull false, []); (Guard.Effect, [Replace "/login"])] s).
  { eexists.
    eapply steps_cons; [eapply (by_env Guard.component _ (Guard.Me JNull false)); [exact I|reflexivity]|].
    eapply steps_cons; [eapply (by_env Guard.component _ Guard.Effect); [reflexivity|reflexivity]|].
    apply steps_refl. }
  destruct Hrun as [s Hrun]. exists s. split; [exact Hrun|].
  destruct (guard_gate _ _ _ _ Hrun) as (_ & _ & _ & H). by apply H.
Defined.

(** a verification link is used once: whatever the number of times its effect runs, the
    page sends its token at most once, and never without one. *)
Theorem verify_once token tr s (Hrun : steps (Verify.component token) (Verify.init token) tr s) :
  issued tr = [] \/ (issued tr = [token] /\ truthy token = true).
Proof.
  destruct (verify_steps _ _ _ _ Hrun) as [Hn Ht]. change (Verify.ran (Verify.init token)) with false in Hn.
  destruct (issued tr) as [|t [|t' l]]; [by left| |].
  - right. by apply Forall_singleton in Ht as [-> Ht].
  - exfalso. simpl in Hn. destruct (Verify.ran s); simpl in Hn; lia.
Qed.

Lemma verify_once_witness :
  exists tr s, steps (Verify.component "t") (Verify.init "t") tr s
    /\ map fst tr = [Verify.Effect; Verify.Effect]
    /\ (issued tr = [] \/ (issued tr = ["t" : jstr] /\ truthy ("t" : jstr) = true)).
Proof.
  assert (Hrun : exists tr s, steps (Verify.component "t") (Verify.init "t") tr s
                   /\ map fst tr = [Verify.Effect; Verify.Effect]).
  { eexists _, _. split.
    - eapply steps_cons; [eapply (by_env (Verify.component _) _ Verify.Effect); [exact I|reflexivity]|].
      eapply steps_cons; [eapply (by_env (Verify.component _) _ Verify.Effect); [exact I|reflexivity]|].
      apply steps_refl.
    - reflexivity. }
  destruct Hrun as (tr & s & Hrun & Hm). exists tr, s. split; [exact Hrun|]. split; [exact Hm|].
  exact (verify_once _ _ _ Hrun).
Defined.


(** The sign-in form, submitted and refused, along a run that then stays. *)
Definition a_refused_login : run (form LoginForm) :=
  play (c:=form LoginForm) init [Submit; Handle a_login; Answer (inl (JsError "Failed to fetch"))].


(** while ticks fire and calls settle, the resend button of an account whose address is
    known always becomes available again: neither a call in flight, a failure nor the
    cooldown disables it for good. *)
Theorem resend_returns email (r : run (Resend.component email)) (He : email <> [])
    (Hr : valid r) (Hinit : at_ r 0 = Resend.init) (Hfair : fair (c:=Resend.component email) is_answer r) :
  forall i, exists j, i <= j /\ offers (Resend.view email (at_ r j)) Resend.Click.
Proof.
  assert (Hc : forall i, cooled (at_ r i)).
  { apply (run_invariant (Resend.component email) cooled r Hr); [rewrite Hinit; split; [cbn; lia|done]|].
    intros s a es s' Hs Hstep. exact (proj1 (resend_step email _ _ _ _ Hs Hstep)). }
  assert (H : leads_to (c:=Resend.component email) r (fun _ => True) (fun s => wait s = 0 \/ False)).
  { apply (leads_to_measure (Resend.component email)). intros n. apply (fair_leads (Resend.component email) r is_answer cooled); try done.
    - intros s Hs Hw. apply resend_waits; [done|lia].
    - intros s a es s' Hs Hw Hstep. apply resend_answer in Hstep; [|done]. destruct a; lia.
    - intros s a es s' Hs Hw Ha Hstep. apply resend_answer in Hstep; [|done]. destruct a; [done| |]; lia. }
  intros i. destruct (H i I) as (j & Hj & [Hw|[]]). exists j. split; [done|]. by apply resend_enabled.
Qed.

(** One call that fails, then the whole cooldown. *)
Definition a_resend : run (Resend.component "a@b.co") :=
  play (c:=Resend.component "a@b.co") Resend.init
    (Resend.Click :: Resend.Settled (inl (JsError "Failed to fetch")) :: repeat Resend.Tick 60).

Lemma resend_returns_witness :
  valid a_resend /\ exists j, 1 <= j /\ offers (Resend.view "a@b.co" (at_ a_resend j)) Resend.Click.
Proof.
  assert (Hv : valid a_resend).
  { apply play_valid. vm_compute. repeat split; auto; tauto. }
  split; [exact Hv|].
  apply (resend_returns "a@b.co" a_resend); [done|exact Hv|reflexivity|].
  apply play_fair. intros a. destruct a; vm_compute; congruence.
Defined.
