(* ===== verification/Connect.v ===== *)
(** * Connecting channels: web/src/features/channels/ and mobile use-connect-flow.ts

    connect-channel-button.tsx and manual-connect-channel.tsx start a connection,
    oauth-callback-client.tsx finishes one, channels-panel.tsx offers them; on mobile
    use-connect-flow.ts does both.  The browser and the parsing of its answer are the
    environment's. *)
From S2P Require Import Prelude JsValue Ui Schema Format Platforms.
From S2P Require ComposerMobile.

Local Open Scope js_scope.

(** ** connect-channel-button.tsx *)

Module Oauth.
Section Oauth.
Variable platform label : jstr.

Record St := { error : option json; pending : bool }.
Definition init : St := {| error := None; pending := false |}.

Inductive Act := Click | Settled (o : outcome jstr).
Inductive Eff := Connect (platform : jstr) | Assign (url : jstr).   (* window.location.assign *)

Definition update (a : Act) (s : St) : St * list Eff :=
  match a with
  | Click => ({| error := None; pending := true |}, [Connect platform])
  | Settled (inr url) => ({| error := error s; pending := false |}, [Assign url])
  | Settled (inl e) => ({| error := Some (exn_message e); pending := false |}, [])
  end.

Definition view (s : St) : list (node Act) :=
  Btn (if pending s then "Redirecting…" else label) (negb (pending s)) Click :: alert (error s).

Definition awaiting (s : St) (a : Act) : Prop :=
  match a with Settled _ => pending s = true | Click => False end.

Definition component : component :=
  {| Ui.st := St; Ui.act := Act; Ui.eff := Eff; Ui.view := view; Ui.awaiting := awaiting;
     Ui.update := update |}.
End Oauth.
End Oauth.

(** ** manual-connect-channel.tsx *)

Module Manual.
Record St := { open : bool; botToken : jstr; chatId : jstr; error : option json; pending : bool }.
Definition init : St :=
  {| open := false; botToken := []; chatId := []; error := None; pending := false |}.

Inductive Act :=
  | SetOpen (b : bool) | SetToken (v : jstr) | SetChat (v : jstr) | Submit | Settled (o : outcome Channel).

(** [connect.mutateAsync({ platform: "telegram", credentials: { bot_token, chat_id } })] *)
Inductive Eff := ConnectManual (bot_token chat_id : jstr).

Definition update (a : Act) (s : St) : St * list Eff :=
  match a with
  | SetOpen b =>
      ({| open := b; botToken := botToken s; chatId := chatId s; error := error s;
          pending := pending s |}, [])
  | SetToken v =>
      ({| open := open s; botToken := v; chatId := chatId s; error := error s;
          pending := pending s |}, [])
  | SetChat v =>
      ({| open := open s; botToken := botToken s; chatId := v; error := error s;
          pending := pending s |}, [])
  | Submit =>
      ({| open := open s; botToken := botToken s; chatId := chatId s; error := None;
          pending := true |}, [ConnectManual (trim (botToken s)) (trim (chatId s))])
  | Settled (inr _) =>
      ({| open := false; botToken := []; chatId := []; error := error s; pending := false |}, [])
  | Settled (inl e) =>
      ({| open := open s; botToken := botToken s; chatId := chatId s;
          error := Some (exn_message e); pending := false |}, [])
  end.

Definition steps_text : list jstr :=
  ["How to set up Telegram";
   "In Telegram, open a chat with @BotFather and send /newbot. Follow the prompts to name your bot; BotFather replies with a token like 123456:ABC-DEF....";
   "Create (or open) the channel or group you want to post to, then add your new bot as an Administrator with the Post Messages permission.";
   "Get the chat id: for a public channel use @yourchannel; for a private channel/group, forward any message from it to @userinfobot (or @getidsbot) to read the numeric id, e.g. -1001234567890.";
   "Paste the bot token and chat id below, then Connect."].

Definition blocked (s : St) : bool :=
  pending s || negb (truthy (botToken s)) || negb (truthy (chatId s)).

Definition view (s : St) : list (node Act) :=
  if negb (open s) then [Btn "Connect" true (SetOpen true)]
  else
    map text steps_text
    ++ [Field "Bot token" (botToken s) true SetToken;
        Field "Chat ID or @channel" (chatId s) true SetChat]
    ++ alert (error s)
    ++ [Btn (if pending s then "Connecting…" else "Connect") (negb (blocked s)) Submit;
        Btn "Cancel" true (SetOpen false)].

Definition awaiting (s : St) (a : Act) : Prop :=
  match a with Settled _ => pending s = true | _ => False end.

Definition component : component :=
  {| Ui.st := St; Ui.act := Act; Ui.eff := Eff; Ui.view := view; Ui.awaiting := awaiting;
     Ui.update := update |}.
End Manual.

(** ** oauth-callback-client.tsx *)

Module Callback.
Section Callback.
(** The query parameters of the page. *)
Variable state code : option jstr.

Definition given (p : option jstr) : bool := match p with Some v => truthy v | None => false end.
Definition missing : bool := negb (given state) || negb (given code).

Inductive Status := connecting | success | error_.

Record St := { result : option (Status * json); fired : bool }.
Definition init : St := {| result := None; fired := false |}.

Inductive Act := Effect | Settled (o : outcome Channel).
Inductive Eff := Complete (state code : option jstr) | Replace (href : jstr).

Definition update (a : Act) (s : St) : St * list Eff :=
  match a with
  | Effect =>
      if missing || fired s then (s, [])
      else ({| result := result s; fired := true |}, [Complete state code])
  | Settled (inr channel) =>
      ({| result := Some (success, JStr (atHandle (ch_handle channel) ++ " is connected."));
          fired := fired s |}, [Replace "/channels"])
  | Settled (inl e) => ({| result := Some (error_, exn_message e); fired := fired s |}, [])
  end.

Definition status (s : St) : Status :=
  if missing then error_ else match result s with Some (st, _) => st | None => connecting end.
Definition message (s : St) : json :=
  if missing then JStr "This link is missing its authorization details. Try connecting again."
  else match result s with Some (_, m) => m | None => JStr [] end.

Definition view (s : St) : list (node Act) :=
  [Box "status"
     match status s with
     | connecting => [text "Connecting account"; text "Connecting your account…"]
     | success => [Txt (message s); text " Redirecting…"]
     | error_ => [Txt (if jtruthy (message s) then message s else JStr "The connection failed.");
                  Anchor "Back to channels" "/channels"]
     end].

(** The effect may run any number of times; the one exchange settles once. *)
Definition awaiting (s : St) (a : Act) : Prop :=
  match a with Effect => True | Settled _ => fired s = true /\ result s = None end.

Definition component : component :=
  {| Ui.st := St; Ui.act := Act; Ui.eff := Eff; Ui.view := view; Ui.awaiting := awaiting;
     Ui.update := update |}.
End Callback.
End Callback.

(** ** channels-panel.tsx *)

(** The control of a platform: its credentials form, or the button and its label. *)
Definition connect_control {A} (connected : list jstr) (p : PlatformInfo) : node A :=
  if flag (pi_manual p) then Ui.Slot ("ManualConnectChannel " ++ pi_key p)
  else Ui.Slot ("ConnectChannelButton " ++ pi_key p ++ " "
                ++ if is_in (pi_key p) connected then "Add another" else "Connect").

Definition platform_row {A} (connected : list jstr) (p : PlatformInfo) : list (node A) :=
  [text (pi_label p)] ++ when (is_in (pi_key p) connected) [text "Connected"]
  ++ when (flag (pi_payPerUse p)) [text "Pay-per-use"]
  ++ [text (pi_hint p)]
  ++ match pi_caveat p with Some c => when (truthy c) [text c] | None => [] end
  ++ [connect_control connected p].

Definition ChannelsPanel {A} (active : option jstr) (channels : option (list Channel))
    (isPending isError : bool) : list (node A) :=
  let connected := map ch_platform (match channels with Some cs => cs | None => [] end) in
  match active with
  | None => [text "Loading workspace"]
  | Some _ =>
      [text "Connected accounts";
       text "Each connected account becomes a channel you can publish and schedule posts to.";
       text "Social accounts this workspace can publish to."]
      ++ when isPending [text "Loading channels"]
      ++ when isError [Box "alert" [text "Couldn't load channels. Please try again."]]
      ++ match channels with
         | Some [] =>
             [text "No accounts connected yet";
              text "Connect your first social account below to start composing and scheduling posts."]
         | Some cs => map (fun c => Ui.Slot ("ChannelCard " ++ ch_id c)) cs
         | None => []
         end
      ++ [text "Connect a platform";
          text "You'll be sent to the platform to authorize Postal, then brought right back."]
      ++ (Web.PLATFORMS ≫= platform_row connected)
  end.

(** ** use-connect-flow.ts (mobile) *)

Inductive ConnectResult :=
  | Connected (channel : Channel) | Cancelled | Failed (message : json).

(** A query parameter of a deep link: a string, or something else (repeated, absent). *)
Inductive Param := PStr (s : jstr) | POther.

Inductive FlowCall :=
  | AskAuthorizeUrl (platform : jstr) | OpenAuthSession (url redirect : jstr)
  | CompleteOAuth (state code : jstr).

(** [(e as { message?: string }).message ?? "Connection failed."] *)
Definition failure (e : Exn) : ConnectResult :=
  Failed (ComposerMobile.Compose.message_or "Connection failed." e).

Section Flow.
Variable OAUTH_REDIRECT : jstr.
(** What the calls answer: the authorize URL, the in-app browser ([None]: not "success"),
    the parsed parameters of a URL, and the exchange. *)
Variable ask : jstr -> outcome jstr.
Variable browse : jstr -> jstr -> outcome (option jstr).
Variable parse : jstr -> outcome (Param * Param).
Variable complete : jstr -> jstr -> outcome Channel.

(** [run(platform)]: its result and the calls it made. *)
Definition run (platform : jstr) : ConnectResult * list FlowCall :=
  let c1 := AskAuthorizeUrl platform in
  match ask platform with
  | inl e => (failure e, [c1])
  | inr authorizeUrl =>
      let c2 := OpenAuthSession authorizeUrl OAUTH_REDIRECT in
      match browse authorizeUrl OAUTH_REDIRECT with
      | inl e => (failure e, [c1; c2])
      | inr None => (Cancelled, [c1; c2])
      | inr (Some url) =>
          match parse url with
          | inl e => (failure e, [c1; c2])
          | inr (PStr state, PStr code) =>
              (match complete state code with
               | inr channel => Connected channel
               | inl e => failure e
               end, [c1; c2; CompleteOAuth state code])
          | inr _ => (Failed (JStr "The authorization response was incomplete."), [c1; c2])
          end
      end
  end.
End Flow.

(** ** Lemmas *)

Section CallbackFacts.
Variable state code : option jstr.
Import Callback.
Abbreviation callback := (Callback.component state code).

Definition is_complete (e : Callback.Eff) : bool := match e with Complete _ _ => true | _ => false end.
Definition leaves (e : Callback.Eff) : bool := negb (is_complete e).
Definition exchanged (a : Callback.Act) : bool := match a with Settled (inr _) => true | _ => false end.

Lemma callback_step s a es s' :
  step callback s a es s' ->
  count is_complete es + bit (fired s) <= bit (fired s')
  /\ count leaves es = bit (exchanged a)
  /\ Forall (fun e => e = Complete state code /\ missing state code = false \/ e = Replace "/channels") es.
Proof.
  intros Hs. assert (Hu : Callback.update state code a s = (s', es)) by (by inversion Hs).
  destruct a as [|[e|ch]]; cbn -[missing] in Hu.
  - destruct (missing state code) eqn:E, (fired s) eqn:F; cbn in Hu; injection Hu as <- <-; cbn; rewrite ?F;
      (split; [simpl; lia|split; [done|]]; first [apply Forall_singleton; by left|constructor]).
  - by injection Hu as <- <-.
  - injection Hu as <- <-. split; [simpl; lia|]. split; [done|]. apply Forall_singleton. by right.
Qed.

Lemma callback_steps s tr s' :
  steps callback s tr s' ->
  count is_complete (issued tr) + bit (fired s) <= bit (fired s')
  /\ count leaves (issued tr) = count exchanged (map fst tr)
  /\ Forall (fun e => e = Complete state code /\ missing state code = false \/ e = Replace "/channels")
       (issued tr).
Proof.
  induction 1 as [s|s a es s1 tr s2 Hs _ (IH1 & IH2 & IH3)]; [split; [simpl; lia|by split]|].
  destruct (callback_step _ _ _ _ Hs) as (H1 & H2 & H3).
  change (issued ((a, es) :: tr)) with (es ++ issued tr). rewrite !count_app. split; [lia|].
  split; [|by apply Forall_app]. rewrite H2, IH2. unfold count. simpl. by destruct (exchanged a).
Qed.
End CallbackFacts.

Section ManualFacts.
Import Manual.

Definition settles (a : Manual.Act) : bool := match a with Settled _ => true | _ => false end.

Lemma offers_manual s a :
  offers (Manual.view s) a ->
  match a with
  | Submit => open s = true /\ blocked s = false
  | SetOpen _ | SetToken _ | SetChat _ => True
  | Settled _ => False
  end.
Proof.
  unfold Manual.view. destruct (open s); simpl negb; cbv iota.
  - rewrite !offers_app. intros [H|[H|[H|H]]].
    + apply offers_map in H as (t & _ & H). done.
    + destruct H as [[_ [t ->]]|[[_ [t ->]]|H]]; done.
    + by apply offers_alert in H.
    + destruct H as [[H ->]|[[_ ->]|H]]; [|done|done]. by apply negb_true_iff in H.
  - intros [[_ ->]|H]; done.
Qed.

(** What a submission sends, from non-empty fields. *)
Definition manual_ok (e : Manual.Eff) : Prop :=
  match e with ConnectManual t c => exists t0 c0, t0 <> [] /\ c0 <> [] /\ t = trim t0 /\ c = trim c0 end.

Lemma manual_step s a es s' :
  step Manual.component s a es s' ->
  Forall manual_ok es
  /\ bit (pending s') + bit (settles a) = bit (pending s) + count (fun _ => true) es.
Proof.
  intros Hs. assert (Hu : Manual.update a s = (s', es)) by (by inversion Hs).
  destruct a as [b|v|v| |[e|c]]; cbn in Hu.
  1-3: injection Hu as <- <-; split; [constructor|cbn; lia].
  - assert (Hb : blocked s = false).
    { inversion Hs as [? ? ? H|? ? ? H]; subst; [by apply offers_manual in H as [_ H]|done]. }
    unfold blocked in Hb. apply orb_false_iff in Hb as [[Hp Ht]%orb_false_iff Hc].
    apply negb_false_iff, truthy_true in Ht, Hc. injection Hu as <- <-. split.
    + apply Forall_singleton. cbn. eauto 6.
    + rewrite Hp. done.
  - assert (pending s = true) as Hp.
    { inversion Hs as [? ? ? H|? ? ? H]; subst; [by apply offers_manual in H|done]. }
    injection Hu as <- <-. rewrite Hp. by split.
  - assert (pending s = true) as Hp.
    { inversion Hs as [? ? ? H|? ? ? H]; subst; [by apply offers_manual in H|done]. }
    injection Hu as <- <-. rewrite Hp. by split.
Qed.

Lemma manual_balanced : balanced Manual.component pending (fun _ => true) settles.
Proof. intros s a es s' Hs. by apply manual_step in Hs as [_ H]. Qed.
End ManualFacts.

(** ** Properties *)

(** C36: an authorization code is exchanged at most once, however often the effect of the page
    runs, with the page's own state and code, and never when one of them is missing; the
    page leaves for the channels exactly when an exchange has succeeded. *)
Theorem oauth_exchanged_once state code tr s
  (Hrun : steps (Callback.component state code) (Callback.init) tr s) :
  count is_complete (issued tr) <= 1
  /\ count leaves (issued tr) = count exchanged (map fst tr)
  /\ (forall a b, Callback.Complete a b ∈ issued tr ->
        a = state /\ b = code /\ Callback.given state = true /\ Callback.given code = true).
Proof.
  destruct (callback_steps _ _ _ _ _ Hrun) as (H1 & H2 & H3). split_and!; [|done|].
  - assert (bit (Callback.fired s) <= 1) by (destruct (Callback.fired s); simpl; lia). lia.
  - intros a b Hin. rewrite Forall_forall in H3. apply H3 in Hin as [[He Hm]|?]; [|done].
    injection He as -> ->. unfold Callback.missing in Hm.
    apply orb_false_iff in Hm as [Hs%negb_false_iff Hc%negb_false_iff]. done.
Qed.

Lemma oauth_exchanged_once_witness :
  exists tr s, steps (Callback.component (Some ("s" : jstr)) (Some ("c" : jstr))) Callback.init tr s
    /\ map fst tr = [Callback.Effect; Callback.Effect]
    /\ issued tr = [Callback.Complete (Some ("s" : jstr)) (Some ("c" : jstr))]
    /\ count is_complete (issued tr) <= 1.
Proof.
  set (c := Callback.component (Some ("s" : jstr)) (Some ("c" : jstr))).
  assert (Hrun : exists tr s, steps c Callback.init tr s
    /\ map fst tr = [Callback.Effect; Callback.Effect]
    /\ issued tr = [Callback.Complete (Some ("s" : jstr)) (Some ("c" : jstr))]).
  { eexists _, _. split; [|split].
    - eapply steps_cons; [eapply (by_env c _ Callback.Effect); [exact I|reflexivity]|].
      eapply steps_cons; [eapply (by_env c _ Callback.Effect); [exact I|reflexivity]|].
      apply steps_refl.
    - reflexivity.
    - reflexivity. }
  destruct Hrun as (tr & s & Hrun & Hm & Hi). exists tr, s. split; [exact Hrun|].
  split; [exact Hm|]. split; [exact Hi|]. exact (proj1 (oauth_exchanged_once _ _ _ _ Hrun)).
Defined.

(** the device flow never rejects: it ends connected exactly when the authorize URL, the
    browser, two string parameters and the exchange all succeed; and it exchanges exactly
    the state and code of the redirect the browser caught, after the other calls. *)
Theorem connect_flow_result redirect ask browse parse complete platform :
  let r := run redirect ask browse parse complete platform in
  (forall ch, r.1 = Connected ch <->
     exists u url st cd, ask platform = inr u /\ browse u redirect = inr (Some url)
       /\ parse url = inr (PStr st, PStr cd) /\ complete st cd = inr ch)
  /\ (forall st cd, CompleteOAuth st cd ∈ r.2 <->
        exists u url, ask platform = inr u /\ browse u redirect = inr (Some url)
          /\ parse url = inr (PStr st, PStr cd)
          /\ r.2 = [AskAuthorizeUrl platform; OpenAuthSession u redirect; CompleteOAuth st cd])
  /\ (r.1 = Cancelled <-> exists u, ask platform = inr u /\ browse u redirect = inr None).
Proof.
  cbn. unfold run, failure.
  destruct (ask platform) as [e|u] eqn:E1;
    [|destruct (browse u redirect) as [e|[url|]] eqn:E2;
      [|destruct (parse url) as [e|[[st|] [cd|]]] eqn:E3;
        [|destruct (complete st cd) as [e|ch'] eqn:E4| | |]|]];
    cbn; split_and!; intros; rewrite ?elem_of_cons, ?elem_of_nil; split; intros H;
    naive_solver congruence.
Qed.

(** connecting by credentials: along any run of the form one request at a time is sent,
    each with the trimmed texts of two non-empty fields. *)
Theorem manual_connect_guarded tr s (Hrun : steps Manual.component Manual.init tr s) :
  length (issued tr) <= count settles (map fst tr) + 1 /\ Forall manual_ok (issued tr).
Proof.
  split.
  - pose proof (one_at_a_time _ _ _ _ manual_balanced Manual.init tr s eq_refl Hrun) as H.
    unfold count in H at 1. rewrite keep_all in H; [done|]. by apply Forall_forall.
  - apply (steps_issued Manual.component (fun _ => True) manual_ok) in Hrun as [_ H]; [done| |done].
    intros s0 a es s' _ Hs. split; [done|]. by apply manual_step in Hs as [H _].
Qed.

(** Blank fields pass the guard, and are sent as empty texts. *)
Lemma manual_connect_guarded_witness :
  exists tr s, steps Manual.component Manual.init tr s
    /\ issued tr = [Manual.ConnectManual [] []] /\ Forall manual_ok (issued tr).
Proof.
  assert (Hrun : exists tr s, steps Manual.component Manual.init tr s
                   /\ issued tr = [Manual.ConnectManual [] []]).
  { eexists _, _. split.
    - eapply steps_cons; [eapply (by_user Manual.component _ (Manual.SetOpen true)); [pick|reflexivity]|].
      eapply steps_cons; [eapply (by_user Manual.component _ (Manual.SetToken " ")); [pick|reflexivity]|].
      eapply steps_cons; [eapply (by_user Manual.component _ (Manual.SetChat " ")); [pick|reflexivity]|].
      eapply steps_cons; [eapply (by_user Manual.component _ Manual.Submit); [pick|reflexivity]|].
      apply steps_refl.
    - reflexivity. }
  destruct Hrun as (tr & s & Hrun & Hi). exists tr, s. split; [exact Hrun|]. split; [exact Hi|].
  exact (proj2 (manual_connect_guarded _ _ Hrun)).
Defined.

(** The connect button: one request at a time, one navigation per authorize URL. *)
Lemma connect_button_balanced platform label :
  balanced (Oauth.component platform label) Oauth.pending
    (fun e => match e with Oauth.Connect _ => true | _ => false end)
    (fun a => match a with Oauth.Settled _ => true | _ => false end).
Proof.
  intros s a es s' Hs. assert (Hu : Oauth.update platform a s = (s', es)) by (by inversion Hs).
  assert (Ha : match a with Oauth.Click => Oauth.pending s = false | Oauth.Settled _ => Oauth.pending s = true end).
  { inversion Hs as [? ? ? H|? ? ? H]; subst; [|by destruct a].
    destruct H as [[H ->]|H]; [by apply negb_true_iff in H|by apply offers_alert in H]. }
  destruct a as [|[e|u]]; cbn in Hu; injection Hu as <- <-; by rewrite Ha.
Qed.
