(* ===== verification/Access.v ===== *)
(** * Members and their access: web/src/features/members/ and the active workspace

    capability-checkboxes.tsx, add-member-form.tsx, members-panel.tsx,
    member-channel-access.tsx, activity-feed.tsx; workspace/use-active-workspace.ts of both
    apps and the switcher.  A JavaScript [Set] is the list of its elements in insertion
    order. *)
From S2P Require Import Prelude JsValue Ui Schema Format.

Local Open Scope js_scope.

(** ** Sets *)

(** [if (next.has(x)) next.delete(x); else next.add(x)] *)
Definition toggle_in {A} `{EqDecision A} (x : A) (l : list A) : list A :=
  if decide (x ∈ l) then keep (fun y => negb (bool_decide (y = x))) l else l ++ [x].

Lemma toggle_in_NoDup {A} `{EqDecision A} (x : A) l : NoDup l -> NoDup (toggle_in x l).
Proof.
  intros H. unfold toggle_in. case_decide as E; [by apply keep_NoDup|].
  apply NoDup_app. split; [done|]. split; [|apply NoDup_singleton].
  by intros y Hy ->%list_elem_of_singleton.
Qed.

Lemma toggle_in_elem {A} `{EqDecision A} (x : A) l y :
  y ∈ toggle_in x l <-> (if decide (y = x) then x ∉ l else y ∈ l).
Proof.
  unfold toggle_in. case_decide as E.
  - rewrite keep_In, negb_true_iff, bool_decide_eq_false. case_decide; subst; tauto.
  - rewrite elem_of_app, list_elem_of_singleton. case_decide; subst; tauto.
Qed.

(** ** config/capabilities.ts *)

#[export] Instance Capability_eq_dec : EqDecision Capability.
Proof. solve_decision. Defined.
#[export] Instance MemberRole_eq_dec : EqDecision MemberRole.
Proof. solve_decision. Defined.

Definition CAPABILITIES : list (Capability * jstr * jstr) :=
  [(cap_read, "Read" : jstr, "View posts, channels, media, and analytics" : jstr);
   (cap_create, "Create" : jstr, "Create draft posts" : jstr);
   (cap_update, "Update" : jstr, "Edit posts" : jstr);
   (cap_delete, "Delete" : jstr, "Delete posts" : jstr);
   (cap_upload, "Upload media" : jstr, "Upload images, GIFs, and video" : jstr);
   (cap_publish, "Publish" : jstr, "Schedule and publish posts" : jstr);
   (cap_manage_channels, "Manage channels" : jstr, "Connect and disconnect social accounts" : jstr);
   (cap_manage_members, "Manage members" : jstr, "Invite members and change permissions" : jstr);
   (cap_manage_workspace, "Manage workspace" : jstr, "Workspace-level settings" : jstr)].

Definition ROLES : list MemberRole := [admin; editor; viewer].

Definition ROLE_LABELS (r : MemberRole) : jstr :=
  match r with
  | owner => "Owner" | admin => "Admin" | editor => "Editor" | viewer => "Viewer"
  | custom => "Custom"
  end.

(** ** capability-checkboxes.tsx *)

Definition CapabilityCheckboxes {A} (value : list Capability) (onChange : list Capability -> A)
  : list (node A) :=
  [Box "group"
     (text "Capabilities" ::
      map (fun c => Toggle "checkbox" (c.1.2 ++ " " ++ c.2) (bool_decide (c.1.1 ∈ value)) true
                      (onChange (toggle_in c.1.1 value))) CAPABILITIES)].

(** ** add-member-form.tsx *)

Module AddMember.
(** The values of the render whose handler was submitted: validation is asynchronous, the
    handler keeps them. *)
Record Snap := { n_custom : bool; n_role : MemberRole; n_caps : list Capability }.
Inductive Phase := idle | validating (n : Snap) | handling.

Record St := { email : jstr; role : MemberRole; caps : list Capability; custom : bool;
  formError : option json; emailError : option json; phase : Phase }.

Definition init : St :=
  {| email := []; role := editor; caps := []; custom := false; formError := None;
     emailError := None; phase := idle |}.

Inductive Act :=
  | Type_ (v : jstr) | SetRole (r : MemberRole) | SetCaps (c : list Capability) | Customize | Submit
  | Invalid (e : json) | Handle (email : jstr) | Answer (o : outcome unit).

Inductive Eff :=
  Add (email : jstr) (role : option MemberRole) (capabilities : option (list Capability)).

Definition upd (p : Phase) (fe ee : option json) (s : St) : St :=
  {| email := email s; role := role s; caps := caps s; custom := custom s;
     formError := fe; emailError := ee; phase := p |}.

Definition request (n : Snap) (mail : jstr) : Eff :=
  Add mail (if n_custom n then None else Some (n_role n))
           (if n_custom n then Some (n_caps n) else None).

Definition update (a : Act) (s : St) : St * list Eff :=
  match a with
  | Type_ v =>
      ({| email := v; role := role s; caps := caps s; custom := custom s;
          formError := formError s; emailError := emailError s; phase := phase s |}, [])
  | SetRole r =>
      ({| email := email s; role := r; caps := caps s; custom := custom s;
          formError := formError s; emailError := emailError s; phase := phase s |}, [])
  | SetCaps c =>
      ({| email := email s; role := role s; caps := c; custom := custom s;
          formError := formError s; emailError := emailError s; phase := phase s |}, [])
  | Customize =>
      ({| email := email s; role := role s; caps := caps s; custom := negb (custom s);
          formError := formError s; emailError := emailError s; phase := phase s |}, [])
  | Submit =>
      (upd (validating {| n_custom := custom s; n_role := role s; n_caps := caps s |})
         (formError s) (emailError s) s, [])
  | Invalid e => (upd idle (formError s) (Some e) s, [])
  | Handle mail =>
      match phase s with
      | validating n => (upd handling None None s, [request n mail])
      | _ => (s, [])
      end
  | Answer (inr _) =>
      ({| email := []; role := role s; caps := []; custom := false; formError := formError s;
          emailError := None; phase := idle |}, [])
  | Answer (inl e) =>
      (match exn_fieldErrors e with
       | None => upd idle (formError s) (emailError s) s      (* a TypeError rejects the handler *)
       | Some fe =>
           match fe !! ("email" : jstr) with
           | Some m => if jtruthy m then upd idle (formError s) (Some m) s
                       else upd idle (Some (exn_message e)) (emailError s) s
           | None => upd idle (Some (exn_message e)) (emailError s) s
           end
       end, [])
  end.

Definition isSubmitting (s : St) : bool := match phase s with idle => false | _ => true end.

Definition view (s : St) : list (node Act) :=
  alert (formError s)
  ++ [Field "Email" (email s) true Type_] ++ alert (emailError s)
  ++ when (negb (custom s))
       (text "Role" ::
        map (fun r => Toggle "option" (ROLE_LABELS r) (bool_decide (role s = r)) true (SetRole r)) ROLES)
  ++ [Btn (if custom s then "Use a role instead" else "Customize permissions") true Customize]
  ++ when (custom s) (CapabilityCheckboxes (caps s) SetCaps)
  ++ [Btn (if isSubmitting s then "Adding…" else "Add member") (negb (isSubmitting s)) Submit].

Definition awaiting (s : St) (a : Act) : Prop :=
  match a with
  | Invalid _ | Handle _ => exists n, phase s = validating n
  | Answer _ => phase s = handling
  | _ => False
  end.

Definition component : component :=
  {| Ui.st := St; Ui.act := Act; Ui.eff := Eff; Ui.view := view; Ui.awaiting := awaiting;
     Ui.update := update |}.
End AddMember.

(** ** members-panel.tsx *)

Module MemberRow.
(** [shown] is the value of the [<select>], which React sets once, from [defaultValue] or,
    when no option has that value, from the first option. *)
Record St := { member : Member; shown : MemberRole; pending : bool }.

Definition init (m : Member) : St :=
  {| member := m;
     shown := if decide (m_role m ∈ ROLES) then m_role m else admin; pending := false |}.

Inductive Act := Choose (r : MemberRole) | Settled (o : outcome unit) | NewMember (m : Member).

(** [update.mutate({ userId, role })] *)
Inductive Eff := UpdateCapabilities (userId : jstr) (role : MemberRole).

Definition update (a : Act) (s : St) : St * list Eff :=
  match a with
  | Choose r => ({| member := member s; shown := r; pending := true |},
                 [UpdateCapabilities (m_user_id (member s)) r])
  | Settled _ => ({| member := member s; shown := shown s; pending := false |}, [])
  | NewMember m => ({| member := m; shown := shown s; pending := pending s |}, [])
  end.

(** Picking the option already selected is not a change. *)
Definition view (s : St) : list (node Act) :=
  let count := Z.of_nat (length (m_permissions (member s))) in
  [text (take 8 (m_user_id (member s)) ++ "…");
   text (showZ count ++ " permission" ++ if Z.eqb count 1 then [] else "s")]
  ++ (if decide (m_role (member s) = owner) then [text "Owner"]
      else map (fun r => Toggle "option" (ROLE_LABELS r) (bool_decide (shown s = r))
                           (negb (pending s) && negb (bool_decide (shown s = r))) (Choose r)) ROLES)
  ++ (if decide (m_role (member s) = owner) then [] else [Ui.Slot "MemberChannelAccess"]).

Definition awaiting (s : St) (a : Act) : Prop :=
  match a with
  | Settled _ => pending s = true
  | NewMember m => m_user_id m = m_user_id (member s)      (* the row's key *)
  | Choose _ => False
  end.

Definition component : component :=
  {| Ui.st := St; Ui.act := Act; Ui.eff := Eff; Ui.view := view; Ui.awaiting := awaiting;
     Ui.update := update |}.
End MemberRow.

Definition MembersPanel {A} (members : option (list Member)) (isPending isError : bool) : list (node A) :=
  [text "Members"; text "People with access to this workspace."]
  ++ when isPending [text "Loading"]
  ++ when isError [Box "alert" [text "Couldn't load members. Please try again."]]
  ++ match members with
     | Some [] => [text "No members yet."]
     | Some ms => map (fun m => Ui.Slot ("MemberRow " ++ m_user_id m)) ms
     | None => []
     end
  ++ [text "Add a member"; text "Invite someone by email and choose what they can do.";
      Ui.Slot "AddMemberForm"; Ui.Slot "ActivityFeed"].

(** ** member-channel-access.tsx *)

Module Editor.
Record St := { channels : option (list Channel);          (* data of useChannels *)
  restricted : bool; selected : list jstr; error : option json; saved : bool; pending : bool }.

(** [initial]: the access the loader fetched. *)
Definition init (channels : option (list Channel)) (restricted : bool) (allowed : list jstr) : St :=
  {| channels := channels; restricted := restricted; selected := dedupe allowed;
     error := None; saved := false; pending := false |}.

Inductive Act :=
  | SetRestricted (b : bool) | Toggle_ (id : jstr) | Save
  | Settled (o : outcome unit) | NewChannels (cs : option (list Channel)).

(** [save.mutateAsync({ restricted, channel_ids })] *)
Inductive Eff := SetMemberChannels (restricted : bool) (channel_ids : list jstr).

Definition upd (r : bool) (sel : list jstr) (e : option json) (sv p : bool) (s : St) : St :=
  {| channels := channels s; restricted := r; selected := sel; error := e; saved := sv; pending := p |}.

(** What is saved. *)
Definition request (s : St) : Eff :=
  SetMemberChannels (restricted s) (if restricted s then selected s else []).

Definition update (a : Act) (s : St) : St * list Eff :=
  match a with
  | SetRestricted b => (upd b (selected s) (error s) false (pending s) s, [])
  | Toggle_ id => (upd (restricted s) (toggle_in id (selected s)) (error s) false (pending s) s, [])
  | Save => (upd (restricted s) (selected s) None false true s, [request s])
  | Settled (inr _) => (upd (restricted s) (selected s) (error s) true false s, [])
  | Settled (inl e) => (upd (restricted s) (selected s) (Some (exn_message e)) (saved s) false s, [])
  | NewChannels cs =>
      ({| channels := cs; restricted := restricted s; selected := selected s; error := error s;
          saved := saved s; pending := pending s |}, [])
  end.

Definition view (s : St) : list (node Act) :=
  [Toggle "checkbox" "Restrict to selected channels" (restricted s) true (SetRestricted (negb (restricted s)))]
  ++ when (negb (restricted s)) [text "This member can publish to every channel."]
  ++ when (restricted s)
       match channels s with
       | Some [] => [text "No channels connected yet."]
       | Some cs => map (fun c => Toggle "checkbox" (atHandle (ch_handle c) ++ " " ++ ch_platform c)
                                    (bool_decide (ch_id c ∈ selected s)) true (Toggle_ (ch_id c))) cs
       | None => []
       end
  ++ [Btn (if pending s then "Saving…" else "Save access") (negb (pending s)) Save]
  ++ when (saved s) [text "Saved."]
  ++ match error s with Some e => when (jtruthy e) [Txt e] | None => [] end.

Definition awaiting (s : St) (a : Act) : Prop :=
  match a with Settled _ => pending s = true | NewChannels _ => True | _ => False end.

Definition component : component :=
  {| Ui.st := St; Ui.act := Act; Ui.eff := Eff; Ui.view := view; Ui.awaiting := awaiting;
     Ui.update := update |}.

(** The loader mounts an editor once the access is there. *)
Definition AccessLoader (access : option (bool * list jstr)) (isPending : bool)
    (channels : option (list Channel)) : option St :=
  if isPending then None
  else match access with Some (r, ids) => Some (init channels r ids) | None => None end.
End Editor.

(** ** activity-feed.tsx *)

Definition ACTION_LABELS : list (jstr * jstr) :=
  [("user.login" : jstr, "signed in" : jstr); ("user.signup" : jstr, "signed up" : jstr);
   ("user.password_reset_requested" : jstr, "requested a password reset" : jstr);
   ("user.email_verified" : jstr, "verified their email" : jstr);
   ("post.schedule" : jstr, "scheduled a post" : jstr);
   ("post.schedule_slots" : jstr, "queued a post to slots" : jstr);
   ("channel.connected" : jstr, "connected a channel" : jstr);
   ("channel.disconnected" : jstr, "disconnected a channel" : jstr);
   ("member.added" : jstr, "added a member" : jstr);
   ("member.capabilities_updated" : jstr, "changed a member's permissions" : jstr)].

(** [ACTION_LABELS[action] ?? action.replace(/[._]/g, " ")] *)
Definition action_label (action : jstr) : jstr :=
  match find (fun x => jeq x.1 action) ACTION_LABELS with
  | Some (_, l) => l
  | None => map (fun c => if N.eqb c 46 || N.eqb c 95 then 32%N else c) action
  end.

(** ** use-active-workspace.ts (both apps) and workspace-switcher.tsx *)

(** [workspaces.find((w) => w.id === activeId) ?? workspaces[0]] *)
Definition activeWorkspace (workspaces : list Workspace) (activeId : option jstr) : option Workspace :=
  match find (fun w => match activeId with Some i => jeq (w_id w) i | None => false end) workspaces with
  | Some w => Some w
  | None => head workspaces
  end.

(** The store holds the id chosen last; the list is the query's.  The entries are those of
    the menu once it is open. *)
Module Switcher.
Record St := { workspaces : list Workspace; activeId : option jstr }.

Inductive Act := SetActive (id : jstr) | NewWorkspaces (ws : list Workspace).

Definition update (a : Act) (s : St) : St * list unit :=
  match a with
  | SetActive id => ({| workspaces := workspaces s; activeId := Some id |}, [])
  | NewWorkspaces ws => ({| workspaces := ws; activeId := activeId s |}, [])
  end.

Definition active (s : St) : option Workspace := activeWorkspace (workspaces s) (activeId s).

Definition view (s : St) : list (node Act) :=
  match active s with
  | None => []
  | Some a =>
      [text (w_name a); text "Workspaces"]
      ++ map (fun w => Toggle "menuitem" (w_name w) (w_id w =ₛ w_id a) true (SetActive (w_id w)))
           (workspaces s)
  end.

Definition awaiting (s : St) (a : Act) : Prop :=
  match a with NewWorkspaces _ => True | SetActive _ => False end.

Definition component : component :=
  {| Ui.st := St; Ui.act := Act; Ui.eff := unit; Ui.view := view; Ui.awaiting := awaiting;
     Ui.update := update |}.
End Switcher.

(** ** Lemmas *)

Section AddFacts.
Import AddMember.

(** What the form may ask for: a role that can be given, or distinct capabilities. *)
Definition grant_ok (r : MemberRole) (c : list Capability) : Prop := r ∈ ROLES /\ NoDup c.
Definition add_ok (e : AddMember.Eff) : Prop :=
  match e with
  | Add _ (Some r) None => r ∈ ROLES
  | Add _ None (Some c) => NoDup c
  | _ => False
  end.
Definition add_inv (s : AddMember.St) : Prop :=
  grant_ok (role s) (caps s)
  /\ match phase s with validating n => grant_ok (n_role n) (n_caps n) | _ => True end.

Lemma offers_add s a :
  offers (AddMember.view s) a ->
  match a with
  | SetRole r => r ∈ ROLES
  | SetCaps c => exists x, c = toggle_in x (caps s)
  | Submit => phase s = idle
  | Type_ _ | Customize => True
  | _ => False
  end.
Proof.
  unfold AddMember.view. rewrite !offers_app. intros [H|[H|[H|[H|[H|[H|H]]]]]].
  - by apply offers_alert in H.
  - destruct H as [[_ [t ->]]|H]; done.
  - by apply offers_alert in H.
  - apply offers_when in H as [_ [H|H]]; [done|]. by apply offers_map in H as (r & Hr & [_ ->]).
  - destruct H as [[_ ->]|H]; done.
  - apply offers_when in H as [_ [H|H]]; [|done]. rewrite offered_Box in H. destruct H as [H|H]; [done|].
    apply offers_map in H as (c & _ & [_ ->]). eauto.
  - destruct H as [[H ->]|H]; [|done]. unfold isSubmitting in H. by destruct (phase s).
Qed.

Lemma add_step s a es s' :
  add_inv s -> step AddMember.component s a es s' -> add_inv s' /\ Forall add_ok es.
Proof.
  intros [[Hr Hc] Hp] Hs. assert (Hu : AddMember.update a s = (s', es)) by (by inversion Hs).
  assert (Ha : match a with SetRole r => r ∈ ROLES | SetCaps c => exists x, c = toggle_in x (caps s)
               | _ => True end).
  { inversion Hs as [? ? ? H|? ? ? H]; subst; [apply offers_add in H|cbn in H]; destruct a; cbn in H |- *; naive_solver. }
  unfold add_inv, grant_ok in *. destruct a as [v|r|c| | |e|m|[e|o]]; cbn in Hu.
  - by injection Hu as <- <-.
  - by injection Hu as <- <-.
  - injection Hu as <- <-. destruct Ha as [x ->].
    split; [|constructor]. split; [|done]. split; [done|]. by apply toggle_in_NoDup.
  - by injection Hu as <- <-.
  - by injection Hu as <- <-.
  - by injection Hu as <- <-.
  - destruct (phase s) as [|n|] eqn:E; injection Hu as <- <-; [by rewrite E| |by rewrite E].
    split; [done|]. apply Forall_singleton. unfold request.
    destruct Hp as [Hr' Hc']. by destruct (n_custom n).
  - injection Hu as <- <-. destruct (exn_fieldErrors e) as [fe|]; [|done].
    destruct (fe !! _) as [m|]; [|done]. by destruct (jtruthy m).
  - injection Hu as <- <-. split; [|constructor]. split; [|done]. split; [done|constructor].
Qed.
End AddFacts.

Section RowFacts.
Import MemberRow.

Definition row_ok (user : jstr) (e : MemberRow.Eff) : Prop :=
  match e with UpdateCapabilities u r => u = user /\ r ∈ ROLES end.
Definition row_answer (a : MemberRow.Act) : bool := match a with Settled _ => true | _ => false end.

Lemma offers_row s a :
  offers (MemberRow.view s) a ->
  exists r, a = Choose r /\ r ∈ ROLES /\ pending s = false /\ shown s <> r
    /\ m_role (member s) <> owner.
Proof.
  unfold MemberRow.view. rewrite !offers_app. intros [H|[H|H]].
  - simpl in H. tauto.
  - case_decide as E; [simpl in H; tauto|]. apply offers_map in H as (r & Hr & [H ->]).
    apply andb_true_iff in H as [Hp%negb_true_iff Hsh%negb_true_iff%bool_decide_eq_false]. eauto 6.
  - case_decide; simpl in H; tauto.
Qed.

Lemma row_step user s a es s' :
  m_user_id (member s) = user -> step MemberRow.component s a es s' ->
  m_user_id (member s') = user /\ Forall (row_ok user) es.
Proof.
  intros Hi Hs. assert (Hu : MemberRow.update a s = (s', es)) by (by inversion Hs).
  inversion Hs as [? ? ? H|? ? ? H]; subst.
  - apply offers_row in H as (r & -> & Hr & _). cbn in Hu. injection Hu as <- <-.
    split; [done|]. by apply Forall_singleton.
  - destruct a as [r|o|m]; [done| |]; cbn in Hu; injection Hu as <- <-; (split; [done|constructor]).
Qed.

Lemma row_balanced : balanced MemberRow.component pending (fun _ => true) row_answer.
Proof.
  intros s a es s' Hs. assert (Hu : MemberRow.update a s = (s', es)) by (by inversion Hs).
  inversion Hs as [? ? ? H|? ? ? H]; subst.
  - apply offers_row in H as (r & -> & _ & Hp & _). cbn in Hu. injection Hu as <- <-. by rewrite Hp.
  - destruct a as [r|o|m]; [done| |]; cbn in Hu, H; injection Hu as <- <-; [by rewrite H|].
    cbn. lia.
Qed.
End RowFacts.

Section EditorFacts.
Import Editor.

Definition access_ok (e : Editor.Eff) : Prop :=
  match e with SetMemberChannels r ids => NoDup ids /\ (r = false -> ids = []) end.
Definition access_answer (a : Editor.Act) : bool := match a with Settled _ => true | _ => false end.

Lemma offers_access s a :
  offers (Editor.view s) a ->
  match a with
  | SetRestricted b => b = negb (restricted s)
  | Toggle_ id => exists cs c, channels s = Some cs /\ c ∈ cs /\ id = ch_id c
  | Save => pending s = false
  | _ => False
  end.
Proof.
  unfold Editor.view. rewrite !offers_app. intros [H|[H|[H|[H|[H|H]]]]].
  - destruct H as [[_ ->]|H]; done.
  - apply offers_when in H as [_ H]. simpl in H. tauto.
  - apply offers_when in H as [_ H]. destruct (channels s) as [[|c cs]|]; [simpl in H; tauto| |done].
    apply offers_map in H as (c' & Hc & [_ ->]). eauto.
  - destruct H as [[H ->]|H]; [by apply negb_true_iff|done].
  - apply offers_when in H as [_ H]. simpl in H. tauto.
  - destruct (error s) as [e|]; [destruct (jtruthy e)|]; simpl in H; tauto.
Qed.

Lemma editor_step s a es s' :
  NoDup (selected s) -> step Editor.component s a es s' ->
  NoDup (selected s') /\ Forall access_ok es.
Proof.
  intros Hn Hs. assert (Hu : Editor.update a s = (s', es)) by (by inversion Hs).
  destruct a as [b|id| |[e|o]|cs]; cbn in Hu; injection Hu as <- <-;
    try (split; [done|constructor]; fail).
  - split; [by apply toggle_in_NoDup|constructor].
  - split; [done|]. apply Forall_singleton. cbn. destruct (restricted s); [done|].
    split; [constructor|done].
Qed.

Lemma editor_balanced : balanced Editor.component pending (fun _ => true) access_answer.
Proof.
  intros s a es s' Hs. assert (Hu : Editor.update a s = (s', es)) by (by inversion Hs).
  assert (Ha : match a with Save => pending s = false | Settled _ => pending s = true | _ => True end).
  { inversion Hs as [? ? ? H|? ? ? H]; subst; [apply offers_access in H|cbn in H]; destruct a; cbn in H |- *; naive_solver. }
  destruct a as [b|id| |[e|o]|cs]; cbn in Hu; injection Hu as <- <-; cbn; rewrite ?Ha; try done; lia.
Qed.
End EditorFacts.

(** ** Properties *)

(** nobody is made an owner, or given a malformed grant, through the screens: along any
    run, a member is added either with a role that can be given or with distinct
    capabilities, never both nor neither; a row changes only its own member, to such a
    role, one change at a time. *)
Theorem member_writes_ok m tr s tr' s'
  (Hadd : steps AddMember.component AddMember.init tr s)
  (Hrow : steps MemberRow.component (MemberRow.init m) tr' s') :
  Forall add_ok (issued tr)
  /\ Forall (row_ok (m_user_id m)) (issued tr')
  /\ length (issued tr') <= count row_answer (map fst tr') + 1.
Proof.
  split_and!.
  - apply (steps_issued AddMember.component add_inv add_ok add_step) in Hadd as [_ H]; [done|].
    split; [|done]. split; [|constructor]. apply elem_of_cons. right. by apply list_elem_of_here.
  - apply (steps_issued MemberRow.component _ _ (row_step (m_user_id m))) in Hrow as [_ H]; done.
  - pose proof (one_at_a_time _ _ _ _ row_balanced (MemberRow.init m) tr' s' eq_refl Hrow) as H.
    unfold count in H at 1. rewrite keep_all in H; [done|]. by apply Forall_forall.
Qed.

Definition member_of (r : MemberRole) : Member :=
  {| m_workspace_id := "w1"; m_user_id := "u1"; m_role := r; m_permissions := [cap_read] |}.

Lemma row_run :
  exists tr s, steps MemberRow.component (MemberRow.init (member_of editor)) tr s
    /\ issued tr = [MemberRow.UpdateCapabilities "u1" viewer].
Proof.
  eexists _, _. split.
  - eapply steps_cons; [eapply (by_user MemberRow.component _ (MemberRow.Choose viewer)); [pick|reflexivity]|].
    apply steps_refl.
  - reflexivity.
Qed.

Lemma member_writes_ok_witness :
  exists tr : list (MemberRow.Act * list MemberRow.Eff), issued tr = [MemberRow.UpdateCapabilities "u1" viewer] /\ Forall (row_ok "u1") (issued tr).
Proof.
  destruct row_run as (tr & s & Hrun & Hi). exists tr. split; [exact Hi|].
  exact (proj1 (proj2 (member_writes_ok (member_of editor) [] _ tr s (steps_refl _ _) Hrun))).
Defined.


Lemma editor_run :
  exists tr s, steps Editor.component (Editor.init None true ["c1"; "c2"; "c1"]) tr s
    /\ issued tr = [Editor.SetMemberChannels true ["c1"; "c2"]].
Proof.
  eexists _, _. split.
  - eapply steps_cons; [eapply (by_user Editor.component _ Editor.Save); [pick|reflexivity]|].
    apply steps_refl.
  - reflexivity.
Qed.


(** two displays that mislead: "Saved." appears for a restriction that was lifted while
    the save was pending and is not what was saved; and the role of a member with custom
    capabilities is shown as "Admin", while a refused change keeps showing the role asked
    for, without an alert. *)
Theorem access_displays_mislead :
  (exists tr s, steps Editor.component (Editor.init None true ["c1"]) tr s
     /\ issued tr = [Editor.SetMemberChannels true ["c1"]]
     /\ Editor.saved s = true /\ Editor.restricted s = false)
  /\ MemberRow.shown (MemberRow.init (member_of custom)) = admin
  /\ forall e, exists tr s, steps MemberRow.component (MemberRow.init (member_of admin)) tr s
       /\ map fst tr = [MemberRow.Choose viewer; MemberRow.Settled (inl e)]
       /\ MemberRow.shown s = viewer /\ m_role (MemberRow.member s) = admin
       /\ shows_role "alert" (MemberRow.view s) = false.
Proof.
  split_and!; [|reflexivity|intros e]; eexists _, _; split_and!.
  - eapply steps_cons; [eapply (by_user Editor.component _ Editor.Save); [pick|reflexivity]|].
    eapply steps_cons; [eapply (by_user Editor.component _ (Editor.SetRestricted false)); [pick|reflexivity]|].
    eapply steps_cons; [eapply (by_env Editor.component _ (Editor.Settled (inr tt))); [reflexivity|reflexivity]|].
    apply steps_refl.
  - reflexivity.
  - reflexivity.
  - reflexivity.
  - eapply steps_cons; [eapply (by_user MemberRow.component _ (MemberRow.Choose viewer)); [pick|reflexivity]|].
    eapply steps_cons; [eapply (by_env MemberRow.component _ (MemberRow.Settled (inl e))); [reflexivity|reflexivity]|].
    apply steps_refl.
  - reflexivity.
  - reflexivity.
  - reflexivity.
  - reflexivity.
Qed.

(** the active workspace: it is always one of the user's workspaces, and there is one as
    soon as the user has any; the stored choice is honoured when it is one of them, and
    picking an entry of the switcher makes that workspace active, whatever was stored. *)
Theorem active_workspace s :
  (forall w, Switcher.active s = Some w -> w ∈ Switcher.workspaces s)
  /\ (Switcher.active s = None <-> Switcher.workspaces s = [])
  /\ (forall i, Switcher.activeId s = Some i -> i ∈ map w_id (Switcher.workspaces s) ->
        exists w, Switcher.active s = Some w /\ w_id w = i)
  /\ (forall a es s', step Switcher.component s a es s' -> offers (Switcher.view s) a ->
        exists w i, a = Switcher.SetActive i /\ Switcher.active s' = Some w /\ w_id w = i).
Proof.
  assert (Hid : forall ws i, i ∈ map w_id ws ->
            exists w, activeWorkspace ws (Some i) = Some w /\ w_id w = i).
  { intros ws i Hin. unfold activeWorkspace. destruct (find _ ws) as [w|] eqn:E.
    - exists w. split; [done|]. apply find_some in E as [_ E]. by apply jeq_true in E.
    - apply list_elem_of_fmap in Hin as (w & -> & Hw). apply list_elem_of_In in Hw.
      apply (find_none _ _ E) in Hw. by rewrite jeq_refl in Hw. }
  destruct s as [ws cur]. unfold Switcher.active. cbn. split_and!.
  - unfold activeWorkspace. intros w H. destruct (find _ ws) as [w'|] eqn:E.
    + injection H as <-. apply find_some in E as [E _]. by apply list_elem_of_In.
    + destruct ws; [done|]. injection H as <-. apply list_elem_of_here.
  - unfold activeWorkspace. destruct ws as [|w ws]; [done|]. by destruct (find _ (w :: ws)).
  - intros i -> Hin. by apply Hid.
  - intros a es s' Hs Ho. unfold Switcher.view in Ho.
    destruct (Switcher.active _) as [w0|]; [|done].
    destruct Ho as [Ho|[Ho|Ho]]; [done|done|]. apply offers_map in Ho as (w & Hw & [_ ->]).
    destruct (Hid ws (w_id w)) as (w' & H1 & H2); [apply list_elem_of_fmap; eauto|].
    exists w', (w_id w). split; [done|]. split; [|done].
    assert (Hu : Switcher.update (Switcher.SetActive (w_id w))
                   {| Switcher.workspaces := ws; Switcher.activeId := cur |} = (s', es)) by (by inversion Hs).
    cbn in Hu. by injection Hu as <- _.
Qed.
