(* ===== verification/Wallet.v ===== *)
(** * The wallet: wallet-screen.tsx (web) and wallet.tsx (mobile)

    Amounts are typed as text, read as doubles and converted to credits with the arithmetic
    of JsNumber.v.  The balance, the history and the address come from the hooks and may
    change at any time. *)
From Stdlib Require Import QArith Qabs Lqa.
From S2P Require Import Prelude JsValue JsNumber Ui Schema.

Local Open Scope js_scope.
Local Open Scope Z_scope.

(** ** Currencies *)

Definition CREDITS_PER_USD : double := of_Z 100.
Definition NGN_PER_USD : double := of_Z 1500.
Definition NGN_PER_CREDIT : double := div NGN_PER_USD CREDITS_PER_USD.

Inductive TopupProvider := stripe | paystack | dev.
#[export] Instance TopupProvider_eq_dec : EqDecision TopupProvider.
Proof. solve_decision. Defined.

(** [Currency]; its [step] and [format] fields are read by no code that computes. *)
Record Currency := { code : jstr; symbol : jstr; min : double; presets : list double;
  toCredits : double -> double }.

Definition USD : Currency :=
  {| code := "USD"; symbol := "$"; min := of_Z 1;
     presets := [of_Z 5; of_Z 10; of_Z 25; of_Z 50];
     toCredits := fun a => round (mul a CREDITS_PER_USD) |}.

Definition NGN : Currency :=
  {| code := "NGN"; symbol := "₦"; min := NGN_PER_USD;
     presets := [of_Z 1500; of_Z 5000; of_Z 10000; of_Z 25000];
     toCredits := fun a => round (div a NGN_PER_CREDIT) |}.

Definition CURRENCY (p : TopupProvider) : Currency :=
  match p with stripe => USD | paystack => NGN | dev => USD end.

Definition PROVIDERS : list (TopupProvider * jstr * jstr) :=
  [(stripe, "Card (Stripe)" : jstr, "Cards worldwide, charged in USD." : jstr);
   (paystack, "Paystack" : jstr, "Cards and bank across Africa, charged in NGN." : jstr)].

Definition creditsToUSD (credits : double) : jstr := "$" ++ toFixed 2 (div credits CREDITS_PER_USD).

(** ** Shared rows *)

Definition ENTRY_LABEL (k : LedgerKind) : jstr :=
  match k with
  | topup => "Top-up" | publish_charge => "X publish" | refund => "Refund"
  | adjustment => "Adjustment"
  end.

Definition signed (credits : Z) : jstr := (if 0 <? credits then "+" else []) ++ showZ credits.

(** [tiers]: the prices that are set and not zero. *)
Definition tiers (w : option Wallet) : list (jstr * Z) :=
  let cost k := match w with Some w => wa_publish_costs w !! (k : jstr) | None => None end in
  [("Plain X post" : jstr, cost "twitter"); ("With media" : jstr, cost "twitter_media");
   ("With a link" : jstr, cost "twitter_url")]
  ≫= (fun t => match t.2 with Some v => when (negb (v =? 0)) [(t.1, v)] | None => [] end).

(** [localeDate] is [new Date(-).toLocaleString()]. *)
Definition LedgerRow {A} (localeDate : jstr -> jstr) (entry : LedgerEntry) : list (node A) :=
  [text (ENTRY_LABEL (le_kind entry)); text (localeDate (le_created_at entry));
   text (signed (le_credits entry))].

(** ** The web screen *)

Module Web.
Section Web.
(** [toLocaleString] of dates and numbers, and [process.env.NODE_ENV === "production"]. *)
Variable localeDate : jstr -> jstr.
Variable localeNumber : double -> jstr.
Variable production : bool.

(** What the hooks and the address give. *)
Record Props := { active : option Workspace; isPending : bool; wallet : option Wallet;
  ledger : option (list LedgerEntry); status : option jstr }.

Record St := { props : Props; provider : TopupProvider; amount : jstr; error : option json;
  pending : bool }.

Definition init (p : Props) : St :=
  {| props := p; provider := stripe; amount := "5"; error := None; pending := false |}.

Inductive Act :=
  | SwitchProvider (next : TopupProvider) | SetAmount (a : jstr) | StartTopup (chosen : TopupProvider)
  | Settled (o : outcome jstr) | NewProps (p : Props).

Inductive Eff := Topup (ws : jstr) (p : TopupProvider) (credits : double) | Assign (url : jstr).

Definition currency (s : St) : Currency := CURRENCY (provider s).
Definition numericAmount (s : St) : double := or_zero (parseFloat (amount s)).
Definition credits (s : St) : double := toCredits (currency s) (numericAmount s).
Definition belowMin (s : St) : bool := ltb (numericAmount s) (min (currency s)).

Definition minimum_error (c : Currency) : json :=
  JStr ("Minimum top-up is " ++ symbol c ++ toString (min c) ++ ".").

Definition startTopup (chosen : TopupProvider) (s : St) : St * list Eff :=
  let chosenCurrency := CURRENCY chosen in
  let chosenCredits := toCredits chosenCurrency (numericAmount s) in
  if ltb (numericAmount s) (min chosenCurrency) then
    ({| props := props s; provider := provider s; amount := amount s;
        error := Some (minimum_error chosenCurrency); pending := pending s |}, [])
  else
    ({| props := props s; provider := provider s; amount := amount s; error := None;
        pending := true |},
     [Topup (match active (props s) with Some w => w_id w | None => [] end) chosen chosenCredits]).

Definition update (a : Act) (s : St) : St * list Eff :=
  match a with
  | SwitchProvider next =>
      ({| props := props s; provider := next; amount := toString (min (CURRENCY next));
          error := None; pending := pending s |}, [])
  | SetAmount t =>
      ({| props := props s; provider := provider s; amount := t; error := error s;
          pending := pending s |}, [])
  | StartTopup chosen => startTopup chosen s
  | Settled (inr url) =>
      ({| props := props s; provider := provider s; amount := amount s; error := error s;
          pending := false |}, [Assign url])
  | Settled (inl e) =>
      ({| props := props s; provider := provider s; amount := amount s;
          error := Some (exn_message e); pending := false |}, [])
  | NewProps p =>
      ({| props := p; provider := provider s; amount := amount s; error := error s;
          pending := pending s |}, [])
  end.

Definition status_banner (status : option jstr) : list (node Act) :=
  match status with
  | Some t =>
      when (t =ₛ "success")
        [Box "status" [text "Payment received. Credits can take a few seconds to land while the provider confirms."]]
      ++ when (t =ₛ "canceled") [Box "status" [text "Checkout canceled. No charge was made."]]
  | None => []
  end.

Definition balance (s : St) : Z := match wallet (props s) with Some w => wa_balance w | None => 0 end.

Definition balance_panel (s : St) : list (node Act) :=
  [text "Balance"; Ui.Slot "Hint"; Txt (JNum (balance s)); text "credits";
   text (creditsToUSD (of_Z (balance s))); text " of publishing power"]
  ++ (match tiers (wallet (props s)) with
      | [] => []
      | ts => text "credits per X post" :: (ts ≫= (fun t => [text t.1; Txt (JNum t.2)]))
      end).

Definition provider_row (s : St) (p : TopupProvider * jstr * jstr) : list (node Act) :=
  let '(key, label, note) := p in
  [Toggle "radio" label (bool_decide (provider s = key)) true (SwitchProvider key); text note].

Definition topup_panel (s : St) : list (node Act) :=
  let c := currency s in
  [text "Top up"; text "Only publishing to X uses credits. Every other platform on Postal is free."]
  ++ (PROVIDERS ≫= provider_row s)
  ++ [Field ("Amount (" ++ code c ++ ")") (amount s) true SetAmount;
      text ("= " ++ toString (credits s) ++ " credits")]
  ++ map (fun preset => Btn (symbol c ++ localeNumber preset) true (SetAmount (toString preset))) (presets c)
  ++ [text ("Minimum " ++ symbol c ++ localeNumber (min c) ++ ". Rate: $1 = ₦" ++ localeNumber NGN_PER_USD ++ ".")]
  ++ Ui.alert (error s)
  ++ [Btn (if pending s then "Opening checkout"
           else "Buy " ++ toString (credits s) ++ " credits for " ++ symbol c ++ localeNumber (numericAmount s))
          (negb (pending s || belowMin s)) (StartTopup (provider s))]
  ++ when (negb production) [Btn "Dev top-up (free)" (negb (pending s)) (StartTopup dev)].

Definition history_panel (s : St) : list (node Act) :=
  text "History" ::
  (match ledger (props s) with
   | None | Some [] => [text "No movements yet. Top up to get started."]
   | Some l => l ≫= LedgerRow localeDate
   end).

Definition view (s : St) : list (node Act) :=
  match active (props s) with
  | Some _ =>
      if isPending (props s) then [Box "status" [text "Loading wallet"]]
      else status_banner (status (props s)) ++ balance_panel s ++ topup_panel s ++ history_panel s
  | None => [Box "status" [text "Loading wallet"]]
  end.

Definition awaiting (s : St) (a : Act) : Prop :=
  match a with Settled _ => pending s = true | NewProps _ => True | _ => False end.

Definition component : component :=
  {| Ui.st := St; Ui.act := Act; Ui.eff := Eff; Ui.view := view; Ui.awaiting := awaiting;
     Ui.update := update |}.
End Web.
End Web.

(** ** The mobile screen: read-only, with a link to the web wallet *)

Module Mobile.
Section Mobile.
Variable localeDate : jstr -> jstr.

Definition WEB_WALLET_URL : jstr := "https://postal.lettstv.com/wallet".

Inductive Act := OpenURL (url : jstr).

Definition Row (entry : LedgerEntry) : list (node Act) := LedgerRow localeDate entry.

Definition WalletScreen (active : option Workspace) (isPending : bool) (wallet : option Wallet)
    (ledger : option (list LedgerEntry)) : list (node Act) :=
  when (match active with None => true | Some _ => isPending end) [Ui.Slot "ActivityIndicator"]
  ++ match wallet with
     | Some w =>
         [text "Balance"; Txt (JNum (wa_balance w)); text " credits";
          text (creditsToUSD (of_Z (wa_balance w)) ++ " of publishing power")]
         ++ (match tiers wallet with
             | [] => []
             | ts => text "Credits per X post" :: (ts ≫= (fun t => [text t.1; Txt (JNum t.2)]))
             end)
         ++ [text "Top-ups are handled on the Postal web app. Only publishing to X uses credits; every other platform is free.";
             Btn "Top up on the web" true (OpenURL WEB_WALLET_URL); text "History"]
         ++ (match ledger with
             | None | Some [] => [text "No movements yet."]
             | Some l => l ≫= Row
             end)
     | None => []
     end.
End Mobile.
End Mobile.

(** ** Lemmas *)

Lemma or_zero_number x : is_NaN (or_zero x) = false.
Proof. by destruct x. Qed.

Lemma NGN_PER_CREDIT_eq : NGN_PER_CREDIT = of_Z 15.
Proof. by vm_compute. Qed.

(** An amount that is not below the minimum buys 100 credits or more. *)
Lemma credits_at_least p a : is_NaN a = false -> ltb a (min (CURRENCY p)) = false ->
  ltb (toCredits (CURRENCY p) a) (of_Z 100) = false /\ is_NaN (toCredits (CURRENCY p) a) = false.
Proof.
  assert (Hfin : forall c, no_less c (100 # 1) -> ltb c (of_Z 100) = false /\ is_NaN c = false).
  { intros c Hc. assert (is_NaN c = false) by (by destruct Hc as [->|(? & ? & -> & _)]).
    split; [|done]. by apply no_less_ltb. }
  assert (Husd : forall a, is_NaN a = false -> ltb a (of_Z 1) = false ->
            no_less (round (mul a (of_Z 100))) (100 # 1)).
  { intros b Hb Hl. apply no_less_ltb in Hl; [|done..].
    destruct (mul_no_less b 1 100 Hl) as [H1 H2]; [done|by apply Qle_bool_imp_le|].
    apply round_no_less; [done|done|]. eapply no_less_weaken; [|exact H1]. by apply Qle_bool_imp_le. }
  intros Ha Hm. apply Hfin. destruct p; cbn in *.
  - by apply Husd.
  - apply no_less_ltb in Hm; [|done..]. rewrite NGN_PER_CREDIT_eq.
    destruct (div_no_less a (1500 # 1) 15 Hm) as [H1 H2]; [done|by apply Qle_bool_imp_le|].
    apply round_no_less; [done|done|]. eapply no_less_weaken; [|exact H1]. by apply Qle_bool_imp_le.
  - by apply Husd.
Qed.

Section WebFacts.
Variable localeDate : jstr -> jstr.
Variable localeNumber : double -> jstr.
Variable production : bool.
Abbreviation screen := (Web.component localeDate localeNumber production).
Implicit Types s : Web.St.
Import Web.

Lemma wallet_offers s a : offers (Web.view localeDate localeNumber production s) a ->
  match a with
  | SwitchProvider p => p <> dev
  | SetAmount _ => True
  | StartTopup p => is_Some (active (props s)) /\ pending s = false
      /\ ((p = provider s /\ belowMin s = false) \/ (p = dev /\ production = false))
  | Settled _ | NewProps _ => False
  end.
Proof.
  unfold view. destruct (active (props s)) as [w|] eqn:Ew; [|cbn; tauto].
  destruct (isPending (props s)); [cbn; tauto|]. rewrite !offers_app.
  intros [H|[H|[H|H]]].
  - unfold status_banner in H. destruct (status (props s)) as [t|]; [|done].
    rewrite offers_app, !offers_when in H. cbn in H. tauto.
  - unfold balance_panel in H. rewrite offers_app in H. destruct H as [H|H]; [cbn in H; tauto|].
    destruct (tiers (wallet (props s))) as [|t ts]; [done|]. destruct H as [H|H]; [done|].
    apply offers_bind in H as (x & _ & H). cbn in H. tauto.
  - unfold topup_panel in H. rewrite !offers_app, offers_when, offers_map, offers_bind in H.
    destruct H as [H|[H|[H|[H|[H|[H|[H|[Hp H]]]]]]]]; [cbn in H; tauto| | | |cbn in H; tauto| | |].
    + destruct H as (x & Hx & H). unfold PROVIDERS in Hx. rewrite !elem_of_cons, elem_of_nil in Hx.
      destruct Hx as [->|[->|[]]]; cbn in H; destruct H as [[_ ->]|[H|H]]; try done.
    + cbn in H. destruct H as [[_ [t ->]]|[H|H]]; done.
    + destruct H as (x & _ & [_ ->]). done.
    + by apply offers_alert in H.
    + destruct H as [[H ->]|H]; [|done]. apply negb_true_iff, orb_false_iff in H as [? ?].
      split_and!; [eauto|done|by left].
    + destruct H as [[H ->]|H]; [|done]. apply negb_true_iff in H, Hp. split_and!; [eauto|done|by right].
  - unfold history_panel in H. destruct H as [H|H]; [done|].
    destruct (ledger (props s)) as [[|e l]|]; [cbn in H; tauto| |cbn in H; tauto].
    apply offers_bind in H as (x & _ & H). cbn in H. tauto.
Qed.

(** The buy button can be used as soon as the amount reaches the minimum. *)
Lemma wallet_buy_enabled s w :
  active (props s) = Some w -> isPending (props s) = false -> pending s = false -> belowMin s = false ->
  offers (Web.view localeDate localeNumber production s) (StartTopup (provider s)).
Proof.
  intros Hw Hi Hp Hb. unfold view. rewrite Hw, Hi, !offers_app. right. right. left.
  unfold topup_panel. rewrite !offers_app. right. right. right. right. right. right. left. left.
  by rewrite Hp, Hb.
Qed.

Definition is_topup (e : Eff) : bool := match e with Topup _ _ _ => true | Assign _ => false end.
Definition is_answer (a : Act) : bool := match a with Settled _ => true | _ => false end.

Lemma wallet_balanced : balanced screen pending is_topup is_answer.
Proof.
  intros s a es s' Hs. assert (Hu : update a s = (s', es)) by (by inversion Hs).
  destruct a as [p|t|p|[e|url]|p]; cbn in Hu; try (injection Hu as <- <-; cbn; lia).
  - inversion Hs as [? ? ? H|? ? ? H]; subst; [|done]. apply wallet_offers in H as (_ & Hp & _).
    unfold startTopup in Hu. destruct (ltb _ _); injection Hu as <- <-; cbn; rewrite Hp; done.
  - inversion Hs as [? ? ? H|? ? ? H]; subst; [by apply wallet_offers in H|].
    cbn in H. injection Hu as <- <-. cbn. rewrite H. done.
  - inversion Hs as [? ? ? H|? ? ? H]; subst; [by apply wallet_offers in H|].
    cbn in H. injection Hu as <- <-. cbn. rewrite H. done.
Qed.

Lemma provider_not_dev p0 s : reachable screen (init p0) s -> provider s <> dev.
Proof.
  revert s. refine (reachable_invariant screen (fun s => provider s <> dev) (init p0) _ _); [done|]. intros s a es s' Hi Hs.
  assert (Hu : update a s = (s', es)) by (by inversion Hs).
  destruct a as [p|t|p|[e|url]|p]; cbn in Hu; try (injection Hu as <- <-; done).
  - inversion Hs as [? ? ? H|? ? ? H]; subst; [|done]. apply wallet_offers in H.
    by injection Hu as <- <-.
  - unfold startTopup in Hu. by destruct (ltb _ _); injection Hu as <- <-.
Qed.
End WebFacts.

(** ** Properties *)

(** C34: top-ups in every run of the wallet screen: a checkout is opened one at a time, for
    the workspace shown, at the amount the screen converts with the chosen provider's
    currency, never under its minimum and never for fewer than 100 credits; the free
    development top-up is never asked for in production. *)
Theorem wallet_topups_ok localeDate localeNumber production p0 tr s
  (Hrun : steps (Web.component localeDate localeNumber production) (Web.init p0) tr s) :
  (count is_topup (issued tr) <= count is_answer (map fst tr) + 1)%nat
  /\ forall a es s' ws p c,
       step (Web.component localeDate localeNumber production) s a es s' -> Web.Topup ws p c ∈ es ->
       (exists w, Web.active (Web.props s) = Some w /\ ws = w_id w)
       /\ c = toCredits (CURRENCY p) (Web.numericAmount s)
       /\ ltb (Web.numericAmount s) (min (CURRENCY p)) = false
       /\ is_NaN c = false /\ ltb c (of_Z 100) = false
       /\ (p = dev -> production = false).
Proof.
  split.
  - pose proof (one_at_a_time _ _ _ _ (wallet_balanced localeDate localeNumber production)
                  (Web.init p0) tr s eq_refl Hrun). done.
  - intros a es s' ws p c Hs Hin.
    pose proof (provider_not_dev _ _ _ _ _ (ex_intro _ tr Hrun)) as Hd.
    inversion Hs as [? ? ? H Hu|? ? ? H Hu]; subst; cbn in Hu.
    + apply wallet_offers in H. destruct a as [q|t|q|[e|u]|q]; cbn in Hu;
        try (injection Hu as <- <-; by apply elem_of_nil in Hin).
      * destruct H as ([w Hw] & _ & Hq). unfold Web.startTopup in Hu.
        destruct (ltb _ _) eqn:El; injection Hu as <- <-; [by apply elem_of_nil in Hin|].
        apply list_elem_of_singleton in Hin. injection Hin as -> -> ->. rewrite Hw.
        destruct (credits_at_least q (Web.numericAmount s) (or_zero_number _) El).
        split_and!; [by exists w|done..|]. intros ->. destruct Hq as [[Hq _]|[_ Hq]]; [by subst|done].
      * done.
    + destruct a as [q|t|q|[e|u]|q]; cbn in Hu, H; try done; injection Hu as <- <-;
        first [by apply elem_of_nil in Hin | by apply list_elem_of_singleton in Hin].
Qed.

Definition sample_wallet : Wallet := {| wa_workspace_id := "w1"; wa_balance := 0;
  wa_publish_costs := ∅; wa_updated_at := [] |}.
Definition sample_props : Web.Props :=
  {| Web.active := Some {| w_id := "w1"; w_name := "W"; w_owner_user_id := "u";
                       w_plan := "free"; w_created_at := [] |};
     Web.isPending := false; Web.wallet := Some sample_wallet; Web.ledger := None; Web.status := None |}.

Lemma wallet_topups_ok_witness :
  exists s c, (exists es s',
    step (Web.component id toString true) s (Web.StartTopup stripe) es s' /\ Web.Topup "w1" stripe c ∈ es)
  /\ c = of_Z 1234 /\ is_NaN c = false.
Proof.
  assert (Hrun : steps (Web.component id toString true) (Web.init sample_props)
    [(Web.SetAmount "12.34", [])]
    {| Web.props := sample_props; Web.provider := stripe; Web.amount := "12.34"; Web.error := None;
       Web.pending := false |}).
  { eapply steps_cons; [eapply (by_user (Web.component id toString true) _ (Web.SetAmount "12.34"));
      [pick|reflexivity]|apply steps_refl]. }
  destruct (wallet_topups_ok id toString true sample_props _ _ Hrun) as [_ H].
  eexists _, (of_Z 1234).
  assert (Hs : exists es s', step (Web.component id toString true) {| Web.props := sample_props;
      Web.provider := stripe; Web.amount := "12.34"; Web.error := None; Web.pending := false |}
      (Web.StartTopup stripe) es s' /\ Web.Topup "w1" stripe (of_Z 1234) ∈ es).
  { eexists [Web.Topup "w1" stripe (of_Z 1234)], _. split; [|apply list_elem_of_here].
    eapply (by_user (Web.component id toString true) _ (Web.StartTopup stripe)).
    - by eapply wallet_buy_enabled.
    - vm_compute. reflexivity. }
  split; [exact Hs|]. split; [done|]. destruct Hs as (es & s' & Hs & Hin).
  exact (proj1 (proj2 (proj2 (proj2 (H _ _ _ _ _ _ Hs Hin))))).
Defined.

(** *** Amounts *)

Section Amounts.
Local Open Scope Q_scope.

(** [2^-53], the relative error of a rounding, and what remains of an amount below [2^50]. *)
Local Abbreviation ulp := (1 # 2 ^ 53).

Lemma positive_moderate p q : (Zpos p < 2 ^ 50)%Z -> (Zpos q <= 1000)%Z -> moderate (Zpos p # q).
Proof. intros Hp Hq. split; unfold Qle; cbn [Qnum Qden]; lia. Qed.

(** [c] cents divided by 100, and the product with 100 again. *)
Lemma cents_about c : (Zpos c < 2 ^ 50)%Z ->
  is_about (rnd false (c * 1) 100) (Zpos c # 100) ((Zpos c # 100) * ulp).
Proof.
  intros Hc. apply rnd_about; [by rewrite Pos.mul_1_r|]. by apply positive_moderate.
Qed.

Lemma usd_round c : (Zpos c < 2 ^ 50)%Z ->
  round (mul (rnd false (c * 1) 100) CREDITS_PER_USD) = of_Z (Zpos c).
Proof.
  intros Hc. destruct (cents_about c Hc) as (m & e & -> & _ & H1).
  destruct (of_Z_exact 100 eq_refl) as (m' & e' & E & _ & Hv). unfold CREDITS_PER_USD. rewrite E.
  destruct (mul_finite m e m' e') as (n & d & -> & Hq). rewrite Hv in Hq.
  set (v := Zpos (num m e) # den e) in *.
  assert (Hx : (Zpos c # 100) * (100 # 1) == (Zpos c # 1)) by (unfold Qeq, Qmult; cbn [Qnum Qden]; lia).
  assert (Hc' : 1 <= (Zpos c # 1)) by (unfold Qle; cbn [Qnum Qden]; lia).
  assert (Hc2 : (Zpos c # 1) * ulp <= 1 # 8).
  { unfold Qle, Qmult. cbn [Qnum Qden]. lia. }
  assert (Hu : ulp * (100 # 1) <= 1 # 2) by (by apply Qle_bool_imp_le).
  apply Qabs_Qle_condition in H1 as [H1 H2].
  set (k := ulp) in *. set (x := Zpos c # 100) in *. set (z := Zpos c # 1) in *.
  assert (Hk : 0 <= k /\ k <= 1 # 1000) by (split; by apply Qle_bool_imp_le).
  assert (Hb1 : z - (1 # 8) <= v * (100 # 1)) by nra. assert (Hb2 : v * (100 # 1) <= z + (1 # 8)) by nra.
  destruct (rnd_about n d (v * (100 # 1)) Hq) as (a & b & Er & Hm & Ha).
  { split; [apply Qle_trans with (z - (1 # 8)); [apply Qle_trans with (1 # 2); [by apply Qle_bool_imp_le|lra]|done]|].
    apply Qle_trans with (z + (1 # 8)); [done|].
    assert (z <= (2 ^ 50 # 1)) by (unfold z, Qle; cbn [Qnum Qden]; lia).
    assert ((2 ^ 50 # 1) + (1 # 8) <= (2 ^ 60 # 1)) by (by apply Qle_bool_imp_le). lra. }
  apply (round_about _ (v * (100 # 1)) (v * (100 # 1) * k)); [by exists a, b|lia|]. fold z.
  assert (v * (100 # 1) * k <= (1 # 8) + (1 # 8000)) by nra.
  assert (Qabs (v * (100 # 1) - z) <= 1 # 8) by (apply Qabs_Qle_condition; split; lra). lra.
Qed.

Lemma usd_show c : (Zpos c < 2 ^ 50)%Z ->
  toFixed 2 (div (of_Z (Zpos c)) CREDITS_PER_USD) = with_point 2 (Npos c).
Proof.
  intros Hc. destruct (of_Z_exact c ltac:(lia)) as (m & e & -> & _ & Hv).
  destruct (of_Z_exact 100 eq_refl) as (m' & e' & E & _ & Hv'). unfold CREDITS_PER_USD. rewrite E.
  destruct (div_finite m e m' e') as (n & d & -> & Hq). rewrite Hv, Hv' in Hq.
  assert (Hq' : (Zpos n # d) == (Zpos c # 100)).
  { rewrite Hq. unfold Qeq, Qdiv, Qmult, Qinv. cbn [Qnum Qden]. lia. }
  rewrite (fixed_about 2 _ _ _ (Zpos c) (rnd_about _ _ _ Hq' (positive_moderate c 100 Hc ltac:(lia))));
    [done|lia| |lia].
  change (10 ^ Z.of_nat 2 # 1) with (100 # 1).
  assert (Hx : (Zpos c # 100) * (100 # 1) - (Zpos c # 1) == 0).
  { unfold Qeq, Qminus, Qplus, Qopp, Qmult. cbn [Qnum Qden]. lia. }
  rewrite Hx. change (Qabs 0) with 0. rewrite Qplus_0_l. unfold Qlt, Qmult. cbn [Qnum Qden]. lia.
Qed.

Lemma naira_round a : (Zpos a < 2 ^ 50)%Z ->
  round (div (of_Z (Zpos a)) NGN_PER_CREDIT) = of_Z ((2 * Zpos a + 15) / 30).
Proof.
  intros Ha. rewrite NGN_PER_CREDIT_eq. destruct (of_Z_exact a ltac:(lia)) as (m & e & -> & _ & Hv).
  destruct (of_Z_exact 15 eq_refl) as (m' & e' & -> & _ & Hv').
  destruct (div_finite m e m' e') as (n & d & -> & Hq). rewrite Hv, Hv' in Hq.
  assert (Hq' : (Zpos n # d) == (Zpos a # 15)).
  { rewrite Hq. unfold Qeq, Qdiv, Qmult, Qinv. cbn [Qnum Qden]. lia. }
  pose proof (Z.div_mod (2 * Zpos a + 15) 30 ltac:(lia)) as D.
  pose proof (Z.mod_pos_bound (2 * Zpos a + 15) 30 ltac:(lia)).
  set (z := ((2 * Zpos a + 15) / 30)%Z) in *.
  apply (round_about _ _ _ z (rnd_about _ _ _ Hq' (positive_moderate a 15 Ha ltac:(lia)))); [lia|].
  assert (H1 : Qabs ((Zpos a # 15) - (z # 1)) <= 7 # 15).
  { apply Qabs_Qle_condition. unfold Qle, Qminus, Qplus, Qopp. cbn [Qnum Qden]. lia. }
  assert (H2 : (Zpos a # 15) * ulp <= 1 # 120) by (unfold Qle, Qmult; cbn [Qnum Qden]; lia).
  assert ((7 # 15) + (1 # 120) < 1 # 2) by reflexivity. lra.
Qed.
End Amounts.

(** C35: amounts of money survive binary floating point: below [2^50] cents, the dollars
    shown for a balance of [c] credits have exactly its cents, typing those dollars buys
    exactly [c] credits, and typing a whole number of naira buys the nearest number of
    credits at 15 naira each. *)
Theorem wallet_amounts_exact c (Hc : Zpos c < 2 ^ 50) :
  creditsToUSD (of_Z (Zpos c)) = "$" ++ with_point 2 (Npos c)
  /\ toCredits USD (or_zero (parseFloat (with_point 2 (Npos c)))) = of_Z (Zpos c)
  /\ toCredits NGN (or_zero (parseFloat (showN (Npos c)))) = of_Z ((2 * Zpos c + 15) / 30).
Proof.
  assert (Ho : forall m e, or_zero (Finite false m e) = Finite false m e) by done.
  split_and!.
  - unfold creditsToUSD. by rewrite usd_show.
  - rewrite parseFloat_with_point. cbn [of_decimal]. change (pow10 (- Z.of_nat 2)) with 1%positive.
    change (pow10 (- - Z.of_nat 2)) with 100%positive.
    destruct (cents_about c Hc) as (m & e & E & _). pose proof (usd_round c Hc) as Hr.
    rewrite E in *. by rewrite Ho.
  - rewrite parseFloat_showN. cbn [of_decimal]. change (pow10 0) with 1%positive.
    change (pow10 (- 0)) with 1%positive. rewrite Pos.mul_1_r.
    change (rnd false c 1) with (of_Z (Zpos c)). pose proof (naira_round c Hc) as Hr.
    destruct (of_Z_exact c ltac:(lia)) as (m & e & E & _). rewrite E in *. by rewrite Ho.
Qed.

Lemma wallet_amounts_exact_witness :
  creditsToUSD (of_Z 123456789) = "$1234567.89"
  /\ toCredits USD (or_zero (parseFloat "0.29")) = of_Z 29
  /\ toCredits NGN (or_zero (parseFloat "10000")) = of_Z 667.
Proof.
  split_and!.
  - exact (proj1 (wallet_amounts_exact 123456789 eq_refl)).
  - exact (proj1 (proj2 (wallet_amounts_exact 29 eq_refl))).
  - exact (proj2 (proj2 (wallet_amounts_exact 10000 eq_refl))).
Defined.

(** Choosing a provider or a preset leaves an amount that its currency accepts. *)
Theorem wallet_presets_accepted p s :
  let chosen := (Web.update (Web.SwitchProvider p) s).1 in
  Web.belowMin chosen = false
  /\ Forall (fun a => Web.belowMin (Web.update (Web.SetAmount (toString a)) chosen).1 = false)
       (presets (Web.currency chosen)).
Proof. destruct p; split; repeat constructor. Qed.

(** The development top-up ignores the chosen currency: it reads an amount typed in naira
    as dollars, and its minimum is one. *)
Theorem dev_topup_reads_dollars s (Hp : Web.provider s = paystack) (Ha : Web.amount s = "1500") :
  Web.credits s = of_Z 100
  /\ (Web.update (Web.StartTopup dev) s).2
     = [Web.Topup (match Web.active (Web.props s) with Some w => w_id w | None => [] end) dev (of_Z 150000)].
Proof.
  unfold Web.credits, Web.currency, Web.numericAmount. cbn. unfold Web.startTopup, Web.numericAmount.
  rewrite Hp, Ha. split; reflexivity.
Qed.
