(* ===== verification/Calendar.v ===== *)
(** * The calendar and the overview: calendar-screen.tsx and overview-widgets.tsx (web)

    Dates are time values (milliseconds, [Z]).  The date package is an interface: [DateFns]
    are the functions the screens import, [DateLaws] what its documentation says of them;
    [Utc] is an implementation of both in the UTC time zone.  A child component with a state
    of its own is a [Slot] named by its component and its key. *)
From stdpp Require Import sorting.
From S2P Require Import Prelude JsValue Ui Schema Format Query DataWeb.

Local Open Scope js_scope.
Local Open Scope Z_scope.

Class DateFns := {
  startOfDay : Z -> Z;
  startOfWeek : Z -> Z; endOfWeek : Z -> Z;
  startOfMonth : Z -> Z; endOfMonth : Z -> Z;
  addDays : Z -> Z -> Z; addWeeks : Z -> Z -> Z; addMonths : Z -> Z -> Z;
  eachDayOfInterval : Z -> Z -> list Z;
  isSameDay : Z -> Z -> bool;
  format : Z -> jstr -> jstr;
  toISOString : Z -> jstr;
  parseDate : jstr -> option Z         (* [new Date(iso)]; [None]: an invalid date *) }.

(** A day is named by its start; an interval is listed by the starts of the days it meets,
    each once; a week and a month contain their days. *)
Class DateLaws (D : DateFns) := {
  same_day a b : isSameDay a b = true <-> startOfDay a = startOfDay b;
  days_spec s e d : d ∈ eachDayOfInterval s e <-> exists t, s <= t <= e /\ startOfDay t = d;
  days_distinct s e : NoDup (eachDayOfInterval s e);
  start_of_start t : startOfDay (startOfDay t) = startOfDay t;
  in_week t : startOfWeek t <= t <= endOfWeek t;
  in_month t : startOfMonth t <= t <= endOfMonth t }.

(** ** The calendar screen *)

Module Calendar.
Section Calendar.
Context `{D : DateFns}.

Inductive View := month | week.
#[export] Instance View_eq_dec : EqDecision View.
Proof. solve_decision. Defined.

(** What the hooks give; [jobs] is the answer for the range being shown. *)
Record Props := { active : option Workspace; jobs : option (list Job); isPending : bool;
  isError : bool; channels : option (list Channel) }.

Record St := { props : Props; view_ : View; cursor : Z; selectedDay : option Z }.

Definition init (p : Props) (today : Z) : St :=
  {| props := p; view_ := month; cursor := today; selectedDay := None |}.

Inductive Act :=
  | Step (dir : Z) | SetView (v : View) | SetSelectedDay (d : option Z) | NewProps (p : Props).

Definition rangeStart (s : St) : Z :=
  if bool_decide (view_ s = month) then startOfWeek (startOfMonth (cursor s)) else startOfWeek (cursor s).
Definition rangeEnd (s : St) : Z :=
  if bool_decide (view_ s = month) then endOfWeek (endOfMonth (cursor s)) else endOfWeek (cursor s).

(** The query the screen makes. *)
Definition query (s : St) : Query :=
  useCalendar (match active (props s) with Some w => Some (w_id w) | None => None end)
    (Some (toISOString (rangeStart s))) (Some (toISOString (addDays (rangeEnd s) 1))).

Definition days (s : St) : list Z := eachDayOfInterval (rangeStart s) (rangeEnd s).

(** [isSameDay(new Date(j.run_at), day)]: false for an invalid date. *)
Definition on_day (day : Z) (j : Job) : bool :=
  match parseDate (j_run_at j) with Some t => isSameDay t day | None => false end.

Definition loaded (s : St) : list Job := jobs (props s) ?? [].
Definition jobsOn (s : St) (day : Z) : list Job := keep (on_day day) (loaded s).

Definition update (a : Act) (s : St) : St * list unit :=
  match a with
  | Step dir =>
      ({| props := props s; view_ := view_ s;
          cursor := if bool_decide (view_ s = month) then addMonths (cursor s) dir
                    else addWeeks (cursor s) dir;
          selectedDay := None |}, [])
  | SetView v => ({| props := props s; view_ := v; cursor := cursor s; selectedDay := None |}, [])
  | SetSelectedDay d =>
      ({| props := props s; view_ := view_ s; cursor := cursor s; selectedDay := d |}, [])
  | NewProps p =>
      ({| props := p; view_ := view_ s; cursor := cursor s; selectedDay := selectedDay s |}, [])
  end.

Definition selected (s : St) (day : Z) : bool :=
  match selectedDay s with Some d => isSameDay day d | None => false end.

(** A time and a handle: the date's format, when it is valid. *)
Definition HHmm (iso : jstr) : jstr :=
  match parseDate iso with Some t => format t "HH:mm" | None => [] end.

Definition pill (s : St) (j : Job) : node Act :=
  text (HHmm (j_run_at j) ++ " "
        ++ match index_by ch_id (channels (props s) ?? []) !! j_channel_id j with
           | Some c => atHandle (ch_handle c) | None => [] end).

Definition month_cell (s : St) (day : Z) : list (node Act) :=
  let dayJobs := jobsOn s day in
  [Toggle "button" (format day "d MMMM" ++ ", " ++ shownat (length dayJobs) ++ " scheduled")
     (selected s day) true (SetSelectedDay (if selected s day then None else Some day));
   text (format day "d")]
  ++ map (pill s) (take 2 dayJobs)
  ++ when (2 <? Z.of_nat (length dayJobs)) [text ("+" ++ shownat (length dayJobs - 2) ++ " more")].

Definition job_slots (l : list Job) : list (node Act) :=
  map (fun j => Ui.Slot ("JobItem " ++ j_id j)) l.

Definition week_day (s : St) (day : Z) : list (node Act) :=
  let dayJobs := jobsOn s day in
  match dayJobs with
  | [] => []
  | _ => text (format day "EEEE d MMMM") :: job_slots dayJobs
  end.

Definition month_view (s : St) : list (node Act) :=
  map (fun d => text (format d "EEE")) (take 7 (days s)) ++ (days s ≫= month_cell s).

Definition nothing_this_week : jstr :=
  "Nothing scheduled this week. Save a draft in the composer, then hit Schedule.".

Definition week_view (s : St) (loaded : list Job) : list (node Act) :=
  (days s ≫= week_day s)
  ++ when (Nat.eqb (length loaded) 0) [text nothing_this_week].

Definition detail (s : St) : list (node Act) :=
  match selectedDay s with
  | Some d =>
      when (bool_decide (view_ s = month))
        (text (format d "EEEE d MMMM") ::
         match jobsOn s d with
         | [] => [text "Nothing scheduled this day."]
         | l => job_slots l
         end)
  | None => []
  end.

Definition header (s : St) : list (node Act) :=
  [Btn "Previous" true (Step (-1));
   text (if bool_decide (view_ s = month) then format (cursor s) "MMMM yyyy"
         else format (rangeStart s) "d MMM" ++ " – " ++ format (rangeEnd s) "d MMM yyyy");
   Btn "Next" true (Step 1);
   Toggle "tab" "month" (bool_decide (view_ s = month)) true (SetView month);
   Toggle "tab" "week" (bool_decide (view_ s = week)) true (SetView week)].

(** The grid or the agenda, once the jobs have loaded. *)
Definition body (s : St) : list (node Act) :=
  match jobs (props s) with
  | Some l => if bool_decide (view_ s = month) then month_view s else week_view s l
  | None => []
  end.

Definition view (s : St) : list (node Act) :=
  match active (props s) with
  | None => [Box "status" [text "Loading workspace"]]
  | Some _ =>
      header s
      ++ when (isPending (props s)) [Box "status" [text "Loading calendar"]]
      ++ when (isError (props s)) [Box "alert" [text "Couldn't load the calendar. Please try again."]]
      ++ body s ++ detail s
      ++ match channels (props s) with
         | Some (_ :: _) => [Ui.Slot "SlotsManager"]
         | _ => []
         end
  end.

Definition awaiting (s : St) (a : Act) : Prop :=
  match a with NewProps _ => True | _ => False end.

Definition component : component :=
  {| Ui.st := St; Ui.act := Act; Ui.eff := unit; Ui.view := view; Ui.awaiting := awaiting;
     Ui.update := update |}.
End Calendar.
End Calendar.

(** ** The overview *)

Module Overview.
Section Overview.
Context `{D : DateFns}.
(** [a.localeCompare(b) <= 0] *)
Variable locale_le : jstr -> jstr -> bool.

Record Props := { active : option Workspace; jobs : option (list Job); jobsPending : bool;
  posts : option (list Post); postsPending : bool; channels : option (list Channel);
  channelsPending : bool }.

(** [now] is the date of the first render. *)
Definition query (now : Z) (p : Props) : Query :=
  useCalendar (match active p with Some w => Some (w_id w) | None => None end)
    (Some (toISOString now)) (Some (toISOString (addDays now 7))).

Definition is_scheduled (j : Job) : bool := bool_decide (j_status j = scheduled).

Definition upcoming (p : Props) : list Job :=
  take 5 (sort_by (fun a b => locale_le (j_run_at a) (j_run_at b)) (keep is_scheduled (jobs p ?? []))).

Definition drafts (p : Props) : list Post :=
  take 5 (keep (fun x => p_status x =ₛ "draft") (posts p ?? [])).

Definition needsAttention (p : Props) : list Channel :=
  keep (fun c => negb (bool_decide (ch_status c = ch_active))) (channels p ?? []).

Definition WidgetHeader {A} (title href linkLabel : jstr) : list (node A) :=
  [text title; Anchor linkLabel href].

Definition status_name (s : ChannelStatus) : jstr :=
  match s with ch_active => "active" | ch_expired => "expired" | ch_revoked => "revoked" end.

Definition job_row {A} (now : Z) (p : Props) (j : Job) : list (node A) :=
  let when_ fmt := match parseDate (j_run_at j) with Some t => format t fmt | None => [] end in
  [text (if match parseDate (j_run_at j) with Some t => isSameDay t now | None => false end
         then when_ "'Today' HH:mm" else when_ "EEE d · HH:mm");
   text (match index_by ch_id (channels p ?? []) !! j_channel_id j with
         | Some c => atHandle (ch_handle c) | None => slice0 8 (j_channel_id j) end);
   text "scheduled"].

Definition draft_text (p : Post) : jstr :=
  match p_variants p with
  | Some (v :: _) => if truthy (v_body v) then v_body v else "(no text)"
  | _ => "(no text)"
  end.

Definition channels_widget {A} (p : Props) : list (node A) :=
  WidgetHeader "Channels" "/channels" "Manage"
  ++ when (channelsPending p) [Box "status" [text "Loading channels"]]
  ++ match channels p with
     | None | Some [] => when (negb (channelsPending p)) [text "No accounts connected yet."]
     | Some l =>
         text (shownat (length l) ++ " connected") ::
         when (negb (Nat.eqb (length (needsAttention p)) 0))
           [text (" · " ++ shownat (length (needsAttention p)) ++ " need attention")]
         ++ (take 4 l ≫= (fun c => [text (atHandle (ch_handle c)); text (status_name (ch_status c))]))
     end.

Definition OverviewWidgets {A} (now : Z) (p : Props) : list (node A) :=
  match active p with
  | None => [Box "status" [text "Loading workspace"]]
  | Some _ =>
      WidgetHeader "Next 7 days" "/calendar" "Calendar"
      ++ when (jobsPending p) [Box "status" [text "Loading schedule"]]
      ++ when (negb (jobsPending p) && Nat.eqb (length (upcoming p)) 0) [text "Nothing scheduled yet."]
      ++ (upcoming p ≫= job_row now p)
      ++ WidgetHeader "Drafts" "/compose" "Compose"
      ++ when (postsPending p) [Box "status" [text "Loading drafts"]]
      ++ when (negb (postsPending p) && Nat.eqb (length (drafts p)) 0) [text "No drafts - write something."]
      ++ map (fun x => text (draft_text x)) (drafts p)
      ++ channels_widget p
  end.
End Overview.
End Overview.

(** ** The UTC calendar *)

Module Utc.
(** The milliseconds of a day. *)
Definition DAY : Z := 86400000.

Definition day_of (t : Z) : Z := t / DAY.
Definition startOfDay (t : Z) : Z := day_of t * DAY.
(** 1 January 1970 was a Thursday; weeks start on Sunday. *)
Definition weekday (day : Z) : Z := (day + 4) mod 7.
Definition startOfWeek (t : Z) : Z := (day_of t - weekday (day_of t)) * DAY.
Definition endOfWeek (t : Z) : Z := (day_of t - weekday (day_of t) + 7) * DAY - 1.

(** The day of the month, from 0, of a day counted from the epoch: years of the Gregorian
    cycle start in March, so that the leap day is the last. *)
Definition day_of_month (day : Z) : Z :=
  let doe := (day + 719468) mod 146097 in
  let yoe := (doe - doe / 1460 + doe / 36524 - doe / 146096) / 365 in
  let doy := doe - (365 * yoe + yoe / 4 - yoe / 100) in
  let mp := (5 * doy + 2) / 153 in
  doy - (153 * mp + 2) / 5.

(** The days from one of a month to the first of the next. *)
Definition month_left (day : Z) : Z :=
  match find_first (fun k => day_of_month (day + k) =? 0) (seqZ 1 31) with Some k => k | None => 31 end.

Definition first_of_month (day : Z) : Z := day - Z.max 0 (day_of_month day).
Definition startOfMonth (t : Z) : Z := first_of_month (day_of t) * DAY.
Definition endOfMonth (t : Z) : Z := (day_of t + month_left (day_of t)) * DAY - 1.

Definition next_month (first : Z) : Z := first + month_left first.
Definition previous_month (first : Z) : Z := first_of_month (first - 1).
Definition addMonths (t n : Z) : Z :=
  let first := first_of_month (day_of t) in
  let target := Nat.iter (Z.to_nat (Z.abs n)) (if 0 <=? n then next_month else previous_month) first in
  (target + Z.min (day_of t - first) (month_left target - 1)) * DAY + (t - startOfDay t).

Definition eachDayOfInterval (s e : Z) : list Z :=
  if s <=? e then map (fun d => d * DAY) (seqZ (day_of s) (day_of e - day_of s + 1)) else [].

(** The instance, for any reading and printing of dates. *)
Definition fns (format : Z -> jstr -> jstr) (iso : Z -> jstr) (parse : jstr -> option Z) : DateFns :=
  {| Calendar.startOfDay := startOfDay; Calendar.startOfWeek := startOfWeek;
     Calendar.endOfWeek := endOfWeek; Calendar.startOfMonth := startOfMonth;
     Calendar.endOfMonth := endOfMonth; Calendar.addDays := fun t n => t + n * DAY;
     Calendar.addWeeks := fun t n => t + 7 * n * DAY; Calendar.addMonths := addMonths;
     Calendar.eachDayOfInterval := eachDayOfInterval;
     Calendar.isSameDay := fun a b => day_of a =? day_of b;
     Calendar.format := format; Calendar.toISOString := iso; Calendar.parseDate := parse |}.

Lemma day_of_spec t : day_of t * DAY <= t < (day_of t + 1) * DAY.
Proof. unfold day_of, DAY. pose proof (Z.div_mod t 86400000). pose proof (Z.mod_pos_bound t 86400000). lia. Qed.

Lemma day_of_start d : day_of (d * DAY) = d.
Proof. unfold day_of, DAY. by rewrite Z.div_mul. Qed.

Lemma month_left_pos day : 1 <= month_left day.
Proof.
  unfold month_left. destruct (find_first _ _) as [k|] eqn:E; [|lia].
  apply find_first_Some in E as [H%elem_of_seqZ _]. lia.
Qed.

#[export] Instance laws format iso parse : DateLaws (fns format iso parse).
Proof.
  split; cbn; intros.
  - unfold startOfDay. rewrite Z.eqb_eq. unfold DAY. lia.
  - unfold eachDayOfInterval. pose proof (day_of_spec s). pose proof (day_of_spec e). split.
    + destruct (Z.leb_spec s e); [|intros Hd; by apply elem_of_nil in Hd].
      intros Hd. apply list_elem_of_fmap in Hd as (i & -> & Hi). apply elem_of_seqZ in Hi. unfold startOfDay.
      exists (Z.max s (i * DAY)). split.
      * unfold DAY in *. lia.
      * f_equal. pose proof (day_of_spec (Z.max s (i * DAY))). unfold DAY in *. lia.
    + intros (t & Ht & <-). destruct (Z.leb_spec s e); [|lia]. pose proof (day_of_spec t).
      apply list_elem_of_fmap. exists (day_of t). split; [done|]. apply elem_of_seqZ. unfold DAY in *. lia.
  - unfold eachDayOfInterval. destruct (s <=? e); [|constructor].
    apply NoDup_fmap; [|apply NoDup_seqZ]. intros a b. unfold DAY. lia.
  - unfold startOfDay. by rewrite day_of_start.
  - unfold startOfWeek, endOfWeek, weekday. pose proof (day_of_spec t).
    pose proof (Z.mod_pos_bound (day_of t + 4) 7). unfold DAY in *. lia.
  - unfold startOfMonth, endOfMonth, first_of_month. pose proof (day_of_spec t).
    pose proof (month_left_pos (day_of t)). unfold DAY in *. lia.
Qed.

(** Known dates: 2024-02-29, a leap day; 1900-02-28, whose year is not a leap year. *)
Example leap_day :
  startOfMonth (19782 * DAY) = 19754 * DAY /\ endOfMonth (19782 * DAY) = 19783 * DAY - 1
  /\ month_left (-25509) = 1 /\ addMonths (19753 * DAY) 1 = 19782 * DAY
  /\ addMonths (19782 * DAY) (-12) = 19416 * DAY.
Proof. by vm_compute. Qed.
End Utc.

(** ** Lemmas *)

Section Facts.
Context `{L : DateLaws}.
Import Calendar.
Implicit Types s : St.

Definition shown s (j : Job) : bool := existsb (fun d => on_day d j) (days s).

Lemma on_day_spec d j :
  on_day d j = true <-> exists t, parseDate (j_run_at j) = Some t /\ startOfDay t = startOfDay d.
Proof.
  unfold on_day. destruct (parseDate (j_run_at j)) as [t|].
  - rewrite same_day. split; [eauto|]. by intros (? & [= ->] & ?).
  - split; [done|]. by intros (? & ? & _).
Qed.

(** Every job goes to exactly one of a list of distinct days. *)
Lemma days_partition (ds : list Z) (l : list Job) :
  NoDup ds -> Forall (fun d => startOfDay d = d) ds ->
  (ds ≫= fun d => keep (on_day d) l) ≡ₚ keep (fun j => existsb (fun d => on_day d j) ds) l.
Proof.
  induction ds as [|d ds IH]; intros Hn Hd.
  - simpl. clear. induction l; done.
  - apply NoDup_cons in Hn as [Hd' Hn]. apply Forall_cons in Hd as [Hs Hd].
    change ((d :: ds) ≫= fun d => keep (on_day d) l)
      with (keep (on_day d) l ++ (ds ≫= fun d => keep (on_day d) l)).
    rewrite IH by done. apply keep_orb_disjoint. intros j _.
    destruct (on_day d j) eqn:E; [|done]. cbn. apply not_true_is_false. intros (d' & Hin & E')%existsb_exists.
    apply on_day_spec in E as (t & Ht & E), E' as (t' & Ht' & E'). rewrite Ht in Ht'. injection Ht' as <-.
    apply list_elem_of_In in Hin. rewrite Forall_forall in Hd. apply Hd'. replace d with d'; [done|].
    rewrite <- (Hd d' Hin), <- Hs. congruence.
Qed.

Lemma days_starts s : Forall (fun d => startOfDay d = d) (days s).
Proof. apply Forall_forall. intros d (t & _ & <-)%days_spec. apply start_of_start. Qed.

Lemma shown_in_range s j t :
  parseDate (j_run_at j) = Some t -> rangeStart s <= t <= rangeEnd s -> shown s j = true.
Proof.
  intros Hp Ht. apply existsb_exists. exists (startOfDay t). split.
  - apply list_elem_of_In, days_spec. eauto.
  - apply on_day_spec. exists t. by rewrite start_of_start.
Qed.

Lemma cursor_shown s : startOfDay (cursor s) ∈ days s.
Proof.
  apply days_spec. exists (cursor s). split; [|done]. unfold rangeStart, rangeEnd.
  case_bool_decide; [|apply in_week].
  pose proof (in_month (cursor s)). pose proof (in_week (startOfMonth (cursor s))).
  pose proof (in_week (endOfMonth (cursor s))). lia.
Qed.

Lemma job_slots_slots (l : list Job) : slots (job_slots l) = map (fun j => "JobItem " ++ j_id j) l.
Proof. apply slots_map. Qed.

Lemma week_slots s l : slots (week_view s l) = map (fun j => "JobItem " ++ j_id j) (days s ≫= jobsOn s).
Proof.
  unfold week_view. rewrite slots_app, slots_bind.
  replace (slots (when _ _)) with (@nil jstr) by (by destruct (Nat.eqb _ _)). rewrite app_nil_r.
  induction (days s) as [|d ds IH]; [done|].
  change ((d :: ds) ≫= jobsOn s) with (jobsOn s d ++ (ds ≫= jobsOn s)). rewrite map_app, <- IH.
  change ((d :: ds) ≫= (fun x => slots (week_day s x)))
    with (slots (week_day s d) ++ (ds ≫= (fun x => slots (week_day s x)))).
  f_equal. unfold week_day. destruct (jobsOn s d) as [|j l'] eqn:E; [done|]. exact (job_slots_slots (j :: l')).
Qed.

(** A day is selected only in the month on display, from its cells. *)
Definition day_inv s : Prop :=
  match selectedDay s with Some d => view_ s = month /\ d ∈ days s | None => True end.

Lemma calendar_offers s a : offers (view s) a ->
  match a with
  | SetSelectedDay (Some d) => view_ s = month /\ d ∈ days s
  | NewProps _ => False
  | _ => True
  end.
Proof.
  destruct a as [dir|v|[d|]|p]; try done; unfold view; destruct (active (props s)) as [w|];
    try (cbn; tauto); rewrite !offers_app; intros [H|[H|[H|[H|[H|H]]]]].
  all: try (cbn in H; intuition congruence).
  all: try (apply offers_when in H as [_ H]; cbn in H; tauto).
  all: try (destruct (channels (props s)) as [[|c cs]|]; cbn in H; tauto).
  all: try (unfold detail in H; destruct (selectedDay s) as [d'|]; [|done]; apply offers_when in H as [_ H];
    destruct H as [H|H]; [done|]; destruct (jobsOn s d') as [|j l]; [cbn in H; tauto|];
    unfold job_slots in H; apply offers_map in H as (x & _ & H); done).
  all: unfold body in H; destruct (jobs (props s)) as [l|]; [|done]; case_bool_decide as Hv.
  all: unfold month_view, week_view in H; rewrite offers_app in H; destruct H as [H|H].
  all: try (apply offers_map in H as (x & _ & H); done).
  all: try (apply offers_when in H as [_ H]; cbn in H; tauto).
  all: apply offers_bind in H as (x & Hx & H).
  all: try (unfold week_day in H; destruct (jobsOn s x) as [|j l']; [done|]; destruct H as [H|H]; [done|];
    apply offers_map in H as (y & _ & H); done).
  all: unfold month_cell in H; rewrite !offers_app in H; destruct H as [H|[H|H]];
    try (apply offers_map in H as (y & _ & H); done);
    try (apply offers_when in H as [_ H]; cbn in H; tauto).
  all: cbn in H; destruct H as [[_ H]|[H|H]]; try done.
  destruct (selected s x); [done|]. by injection H as ->.
Qed.

Lemma day_inv_reachable p0 today s : reachable component (init p0 today) s -> day_inv s.
Proof.
  revert s. refine (reachable_invariant component day_inv (init p0 today) _ _); [done|].
  intros s a es s' Hi Hs. assert (Hu : update a s = (s', es)) by (by inversion Hs).
  destruct a as [dir|v|[d|]|p]; cbn in Hu; injection Hu as <- <-; try done.
  inversion Hs as [? ? ? H|? ? ? H]; subst; [|done]. by apply calendar_offers in H.
Qed.
End Facts.

(** ** Properties *)

(** the calendar, for any date package that keeps its documentation: in every reachable
    state the cursor's day is displayed, and a selected day is one of the displayed month;
    every loaded job whose time falls in the displayed range is listed, on one day and one
    only (the days' lists together are, up to order, the jobs shown), and the week view
    renders exactly those jobs. *)
Theorem calendar_shows_once `{L : DateLaws} p0 today s w l
  (Hs : reachable Calendar.component (Calendar.init p0 today) s)
  (Hw : Calendar.active (Calendar.props s) = Some w) (Hl : Calendar.jobs (Calendar.props s) = Some l) :
  startOfDay (Calendar.cursor s) ∈ Calendar.days s
  /\ (forall d, Calendar.selectedDay s = Some d -> Calendar.view_ s = Calendar.month /\ d ∈ Calendar.days s)
  /\ (Calendar.days s ≫= Calendar.jobsOn s) ≡ₚ keep (shown s) l
  /\ (forall j t, parseDate (j_run_at j) = Some t ->
        Calendar.rangeStart s <= t <= Calendar.rangeEnd s -> shown s j = true)
  /\ (Calendar.view_ s = Calendar.week ->
        slots (Calendar.body s) = map (fun j => "JobItem " ++ j_id j) (Calendar.days s ≫= Calendar.jobsOn s)).
Proof.
  split_and!.
  - apply cursor_shown.
  - intros d Hd. apply day_inv_reachable in Hs. unfold day_inv in Hs. by rewrite Hd in Hs.
  - unfold Calendar.jobsOn, Calendar.loaded. rewrite Hl. cbn [orElse default].
    apply days_partition; [apply days_distinct|apply days_starts].
  - intros j t. apply shown_in_range.
  - intros Hv. unfold Calendar.body. rewrite Hl, Hv. apply week_slots.
Qed.

(** A job at one of two times: 2024-02-29 and the Sunday after. *)
Definition sample_job (id at_ : jstr) : Job :=
  {| j_id := id; j_post_id := "p"; j_channel_id := "c"; j_run_at := at_; j_status := scheduled;
     j_attempts := 0; j_last_error := None; j_created_at := [] |}.
Definition sample_parse (t : jstr) : option Z :=
  if t =ₛ "2024-02-29T12:00:00Z" then Some (19782 * Utc.DAY + 43200000)
  else if t =ₛ "2024-03-03T12:00:00Z" then Some (19785 * Utc.DAY + 43200000) else None.
#[export] Instance sample_dates : DateFns := Utc.fns (fun _ f => f) showZ sample_parse.

Definition sample_calendar : Calendar.Props :=
  {| Calendar.active := Some {| w_id := "w1"; w_name := "W"; w_owner_user_id := "u";
                                w_plan := "free"; w_created_at := [] |};
     Calendar.jobs := Some [sample_job "a" "2024-02-29T12:00:00Z"; sample_job "b" "2024-03-03T12:00:00Z"];
     Calendar.isPending := false; Calendar.isError := false; Calendar.channels := None |}.

Lemma calendar_shows_once_witness :
  exists s, reachable Calendar.component (Calendar.init sample_calendar (19782 * Utc.DAY)) s
    /\ Calendar.view_ s = Calendar.week
    /\ slots (Calendar.body s) = map (fun j => "JobItem " ++ j_id j) (Calendar.days s ≫= Calendar.jobsOn s)
    /\ (Calendar.days s ≫= Calendar.jobsOn s) = [sample_job "a" "2024-02-29T12:00:00Z"].
Proof.
  assert (Hr : reachable Calendar.component (Calendar.init sample_calendar (19782 * Utc.DAY))
    (Calendar.update (Calendar.SetView Calendar.week) (Calendar.init sample_calendar (19782 * Utc.DAY))).1).
  { eexists [(Calendar.SetView Calendar.week, [])].
    eapply steps_cons; [eapply (by_user Calendar.component _ (Calendar.SetView Calendar.week));
      [pick|reflexivity]|apply steps_refl]. }
  eexists. split; [exact Hr|].
  destruct (calendar_shows_once (L := Utc.laws _ _ _) _ _ _ _ _ Hr eq_refl eq_refl) as (_ & _ & _ & _ & H).
  split; [done|]. split; [exact (H eq_refl)|by vm_compute].
Defined.

(** The screen asks for a day more than the range it shows: when all the week's answer is on
    that day, the week view is empty, without the words that nothing is scheduled. *)
Theorem calendar_week_blank `{L : DateLaws} s l
  (Hv : Calendar.view_ s = Calendar.week) (Hl : Calendar.jobs (Calendar.props s) = Some l)
  (Hn : l <> []) (Hnone : keep (shown s) l = []) : Calendar.body s = [].
Proof.
  unfold Calendar.body. rewrite Hl, Hv, bool_decide_false by done. unfold Calendar.week_view.
  destruct l as [|j l]; [done|]. cbn [length Nat.eqb when]. rewrite app_nil_r.
  assert (Hp : (Calendar.days s ≫= fun d => keep (Calendar.on_day d) (j :: l)) ≡ₚ keep (shown s) (j :: l))
    by (apply days_partition; [apply days_distinct|apply days_starts]).
  rewrite Hnone in Hp.
  apply Permutation_nil_r in Hp. revert Hp. clear Hn Hnone Hv.
  induction (Calendar.days s) as [|d ds IH]; [done|].
  change ((d :: ds) ≫= fun d => keep (Calendar.on_day d) (j :: l))
    with (keep (Calendar.on_day d) (j :: l) ++ (ds ≫= fun d => keep (Calendar.on_day d) (j :: l))).
  intros [H1 H2]%app_eq_nil.
  change ((d :: ds) ≫= Calendar.week_day s) with (Calendar.week_day s d ++ (ds ≫= Calendar.week_day s)).
  assert (Hj : Calendar.jobsOn s d = []) by (unfold Calendar.jobsOn, Calendar.loaded; by rewrite Hl).
  rewrite IH by done. unfold Calendar.week_day. by rewrite Hj.
Qed.

Lemma calendar_week_blank_witness :
  let s := {| Calendar.props :=
      {| Calendar.active := Calendar.active sample_calendar;
         Calendar.jobs := Some [sample_job "b" "2024-03-03T12:00:00Z"]; Calendar.isPending := false;
         Calendar.isError := false; Calendar.channels := None |};
      Calendar.view_ := Calendar.week; Calendar.cursor := 19782 * Utc.DAY; Calendar.selectedDay := None |} in
  Calendar.body s = [].
Proof.
  intros s. apply (calendar_week_blank (L := Utc.laws _ _ _) s [sample_job "b" "2024-03-03T12:00:00Z"]);
    [done|done|done|by vm_compute].
Defined.

(** the overview's first list, for any locale order that is a total preorder: only
    scheduled jobs, in order, five or as many as there are, and no other scheduled job
    comes before one of them. *)
Theorem overview_upcoming `{D : DateFns} locale_le p
  (Ht : forall a b, locale_le a b = true \/ locale_le b a = true)
  (Htr : forall a b c, locale_le a b = true -> locale_le b c = true -> locale_le a c = true) :
  let le a b := locale_le (j_run_at a) (j_run_at b) in
  let all := keep Overview.is_scheduled (Overview.jobs p ?? []) in
  exists rest, (Overview.upcoming locale_le p ++ rest) ≡ₚ all
    /\ StronglySorted le (Overview.upcoming locale_le p)
    /\ length (Overview.upcoming locale_le p) = Nat.min 5 (length all)
    /\ forall x y, x ∈ Overview.upcoming locale_le p -> y ∈ rest -> le x y = true.
Proof.
  intros le all. pose proof (sort_by_sorted le (fun x y => Ht _ _) (fun x y z => Htr _ _ _) all) as Hs.
  exists (drop 5 (sort_by le all)). unfold Overview.upcoming. fold all. split_and!.
  - change (fun a b : Job => locale_le (j_run_at a) (j_run_at b)) with le. rewrite take_drop. apply sort_by_perm.
  - change (fun a b : Job => locale_le (j_run_at a) (j_run_at b)) with le.
    rewrite <- (take_drop 5 (sort_by le all)) in Hs. by apply StronglySorted_app_1_l in Hs.
  - rewrite length_take. f_equal. by rewrite sort_by_perm.
  - intros x y. by apply sorted_take.
Qed.

Lemma overview_upcoming_witness :
  let p := {| Overview.active := None;
    Overview.jobs := Some [sample_job "b" "2024-03-03T12:00:00Z"; sample_job "a" "2024-02-29T12:00:00Z"];
    Overview.jobsPending := false; Overview.posts := None; Overview.postsPending := false;
    Overview.channels := None; Overview.channelsPending := false |} in
  map j_id (Overview.upcoming code_unit_le p) = ["a"; "b"]
  /\ length (Overview.upcoming code_unit_le p) = 2%nat.
Proof.
  intros p. split; [by vm_compute|].
  destruct (overview_upcoming code_unit_le p code_unit_le_total code_unit_le_trans) as (rest & _ & _ & H & _).
  exact H.
Defined.
