(* ===== verification/Integrations.v ===== *)
(** * The integrations hub: web/src/features/integrations/integrations-screen.tsx *)
From S2P Require Import Prelude JsValue Ui Schema Query DataWeb.

Local Open Scope js_scope.

Definition OG_FEATURES : list jstr :=
  ["Shorten every link in a post with one click in the composer";
   "Click analytics per link: locations, devices, referrers";
   "Custom short codes and link expiry from their dashboard";
   "QR codes and Linktree-style bio pages on their site"].

Module OGShortenerCard.
Record Props := { integrations : option (list Integration); isPending : bool }.

Record St := { props : Props; apiKey : jstr; error : option json; saved : bool; pending : bool }.

Definition init (p : Props) : St :=
  {| props := p; apiKey := []; error := None; saved := false; pending := false |}.

Inductive Act :=
  | SetApiKey (k : jstr) | Save (enabled : bool) | Settled (o : outcome json) | NewProps (p : Props).

(** The stored integration, when there is one. *)
Definition og (s : St) : option Integration :=
  match integrations (props s) with
  | Some l => find_first (fun i => i_provider i =ₛ "ogshortener") l
  | None => None
  end.
Definition og_enabled (s : St) : bool := match og s with Some i => i_enabled i | None => false end.
Definition og_configured (s : St) : bool := match og s with Some i => i_configured i | None => false end.

(** The variables of [configure.mutateAsync]. *)
Definition request (s : St) (enabled : bool) : ConfigureIntegrationInput :=
  {| ci_provider := "ogshortener"; ci_enabled := enabled; ci_autoApply := None;
     ci_apiKey := if truthy (apiKey s) then Some (apiKey s) else None |}.

Definition update (a : Act) (s : St) : St * list ConfigureIntegrationInput :=
  match a with
  | SetApiKey k =>
      ({| props := props s; apiKey := k; error := error s; saved := saved s; pending := pending s |}, [])
  | Save enabled =>
      ({| props := props s; apiKey := apiKey s; error := None; saved := false; pending := true |},
       [request s enabled])
  | Settled (inr _) =>
      ({| props := props s; apiKey := []; error := error s; saved := true; pending := false |}, [])
  | Settled (inl e) =>
      ({| props := props s; apiKey := apiKey s; error := Some (exn_message e); saved := saved s;
          pending := false |}, [])
  | NewProps p =>
      ({| props := p; apiKey := apiKey s; error := error s; saved := saved s; pending := pending s |}, [])
  end.

(** [!error], for the message of a failure. *)
Definition no_error (s : St) : bool := match error s with Some m => negb (jtruthy m) | None => true end.

Definition buttons (s : St) : list (node Act) :=
  if og_enabled s then
    Btn "Disable" (negb (pending s)) (Save false) ::
    when (truthy (apiKey s)) [Btn "Update key" (negb (pending s)) (Save true)]
  else
    [Btn (if pending s then "Verifying" else "Enable")
       (negb (pending s || (negb (truthy (apiKey s)) && negb (og_configured s)))) (Save true)].

Definition view (s : St) : list (node Act) :=
  if isPending (props s) then [Box "status" [text "Loading integrations"]]
  else
    [text "OGShortener";
     text (if og_enabled s then "Enabled" else if og_configured s then "Configured" else "Not connected");
     text "Link shortening and click analytics, ogshortener.site"]
    ++ map text OG_FEATURES
    ++ [text "Their free plan (10 links/day) is web-only; this API integration needs an API key from an OGShortener Pro account ($4/month). Note: shortening does not change X's link-post price, the value is clean links plus their click analytics.";
        Ui.Slot "Hint"; Field "API key" (apiKey s) true SetApiKey;
        text "Verified with OGShortener, then encrypted at rest. It is never shown again."]
    ++ Ui.alert (error s)
    ++ when (saved s && no_error s) [Box "status" [text "Saved."]]
    ++ buttons s.

Definition awaiting (s : St) (a : Act) : Prop :=
  match a with Settled _ => pending s = true | NewProps _ => True | _ => False end.

Definition component : component :=
  {| Ui.st := St; Ui.act := Act; Ui.eff := ConfigureIntegrationInput; Ui.view := view;
     Ui.awaiting := awaiting; Ui.update := update |}.
End OGShortenerCard.

Definition ChannelsCard {A} (channels : option (list Channel)) : list (node A) :=
  let count := length (channels ?? []) in
  [text "Social platforms";
   text (shownat count ++ " account" ++ (if Nat.eqb count 1 then [] else "s") ++ " connected");
   text "Social accounts connect with OAuth on the Channels page. X is live; Bluesky, Mastodon, Threads and more are on the roadmap.";
   Anchor "Manage channels" "/channels"].

Definition IntegrationsScreen {A} (active : option Workspace) (channels : option (list Channel)) : list (node A) :=
  match active with
  | None => [Box "status" [text "Loading workspace"]]
  | Some _ => Ui.Slot "OGShortenerCard" :: ChannelsCard channels
  end.

(** ** Lemmas *)

Import OGShortenerCard.
Implicit Types s : St.

Lemma card_offers s a : offers (view s) a ->
  match a with
  | SetApiKey _ => True
  | Save true => pending s = false /\ (truthy (apiKey s) = true \/ og_configured s = true)
  | Save false => pending s = false /\ og_enabled s = true
  | _ => False
  end.
Proof.
  unfold view. destruct (isPending (props s)); [cbn; tauto|]. rewrite !offers_app.
  intros [H|[H|[H|[H|[H|H]]]]].
  - cbn in H. tauto.
  - apply offers_map in H as (x & _ & H). done.
  - cbn in H. destruct H as [H|[H|[[_ [k ->]]|[H|H]]]]; done.
  - by apply offers_alert in H.
  - apply offers_when in H as [_ H]. cbn in H. tauto.
  - unfold buttons in H. destruct (og_enabled s) eqn:E.
    + destruct H as [[H ->]|H]; [apply negb_true_iff in H; done|].
      apply offers_when in H as [Hk [[H ->]|H]]; [apply negb_true_iff in H; auto|done].
    + destruct H as [[H ->]|H]; [|done]. apply negb_true_iff, orb_false_iff in H as [Hp H].
      split; [done|]. destruct (truthy (apiKey s)); [by left|]. cbn in H. right. by apply negb_false_iff.
Qed.

Definition is_answer (a : Act) : bool := match a with Settled _ => true | _ => false end.

Lemma card_balanced : balanced component pending (fun _ => true) is_answer.
Proof.
  intros s a es s' Hs. assert (Hu : update a s = (s', es)) by (by inversion Hs).
  destruct a as [k|en|[e|v]|p]; cbn in Hu; injection Hu as <- <-; cbn; try lia.
  - inversion Hs as [? ? ? H|? ? ? H]; subst; [|done]. apply card_offers in H.
    destruct en; destruct H as [-> _]; done.
  - inversion Hs as [? ? ? H|? ? ? H]; subst; [by apply card_offers in H|]. cbn in H. by rewrite H.
  - inversion Hs as [? ? ? H|? ? ? H]; subst; [by apply card_offers in H|]. cbn in H. by rewrite H.
Qed.

(** ** Properties *)

(** what the shortener's card saves, in every run: one call at a time, for this provider,
    with the key of the field or none; it is switched on only with a typed key or one already
    stored, and off only when it is on; a success empties the field, a failure keeps it. *)
Theorem integration_saves_ok p tr s (Hrun : steps component (init p) tr s) :
  length (issued tr) <= count is_answer (map fst tr) + 1
  /\ forall a es s' v, step component s a es s' -> v ∈ es ->
       ci_provider v = "ogshortener" /\ ci_autoApply v = None
       /\ (forall k, ci_apiKey v = Some k <-> truthy (apiKey s) = true /\ k = apiKey s)
       /\ (if ci_enabled v then truthy (apiKey s) = true \/ og_configured s = true else og_enabled s = true)
       /\ (forall r, apiKey (update (Settled r) s').1
                     = match r with inr _ => [] | inl _ => apiKey s end).
Proof.
  split.
  - pose proof (one_at_a_time _ _ _ _ card_balanced (init p) tr s eq_refl Hrun) as H.
    unfold count in H at 1. rewrite keep_all in H; [done|]. by apply Forall_forall.
  - intros a es s' v Hs Hin. inversion Hs as [? ? ? H Hu|? ? ? H Hu]; subst; cbn in Hu.
    + apply card_offers in H. destruct a as [k|en|[e|w]|q]; try done; injection Hu as <- <-;
        [by apply elem_of_nil in Hin|]. apply list_elem_of_singleton in Hin as ->. cbn. split_and!; [done|done| | |].
      * intros k. destruct (truthy (apiKey s)); split; [by intros [= <-]|by intros [_ ->]|done|by intros [? _]].
      * destruct en; apply H.
      * by intros [e|w].
    + destruct a as [k|en|[e|w]|q]; try done; injection Hu as <- <-; by apply elem_of_nil in Hin.
Qed.

Lemma integration_saves_ok_witness :
  let p := {| integrations := Some []; isPending := false |} in
  exists tr s, steps component (init p) tr s /\ apiKey s = "ogl_1"
    /\ length (issued tr) <= count is_answer (map fst tr) + 1.
Proof.
  intros p. eexists [(SetApiKey "ogl_1", [])], _.
  assert (Hrun : steps component (init p) [(SetApiKey "ogl_1", [])] (update (SetApiKey "ogl_1") (init p)).1).
  { eapply steps_cons; [eapply (by_user component _ (SetApiKey "ogl_1")); [pick|reflexivity]|apply steps_refl]. }
  split; [exact Hrun|]. split; [done|]. exact (proj1 (integration_saves_ok p _ _ Hrun)).
Defined.
