(* ===== verification/Media.v ===== *)
(** * The media library: media-panel.tsx and upload-button.tsx (web/src/features/media) *)
From S2P Require Import Prelude JsValue JsNumber Ui Schema.

Local Open Scope js_scope.

(** ** The upload button

    [mutateAsync] may be called again while an upload is in flight; [isPending] is that of
    the last call.  An upload is known by its number.  A file is known by its name. *)

Module Upload.
Record St := {
  inFlight : list nat;              (* the uploads that have not settled *)
  calls : nat;                      (* how many were started; the last is [calls - 1] *)
  progress : option double; error : option json }.

Definition init : St := {| inFlight := []; calls := 0; progress := None; error := None |}.

Inductive Act :=
  | Pick (file : option jstr)                    (* the input's change event *)
  | Click                                        (* the button: opens the file picker *)
  | Progress (i : nat) (loaded total : Z)        (* a progress event, of known length *)
  | Settled (i : nat) (o : outcome Asset).

Inductive Eff := UploadMedia (i : nat) (file : jstr) | OpenPicker.

Definition isPending (s : St) : bool :=
  match calls s with 0 => false | S last => bool_decide (last ∈ inFlight s) end.

Definition update (a : Act) (s : St) : St * list Eff :=
  match a with
  | Pick None => (s, [])
  | Pick (Some file) =>
      ({| inFlight := calls s :: inFlight s; calls := S (calls s); progress := Some (of_Z 0);
          error := None |}, [UploadMedia (calls s) file])
  | Click => (s, [OpenPicker])
  | Progress i loaded total =>
      ({| inFlight := inFlight s; calls := calls s; progress := Some (div (of_Z loaded) (of_Z total));
          error := error s |}, [])
  | Settled i o =>
      ({| inFlight := keep (fun j => negb (Nat.eqb j i)) (inFlight s); calls := calls s; progress := None;
          error := match o with inl e => Some (exn_message e) | inr _ => error s end |}, [])
  end.

(** The value of the progress bar. *)
Definition progress_value (p : double) : double := round (mul p (of_Z 100)).

(** The file input is only visually hidden, and never disabled: the keyboard reaches it. *)
Definition view (s : St) : list (node Act) :=
  [Btn "Choose a file to upload" true Click;
   Btn (if isPending s then "Uploading…" else "Upload") (negb (isPending s)) Click]
  ++ (match progress s with
      | Some p => [Box "progressbar" [text (toString (progress_value p))]]
      | None => []
      end)
  ++ Ui.alert (error s).

(** The picker answers with a file or none; an upload in flight reports and settles. *)
Definition awaiting (s : St) (a : Act) : Prop :=
  match a with
  | Pick _ => True
  | Progress i loaded total => i ∈ inFlight s /\ (0 <= loaded <= total)%Z /\ (0 < total < 2 ^ 53)%Z
  | Settled i _ => i ∈ inFlight s
  | Click => False
  end.

Definition component : component :=
  {| Ui.st := St; Ui.act := Act; Ui.eff := Eff; Ui.view := view; Ui.awaiting := awaiting;
     Ui.update := update |}.
End Upload.

(** ** The library *)

Definition MediaPanel {A} (active : option Workspace) (assets : option (list Asset))
    (isPending isError : bool) : list (node A) :=
  match active with
  | None => [Box "status" [text "Loading workspace"]]
  | Some _ =>
      [text "Library"; Ui.Slot "Hint"; text "Everything this workspace has uploaded."; Ui.Slot "UploadButton"]
      ++ when isPending [Box "status" [text "Loading media"]]
      ++ when isError [Box "alert" [text "Couldn't load media. Please try again."]]
      ++ match assets with
         | None => []
         | Some [] => [text "No media yet"; text "Upload an image, GIF or video to attach it to your posts."]
         | Some l => map (fun a => Ui.Slot ("AssetTile " ++ a_id a)) l
         end
  end.

(** ** Properties *)

Import Upload.
Implicit Types s : St.

(** The progress bar belongs to an upload in flight, and what it shows is a percentage. *)
Definition progress_inv s : Prop :=
  match progress s with
  | Some p => inFlight s <> [] /\ exists z, (0 <= z <= 100)%Z /\ progress_value p = of_Z z
  | None => True
  end.

Lemma upload_offers s a : offers (view s) a -> a = Click.
Proof.
  unfold view. rewrite !offers_app. intros [H|[H|H]].
  - cbn in H. destruct H as [[_ ->]|[[_ ->]|H]]; done.
  - destruct (progress s); cbn in H; tauto.
  - by apply offers_alert in H.
Qed.

Lemma upload_step s a es s' : progress_inv s -> step component s a es s' -> progress_inv s'.
Proof.
  intros Hi Hs. assert (Hu : update a s = (s', es)) by (by inversion Hs).
  destruct a as [[f|]| |i l t|i o]; cbn in Hu; injection Hu as <- <-; try done.
  - split; [done|]. exists 0%Z. split; [lia|done].
  - inversion Hs as [? ? ? H|? ? ? H]; subst; [by apply upload_offers in H|].
    destruct H as (Hin & Hl & Ht). split.
    + intros E. cbn in E. rewrite E in Hin. by apply elem_of_nil in Hin.
    + destruct t as [|t|t]; try lia. exact (percent_bounded l t Hl (proj2 Ht)).
Qed.

(** the progress of an upload, in every run: a bar is shown only while some upload is in
    flight, its value is an integer from 0 to 100, whatever byte counts below [2^53] the
    browser reports, and when a file's upload settles the bar is removed and a failure's
    message is shown. *)
Theorem upload_progress_ok tr s (Hrun : steps component init tr s) :
  progress_inv s
  /\ forall i e es s', step component s (Settled i (inl e)) es s' ->
       progress s' = None /\ i ∉ inFlight s' /\ shows_role "alert" (view s') = jtruthy (exn_message e).
Proof.
  split; [exact (steps_invariant component progress_inv upload_step init tr s Hrun I)|].
  intros i e es s' Hs. assert (Hu : update (Settled i (inl e)) s = (s', es)) by (by inversion Hs).
  cbn in Hu. injection Hu as <- <-. split_and!; [done| |].
  - cbn. rewrite keep_In, Nat.eqb_refl. by intros [_ ?].
  - unfold view. rewrite !shows_role_app. cbn [error progress shows_role roles existsb app].
    rewrite alert_role. by destruct (isPending _).
Qed.

Lemma upload_progress_ok_witness :
  exists tr s, steps component init tr s /\ progress s = Some (div (of_Z 1) (of_Z 3)) /\ progress_inv s.
Proof.
  assert (Hrun : steps component init
    [(Pick (Some ("a.png" : jstr)), [UploadMedia 0 "a.png"]); (Progress 0 1 3, [])]
    {| inFlight := [0]; calls := 1; progress := Some (div (of_Z 1) (of_Z 3)); error := None |}).
  { eapply steps_cons; [eapply (by_env component _ (Pick (Some ("a.png" : jstr)))); [done|reflexivity]|].
    eapply steps_cons; [eapply (by_env component _ (Progress 0 1 3)); [|reflexivity]|apply steps_refl].
    cbn. split; [apply list_elem_of_here|]. lia. }
  eexists _, _. split; [exact Hrun|]. split; [done|]. exact (proj1 (upload_progress_ok _ _ Hrun)).
Defined.

(** Two uploads at a time: the input stays usable while the button is disabled, and the end
    of the first upload hides the progress of the second. *)
Theorem uploads_overlap f g o :
  let run := [(Pick (Some f), [UploadMedia 0 f]); (Pick (Some g), [UploadMedia 1 g]);
              (Settled 0 (inr o), [])] in
  exists s, steps component init run s /\ inFlight s = [1] /\ isPending s = true /\ progress s = None.
Proof.
  eexists. split.
  - eapply steps_cons; [eapply (by_env component _ (Pick (Some f))); [done|reflexivity]|].
    eapply steps_cons; [eapply (by_env component _ (Pick (Some g))); [done|reflexivity]|].
    eapply steps_cons; [eapply (by_env component _ (Settled 0 (inr o)));
      [apply list_elem_of_further, list_elem_of_here|reflexivity]|apply steps_refl].
  - done.
Qed.
