(* ===== verification/Analytics.v ===== *)
(** * Analytics: analytics-screen.tsx, post-detail.tsx, series-chart.tsx
    (web/src/features/analytics)

    The breakdown of a post is a child that keeps its own choices; it stays mounted when
    another post is selected.  A metrics object is a map: its entries are listed sorted by
    name, so their order in the object does not matter. *)
From S2P Require Import Prelude JsValue Ui Schema Format Query DataWeb DirectWeb.

Local Open Scope js_scope.

(** ** Shared rows *)

Definition handle_or_id (channels : list Channel) (id : jstr) : jstr :=
  match index_by ch_id channels !! id with
  | Some c => atHandle (ch_handle c)
  | None => slice0 8 id
  end.

Section Analytics.
(** [a.localeCompare(b) <= 0], and [format(new Date(iso), "d MMM HH:mm")]. *)
Variable locale_le : jstr -> jstr -> bool.
Variable formatTime : jstr -> jstr.

(** [Object.entries(metrics).sort(([a], [b]) => a.localeCompare(b))] *)
Definition entries (m : gmap jstr Z) : list (jstr * Z) :=
  sort_by (fun a b => locale_le a.1 b.1) (map_to_list m).

Definition entries_text (m : gmap jstr Z) : jstr :=
  join " · " (map (fun e => e.1 ++ " " ++ showZ e.2) (entries m)).

(** The chart: its label and its points. *)
Definition SeriesChart {A} (points : list SeriesPoint) (metric : jstr) : list (node A) :=
  [Box "figure" (text (metric ++ " over time") ::
     (points ≫= fun p => [text (formatTime (sp_captured_at p)); Txt (JNum (sp_value p))]))].
End Analytics.

(** ** post-detail.tsx *)

Module PostDetail.
Definition RANGES : list (Z * jstr) := [(7%Z, "7d" : jstr); (30%Z, "30d" : jstr); (90%Z, "90d" : jstr)].

Record St := { channelId : option jstr; metric : option jstr; days : Z }.
Definition init : St := {| channelId := None; metric := None; days := 30 |}.

(** The answers of the two queries, for the post and the series asked. *)
Record Data := { perChannel : option (list ChannelMetrics); isPending : bool;
  series : option (list SeriesPoint); seriesPending : bool }.

Inductive Act := SetChannel (id : jstr) | SetMetric (m : jstr) | SetDays (d : Z).

Definition update (a : Act) (s : St) : St :=
  match a with
  | SetChannel id => {| channelId := Some id; metric := None; days := days s |}
  | SetMetric m => {| channelId := channelId s; metric := Some m; days := days s |}
  | SetDays d => {| channelId := channelId s; metric := metric s; days := d |}
  end.

Definition activeChannelId (d : Data) (s : St) : option jstr :=
  match channelId s with
  | Some c => Some c
  | None => match perChannel d with Some (r :: _) => Some (cm_channel_id r) | _ => None end
  end.

Definition activeRow (d : Data) (s : St) : option ChannelMetrics :=
  match perChannel d with
  | Some l => find_first (fun c => match activeChannelId d s with
                                   | Some i => cm_channel_id c =ₛ i | None => false end) l
  | None => None
  end.

(** [Object.keys(activeRow?.metrics ?? {}).sort()] *)
Definition metricNames (d : Data) (s : St) : list jstr :=
  match activeRow d s with
  | Some r => sort_by code_unit_le (map fst (map_to_list (cm_metrics r)))
  | None => []
  end.

Definition activeMetric (d : Data) (s : St) : option jstr :=
  match metric s with
  | Some m => if truthy m && is_in m (metricNames d s) then Some m else head (metricNames d s)
  | None => head (metricNames d s)
  end.

Section View.
Variable locale_le : jstr -> jstr -> bool.
Variable formatTime : jstr -> jstr.
(** The range of a number of days: its ends, kept while the number does not change. *)
Variable range : Z -> jstr * jstr.
Variable workspaceId : jstr.
Variable channels : list Channel.

Definition queries (postId : jstr) (d : Data) (s : St) : Query * Query :=
  (usePostAnalytics (Some workspaceId) (Some postId),
   useMetricSeries (Some workspaceId) (Some postId) (activeChannelId d s) (activeMetric d s ?? [])
     (Some (range (days s)).1) (Some (range (days s)).2)).

Definition channel_panel (row : ChannelMetrics) : list (node Act) :=
  text (handle_or_id channels (cm_channel_id row)) ::
  (entries locale_le (cm_metrics row) ≫= fun e => [text e.1; Txt (JNum e.2)]).

Definition pickers (d : Data) (s : St) (rows : list ChannelMetrics) : list (node Act) :=
  [text "Channel"]
  ++ map (fun r => Toggle "option" (handle_or_id channels (cm_channel_id r))
                     (bool_decide (activeChannelId d s = Some (cm_channel_id r))) true
                     (SetChannel (cm_channel_id r))) rows
  ++ [text "Metric"]
  ++ map (fun m => Toggle "option" m (bool_decide (activeMetric d s = Some m)) true (SetMetric m))
       (metricNames d s)
  ++ map (fun r => Toggle "tab" r.2 (Z.eqb (days s) r.1) true (SetDays r.1)) RANGES.

Definition series_view (d : Data) (s : St) : list (node Act) :=
  when (seriesPending d) [Box "status" [text "Loading series"]]
  ++ match series d with
     | None => []
     | Some [] => [text "No data points in this range."]
     | Some l => match activeMetric d s with
                 | Some m => when (truthy m) (SeriesChart formatTime l m)
                 | None => []
                 end
     end.

Definition view (d : Data) (s : St) : list (node Act) :=
  if isPending d then [Box "status" [text "Loading post metrics"]]
  else match perChannel d with
       | None | Some [] => [text "No metrics captured for this post yet."]
       | Some rows => (rows ≫= channel_panel) ++ pickers d s rows ++ series_view d s
       end.
End View.
End PostDetail.

(** ** analytics-screen.tsx *)

Module Screen.
Section Screen.
Variable API_ORIGIN : jstr.
Variable locale_le : jstr -> jstr -> bool.
Variable formatTime : jstr -> jstr.

Record Props := { active : option Workspace; rows : option (list PostMetrics); isPending : bool;
  isError : bool; channels : option (list Channel); posts : option (list Post) }.

(** [detail] is the state of the mounted breakdown, [data] what its queries answer. *)
Record St := { props : Props; selectedPostId : option jstr; detail : option PostDetail.St;
  data : PostDetail.Data }.

Definition init (p : Props) (d : PostDetail.Data) : St :=
  {| props := p; selectedPostId := None; detail := None; data := d |}.

Inductive Act :=
  | SetSelected (p : option jstr) | Detail (a : PostDetail.Act)
  | NewProps (p : Props) (d : PostDetail.Data).

(** The breakdown is on screen while a post is selected in a loaded workspace; React keeps
    its state while it stays there and drops it when it goes. *)
Definition mounted (p : Props) (sel : option jstr) : bool :=
  match active p, sel with Some _, Some i => truthy i | _, _ => false end.

Definition mount (p : Props) (sel : option jstr) (d : option PostDetail.St) : option PostDetail.St :=
  if mounted p sel then Some match d with Some s => s | None => PostDetail.init end else None.

Definition update (a : Act) (s : St) : St * list unit :=
  match a with
  | SetSelected sel =>
      ({| props := props s; selectedPostId := sel; detail := mount (props s) sel (detail s);
          data := data s |}, [])
  | Detail a =>
      ({| props := props s; selectedPostId := selectedPostId s;
          detail := match detail s with Some d => Some (PostDetail.update a d) | None => None end;
          data := data s |}, [])
  | NewProps p d =>
      ({| props := p; selectedPostId := selectedPostId s;
          detail := mount p (selectedPostId s) (detail s); data := d |}, [])
  end.

(** [p.variants?.[0]?.body ?? "(no text)"] *)
Definition excerpt (p : Post) : jstr :=
  match p_variants p with Some (v :: _) => v_body v | _ => "(no text)" end.

Definition excerpt_of (posts : list Post) (id : jstr) : jstr :=
  match index_by p_id posts !! id with Some p => excerpt p | None => slice0 8 id end.

Definition row_view (s : St) (row : PostMetrics) : list (node Act) :=
  let sel := bool_decide (selectedPostId s = Some (pm_post_id row)) in
  [Toggle "button" (excerpt_of (posts (props s) ?? []) (pm_post_id row)) sel true
     (SetSelected (if sel then None else Some (pm_post_id row)));
   text (handle_or_id (channels (props s) ?? []) (pm_channel_id row));
   text (entries_text locale_le (pm_metrics row)); text (formatTime (pm_captured_at row))].

Definition list_view (s : St) : list (node Act) :=
  match rows (props s) with
  | None => []
  | Some [] =>
      if existsb (fun p => p_status p =ₛ "published") (posts (props s) ?? []) then
        [text "Metrics are on the way";
         text "You have published posts. The first numbers are captured within about 15 minutes of publishing, then refresh periodically."]
      else
        [text "No published posts yet";
         text "Publish a post from the composer first. Metrics appear here within about 15 minutes of publishing."]
  | Some l => l ≫= row_view s
  end.

Definition detail_view (w : Workspace) (s : St) : list (node Act) :=
  match detail s with
  | Some d => text "Post breakdown" ::
      view_map Detail (PostDetail.view locale_le formatTime (channels (props s) ?? []) (data s) d)
  | None => []
  end.

Definition view (s : St) : list (node Act) :=
  match active (props s) with
  | None => [Box "status" [text "Loading workspace"]]
  | Some w =>
      [text "Published posts"; Ui.Slot "Hint"; text "Latest metrics per post and channel.";
       Anchor "Export CSV" (analyticsCsvURL API_ORIGIN (w_id w))]
      ++ when (isPending (props s)) [Box "status" [text "Loading analytics"]]
      ++ when (isError (props s)) [Box "alert" [text "Couldn't load analytics. Please try again."]]
      ++ list_view s ++ detail_view w s
  end.

Definition awaiting (s : St) (a : Act) : Prop :=
  match a with NewProps _ _ => True | _ => False end.

Definition component : component :=
  {| Ui.st := St; Ui.act := Act; Ui.eff := unit; Ui.view := view; Ui.awaiting := awaiting;
     Ui.update := update |}.
End Screen.
End Screen.

(** ** Lemmas *)

Lemma activeRow_spec d s r :
  PostDetail.activeRow d s = Some r ->
  exists l, PostDetail.perChannel d = Some l /\ r ∈ l
    /\ PostDetail.activeChannelId d s = Some (cm_channel_id r).
Proof.
  unfold PostDetail.activeRow. destruct (PostDetail.perChannel d) as [l|]; [|done].
  intros [Hr Hc]%find_first_Some. exists l. split_and!; [done|done|].
  destruct (PostDetail.activeChannelId d s); [|done]. by js_eq.
Qed.

Lemma metricNames_spec d s m :
  m ∈ PostDetail.metricNames d s <->
  exists r, PostDetail.activeRow d s = Some r /\ is_Some (cm_metrics r !! m).
Proof.
  unfold PostDetail.metricNames. destruct (PostDetail.activeRow d s) as [r|].
  - rewrite sort_by_perm. trans (m ∈ (map_to_list (cm_metrics r)).*1); [done|].
    rewrite list_elem_of_fmap. split.
    + intros ([k v] & -> & H%elem_of_map_to_list). eauto.
    + intros (r' & [= <-] & [v Hv]). exists (m, v). split; [done|]. by apply elem_of_map_to_list.
  - split; [intros H; by apply elem_of_nil in H|]. by intros (? & ? & _).
Qed.

Lemma activeMetric_spec d s m :
  PostDetail.activeMetric d s = Some m -> m ∈ PostDetail.metricNames d s.
Proof.
  assert (Hh : head (PostDetail.metricNames d s) = Some m -> m ∈ PostDetail.metricNames d s).
  { destruct (PostDetail.metricNames d s); [done|]. intros [= ->]. apply list_elem_of_here. }
  unfold PostDetail.activeMetric. destruct (PostDetail.metric s) as [m'|]; [|done].
  destruct (truthy m' && _) eqn:E; [|done]. intros [= <-].
  apply andb_true_iff in E as [_ E]. by apply is_in_spec.
Qed.

Section Facts.
Variable API_ORIGIN : jstr.
Variable locale_le : jstr -> jstr -> bool.
Variable formatTime : jstr -> jstr.
Abbreviation screen := (Screen.component API_ORIGIN locale_le formatTime).

Definition detail_inv (s : Screen.St) : Prop :=
  is_Some (Screen.detail s) <-> Screen.mounted (Screen.props s) (Screen.selectedPostId s) = true.

Lemma mount_inv p sel d : is_Some (Screen.mount p sel d) <-> Screen.mounted p sel = true.
Proof.
  unfold Screen.mount. destruct (Screen.mounted p sel); split; [done|by eexists|by intros [? ?]|done].
Qed.

Lemma detail_step s a es s' : detail_inv s -> step screen s a es s' -> detail_inv s'.
Proof.
  intros Hi Hs. assert (Hu : Screen.update a s = (s', es)) by (by inversion Hs).
  destruct a as [sel|a|p d]; cbn in Hu; injection Hu as <- <-; unfold detail_inv in *; cbn.
  - apply mount_inv.
  - rewrite <- Hi. destruct (Screen.detail s); split; intros [? ?]; eauto; done.
  - apply mount_inv.
Qed.
End Facts.

(** ** Properties *)

(** the breakdown of a post, in every run of the analytics screen: it is on screen exactly
    while a post is selected in a loaded workspace, and the series it asks for is always one
    that exists: the query is enabled only for a channel of the post's own rows and a metric
    that this row has, and it is enabled by default as soon as the first row has a named metric. *)
Theorem analytics_series_exists API_ORIGIN locale_le formatTime range p d0 tr s
  (Hrun : steps (Screen.component API_ORIGIN locale_le formatTime) (Screen.init p d0) tr s) :
  (is_Some (Screen.detail s) <-> Screen.mounted (Screen.props s) (Screen.selectedPostId s) = true)
  /\ forall ws post d, Screen.detail s = Some d ->
       let q := (PostDetail.queries range ws post (Screen.data s) d).2 in
       (q_enabled q = true ->
          exists rows r m, PostDetail.perChannel (Screen.data s) = Some rows /\ r ∈ rows
            /\ PostDetail.activeChannelId (Screen.data s) d = Some (cm_channel_id r)
            /\ PostDetail.activeMetric (Screen.data s) d = Some m /\ is_Some (cm_metrics r !! m))
       /\ (forall r rest m, PostDetail.perChannel (Screen.data s) = Some (r :: rest) ->
             PostDetail.channelId d = None -> PostDetail.activeMetric (Screen.data s) d = Some m ->
             truthy ws = true -> truthy post = true -> truthy (cm_channel_id r) = true ->
             truthy m = true -> q_enabled q = true).
Proof.
  split.
  - refine (steps_invariant (Screen.component API_ORIGIN locale_le formatTime) detail_inv _ _ _ _ Hrun _).
    + apply detail_step.
    + split; [by intros [? [=]]|]. unfold Screen.mounted. cbn. by destruct (Screen.active p).
  - intros ws post d Hd q. split.
    + intros H. cbn in H. rewrite !andb_true_iff in H. destruct H as [_ Hm].
      destruct (PostDetail.activeMetric (Screen.data s) d) as [m|] eqn:Em; [|done].
      apply activeMetric_spec, metricNames_spec in Em as Hin. destruct Hin as (r & Hr & Hk).
      apply activeRow_spec in Hr as (l & Hl & Hin & Ha). exists l, r, m. done.
    + intros r rest m Hp Hc Hm Hw Hpo Hcr Hmt. cbn. rewrite Hm. cbn.
      unfold PostDetail.activeChannelId. rewrite Hc, Hp. cbn. by rewrite Hw, Hpo, Hcr, Hmt.
Qed.

Definition sample_rows : list ChannelMetrics :=
  [{| cm_channel_id := "c1"; cm_platform_post_id := "x"; cm_metrics := {["likes" := 3%Z]};
      cm_captured_at := [] |}].
Definition sample_data : PostDetail.Data :=
  {| PostDetail.perChannel := Some sample_rows; PostDetail.isPending := false;
     PostDetail.series := None; PostDetail.seriesPending := true |}.
Definition sample_screen : Screen.Props :=
  {| Screen.active := Some {| w_id := "w1"; w_name := "W"; w_owner_user_id := "u"; w_plan := "free";
                              w_created_at := [] |};
     Screen.rows := Some [{| pm_post_id := "p1"; pm_channel_id := "c1"; pm_platform_post_id := "x";
                             pm_metrics := {["likes" := 3%Z]}; pm_captured_at := [] |}];
     Screen.isPending := false; Screen.isError := false; Screen.channels := None; Screen.posts := None |}.

Lemma analytics_series_exists_witness :
  exists tr s d, steps (Screen.component [] code_unit_le id) (Screen.init sample_screen sample_data) tr s
    /\ Screen.detail s = Some d
    /\ q_enabled (PostDetail.queries (fun _ => ("a", "b")) "w1" "p1" (Screen.data s) d).2 = true.
Proof.
  assert (Hrun : steps (Screen.component [] code_unit_le id) (Screen.init sample_screen sample_data)
    [(Screen.SetSelected (Some ("p1" : jstr)), [])]
    (Screen.update (Screen.SetSelected (Some ("p1" : jstr))) (Screen.init sample_screen sample_data)).1).
  { eapply steps_cons; [eapply (by_user (Screen.component [] code_unit_le id) _
      (Screen.SetSelected (Some ("p1" : jstr)))); [pick|reflexivity]|apply steps_refl]. }
  eexists _, _, _. split; [exact Hrun|]. split; [reflexivity|].
  destruct (analytics_series_exists [] code_unit_le id (fun _ => ("a", "b")) _ _ _ _ Hrun) as [_ H].
  exact (proj2 (H "w1" "p1" _ eq_refl) _ _ "likes" eq_refl eq_refl eq_refl eq_refl eq_refl eq_refl eq_refl).
Defined.

(** the breakdown keeps its choice of channel when another post is picked: if the new
    post was not published to that channel, its series is never asked for, and the screen
    keeps saying that it loads, with no metric to choose. *)
Theorem analytics_stale_channel locale_le formatTime range s d c post ws rows data
  (Hw : is_Some (Screen.active (Screen.props s))) (Hp : truthy post = true)
  (Hd : Screen.detail s = Some d) (Hc : PostDetail.channelId d = Some c)
  (Hrows : PostDetail.perChannel data = Some rows) (Hne : rows <> [])
  (Hno : Forall (fun r => cm_channel_id r <> c) rows) (Hload : PostDetail.isPending data = false)
  (Hdis : q_enabled (PostDetail.queries range ws post data d).2 = false ->
          PostDetail.seriesPending data = true) :
  let s1 := (Screen.update (Screen.SetSelected (Some post)) s).1 in
  let s2 := (Screen.update (Screen.NewProps (Screen.props s1) data) s1).1 in
  Screen.detail s2 = Some d
  /\ q_enabled (PostDetail.queries range ws post data d).2 = false
  /\ PostDetail.metricNames data d = []
  /\ shows_role "status"
       (PostDetail.view locale_le formatTime (Screen.channels (Screen.props s2) ?? []) (Screen.data s2) d) = true.
Proof.
  intros s1 s2. destruct Hw as [w Hw].
  assert (Hm : Screen.mounted (Screen.props s) (Some post) = true) by (unfold Screen.mounted; by rewrite Hw).
  assert (Hdet : Screen.detail s2 = Some d).
  { unfold s2, s1. cbn. unfold Screen.mount. by rewrite Hm, Hd. }
  assert (Hrow : PostDetail.activeRow data d = None).
  { unfold PostDetail.activeRow, PostDetail.activeChannelId. rewrite Hrows, Hc. apply find_first_None.
    eapply Forall_impl; [exact Hno|]. intros r Hr. by apply jeq_false. }
  assert (Hnames : PostDetail.metricNames data d = []) by (unfold PostDetail.metricNames; by rewrite Hrow).
  assert (Hen : q_enabled (PostDetail.queries range ws post data d).2 = false).
  { cbn. unfold PostDetail.activeMetric. rewrite Hnames. rewrite !andb_false_iff. right.
    destruct (PostDetail.metric d) as [m|]; [|done]. destruct (truthy m); done. }
  split_and!; [done|done|done|].
  change (Screen.data s2) with data. unfold PostDetail.view. rewrite Hload, Hrows.
  destruct rows as [|r rows]; [done|]. rewrite !shows_role_app. apply orb_true_iff. right.
  apply orb_true_iff. right. unfold PostDetail.series_view. by rewrite (Hdis Hen), shows_role_app.
Qed.

Lemma analytics_stale_channel_witness :
  let d := {| PostDetail.channelId := Some "c2"; PostDetail.metric := None; PostDetail.days := 30 |} in
  q_enabled (PostDetail.queries (fun _ => ([], [])) "w1" "p2" sample_data d).2 = false
  /\ PostDetail.metricNames sample_data d = [].
Proof.
  intros d.
  destruct (analytics_stale_channel code_unit_le id (fun _ => ([], []))
    {| Screen.props := sample_screen; Screen.selectedPostId := Some "p1"; Screen.detail := Some d;
       Screen.data := sample_data |} d "c2" "p2" "w1" sample_rows sample_data)
    as (_ & H1 & H2 & _).
  - by eexists.
  - done.
  - done.
  - done.
  - done.
  - done.
  - repeat constructor; done.
  - done.
  - done.
  - by split.
Defined.

(** Changing the workspace keeps the selected post: its breakdown is then asked for in a
    workspace it does not belong to, and the refusal shows as an absence of metrics. *)
Theorem analytics_stale_post s d p w post
  (Hd : Screen.detail s = Some d) (Hs : Screen.selectedPostId s = Some post) (Hp : truthy post = true)
  (Hw : Screen.active p = Some w) locale_le formatTime range data
  (Hload : PostDetail.isPending data = false) (Hfail : PostDetail.perChannel data = None) :
  let s' := (Screen.update (Screen.NewProps p data) s).1 in
  Screen.detail s' = Some d
  /\ c_params (q_call (PostDetail.queries range (w_id w) post data d).1)
     = [("workspaceID" : jstr, Some (w_id w)); ("postID" : jstr, Some post)]
  /\ PostDetail.view locale_le formatTime [] data d = [text "No metrics captured for this post yet."].
Proof.
  cbn. unfold Screen.mount, Screen.mounted. rewrite Hs, Hw, Hp, Hd. split_and!; [done|done|].
  unfold PostDetail.view. by rewrite Hload, Hfail.
Qed.
