(* ===== verification/MobileScreens.v ===== *)
(** * The mobile tabs: channels.tsx, calendar.tsx and index.tsx (mobile/src/app/(tabs))

    The rows that destroy something ask first with the system's alert, which is modal: while
    it is open, only its own buttons can be pressed. *)
From S2P Require Import Prelude JsValue Ui Schema Format Platforms Confirm Connect ComposerMobile.

Local Open Scope js_scope.

Local Abbreviation button := Compose.button.

(** ** Rows with an alert

    [Confirm.Row] says what a row shows and calls; [keep] is the alert's other button. *)

Module Ask.
Section Ask.
Context {E : Type}.
Variable keep_ : jstr.
Variable r : Row E.

Record St := { asking : bool; pending : bool }.
Definition init : St := {| asking := false; pending := false |}.

Inductive Act := Press | Keep_ | Confirm | Settled (o : outcome unit).

(** A failure is not shown: the mutation's error is not read. *)
Definition update (a : Act) (s : St) : St * list E :=
  match a with
  | Press => ({| asking := true; pending := pending s |}, [])
  | Keep_ => ({| asking := false; pending := pending s |}, [])
  | Confirm => ({| asking := false; pending := true |}, [c_call r])
  | Settled _ => ({| asking := asking s; pending := false |}, [])
  end.

Definition row_texts : list (node Act) := map Txt (texts (c_row r)).

Definition view (s : St) : list (node Act) :=
  row_texts
  ++ (match c_trigger r with
      | Some t => [button t (asking s) (pending s) Press]
      | None => []
      end)
  ++ when (asking s)
       [Box "alertdialog" [text (c_title r); text (c_description r); Btn keep_ true Keep_;
                           Btn (c_confirmLabel r) true Confirm]].

Definition awaiting (s : St) (a : Act) : Prop :=
  match a with Settled _ => pending s = true | _ => False end.

Definition component : component :=
  {| Ui.st := St; Ui.act := Act; Ui.eff := E; Ui.view := view; Ui.awaiting := awaiting;
     Ui.update := update |}.
End Ask.
End Ask.

(** [`@${handle}`]: the sign is added whether or not the handle has one. *)
Definition at_ (handle : jstr) : jstr := "@" ++ handle.

(** ** channels.tsx *)

Definition ConnectedRow (channel : Channel) : Row Call :=
  {| c_row :=
       [text (ch_display_name channel);
        text (at_ (ch_handle channel) ++ " · " ++ pi_label (Platforms.Mobile.platformInfo (ch_platform channel)));
        text (STATUS (ch_status channel))];
     c_trigger := Some ("Disconnect" : jstr);
     c_title := "Disconnect " ++ at_ (ch_handle channel) ++ "?";
     c_description := "Scheduled posts to this account will fail until it is reconnected.";
     c_confirmLabel := "Disconnect"; c_call := DisconnectChannel (ch_id channel) |}.

Module ConnectRow.
Section ConnectRow.
Variable platformKey : jstr.

Record St := { connected : bool; error : option json; pending : bool }.
Definition init (c : bool) : St := {| connected := c; error := None; pending := false |}.

Inductive Act := Press | Settled (r : ConnectResult) | NewConnected (c : bool).

(** [flow.run(platformKey)] *)
Inductive Eff := Run (platform : jstr).

Definition update (a : Act) (s : St) : St * list Eff :=
  match a with
  | Press => ({| connected := connected s; error := None; pending := true |}, [Run platformKey])
  | Settled (Failed m) => ({| connected := connected s; error := Some m; pending := false |}, [])
  | Settled _ => ({| connected := connected s; error := error s; pending := false |}, [])
  | NewConnected c => ({| connected := c; error := error s; pending := pending s |}, [])
  end.

Definition view (s : St) : list (node Act) :=
  let info := Platforms.Mobile.platformInfo platformKey in
  [text (pi_label info)]
  ++ when (connected s) [text "Connected"]
  ++ when (flag (pi_payPerUse info)) [text "Pay-per-use"]
  ++ [text (pi_hint info)]
  ++ (match pi_caveat info with Some c => when (truthy c) [text c] | None => [] end)
  ++ Ui.alert (error s)
  ++ [button (if connected s then "Add another" else "Connect") false (pending s) Press].

Definition awaiting (s : St) (a : Act) : Prop :=
  match a with Settled _ => pending s = true | NewConnected _ => True | Press => False end.

Definition component : component :=
  {| Ui.st := St; Ui.act := Act; Ui.eff := Eff; Ui.view := view; Ui.awaiting := awaiting;
     Ui.update := update |}.
End ConnectRow.
End ConnectRow.

(** The credentials' form keeps the state and the handlers of the web's ([Connect.Manual]);
    its view is its own. *)
Module ManualConnectRow.
Section ManualConnectRow.
Variable platformKey : jstr.

Definition TELEGRAM_STEPS : list jstr :=
  ["In Telegram, open a chat with @BotFather and send /newbot. Follow the prompts to name your bot; BotFather replies with a token like 123456:ABC-DEF...";
   "Create (or open) the channel or group you want to post to, then add your new bot as an Administrator with the 'Post Messages' permission.";
   "Get the chat id: for a public channel use @yourchannel; for a private channel/group, forward any message from it to @userinfobot (or @getidsbot) to read the numeric id, e.g. -1001234567890.";
   "Paste the bot token and the chat id below, then tap Connect."].

Definition numbered (l : list jstr) : list jstr :=
  imap (fun i s => shownat (S i) ++ ". " ++ s) l.

Definition view (s : Manual.St) : list (node Manual.Act) :=
  let info := Platforms.Mobile.platformInfo platformKey in
  [text (pi_label info); text (pi_hint info)]
  ++ if negb (Manual.open s) then [button "Connect" false false (Manual.SetOpen true)]
     else
       text "How to set up" :: map text (numbered TELEGRAM_STEPS)
       ++ [Field "Bot token" (Manual.botToken s) true Manual.SetToken;
           Field "Chat ID or @channel" (Manual.chatId s) true Manual.SetChat]
       ++ Ui.alert (Manual.error s)
       ++ [button "Connect" false (Manual.pending s) Manual.Submit;
           button "Cancel" false false (Manual.SetOpen false)].

Definition component : component :=
  {| Ui.st := Manual.St; Ui.act := Manual.Act; Ui.eff := Manual.Eff; Ui.view := view;
     Ui.awaiting := Manual.awaiting; Ui.update := Manual.update |}.
End ManualConnectRow.
End ManualConnectRow.

Definition platform_entry {A} (p : PlatformInfo) : node A :=
  Ui.Slot ((if flag (pi_manual p) then "ManualConnectRow " else "ConnectRow ") ++ pi_key p).

Definition ChannelsScreen {A} (active : option Workspace) (channels : option (list Channel))
    (isPending isError : bool) : list (node A) :=
  [text "Channels"; text "Connected accounts"]
  ++ when (match active with None => true | Some _ => isPending end) [Ui.Slot "ActivityIndicator"]
  ++ when isError [Box "alert" [text "Couldn't load channels. Pull to retry."]]
  ++ (match channels with Some [] => [text "No accounts connected yet. Connect your first below."] | _ => [] end)
  ++ (match active with
      | Some _ => map (fun c => Ui.Slot ("ConnectedRow " ++ ch_id c)) (channels ?? [])
      | None => []
      end)
  ++ [text "Connect a platform";
      text "You'll authorize Postal in a secure browser, then land right back here."]
  ++ match active with
     | Some _ => map platform_entry Platforms.Mobile.PLATFORMS
     | None => []
     end.

(** The [connected] prop of the platform rows. *)
Definition is_connected (channels : option (list Channel)) (platform : jstr) : bool :=
  is_in platform (map ch_platform (channels ?? [])).

(** ** calendar.tsx *)

Definition JobRow (localeTime : jstr -> jstr) (job : Job) (handle : jstr) : Row Call :=
  {| c_row :=
       [text (localeTime (j_run_at job));
        text (at_ handle ++ (if bool_decide (j_status job = failed) then dash (j_last_error job) else []));
        text (status_label (j_status job))];
     c_trigger := if bool_decide (j_status job = scheduled) then Some ("Cancel" : jstr) else None;
     c_title := "Cancel this scheduled post?";
     c_description := "It won't be published to " ++ at_ handle ++ ".";
     c_confirmLabel := "Cancel job"; c_call := CancelJob (j_id job) |}.

Module Calendar.
Section Calendar.
(** [a.localeCompare(b) <= 0], and the heading of a date ([dayKey]). *)
Variable locale_le : jstr -> jstr -> bool.
Variable dayKey : jstr -> jstr.

Definition handleFor (channels : list Channel) (channelId : jstr) : jstr :=
  match find_first (fun c => ch_id c =ₛ channelId) channels with
  | Some c => ch_handle c
  | None => slice0 8 channelId
  end.

(** [(groups[dayKey(j.run_at)] ??= []).push(j)]: the properties of an object keep the order
    in which they were added (a heading is not an array index). *)
Fixpoint push (k : jstr) (j : Job) (groups : list (jstr * list Job)) : list (jstr * list Job) :=
  match groups with
  | [] => [(k, [j])]
  | (k', l) :: groups' => if k' =ₛ k then (k', l ++ [j]) :: groups' else (k', l) :: push k j groups'
  end.

Definition sorted (jobs : option (list Job)) : list Job :=
  sort_by (fun a b => locale_le (j_run_at a) (j_run_at b)) (jobs ?? []).

Definition groups (jobs : option (list Job)) : list (jstr * list Job) :=
  foldl (fun g j => push (dayKey (j_run_at j)) j g) [] (sorted jobs).

Definition CalendarScreen {A} (active : option Workspace) (jobs : option (list Job))
    (isPending isError : bool) : list (node A) :=
  [text "Calendar"]
  ++ when (match active with None => true | Some _ => isPending end) [Ui.Slot "ActivityIndicator"]
  ++ when isError [Box "alert" [text "Couldn't load the calendar."]]
  ++ (match jobs with
      | Some [] => [text "Nothing scheduled. Save a draft on the Compose tab, then publish it."]
      | _ => []
      end)
  ++ (groups jobs ≫= fun g => text g.1 :: map (fun j => Ui.Slot ("JobRow " ++ j_id j)) g.2).
End Calendar.
End Calendar.

(** ** index.tsx: the home tab *)

Module Home.
Record St := { user : option (jstr * bool);       (* email, email_verified *)
  pending : bool }.

Inductive Act := SignOut | Settled (o : outcome unit) | NewUser (u : option (jstr * bool)).
Inductive Eff := Logout | Replace (href : jstr).

(** A failed logout rejects the handler: nothing is shown. *)
Definition update (a : Act) (s : St) : St * list Eff :=
  match a with
  | SignOut => ({| user := user s; pending := true |}, [Logout])
  | Settled (inr _) => ({| user := user s; pending := false |}, [Replace "/login"])
  | Settled (inl _) => ({| user := user s; pending := false |}, [])
  | NewUser u => ({| user := u; pending := pending s |}, [])
  end.

Definition verified (s : St) : bool := match user s with Some (_, v) => v | None => false end.

Definition view (s : St) : list (node Act) :=
  [text "Welcome back"; text "Postal"; text "Account";
   text (match user s with Some (e, _) => e | None => [] end);
   text (if verified s then "Verified" else "Unverified")]
  ++ when (negb (verified s))
       [text "Check your inbox to verify your email. You can keep using Postal in the meantime."]
  ++ [text "Your scheduled posts, drafts, and channel health will appear here.";
      button "Sign out" false (pending s) SignOut].

Definition awaiting (s : St) (a : Act) : Prop :=
  match a with Settled _ => pending s = true | NewUser _ => True | SignOut => False end.

Definition component : component :=
  {| Ui.st := St; Ui.act := Act; Ui.eff := Eff; Ui.view := view; Ui.awaiting := awaiting;
     Ui.update := update |}.
End Home.

(** ** Lemmas *)

Section AskFacts.
Context {E : Type}.
Variable keep_ : jstr.
Variable r : Row E.
Import Ask.
Abbreviation ask := (Ask.component keep_ r).
Implicit Types s : St.

Lemma texts_passive (l : list json) (a : Act) : ~ offers (map Txt l) a.
Proof. apply offers_texts. Qed.

Lemma ask_offers s a : offers (Ask.view keep_ r s) a ->
  match a with
  | Press => asking s = false /\ pending s = false /\ is_Some (c_trigger r)
  | Keep_ => asking s = true
  | Confirm => asking s = true
  | Settled _ => False
  end.
Proof.
  unfold Ask.view, Ask.row_texts. rewrite !offers_app. intros [H|[H|H]].
  - by apply texts_passive in H.
  - destruct (c_trigger r) as [t|]; [|done]. destruct H as [[H ->]|H]; [|done].
    apply negb_true_iff, orb_false_iff in H as [? ?]. split_and!; [done|done|by eexists].
  - apply offers_when in H as [H1 H]. cbn in H. destruct H as [H|H]; [|done].
    repeat (destruct H as [H|H]; [try done; destruct H as [_ ->]; done|]). done.
Qed.

(** An open alert: nothing is in flight, and the row has a button. *)
Definition ask_inv s : Prop := asking s = true -> pending s = false /\ is_Some (c_trigger r).

Lemma ask_step s a es s' : ask_inv s -> step ask s a es s' -> ask_inv s'.
Proof.
  intros Hi Hs. assert (Hu : update r a s = (s', es)) by (by inversion Hs).
  destruct a as [| | |o]; cbn in Hu; injection Hu as <- <-; unfold ask_inv in *; cbn; intros Ha.
  - inversion Hs as [? ? ? H|? ? ? H]; subst; [|done]. by apply ask_offers in H as (_ & ? & ?).
  - done.
  - done.
  - by destruct (Hi Ha).
Qed.

Definition ask_answer (a : Act) : bool := match a with Settled _ => true | _ => false end.

Lemma ask_counts s tr s' : steps ask s tr s' -> ask_inv s ->
  bit (pending s') + count ask_answer (map fst tr) = bit (pending s) + length (issued tr).
Proof.
  induction 1 as [s|s a es s1 tr s2 Hs Hrun IH]; intros Hi; [done|].
  pose proof (ask_step _ _ _ _ Hi Hs) as Hi1. specialize (IH Hi1).
  change (issued ((a, es) :: tr)) with (es ++ issued tr). rewrite length_app.
  assert (Hu : update r a s = (s1, es)) by (by inversion Hs).
  unfold count in *. destruct a as [| | |o]; cbn in Hu; injection Hu as <- <-; cbn in *; try lia.
  - assert (Hp : pending s = false).
    { inversion Hs as [? ? ? H|? ? ? H]; subst; [|done]. apply ask_offers in H. by destruct (Hi H). }
    rewrite Hp. cbn. lia.
  - assert (Hp : pending s = true) by (inversion Hs as [? ? ? H|? ? ? H]; subst; [by apply ask_offers in H|done]).
    rewrite Hp. cbn in *. lia.
Qed.
End AskFacts.

Section GroupFacts.
Variable locale_le : jstr -> jstr -> bool.
Variable dayKey : jstr -> jstr.
Definition day_key (j : Job) : jstr := dayKey (j_run_at j).

(** The groups a list of jobs has by definition: one per day, in order of appearance, with
    the day's jobs in the order of the list. *)
Definition by_day (l : list Job) : list (jstr * list Job) :=
  map (fun k => (k, keep (fun j => day_key j =ₛ k) l)) (dedupe (map day_key l)).

Lemma push_map k j (f : jstr -> list Job) ks : NoDup ks ->
  Calendar.push k j (map (fun x => (x, f x)) ks)
  = map (fun x => (x, if x =ₛ k then f x ++ [j] else f x)) ks ++ (if is_in k ks then [] else [(k, [j])]).
Proof.
  induction ks as [|x ks IH]; intros Hn; [done|]. apply NoDup_cons in Hn as [Hx Hn]. cbn.
  destruct (x =ₛ k) eqn:E.
  - apply jeq_true in E. subst x. rewrite jeq_refl. cbn. rewrite app_nil_r. f_equal.
    apply map_ext_in. intros y Hy%list_elem_of_In. destruct (y =ₛ k) eqn:E; [|done].
    apply jeq_true in E. by subst.
  - rewrite IH by done. assert (E' : jeq k x = false) by (apply jeq_false; apply jeq_false in E; congruence).
    by rewrite E'.
Qed.

Lemma groups_by_day l : foldl (fun g j => Calendar.push (day_key j) j g) [] l = by_day l.
Proof.
  induction l as [|j l IH] using rev_ind; [done|]. rewrite foldl_app. cbn. rewrite IH. unfold by_day.
  rewrite push_map by apply dedupe_NoDup. rewrite map_app.
  change (map day_key [j]) with [day_key j]. rewrite dedupe_snoc.
  assert (Hin : is_in (day_key j) (dedupe (map day_key l)) = is_in (day_key j) (map day_key l)).
  { apply eq_true_iff_eq. rewrite !is_in_spec. apply dedupe_In. }
  rewrite Hin.
  assert (Hmap : map (fun x => (x, if x =ₛ day_key j then keep (fun j0 => day_key j0 =ₛ x) l ++ [j]
                                   else keep (fun j0 => day_key j0 =ₛ x) l)) (dedupe (map day_key l))
                 = map (fun k => (k, keep (fun j0 => day_key j0 =ₛ k) (l ++ [j]))) (dedupe (map day_key l))).
  { apply map_ext. intros x. f_equal. rewrite keep_app. cbn. destruct (x =ₛ day_key j) eqn:E.
    - apply jeq_true in E. subst x. by rewrite jeq_refl.
    - assert (E' : jeq (day_key j) x = false) by (apply jeq_false; apply jeq_false in E; congruence).
      by rewrite E', app_nil_r. }
  rewrite Hmap. destruct (is_in (day_key j) (map day_key l)) eqn:E; [by rewrite app_nil_r|].
  rewrite map_app. f_equal. cbn. do 2 f_equal. rewrite keep_app. cbn. rewrite jeq_refl.
  replace (keep (fun j0 => day_key j0 =ₛ day_key j) l) with (@nil Job); [done|].
  symmetry. apply not_true_iff_false in E. rewrite is_in_spec in E.
  assert (H : forall x, x ∈ l -> jeq (day_key x) (day_key j) = false).
  { intros x Hx. apply jeq_false. intros Hk. apply E. rewrite <- Hk. apply list_elem_of_In, in_map.
    by apply list_elem_of_In. }
  clear -H. induction l as [|x l IH]; cbn; [done|]. rewrite H by apply list_elem_of_here.
  apply IH. intros y Hy. apply H. rewrite elem_of_cons. auto.
Qed.

Lemma by_day_perm l : (by_day l ≫= snd) ≡ₚ l.
Proof.
  unfold by_day. trans (dedupe (map day_key l) ≫= fun k => keep (fun j => day_key j =ₛ k) l).
  { induction (dedupe (map day_key l)) as [|k ks IH]; [done|]. cbn. by apply Permutation_app_head. }
  rewrite group_partition by apply dedupe_NoDup. rewrite keep_all; [done|].
  apply Forall_forall. intros j Hj. apply is_in_spec, dedupe_In, list_elem_of_In, in_map.
  by apply list_elem_of_In.
Qed.
End GroupFacts.

(** ** Properties *)

(** A row asks first: its call is made by the button of its open alert only, about its own
    item, with nothing in flight while the alert is open and one call at a time. *)
Definition asks_first (keep_ : jstr) (r : Row Call) : Prop :=
  forall tr s, steps (Ask.component keep_ r) Ask.init tr s ->
    length (issued tr) <= count ask_answer (map fst tr) + 1
    /\ (Ask.asking s = true -> Ask.pending s = false)
    /\ forall a es s', step (Ask.component keep_ r) s a es s' -> es <> [] ->
         a = Ask.Confirm /\ Ask.asking s = true /\ es = [c_call r] /\ is_Some (c_trigger r).

Lemma rows_ask_first keep_ r : asks_first keep_ r.
Proof.
  intros tr s Hrun. assert (H0 : ask_inv r Ask.init) by done.
  pose proof (steps_invariant (Ask.component keep_ r) (ask_inv r) (ask_step keep_ r) _ _ _ Hrun H0) as Hi.
  split_and!.
  - pose proof (ask_counts keep_ r _ _ _ Hrun H0) as H.
    change (bit (Ask.pending Ask.init)) with 0 in H. destruct (Ask.pending s); unfold bit in H; lia.
  - intros Ha. by destruct (Hi Ha).
  - intros a es s' Hs He. assert (Hu : Ask.update r a s = (s', es)) by (by inversion Hs).
    destruct a as [| | |o]; cbn in Hu; injection Hu as <- <-; try done.
    inversion Hs as [? ? ? H|? ? ? H]; subst; [|done]. apply ask_offers in H. by destruct (Hi H).
Qed.

(** the mobile rows ask first: in every run, an account is disconnected or a job canceled
    only by the alert's own button, which is the row's own item; nothing is in flight while an
    alert is open, and no call is made before the last has settled; a job offers it only while
    it is scheduled. *)
Theorem mobile_rows_ask channel localeTime job handle :
  asks_first "Cancel" (ConnectedRow channel) /\ asks_first "Keep" (JobRow localeTime job handle)
  /\ (is_Some (c_trigger (JobRow localeTime job handle)) <-> j_status job = scheduled).
Proof.
  split_and!; [apply rows_ask_first..|].
  unfold JobRow. cbn. case_bool_decide as H; [by split; eauto|]. split; [by intros [? [=]]|done].
Qed.

(** the mobile calendar groups the jobs of its range by day: the groups are those of the
    reference definition over the sorted jobs, one per day, and together they hold every job
    once. *)
Theorem mobile_calendar_groups locale_le dayKey jobs :
  let groups := Calendar.groups locale_le dayKey jobs in
  groups = by_day dayKey (Calendar.sorted locale_le jobs)
  /\ NoDup (map fst groups) /\ (groups ≫= snd) ≡ₚ (jobs ?? []).
Proof.
  assert (E : Calendar.groups locale_le dayKey jobs = by_day dayKey (Calendar.sorted locale_le jobs))
    by apply groups_by_day.
  cbn zeta. rewrite E. split_and!; [done| |].
  - unfold by_day. rewrite map_map. cbn. rewrite map_id. apply dedupe_NoDup.
  - rewrite by_day_perm. apply sort_by_perm.
Qed.

(** The credentials' form sends blank credentials: unlike the web's, its button is not
    disabled while a field is empty. *)
Theorem mobile_manual_blank platformKey :
  exists tr s, steps (ManualConnectRow.component platformKey) Manual.init tr s
    /\ issued tr = [Manual.ConnectManual [] []].
Proof.
  eexists [(Manual.SetOpen true, []); (Manual.Submit, [Manual.ConnectManual [] []])], _. split; [|done].
  eapply steps_cons; [eapply (by_user (ManualConnectRow.component platformKey) _ (Manual.SetOpen true));
    [cbn; right; right; left; split; done|reflexivity]|].
  eapply steps_cons; [eapply (by_user (ManualConnectRow.component platformKey) _ Manual.Submit);
    [|reflexivity]|apply steps_refl].
  cbn -[map]. right. right. right. rewrite !offers_app. right. right. right. left. by split.
Qed.

(** A platform's row makes one attempt at a time, and shows why the last one failed. *)
Theorem connect_row_once platformKey c tr s
  (Hrun : steps (ConnectRow.component platformKey) (ConnectRow.init c) tr s) :
  length (issued tr)
  <= count (fun a => match a with ConnectRow.Settled _ => true | _ => false end) (map fst tr) + 1
  /\ Forall (fun e => e = ConnectRow.Run platformKey) (issued tr)
  /\ forall m, shows_role "alert"
       (ConnectRow.view platformKey (ConnectRow.update platformKey (ConnectRow.Settled (Failed m)) s).1)
     = jtruthy m.
Proof.
  assert (Ho : forall s a, offers (ConnectRow.view platformKey s) a ->
            a = ConnectRow.Press /\ ConnectRow.pending s = false).
  { clear. intros s a. unfold ConnectRow.view. rewrite !offers_app, !offers_when.
    intros [H|[[_ H]|[[_ H]|[H|[H|[H|H]]]]]]; try (cbn in H; tauto).
    - destruct (pi_caveat _); [apply offers_when in H as [_ H]; cbn in H; tauto|done].
    - by apply offers_alert in H.
    - destruct H as [[H ->]|H]; [by apply negb_true_iff in H|done]. }
  split_and!.
  - assert (Hb : balanced (ConnectRow.component platformKey) ConnectRow.pending (fun _ => true)
        (fun a => match a with ConnectRow.Settled _ => true | _ => false end)).
    { intros s0 a es s' Hs. assert (Hu : ConnectRow.update platformKey a s0 = (s', es)) by (by inversion Hs).
      destruct a as [|[ch| |m]|c']; cbn in Hu; injection Hu as <- <-; cbn; try lia.
      all: inversion Hs as [? ? ? H|? ? ? H]; subst;
        [destruct (Ho _ _ H) as [Ha Hp]; try done; by rewrite Hp|]; try done; cbn in H; by rewrite H. }
    pose proof (one_at_a_time _ _ _ _ Hb (ConnectRow.init c) tr s eq_refl Hrun) as H.
    unfold count in H at 1. rewrite keep_all in H; [done|]. by apply Forall_forall.
  - refine (proj2 (steps_issued (ConnectRow.component platformKey) (fun _ => True) _ _ _ _ _ Hrun I)).
    intros s0 a es s' _ Hs. assert (Hu : ConnectRow.update platformKey a s0 = (s', es)) by (by inversion Hs).
    destruct a as [|[ch| |m]|c']; cbn in Hu; injection Hu as <- <-; split; try done; repeat constructor.
  - intros m. unfold ConnectRow.view. cbn [ConnectRow.update fst ConnectRow.connected ConnectRow.error].
    rewrite !shows_role_app, alert_role. destruct (ConnectRow.connected s), (flag _), (pi_caveat _) as [cv|];
      cbn; try destruct (truthy cv); cbn; by rewrite ?orb_false_r.
Qed.
