(* ===== verification/MobileAuth.v ===== *)
(** * The mobile authentication screens

    mobile/src/app/(auth) (login.tsx, signup.tsx, reset.tsx and the group's layout), the
    layout of the tabs, mobile/src/features/auth (resend-verification.tsx, use-bootstrap.ts),
    mobile/src/ui/form-field.tsx and mobile/src/lib/schemas.ts, which the web copies in
    features/auth/schemas.ts.  Of the validation package, the test of an email address is a
    parameter; a text's minimum length counts code units. *)
From S2P Require Import Prelude JsValue Ui Schema ComposerMobile.
From S2P Require Auth.

Local Open Scope js_scope.

Local Abbreviation button := Compose.button.

(** ** schemas.ts: the issues of a value, a field and a message each, in the fields' order *)

Section Schemas.
Variable isEmail : jstr -> bool.

Abbreviation Issues := (list (jstr * jstr)).

Definition email_issues (v : jstr) : Issues :=
  when (negb (isEmail v)) [("email" : jstr, "Enter a valid email address" : jstr)].
Definition min_issues (path : jstr) (n : nat) (message v : jstr) : Issues :=
  when (length v <? n) [(path, message)].

Definition loginSchema (email password : jstr) : Issues :=
  email_issues email ++ min_issues "password" 1 "Password is required" password.
Definition signupSchema (email password : jstr) : Issues :=
  email_issues email ++ min_issues "password" 8 "Use at least 8 characters" password.
Definition requestResetSchema (email : jstr) : Issues := email_issues email.
Definition confirmResetSchema (new_password : jstr) : Issues :=
  min_issues "new_password" 8 "Use at least 8 characters" new_password.
End Schemas.

(** [for (const issue of issues) fe[issue.path[0]] = issue.message] *)
Definition field_errors (issues : list (jstr * jstr)) : gmap jstr jstr :=
  foldl (fun m i => <[i.1 := i.2]> m) ∅ issues.

(** form-field.tsx; the show/hide button of a password changes its display only. *)
Definition FormField {A} (label value : jstr) (error hint : option json) (on : jstr -> A) : list (node A) :=
  let bad := match error with Some m => jtruthy m | None => false end in
  Field label value true on
  :: (match hint with Some h => when (negb bad) [Txt h] | None => [] end) ++ Ui.alert error.

(** ** login.tsx and signup.tsx *)

Module Form.
Section Form.
Variable isEmail : jstr -> bool.

Inductive Kind := login | signup.
Variable k : Kind.

(** [pending] is the email of the submission in flight. *)
Record St := { email : jstr; password : jstr; errors : gmap jstr jstr; formError : option json;
  doneEmail : option jstr; pending : option jstr }.

Definition init : St := {| email := []; password := []; errors := ∅; formError := None;
  doneEmail := None; pending := None |}.

Inductive Act :=
  | SetEmail (v : jstr) | SetPassword (v : jstr) | Submit | Answer (o : outcome unit) | Back.

Inductive Eff := Request (email password : jstr) | Replace (href : jstr).

Definition issues (s : St) : list (jstr * jstr) :=
  match k with
  | login => loginSchema isEmail (email s) (password s)
  | signup => signupSchema isEmail (email s) (password s)
  end.

Definition upd (er : gmap jstr jstr) (fe : option json) (d p : option jstr) (s : St) : St :=
  {| email := email s; password := password s; errors := er; formError := fe; doneEmail := d; pending := p |}.

Definition intercepted (e : Exn) : bool :=
  match k with login => is_str (exn_code e) "email_not_verified" | signup => false end.

Definition update (a : Act) (s : St) : St * list Eff :=
  match a with
  | SetEmail v => ({| email := v; password := password s; errors := errors s; formError := formError s;
                      doneEmail := doneEmail s; pending := pending s |}, [])
  | SetPassword v => ({| email := email s; password := v; errors := errors s; formError := formError s;
                         doneEmail := doneEmail s; pending := pending s |}, [])
  | Submit =>
      match issues s with
      | [] => (upd ∅ None (doneEmail s) (Some (email s)) s, [Request (email s) (password s)])
      | l => (upd (field_errors l) None (doneEmail s) (pending s) s, [])
      end
  | Answer (inr _) =>
      match k with
      | login => (upd (errors s) (formError s) (doneEmail s) None s, [Replace "/"])
      | signup => (upd (errors s) (formError s) (pending s) None s, [])
      end
  | Answer (inl e) =>
      if intercepted e then (upd (errors s) (formError s) (pending s) None s, [])
      else (upd (errors s) (Some (exn_message e)) (doneEmail s) None s, [])
  | Back =>
      match k with
      | login => (upd (errors s) (formError s) None (pending s) s, [])
      | signup => (s, [Replace "/login"])
      end
  end.

Definition str (o : option jstr) : option json := match o with Some m => Some (JStr m) | None => None end.

(** AuthScaffold: the lockup, the title, the subtitle, the children and the footer. *)
Definition scaffold (title subtitle : jstr) (kids footer : list (node Act)) : list (node Act) :=
  [text "Postal"; text "Schedule and publish everywhere."; text title; text subtitle] ++ kids ++ footer.

Definition done_view (mail : jstr) : list (node Act) :=
  match k with
  | login =>
      scaffold "Verify your email" "Please verify before signing in."
        [text ("We sent a verification link to " ++ mail ++ "."); Ui.Slot "ResendVerification";
         button "Back to sign in" false false Back] []
  | signup =>
      scaffold "Check your email" ("We sent a verification link to " ++ mail ++ ".")
        [text "Open the link to finish setting up your account, then sign in."; Ui.Slot "ResendVerification";
         button "Go to sign in" false false Back] []
  end.

Definition loading (s : St) : bool := match pending s with Some _ => true | None => false end.

Definition form_view (s : St) : list (node Act) :=
  scaffold (match k with login => "Sign in" | signup => "Create your account" end)
    (match k with login => "Welcome back." | signup => "Free, no paywall." end)
    (Ui.alert (formError s)
     ++ FormField "Email" (email s) (str (errors s !! ("email" : jstr))) None SetEmail
     ++ FormField "Password" (password s) (str (errors s !! ("password" : jstr)))
          (match k with login => None | signup => Some (JStr "At least 8 characters.") end) SetPassword
     ++ [button (match k with login => "Sign in" | signup => "Create account" end) false (loading s) Submit])
    (match k with
     | login => [text "New here? "; Anchor "Create an account" "/signup"; Anchor "Forgot your password?" "/reset"]
     | signup => [text "Already have an account? "; Anchor "Sign in" "/login"]
     end).

Definition view (s : St) : list (node Act) :=
  match doneEmail s with
  | Some m => if truthy m then done_view m else form_view s
  | None => form_view s
  end.

Definition awaiting (s : St) (a : Act) : Prop :=
  match a with Answer _ => is_Some (pending s) | _ => False end.

Definition component : component :=
  {| Ui.st := St; Ui.act := Act; Ui.eff := Eff; Ui.view := view; Ui.awaiting := awaiting;
     Ui.update := update |}.
End Form.
End Form.

(** ** reset.tsx *)

Module Reset.
Section Reset.
Variable isEmail : jstr -> bool.

Record St := { email : jstr; error : option json; done_ : bool; pending : bool }.
Definition init : St := {| email := []; error := None; done_ := false; pending := false |}.

Inductive Act := SetEmail (v : jstr) | Submit | Answer (o : outcome unit).
Inductive Eff := RequestReset (email : jstr).

Definition update (a : Act) (s : St) : St * list Eff :=
  match a with
  | SetEmail v => ({| email := v; error := error s; done_ := done_ s; pending := pending s |}, [])
  | Submit =>
      match requestResetSchema isEmail (email s) with
      | [] => ({| email := email s; error := None; done_ := done_ s; pending := true |}, [RequestReset (email s)])
      | i :: _ => ({| email := email s; error := Some (JStr i.2); done_ := done_ s; pending := pending s |}, [])
      end
  | Answer (inr _) => ({| email := email s; error := error s; done_ := true; pending := false |}, [])
  | Answer (inl e) =>
      ({| email := email s; error := Some (exn_message e); done_ := done_ s; pending := false |}, [])
  end.

Definition view (s : St) : list (node Act) :=
  [text "Postal"; text "Schedule and publish everywhere."; text "Reset password";
   text "We'll email you a reset link."]
  ++ (if done_ s then
        [Box "alert" [text "If that email is registered, a reset link is on its way. Check your inbox."]]
      else FormField "Email" (email s) (error s) None SetEmail
           ++ [button "Send reset link" false (pending s) Submit])
  ++ [Anchor "Back to sign in" "/login"].

Definition awaiting (s : St) (a : Act) : Prop :=
  match a with Answer _ => pending s = true | _ => False end.

Definition component : component :=
  {| Ui.st := St; Ui.act := Act; Ui.eff := Eff; Ui.view := view; Ui.awaiting := awaiting;
     Ui.update := update |}.
End Reset.
End Reset.

(** ** resend-verification.tsx: the state and the handlers of the web's, a view of its own *)

Module Resend.
Import Auth.Resend.

Definition label (s : St) : jstr :=
  if (0 <? secondsLeft s)%Z then "Resend in " ++ showZ (secondsLeft s) ++ "s"
  else "Resend verification email".

Definition view (s : St) : list (node Act) :=
  [button (label s) ((0 <? secondsLeft s)%Z || pending s) (pending s) Click]
  ++ when (sent s && negb match error s with Some e => jtruthy e | None => false end)
       [text "Sent. Check your inbox, and your spam folder."]
  ++ match error s with Some e => when (jtruthy e) [Txt e] | None => [] end.

Definition component : Ui.component :=
  {| Ui.st := St; Ui.act := Act; Ui.eff := unit; Ui.view := view; Ui.awaiting := awaiting;
     Ui.update := update |}.
End Resend.

(** ** The guards: (auth)/_layout.tsx, (tabs)/_layout.tsx, use-bootstrap.ts *)

Inductive Screen := Splash | Redirect (href : jstr) | Show.

(** [useMe()]: its data when it has some, and [isPending]. *)
Definition AuthLayout (user : option json) (isPending : bool) : Screen :=
  if isPending then Splash
  else if match user with Some u => jtruthy u | None => false end then Redirect "/" else Show.

Definition TabLayout (user : option json) (isPending : bool) : Screen :=
  if isPending then Splash
  else if negb (match user with Some u => jtruthy u | None => false end) then Redirect "/login" else Show.

(** The layout of a path, and the screen after at most [n] redirections. *)
Definition layout (path : jstr) (user : option json) (isPending : bool) : Screen :=
  if is_in path ["/login"; "/signup"; "/reset"] then AuthLayout user isPending else TabLayout user isPending.

Fixpoint navigate (n : nat) (path : jstr) (user : option json) (isPending : bool) : Screen :=
  match n, layout path user isPending with
  | S n', Redirect href => navigate n' href user isPending
  | _, s => s
  end.

(** [useBootstrap]: ready once the refresh has settled, however it settled. *)
Definition bootstrap_settled (active : bool) (o : outcome bool) (ready : bool) : bool :=
  if active then true else ready.

(** ** Lemmas *)

Lemma FormField_offers {A} label v (e h : option json) (on : jstr -> A) a :
  offers (FormField label v e h on) a -> exists t, a = on t.
Proof.
  unfold FormField. intros [H|H]; [by destruct H as [_ H]|].
  rewrite offers_app in H. destruct H as [H|H]; [|by apply offers_alert in H].
  destruct h; [|done]. apply offers_when in H as [_ H]. cbn in H. tauto.
Qed.

Section FormFacts.
Variable isEmail : jstr -> bool.
Variable k : Form.Kind.
Import Form.
Abbreviation form := (Form.component isEmail k).
Implicit Types s : St.

Lemma form_offers s a : offers (Form.view k s) a ->
  match a with Submit => pending s = None | Answer _ => False | _ => True end.
Proof.
  assert (Hf : offers (form_view k s) a -> match a with Submit => pending s = None | Answer _ => False | _ => True end).
  { unfold form_view, scaffold. rewrite !offers_app. intros [H|[[H|[H|[H|H]]]|H]].
    - cbn in H. tauto.
    - by apply offers_alert in H.
    - apply FormField_offers in H as [t ->]. done.
    - apply FormField_offers in H as [t ->]. done.
    - destruct H as [[H ->]|H]; [|done]. unfold loading in H. by destruct (pending s).
    - destruct k; cbn in H; tauto. }
  assert (Hd : forall m, offers (done_view k m) a -> match a with Submit => pending s = None | Answer _ => False | _ => True end).
  { intros m H. unfold done_view in H. destruct k; cbn in H;
      repeat (destruct H as [H|H]; [try done; destruct H as [_ ->]; done|]); done. }
  unfold view. destruct (doneEmail s) as [m|]; [destruct (truthy m); [apply Hd|exact Hf]|exact Hf].
Qed.

Definition busy s : bool := loading s.
Definition is_request (e : Eff) : bool := match e with Request _ _ => true | Replace _ => false end.
Definition is_answer (a : Act) : bool := match a with Answer _ => true | _ => false end.

Lemma mobile_form_balanced : balanced form busy is_request is_answer.
Proof.
  intros s a es s' Hs. assert (Hu : update isEmail k a s = (s', es)) by (by inversion Hs).
  assert (Ha : match a with Submit => pending s = None | Answer _ => is_Some (pending s) | _ => True end).
  { inversion Hs as [? ? ? H|? ? ? H]; subst.
    - apply form_offers in H. by destruct a.
    - by destruct a. }
  destruct a as [v|v| |[e|u]|]; cbn in Hu; unfold busy, loading in *.
  - injection Hu as <- <-. cbn. lia.
  - injection Hu as <- <-. cbn. lia.
  - destruct (issues isEmail k s); injection Hu as <- <-; cbn; by rewrite Ha.
  - destruct Ha as [m Hm]. destruct (intercepted k e); injection Hu as <- <-; cbn; by rewrite Hm.
  - destruct Ha as [m Hm]. destruct k; injection Hu as <- <-; cbn; by rewrite Hm.
  - destruct k; injection Hu as <- <-; cbn; lia.
Qed.

(** What the schemas require. *)
Lemma issues_nil s : issues isEmail k s = [] ->
  isEmail (email s) = true /\ (match k with login => 1 | signup => 8 end) <= length (password s).
Proof.
  unfold issues, loginSchema, signupSchema, email_issues, min_issues.
  destruct k; intros [H1 H2]%app_eq_nil.
  all: destruct (isEmail (email s)); [|done]; split; [done|].
  all: apply Nat.nlt_ge; intros H; apply Nat.ltb_lt in H; by rewrite H in H2.
Qed.
End FormFacts.

(** ** Properties *)

(** the mobile sign-in and sign-up forms, in every run: one request at a time; a request
    carries what was typed, an address the schema accepts and a password that is long enough;
    and any failure is shown with its message, exceptions of the network included, with the
    form ready for another attempt. *)
Theorem mobile_forms_ok isEmail k tr s (Hrun : steps (Form.component isEmail k) Form.init tr s) :
  count is_request (issued tr) <= count is_answer (map fst tr) + 1
  /\ (forall a es s' e p, step (Form.component isEmail k) s a es s' -> Form.Request e p ∈ es ->
        e = Form.email s /\ p = Form.password s /\ isEmail e = true
        /\ (match k with Form.login => 1 | Form.signup => 8 end) <= length p)
  /\ (forall e es s', step (Form.component isEmail k) s (Form.Answer (inl e)) es s' ->
        Form.intercepted k e = false -> Form.doneEmail s = None -> jtruthy (exn_message e) = true ->
        es = [] /\ shows_role "alert" (Form.view k s') = true /\ offers (Form.view k s') Form.Submit).
Proof.
  split_and!.
  - exact (one_at_a_time _ _ _ _ (mobile_form_balanced isEmail k) Form.init tr s eq_refl Hrun).
  - intros a es s' e p Hs Hin. assert (Hu : Form.update isEmail k a s = (s', es)) by (by inversion Hs).
    destruct a as [v|v| |[x|u]|]; cbn in Hu.
    1,2: injection Hu as <- <-; by apply elem_of_nil in Hin.
    + destruct (Form.issues isEmail k s) eqn:E; injection Hu as <- <-; [|by apply elem_of_nil in Hin].
      apply list_elem_of_singleton in Hin. injection Hin as -> ->. by apply issues_nil in E as [? ?].
    + destruct (Form.intercepted k x); injection Hu as <- <-; by apply elem_of_nil in Hin.
    + destruct k; injection Hu as <- <-; [by apply list_elem_of_singleton in Hin|by apply elem_of_nil in Hin].
    + destruct k; injection Hu as <- <-; [by apply elem_of_nil in Hin|by apply list_elem_of_singleton in Hin].
  - intros e es s' Hs Hi Hd Hm.
    assert (Hu : Form.update isEmail k (Form.Answer (inl e)) s = (s', es)) by (by inversion Hs).
    cbn in Hu. rewrite Hi in Hu. injection Hu as <- <-. unfold Form.view. cbn [Form.doneEmail Form.upd]. rewrite Hd.
    unfold Form.form_view, Form.scaffold. cbn [Form.formError Form.upd]. split_and!; [done| |].
    + rewrite !shows_role_app. apply orb_true_iff. right. apply orb_true_iff. left.
      apply orb_true_iff. left. by rewrite alert_role.
    + rewrite !offers_app. right. left. right. right. right. left. by split.
Qed.

Lemma mobile_forms_ok_witness :
  exists s, Form.email s = "a@b.co"
    /\ forall a es s' e p, step (Form.component (fun _ => true) Form.login) s a es s' ->
         Form.Request e p ∈ es -> e = "a@b.co".
Proof.
  assert (Hrun : steps (Form.component (fun _ => true) Form.login) Form.init
    [(Form.SetEmail "a@b.co", [])] (Form.update (fun _ => true) Form.login (Form.SetEmail "a@b.co") Form.init).1).
  { eapply steps_cons; [eapply (by_user (Form.component (fun _ => true) Form.login) _ (Form.SetEmail "a@b.co"));
      [pick|reflexivity]|apply steps_refl]. }
  eexists. split; [|intros a es s' e p Hs Hin;
    destruct (mobile_forms_ok (fun _ => true) Form.login _ _ Hrun) as (_ & H & _);
    exact (proj1 (H a es s' e p Hs Hin))]. done.
Defined.

(** the guards of the two route groups never disagree: from any path, with any answer
    about the user, one redirection is enough to reach a screen that stays; a signed-in user
    ends in the application, and a signed-out one on a public page. *)
Theorem mobile_guards_settle path user isPending n (Hn : 1 <= n) :
  let signed_in := match user with Some u => jtruthy u | None => false end in
  (forall href, navigate n path user isPending <> Redirect href)
  /\ (isPending = false -> navigate n path user isPending = Show
      /\ (layout path user isPending = Redirect "/" -> signed_in = true)
      /\ (layout path user isPending = Redirect "/login" -> signed_in = false)).
Proof.
  intros signed_in. destruct n as [|n]; [lia|].
  assert (E : navigate (S n) path user isPending = if isPending then Splash else Show).
  { assert (Hstay : forall m p, layout p user isPending = Show -> navigate m p user isPending = Show)
      by (intros [|m] p Hp; cbn; by rewrite Hp).
    assert (Hhome : layout "/" user isPending = TabLayout user isPending) by done.
    assert (Hlogin : layout "/login" user isPending = AuthLayout user isPending) by done.
    assert (HA : AuthLayout user isPending = if isPending then Splash else if signed_in then Redirect "/" else Show) by done.
    assert (HT : TabLayout user isPending = if isPending then Splash else if signed_in then Show else Redirect "/login")
      by (unfold TabLayout; fold signed_in; by destruct isPending, signed_in).
    cbn [navigate]. destruct (is_in path ["/login"; "/signup"; "/reset"]) eqn:Ein.
    - assert (El : layout path user isPending = AuthLayout user isPending) by (unfold layout; by rewrite Ein).
      rewrite El, HA. destruct isPending; [done|]. destruct signed_in; [|done]. apply Hstay. by rewrite Hhome.
    - assert (El : layout path user isPending = TabLayout user isPending) by (unfold layout; by rewrite Ein).
      rewrite El, HT. destruct isPending; [done|]. destruct signed_in; [done|]. apply Hstay. by rewrite Hlogin. }
  rewrite E. split; [by destruct isPending|]. intros ->. split; [done|].
  unfold layout, AuthLayout, TabLayout. fold signed_in. destruct (is_in path _), signed_in; split; done.
Qed.

Lemma mobile_guards_settle_witness :
  navigate 1 "/login" (Some (JObj [])) false = Show /\ navigate 1 "/calendar" None false = Show.
Proof.
  split; [exact (proj1 (proj2 (mobile_guards_settle "/login" (Some (JObj [])) false 1 ltac:(lia)) eq_refl))
         |exact (proj1 (proj2 (mobile_guards_settle "/calendar" None false 1 ltac:(lia)) eq_refl))].
Defined.

(** The resend button runs exactly as the web's does, for an address that is not empty: what
    is proved of its cooldown holds here. *)
Theorem mobile_resend_is_web email s a es s' (He : truthy email = true) :
  step Resend.component s a es s' <-> step (Auth.Resend.component email) s a es s'.
Proof.
  assert (Ho : offers (Resend.view s) a <-> offers (Auth.Resend.view email s) a).
  { unfold Resend.view, Auth.Resend.view. rewrite !offers_app. unfold Auth.Resend.disabled. rewrite He.
    cbn [offers offered button Compose.button]. rewrite !orb_false_r.
    destruct (0 <? Auth.Resend.secondsLeft s)%Z, (Auth.Resend.pending s); cbn; tauto. }
  split; intros H; inversion H as [? ? ? H1|? ? ? H1]; subst; [apply by_user|by apply by_env|apply by_user|by apply by_env];
    cbn; try (by apply Ho); done.
Qed.
