(* ===== verification/MobileTeam.v ===== *)
(** * Members, settings and analytics on mobile; the activity feed of both apps

    mobile/src/app/(tabs)/more (members.tsx, settings.tsx, analytics.tsx, index.tsx),
    mobile/src/features/members, and web/src/features/members/activity-feed.tsx. *)
From S2P Require Import Prelude JsValue Ui Schema ComposerMobile Analytics.
From S2P Require Access.

Local Open Scope js_scope.

Local Abbreviation button := Compose.button.

(** ** activity-feed.tsx *)

Record ActivityEntry := { ae_id : Z; ae_actor_email : jstr; ae_action : jstr; ae_target : jstr;
  ae_created_at : jstr }.

Section Feed.
(** [new Date(iso).toLocaleString()] *)
Variable localeDate : jstr -> jstr.

Definition ActivityRow {A} (label : jstr -> jstr) (e : ActivityEntry) : list (node A) :=
  [text (if truthy (ae_actor_email e) then ae_actor_email e else "System"); text (label (ae_action e))]
  ++ when (truthy (ae_target e)) [text (" · " ++ ae_target e)]
  ++ [text (localeDate (ae_created_at e))].

Definition WebActivityFeed {A} (activity : option (list ActivityEntry)) (isPending isError : bool) : list (node A) :=
  [text "Activity"; text "Who did what in this workspace, most recent first."]
  ++ when isPending [Box "status" [text "Loading"]]
  ++ when isError [Box "alert" [text "Couldn't load activity."]]
  ++ match activity with
     | None => []
     | Some [] => [text "No activity yet."]
     | Some l => l ≫= ActivityRow Access.action_label
     end.

(** The mobile labels lack one of the web's. *)
Definition MOBILE_ACTION_LABELS : list (jstr * jstr) :=
  [("user.login" : jstr, "signed in" : jstr); ("user.signup" : jstr, "signed up" : jstr);
   ("user.email_verified" : jstr, "verified their email" : jstr);
   ("post.schedule" : jstr, "scheduled a post" : jstr);
   ("post.schedule_slots" : jstr, "queued a post to slots" : jstr);
   ("channel.connected" : jstr, "connected a channel" : jstr);
   ("channel.disconnected" : jstr, "disconnected a channel" : jstr);
   ("member.added" : jstr, "added a member" : jstr);
   ("member.capabilities_updated" : jstr, "changed a member's permissions" : jstr)].

Definition mobile_label (action : jstr) : jstr :=
  match find_first (fun x => x.1 =ₛ action) MOBILE_ACTION_LABELS with
  | Some (_, l) => l
  | None => map (fun c => if N.eqb c 46 || N.eqb c 95 then 32%N else c) action
  end.

Definition MobileActivityFeed {A} (activity : option (list ActivityEntry)) (isPending isError : bool) : list (node A) :=
  [text "Activity"]
  ++ when isPending [Ui.Slot "ActivityIndicator"]
  ++ when isError [Box "alert" [text "Couldn't load activity."]]
  ++ match activity with
     | None => []
     | Some [] => [text "No activity yet."]
     | Some l => l ≫= ActivityRow mobile_label
     end.
End Feed.

(** ** member-channel-access.tsx: the state and the handlers of the web's editor *)

Module Editor.
Import Access.Editor.

Definition channel_row (s : St) (c : Channel) : list (node Act) :=
  [Toggle "button" ("@" ++ ch_handle c) (bool_decide (ch_id c ∈ selected s)) true (Toggle_ (ch_id c));
   text (ch_platform c)].

Definition view (s : St) : list (node Act) :=
  [Toggle "switch" "Restrict to selected" (restricted s) true (SetRestricted (negb (restricted s)))]
  ++ (if negb (restricted s) then [text "Can publish to every channel."]
      else match channels s ?? [] with
           | [] => [text "No channels connected yet."]
           | cs => cs ≫= channel_row s
           end)
  ++ [button "Save access" false (pending s) Save]
  ++ when (saved s) [text "Saved."]
  ++ match error s with Some e => when (jtruthy e) [Txt e] | None => [] end.

Definition component : Ui.component :=
  {| Ui.st := St; Ui.act := Act; Ui.eff := Eff; Ui.view := view; Ui.awaiting := awaiting;
     Ui.update := update |}.

(** [MemberChannelAccess]: the disclosure, and what it mounts once the access is loaded. *)
Definition MemberChannelAccess (open : bool) (access : option (bool * list jstr)) (isPending : bool)
    (channels : option (list Channel)) : list (node unit) * option St :=
  ([Btn (if open then "Hide channel access" else "Channel access") true tt],
   if open then AccessLoader access isPending channels else None).
End Editor.

(** ** members.tsx *)

Module Members.
Definition ASSIGNABLE_ROLES : list MemberRole := [admin; editor; viewer].

Definition ROLE_LABELS (r : MemberRole) : jstr :=
  match r with
  | owner => "Owner" | admin => "Admin" | editor => "Editor" | viewer => "Viewer" | custom => "Custom"
  end.

Record Props := { active : option Workspace; me : option User; members : option (list Member);
  isPending : bool; isError : bool }.

Record St := { props : Props; email : jstr; role : MemberRole; error : option json; sent : bool;
  pending : bool }.

Definition init (p : Props) : St :=
  {| props := p; email := []; role := editor; error := None; sent := false; pending := false |}.

Inductive Act :=
  | SetEmail (v : jstr) | SetRole (r : MemberRole) | Submit | Settled (o : outcome Member) | NewProps (p : Props).

(** [add.mutateAsync({ email, role })], for a workspace. *)
Inductive Eff := AddMember (ws : jstr) (email : jstr) (role : MemberRole).

Definition is_me (p : Props) (m : Member) : bool :=
  match me p with Some u => m_user_id m =ₛ u_id u | None => false end.

Definition myRole (p : Props) : option MemberRole :=
  match members p with
  | Some l => match find_first (is_me p) l with Some m => Some (m_role m) | None => None end
  | None => None
  end.

Definition canManage (p : Props) : bool :=
  bool_decide (myRole p = Some owner) || bool_decide (myRole p = Some admin).

Definition update (a : Act) (s : St) : St * list Eff :=
  match a with
  | SetEmail v => ({| props := props s; email := v; role := role s; error := error s; sent := sent s;
                      pending := pending s |}, [])
  | SetRole r => ({| props := props s; email := email s; role := r; error := error s; sent := sent s;
                     pending := pending s |}, [])
  | Submit =>
      ({| props := props s; email := email s; role := role s; error := None; sent := false; pending := true |},
       [AddMember (match active (props s) with Some w => w_id w | None => [] end) (trim (email s)) (role s)])
  | Settled (inr _) =>
      ({| props := props s; email := []; role := role s; error := error s; sent := true; pending := false |}, [])
  | Settled (inl e) =>
      ({| props := props s; email := email s; role := role s; error := Some (exn_message e); sent := sent s;
          pending := false |}, [])
  | NewProps p => ({| props := p; email := email s; role := role s; error := error s; sent := sent s;
                      pending := pending s |}, [])
  end.

(** [role.charAt(0).toUpperCase()] of the avatar is that of the label. *)
Definition MemberRow (p : Props) (m : Member) : list (node Act) :=
  [text (charAt0 (ROLE_LABELS (m_role m)));
   text (slice0 8 (m_user_id m) ++ (if is_me p m then " (you)" else []));
   text (shownat (length (m_permissions m)) ++ " capabilities"); text (ROLE_LABELS (m_role m))]
  ++ when (canManage p && negb (bool_decide (m_role m = owner)))
       [Ui.Slot ("MemberChannelAccess " ++ m_user_id m)].

Definition no_error (s : St) : bool := match error s with Some m => negb (jtruthy m) | None => true end.

Definition add_panel (s : St) : list (node Act) :=
  [text "Add a member";
   text "They must already have a Postal account. They join with the role you pick.";
   Field "Email" (email s) true SetEmail; text "Role"]
  ++ map (fun r => Toggle "text" (ROLE_LABELS r) (bool_decide (role s = r)) true (SetRole r)) ASSIGNABLE_ROLES
  ++ when (sent s && no_error s) [text "Member added."]
  ++ Ui.alert (error s)
  ++ [button "Add member" (negb (truthy (trim (email s)))) (pending s) Submit].

Definition view (s : St) : list (node Act) :=
  let p := props s in
  [text "Team"]
  ++ when (match active p with None => true | Some _ => isPending p end) [Ui.Slot "ActivityIndicator"]
  ++ when (isError p) [Box "alert" [text "Couldn't load members. Pull to retry."]]
  ++ ((members p ?? []) ≫= MemberRow p)
  ++ when (canManage p) (add_panel s)
  ++ when (canManage p && match active p with Some _ => true | None => false end) [Ui.Slot "ActivityFeed"].

Definition awaiting (s : St) (a : Act) : Prop :=
  match a with Settled _ => pending s = true | NewProps _ => True | _ => False end.

Definition component : component :=
  {| Ui.st := St; Ui.act := Act; Ui.eff := Eff; Ui.view := view; Ui.awaiting := awaiting;
     Ui.update := update |}.
End Members.

(** ** settings.tsx *)

Module Settings.
Inductive ThemePreference := system | light | dark.
#[export] Instance ThemePreference_eq_dec : EqDecision ThemePreference.
Proof. solve_decision. Defined.

Definition THEMES : list (ThemePreference * jstr) :=
  [(system, "System" : jstr); (light, "Light" : jstr); (dark, "Dark" : jstr)].

Record St := { user : option User; active : option Workspace; preference : ThemePreference; pending : bool }.

Inductive Act :=
  | SetPreference (t : ThemePreference) | SignOut | Settled (o : outcome unit)
  | NewProps (u : option User) (w : option Workspace).
Inductive Eff := Logout | Replace (href : jstr).

Definition update (a : Act) (s : St) : St * list Eff :=
  match a with
  | SetPreference t => ({| user := user s; active := active s; preference := t; pending := pending s |}, [])
  | SignOut => ({| user := user s; active := active s; preference := preference s; pending := true |}, [Logout])
  | Settled o =>
      ({| user := user s; active := active s; preference := preference s; pending := false |},
       match o with inr _ => [Replace "/login"] | inl _ => [] end)
  | NewProps u w => ({| user := u; active := w; preference := preference s; pending := pending s |}, [])
  end.

Section View.
(** The date of a timestamp, in words. *)
Variable localeDay : jstr -> jstr.

Definition view (s : St) : list (node Act) :=
  [text "Account"; text "Email"]
  ++ (match user s with
      | Some u => [text (u_email u); text (if u_email_verified u then "Verified" else "Unverified");
                   text "Member since"; text (localeDay (u_created_at u))]
      | None => [text "Unverified"]
      end)
  ++ [text "Appearance"]
  ++ map (fun t => Toggle "button" t.2 (bool_decide (preference s = t.1)) true (SetPreference t.1)) THEMES
  ++ (match active s with
      | Some w => [text "Workspace"; text "Name"; text (w_name w); text "Plan"; text (w_plan w)]
      | None => []
      end)
  ++ [button "Sign out" false (pending s) SignOut].

Definition awaiting (s : St) (a : Act) : Prop :=
  match a with Settled _ => pending s = true | NewProps _ _ => True | _ => False end.

Definition component : component :=
  {| Ui.st := St; Ui.act := Act; Ui.eff := Eff; Ui.view := view; Ui.awaiting := awaiting;
     Ui.update := update |}.
End View.
End Settings.

(** ** analytics.tsx and the menu *)

Section Analytics.
Variable locale_le : jstr -> jstr -> bool.
Variable localeDay : jstr -> jstr.

Definition excerptFor (posts : list Post) (id : jstr) : option jstr :=
  match find_first (fun p => p_id p =ₛ id) posts with
  | Some p => match p_variants p with Some (v :: _) => Some (v_body v) | _ => None end
  | None => None
  end.

Definition metrics_card {A} (channels : list Channel) (posts : list Post) (row : PostMetrics) : list (node A) :=
  [text ("@" ++ match find_first (fun c => ch_id c =ₛ pm_channel_id row) channels with
                | Some c => ch_handle c | None => slice0 8 (pm_channel_id row) end);
   text (localeDay (pm_captured_at row))]
  ++ (match excerptFor posts (pm_post_id row) with Some b => when (truthy b) [text b] | None => [] end)
  ++ (entries locale_le (pm_metrics row) ≫= fun e => [Txt (JNum e.2); text e.1]).

(** A failed query shows nothing: its error is not read. *)
Definition AnalyticsScreen {A} (active : option Workspace) (rows : option (list PostMetrics)) (isPending : bool)
    (channels : option (list Channel)) (posts : option (list Post)) : list (node A) :=
  let anyPublished := existsb (fun p => p_status p =ₛ "published") (posts ?? []) in
  when (match active with None => true | Some _ => isPending end) [Ui.Slot "ActivityIndicator"]
  ++ match rows with
     | None => []
     | Some [] =>
         [text (if anyPublished then "Metrics are on the way" else "No published posts yet");
          text (if anyPublished
                then "First numbers are captured within about 15 minutes of publishing, then refresh periodically."
                else "Publish a post from the Compose tab first. Metrics appear here within about 15 minutes.")]
     | Some l => l ≫= metrics_card (channels ?? []) (posts ?? [])
     end.
End Analytics.

Definition MORE_ITEMS : list (jstr * jstr * jstr) :=
  [("/more/analytics" : jstr, "Analytics" : jstr, "How your posts perform" : jstr);
   ("/more/members" : jstr, "Members" : jstr, "Workspace team and roles" : jstr);
   ("/more/wallet" : jstr, "Wallet" : jstr, "Credits for X publishing" : jstr);
   ("/more/settings" : jstr, "Settings" : jstr, "Account and appearance" : jstr)].

(** [router.push(href)] *)
Definition MoreMenu : list (node jstr) :=
  text "More" :: (MORE_ITEMS ≫= fun i => [Toggle "link" i.1.2 false true i.1.1; text i.2]).

(** ** Lemmas *)

Section MembersFacts.
Import Members.
Implicit Types s : St.

Lemma members_offers s a : offers (Members.view s) a ->
  canManage (props s) = true
  /\ match a with
     | SetRole r => r ∈ ASSIGNABLE_ROLES
     | Submit => pending s = false /\ trim (email s) <> []
     | SetEmail _ => True
     | _ => False
     end.
Proof.
  unfold Members.view. rewrite !offers_app. intros [H|[H|[H|[H|[H|H]]]]].
  - cbn in H. tauto.
  - apply offers_when in H as [_ H]. cbn in H. tauto.
  - apply offers_when in H as [_ H]. cbn in H. tauto.
  - apply offers_bind in H as (m & _ & H). unfold Members.MemberRow in H. rewrite offers_app in H.
    destruct H as [H|H]; [cbn in H; tauto|]. apply offers_when in H as [_ H]. cbn in H. tauto.
  - apply offers_when in H as [Hc H]. split; [done|]. unfold add_panel in H. rewrite !offers_app in H.
    destruct H as [H|[H|[H|[H|H]]]].
    + cbn in H. destruct H as [H|[H|[[_ [t ->]]|[H|H]]]]; done.
    + apply offers_map in H as (r & Hr & [_ ->]). done.
    + apply offers_when in H as [_ H]. cbn in H. tauto.
    + by apply offers_alert in H.
    + destruct H as [[H ->]|H]; [|done]. apply negb_true_iff, orb_false_iff in H as [H1 H2].
      split; [done|]. apply negb_false_iff in H1. by apply truthy_true.
  - apply offers_when in H as [_ H]. cbn in H. tauto.
Qed.

Definition members_answer (a : Act) : bool := match a with Settled _ => true | _ => false end.

Lemma members_balanced : balanced Members.component pending (fun _ => true) members_answer.
Proof.
  intros s a es s' Hs. assert (Hu : update a s = (s', es)) by (by inversion Hs).
  destruct a as [v|r| |[e|m]|p]; cbn in Hu; injection Hu as <- <-; cbn; try lia.
  - inversion Hs as [? ? ? H|? ? ? H]; subst; [|done]. apply members_offers in H as (_ & -> & _). done.
  - inversion Hs as [? ? ? H|? ? ? H]; subst; [by apply members_offers in H as [_ H]|]. cbn in H. by rewrite H.
  - inversion Hs as [? ? ? H|? ? ? H]; subst; [by apply members_offers in H as [_ H]|]. cbn in H. by rewrite H.
Qed.

(** The role is always one that can be given. *)
Lemma role_assignable p0 s : reachable Members.component (init p0) s -> role s ∈ ASSIGNABLE_ROLES.
Proof.
  revert s. refine (reachable_invariant Members.component (fun s => role s ∈ ASSIGNABLE_ROLES) (init p0) _ _).
  - cbn. apply list_elem_of_further, list_elem_of_here.
  - intros s a es s' Hi Hs. assert (Hu : update a s = (s', es)) by (by inversion Hs).
    destruct a as [v|r| |[e|m]|p]; cbn in Hu; injection Hu as <- <-; try done.
    inversion Hs as [? ? ? H|? ? ? H]; subst; [by apply members_offers in H as [_ H]|done].
Qed.
End MembersFacts.

(** ** Properties *)

(** adding a member on mobile, in every run: only an owner or an admin of the workspace
    is offered the form; one request at a time; a request carries a trimmed address that is
    not empty and a role that can be given, never owner or custom. *)
Theorem mobile_add_member_ok p tr s (Hrun : steps Members.component (Members.init p) tr s) :
  length (issued tr) <= count members_answer (map fst tr) + 1
  /\ forall a es s' ws e r, step Members.component s a es s' -> Members.AddMember ws e r ∈ es ->
       (Members.myRole (Members.props s) = Some owner \/ Members.myRole (Members.props s) = Some admin)
       /\ e = trim (Members.email s) /\ e <> [] /\ r ∈ Members.ASSIGNABLE_ROLES.
Proof.
  split.
  - pose proof (one_at_a_time _ _ _ _ members_balanced (Members.init p) tr s eq_refl Hrun) as H.
    unfold count in H at 1. rewrite keep_all in H; [done|]. by apply Forall_forall.
  - intros a es s' ws e r Hs Hin. pose proof (role_assignable _ _ (ex_intro _ tr Hrun)) as Hr.
    assert (Hu : Members.update a s = (s', es)) by (by inversion Hs).
    destruct a as [v|r'| |[x|m]|q]; cbn in Hu; injection Hu as <- <-; try by apply elem_of_nil in Hin.
    apply list_elem_of_singleton in Hin. injection Hin as -> -> ->.
    inversion Hs as [? ? ? H|? ? ? H]; subst; [|done]. apply members_offers in H as (Hc & _ & Ht).
    split_and!; [|done|done|done]. unfold Members.canManage in Hc. apply orb_true_iff in Hc.
    destruct Hc as [Hc|Hc]; apply bool_decide_eq_true in Hc; auto.
Qed.

Lemma mobile_add_member_ok_witness :
  let p := {| Members.active := None; Members.me := None; Members.members := None;
              Members.isPending := false; Members.isError := false |} in
  length (issued (A := Members.Act) (E := Members.Eff) []) <= 1
  /\ forall a es s' ws e r, step Members.component (Members.init p) a es s' ->
       Members.AddMember ws e r ∈ es -> e <> [].
Proof.
  intros p. pose proof (steps_refl Members.component (Members.init p)) as Hrun.
  destruct (mobile_add_member_ok p [] _ Hrun) as [H1 H2]. split; [exact H1|].
  intros a es s' ws e r Hs Hin. exact (proj1 (proj2 (proj2 (H2 a es s' ws e r Hs Hin)))).
Defined.

(** publish access on mobile runs exactly as on the web: the two editors take the same
    steps, so what is proved of one holds of the other. *)
Theorem mobile_access_is_web s a es s' :
  step Editor.component s a es s' <-> step Access.Editor.component s a es s'.
Proof.
  assert (Ho : offers (Editor.view s) a <-> offers (Access.Editor.view s) a).
  { unfold Editor.view, Access.Editor.view. rewrite !offers_app, !offers_when.
    assert (Herr : ~ offers (match Access.Editor.error s with Some e => when (jtruthy e) [Txt (A:=Access.Editor.Act) e] | None => [] end) a).
    { destruct (Access.Editor.error s) as [m|]; [|cbn; tauto]. intros [_ H]%offers_when. cbn in H. tauto. }
    assert (Hch : offers (match Access.Editor.channels s ?? [] with [] => [text "No channels connected yet."]
                          | cs => cs ≫= Editor.channel_row s end) a
                  <-> offers (match Access.Editor.channels s with
                      | Some [] => [text "No channels connected yet."]
                      | Some cs => map (fun c => Toggle "checkbox" (Format.atHandle (ch_handle c) ++ " " ++ ch_platform c)
                          (bool_decide (ch_id c ∈ Access.Editor.selected s)) true (Access.Editor.Toggle_ (ch_id c))) cs
                      | None => [] end) a).
    { destruct (Access.Editor.channels s) as [[|c cs]|]; [cbn; tauto| |cbn; tauto].
      change (Some (c :: cs) ?? []) with (c :: cs). rewrite offers_bind, offers_map.
      split; intros (x & Hx & H); exists x; (split; [done|]); cbn in *; tauto. }
    cbn [offers offered button Compose.button]. rewrite !orb_false_l.
    assert (Hft : (false = true) <-> False) by done.
    destruct (Access.Editor.restricted s); cbn [negb]; rewrite ?Hch; rewrite Hft; cbn; tauto. }
  split; intros H; inversion H as [? ? ? H1|? ? ? H1]; subst;
    [apply by_user|by apply by_env|apply by_user|by apply by_env]; cbn; try (by apply Ho); done.
Qed.

(** The feed of the two apps differs in one label. *)
Theorem activity_labels_differ :
  Forall (fun a => a = "user.password_reset_requested" \/ mobile_label a = Access.action_label a)
    (map fst Access.ACTION_LABELS)
  /\ mobile_label "user.password_reset_requested" = "user password reset requested".
Proof. split; [|done]. repeat constructor; first [by right|by left]. Qed.
