(* ===== verification/Shell.v ===== *)
(** * The frame of the apps: navigation, menus and pages

    Web: config/nav.ts, ui/dock/dock.tsx, features/shell, features/auth/auth-panel.tsx and
    user-menu.tsx, features/settings/account-panel.tsx, ui/theme-toggle.tsx, the pages
    app/(app)/page.tsx and settings, app/error.tsx, robots.ts and sitemap.ts.  Mobile:
    features/compose/post-preview.tsx and pick-media.ts, lib/use-palette.ts. *)
From S2P Require Import Prelude JsValue Ui Schema Format ComposerParts MobileTeam.
From S2P Require Auth MobileClient.

Local Open Scope js_scope.

(** ** Navigation *)

Record DockItem := { d_href : jstr; d_label : jstr }.
Definition item (href label : jstr) : DockItem := {| d_href := href; d_label := label |}.

Definition dockItems : list DockItem :=
  [item "/" "Home"; item "/compose" "Compose"; item "/calendar" "Calendar";
   item "/channels" "Channels"; item "/media" "Media"; item "/analytics" "Analytics"].

Definition dockManage : list DockItem :=
  [item "/wallet" "Wallet"; item "/integrations" "Integrations"; item "/settings" "Settings"].

Definition dock_active (pathname : jstr) (i : DockItem) : bool :=
  (pathname =ₛ d_href i)
  || (negb (d_href i =ₛ "/") && startsWith pathname (d_href i ++ "/")).

(** [aria-current="page"] is the box around the link. *)
Definition dock_link {A} (pathname : jstr) (i : DockItem) : list (node A) :=
  let link := [Anchor (d_label i) (d_href i)] in
  if dock_active pathname i then [Box "page" link] else link.

Definition Dock {A} (groups : list (list DockItem)) (pathname : jstr) : list (node A) :=
  groups ≫= fun items => items ≫= dock_link pathname.

(** The destination cards of the dashboard. *)
Definition destinations : list DockItem :=
  keep (fun d => negb (d_href d =ₛ "/")) dockItems ++ dockManage.

(** The box named by a number sign is the element with that id. *)
Definition DashboardPage {A} : list (node A) :=
  [Box "#main"
    ([text "Welcome to Postal";
      text "Compose once, publish everywhere, and schedule it all. Free, no paywall. Pick a destination below, or use the dock at the bottom.";
      text "The dock is your primary navigation. Each section opens a focused workspace with its own sidebar."]
     ++ map (fun d => Anchor (d_label d ++ " Open " ++ lower (d_label d)) (d_href d)) destinations
     ++ [Ui.Slot "OverviewWidgets"])].

Definition AppHeader {A} : list (node A) :=
  [Anchor "Postal" "/"; text "/"; Ui.Slot "WorkspaceSwitcher"; Ui.Slot "ThemeToggle"; Ui.Slot "UserMenu"].

(** ** What crawlers are told *)

Definition disallow : list jstr :=
  ["/api/" : jstr; "/oauth/"; "/channels"; "/compose"; "/calendar"; "/analytics"; "/integrations";
   "/wallet"; "/media"].
Definition allow : jstr := "/".

Definition sitemap_paths : list jstr :=
  ["/" : jstr; "/about"; "/signup"; "/login"; "/terms"; "/privacy"; "/contact"; "/reset"].

(** How a crawler applies the rules: the longest matching rule decides, [allow] when they
    are equally long. *)
Definition crawlable (path : jstr) : bool :=
  startsWith path allow
  && forallb (fun d => negb (startsWith path d) || (length d <=? length allow)) disallow.

(** ** auth-panel.tsx *)

Module AuthPanel.
(** The effect after a render with this user. *)
Definition effect (user : json) : list Auth.Call :=
  if jtruthy user then [Auth.Replace "/"] else [].

Definition HIGHLIGHTS : list jstr :=
  ["Compose once, publish everywhere." : jstr; "One calendar for X, Instagram, and TikTok.";
   "Free. No paywall, ever."].

(** The showcase, then the form. *)
Definition view {A} (title : jstr) (subtitle : option jstr) (children footer : list (node A)) : list (node A) :=
  [text "Postal"; text "Schedule and publish everywhere."] ++ (HIGHLIGHTS ≫= fun line => [text "✓"; text line])
  ++ [text "The free, no-paywall social media scheduler."; Ui.Slot "ThemeToggle"; text "Postal"; text title]
  ++ (match subtitle with Some s => when (truthy s) [text s] | None => [] end)
  ++ children ++ footer
  ++ [text "By continuing you agree to our"; Anchor "Terms" "/terms"; text "and";
      Anchor "Privacy Policy" "/privacy"; text "."].
End AuthPanel.

(** ** user-menu.tsx *)

Module UserMenu.
(** [calls]: the sign-outs in flight; the menu item is never disabled. *)
Record St := { user : option User; calls : nat }.
Definition init (u : option User) : St := {| user := u; calls := 0 |}.

Inductive Act := SignOut | Settled (o : outcome unit) | Me (u : option User).
Inductive Eff := Logout | Replace (href : jstr).

Definition update (a : Act) (s : St) : St * list Eff :=
  match a with
  | SignOut => ({| user := user s; calls := S (calls s) |}, [Logout])
  | Settled (inr _) => ({| user := user s; calls := pred (calls s) |}, [Replace "/login"])
  | Settled (inl _) => ({| user := user s; calls := pred (calls s) |}, [])
  | Me u => ({| user := u; calls := calls s |}, [])
  end.

Section View.
Variable toUpperCase : jstr -> jstr.

Definition view (s : St) : list (node Act) :=
  match user s with
  | None => []
  | Some u =>
      [text (toUpperCase (charAt0 (u_email u))); text (u_email u);
       Toggle "menuitem" "Sign out" false true SignOut]
  end.

Definition awaiting (s : St) (a : Act) : Prop :=
  match a with Settled _ => calls s > 0 | Me _ => True | SignOut => False end.

Definition component : Ui.component :=
  {| Ui.st := St; Ui.act := Act; Ui.eff := Eff; Ui.view := view; Ui.awaiting := awaiting;
     Ui.update := update |}.
End View.
End UserMenu.

(** ** Settings *)

Module SettingsPage.
Inductive Tab := account | members.
#[export] Instance Tab_eq_dec : EqDecision Tab.
Proof. solve_decision. Defined.

Definition TABS : list (Tab * jstr) := [(account, "Account" : jstr); (members, "Members" : jstr)].

Record St := { tab : Tab; active : option Workspace; isLoading : bool }.
Definition init (w : option Workspace) (l : bool) : St := {| tab := account; active := w; isLoading := l |}.

Inductive Act := SetTab (t : Tab) | NewProps (w : option Workspace) (l : bool).

Definition update (a : Act) (s : St) : St * list Empty_set :=
  match a with
  | SetTab t => ({| tab := t; active := active s; isLoading := isLoading s |}, [])
  | NewProps w l => ({| tab := tab s; active := w; isLoading := l |}, [])
  end.

Definition is_some {A} (o : option A) : bool := match o with Some _ => true | None => false end.

Definition view (s : St) : list (node Act) :=
  [text "Settings"; text "Your account, this workspace, and who can do what."]
  ++ map (fun t => Toggle "tab" t.2 (bool_decide (tab s = t.1)) true (SetTab t.1)) TABS
  ++ when (isLoading s) [text "Loading"]
  ++ when (is_some (active s) && bool_decide (tab s = account)) [Ui.Slot "AccountPanel"]
  ++ when (is_some (active s) && bool_decide (tab s = members)) [Ui.Slot "MembersPanel"]
  ++ when (negb (isLoading s) && negb (is_some (active s))) [text "No workspace selected."].

Definition component : Ui.component :=
  {| Ui.st := St; Ui.act := Act; Ui.eff := Empty_set; Ui.view := view;
     Ui.awaiting _ a := match a with NewProps _ _ => True | SetTab _ => False end;
     Ui.update := update |}.
End SettingsPage.

Section AccountPanel.
(** [format(new Date(t), "d MMMM yyyy")] *)
Variable day_of : jstr -> jstr.

Definition AccountPanel {A} (workspace : Workspace) (user : option User) (isPending : bool) : list (node A) :=
  [text "Account"; text "Who you're signed in as."]
  ++ when isPending [text "Loading account"]
  ++ (match user with
      | Some u => [text "Email"; text (u_email u);
                   text (if u_email_verified u then "Verified" else "Unverified");
                   text "Member since"; text (day_of (u_created_at u))]
      | None => []
      end)
  ++ [text "Appearance"; text "Light or dark - follows your system until you choose.";
      Ui.Slot "ThemeToggle"; text "Workspace"; text "Name"; text (w_name workspace);
      text "Plan"; text (w_plan workspace)].
End AccountPanel.

(** The theme after a click of the toggle; the theme package resolves the system's. *)
Definition toggle_theme (resolvedTheme : option jstr) : jstr :=
  if match resolvedTheme with Some t => t =ₛ "dark" | None => false end then "light" else "dark".

Definition ThemeToggle (resolvedTheme : option jstr) : list (node jstr) :=
  [text "Toggle light / dark"; Btn "Toggle color theme" true (toggle_theme resolvedTheme)].

(** ** error.tsx *)

(** What the boundary logs once, and shows until the user retries. *)
Definition route_error_log (digest : option jstr) (message : jstr) : jstr * list (jstr * json) :=
  ("route error boundary",
   [("digest", match digest with Some d => JStr d | None => JUndef end); ("message", JStr message)]).

Definition RouteError {A} (reset : A) : list (node A) :=
  [Box "alert" [text "Something went wrong";
   text "An unexpected error occurred. You can try again - if it keeps happening, please reload the page.";
   Btn "Try again" true reset]].

(** ** Mobile *)

Section MobilePreview.
Variable hostname : jstr -> option jstr.
Variable media_source : jstr -> jstr.

(** [handle ? handle.replace(/^@/, "") : "Your account"] *)
Definition preview_name (handle : option jstr) : jstr :=
  match handle with
  | Some h => if truthy h then (if startsWith h "@" then drop 1 h else h) else "Your account"
  | None => "Your account"
  end.

Definition preview_at (handle : option jstr) : jstr :=
  match handle with
  | Some h => if truthy h then (if startsWith h "@" then h else "@" ++ h) else "@you"
  | None => "@you"
  end.

(** The texts, and the link the card opens. *)
Definition MobilePreview (toUpperCase : jstr -> jstr) (handle : option jstr) (body : jstr)
    (media : list MediaMeta) : list (node jstr) :=
  [text (toUpperCase (charAt0 (preview_name handle))); text (preview_name handle); text (preview_at handle);
   text (if truthy (trim body) then body else "Your post text will appear here.")]
  ++ (map (fun m => if bool_decide (mm_kind m = video) then text "video"
                    else Box "img" [text (media_source (mm_media_id m))]) (take 4 media))
  ++ match link_of body media with
     | Some l => when (truthy l) [Btn ("🔗 " ++ domain_of hostname l) true l]
     | None => []
     end.
End MobilePreview.

(** *** pick-media.ts *)

Record PickedAsset := { pa_uri : jstr; pa_fileName : option jstr; pa_mimeType : option jstr;
  pa_type : option jstr }.

(** [uri.split("/").pop()]: what follows the last slash. *)
Fixpoint last_segment (s acc : jstr) : jstr :=
  match s with
  | [] => acc
  | c :: s' => if N.eqb c 47 then last_segment s' [] else last_segment s' (acc ++ [c])
  end.

(** [granted]: the answer of the permission request; [result]: [None] when canceled.  The
    fallback "upload" of the source is never taken: [pop] of a split is a string. *)
Definition pickMedia (granted : bool) (result : option (list PickedAsset)) : option MobileClient.PickedFile :=
  if granted then
    match result with
    | Some (a :: _) =>
        Some {| MobileClient.pf_uri := pa_uri a;
                MobileClient.pf_name := match pa_fileName a with Some n => n | None => last_segment (pa_uri a) [] end;
                MobileClient.pf_mime := match pa_mimeType a with
                           | Some m => m
                           | None => if match pa_type a with Some t => t =ₛ "video" | None => false end
                                     then "video/mp4" else "image/jpeg"
                           end |}
    | _ => None
    end
  else None.

(** The scheme in force: the preference, or the system's. *)
Definition scheme (system_ : option jstr) (preference : Settings.ThemePreference) : jstr :=
  match preference with
  | Settings.system => if match system_ with Some t => t =ₛ "dark" | None => false end then "dark" else "light"
  | Settings.light => "light"
  | Settings.dark => "dark"
  end.

(** ** Lemmas *)

(** The first segment of a path. *)
Definition segment (path : jstr) : jstr := take_while (fun c => negb (N.eqb c 47)) (drop 1 path).

Lemma take_while_all p s t :
  Forall (fun c => p c = true) s -> match t with [] => True | c :: _ => p c = false end ->
  take_while p (s ++ t) = s.
Proof.
  induction 1 as [|c s Hc _ IH]; intros Ht; cbn [app take_while].
  - destruct t as [|c t]; [done|]. cbn. by rewrite Ht.
  - rewrite Hc. by rewrite IH.
Qed.

(** The destinations are one segment each. *)
Definition flat (i : DockItem) : Prop :=
  exists name, d_href i = "/" ++ name /\ Forall (fun c => negb (N.eqb c 47) = true) name.

Lemma flat_items : Forall flat (dockItems ++ dockManage).
Proof.
  unfold dockItems, dockManage; cbn [app]; each;
    (match goal with |- flat (item ?h _) => exists (drop 1 h) end);
    (split; [reflexivity|]); cbn; by each.
Qed.

Lemma active_segment pathname i :
  flat i -> dock_active pathname i = true -> segment pathname = drop 1 (d_href i).
Proof.
  intros (name & Hh & Hn) [H|H]%orb_true_iff; unfold segment; rewrite Hh in *.
  - apply jeq_true in H as ->. change (drop 1 ("/" ++ name)) with name.
    rewrite <- (app_nil_r name) at 1. by apply take_while_all.
  - apply andb_true_iff in H as [_ (t & ->)%startsWith_spec].
    change (drop 1 ((("/" ++ name) ++ "/") ++ t)) with ((name ++ "/") ++ t).
    change (drop 1 ("/" ++ name)) with name. rewrite <- app_assoc. by apply take_while_all.
Qed.

Lemma roles_dock {A} pathname groups :
  roles (Dock (A:=A) groups pathname) = repeat ("page" : jstr) (count (dock_active pathname) (concat groups)).
Proof.
  assert (H1 : forall items, roles (items ≫= dock_link (A:=A) pathname)
    = repeat ("page" : jstr) (count (dock_active pathname) items)).
  { induction items as [|i items IH]; [done|].
    change ((i :: items) ≫= dock_link (A:=A) pathname) with (dock_link (A:=A) pathname i ++ (items ≫= dock_link pathname)).
    rewrite roles_app, IH. unfold dock_link, count. cbn [keep]. by destruct (dock_active pathname i). }
  induction groups as [|g groups IH]; [done|].
  change (Dock (A:=A) (g :: groups) pathname) with ((g ≫= dock_link (A:=A) pathname) ++ Dock groups pathname).
  rewrite roles_app, IH, H1. cbn [concat]. by rewrite count_app, repeat_app.
Qed.

(** Among items told apart by a key, those with one value of the key are at most one. *)
Lemma count_key {A B} (f : A -> B) (p : A -> bool) (k : B) (l : list A) :
  NoDup (map f l) -> (forall x, x ∈ l -> p x = true -> f x = k) -> count p l <= 1.
Proof.
  unfold count. induction l as [|x l IH]; intros Hnd Hk; [cbn; lia|].
  cbn [map] in Hnd. apply NoDup_cons in Hnd as [Hx Hnd]. cbn [keep]. destruct (p x) eqn:E.
  - assert (Hno : keep p l = []).
    { pose proof (Hk x ltac:(left) E) as Hfx. clear IH.
      assert (Hall : forall y, y ∈ l -> p y = false).
      { intros y Hy. destruct (p y) eqn:Ey; [|done]. destruct Hx. rewrite Hfx, <- (Hk y); [|by right|done].
        by apply list_elem_of_fmap_2. }
      apply keep_none, Forall_forall, Hall. }
    rewrite Hno. cbn. lia.
  - apply IH; [done|]. intros y Hy. apply Hk. by right.
Qed.

(** ** Theorems *)

(** whatever the address, the dock marks at most one destination as the current page;
    it marks the one whose address it is, and for an address below a destination other than
    the home page, that destination. *)
Theorem dock_marks_one pathname :
  length (roles (Dock (A:=unit) [dockItems; dockManage] pathname)) <= 1
  /\ forall i rest, i ∈ dockItems ++ dockManage ->
       pathname = d_href i \/ d_href i <> "/" /\ pathname = d_href i ++ "/" ++ rest ->
       dock_active pathname i = true
       /\ forall j, j ∈ dockItems ++ dockManage -> dock_active pathname j = true -> j = i.
Proof.
  assert (Hnd : NoDup (map (fun i => drop 1 (d_href i)) (dockItems ++ dockManage))).
  { apply (bool_decide_unpack _). vm_compute. exact I. }
  assert (Hact : forall x, x ∈ dockItems ++ dockManage -> dock_active pathname x = true ->
    drop 1 (d_href x) = segment pathname).
  { intros x Hx Ha. symmetry. apply active_segment; [|done].
    exact (proj1 (Forall_forall _ _) flat_items x Hx). }
  split.
  - rewrite roles_dock, repeat_length. cbn [concat]. rewrite app_nil_r.
    exact (count_key _ _ (segment pathname) _ Hnd Hact).
  - intros i rest Hi Hp. assert (Ha : dock_active pathname i = true).
    { unfold dock_active. apply orb_true_iff. destruct Hp as [->|[Hne ->]]; [left; by apply jeq_true|right].
      apply andb_true_iff. split; [by apply negb_true_iff, jeq_false|]. apply startsWith_spec.
      exists rest. by rewrite <- app_assoc. }
    split; [done|]. intros j Hj Hb.
    apply list_elem_of_lookup in Hi as [n Hn]. apply list_elem_of_lookup in Hj as [m Hm].
    assert (n = m) as ->; [|congruence].
    apply (NoDup_lookup _ n m (segment pathname) Hnd); rewrite list_lookup_fmap.
    + rewrite Hn. cbn. f_equal. apply Hact; [by eapply list_elem_of_lookup_2|done].
    + rewrite Hm. cbn. f_equal. apply Hact; [by eapply list_elem_of_lookup_2|done].
Qed.

(** the crawling rules hide every destination of the signed-in application but the home
    page and the settings, and hide nothing of the site map.  (The settings page is behind
    the same guard as the others: it is the one the list of robots.ts forgot.) *)
Theorem crawling_rules :
  (forall p, p ∈ sitemap_paths -> crawlable p = true)
  /\ (forall i rest, i ∈ destinations -> d_href i <> "/settings" -> crawlable (d_href i ++ rest) = false)
  /\ (exists i, i ∈ destinations /\ d_href i = "/settings" /\ crawlable (d_href i) = true).
Proof.
  assert (Hin : Forall (fun i => d_href i = "/settings" \/ d_href i ∈ disallow) destinations)
    by (apply (bool_decide_unpack _); vm_compute; exact I).
  assert (Hlong : Forall (fun d => length allow < length d) disallow)
    by (apply (bool_decide_unpack _); vm_compute; exact I).
  assert (Hmap : Forall (fun p => crawlable p = true) sitemap_paths)
    by (apply (bool_decide_unpack _); vm_compute; exact I).
  rewrite Forall_forall in Hin. rewrite Forall_forall in Hlong, Hmap. split; [exact Hmap|split].
  - intros i rest Hi Hne. destruct (Hin i Hi) as [?|Hd]; [done|]. unfold crawlable.
    apply andb_false_iff. right. apply not_true_iff_false. intros Hall.
    pose proof (proj1 (forallb_forall _ _) Hall _ (proj1 (list_elem_of_In _ _) Hd)) as Hd'.
    apply orb_true_iff in Hd' as [H|H].
    + apply negb_true_iff, not_true_iff_false in H. apply H, startsWith_spec. by exists rest.
    + apply Nat.leb_le in H. specialize (Hlong _ Hd). lia.
  - exists (item "/settings" "Settings"). split; [|done].
    change destinations with (take 7 destinations ++ [item "/settings" "Settings"]).
    apply elem_of_app. right. by left.
Qed.

(** the guard of the application and the panel of the public pages never both redirect
    for one answer of the user query, so the two cannot send the browser back and forth;
    and once the query has settled, one of them lets the visitor stay. *)
Theorem redirects_exclusive user isPending :
  let app := (Auth.Guard.update Auth.Guard.Effect (Auth.Guard.init user isPending)).2 in
  let public := AuthPanel.effect user in
  (app = [] \/ public = []) /\ (isPending = false -> (app = [] <-> public <> [])).
Proof.
  cbn. unfold AuthPanel.effect. destruct (jtruthy user), isPending; cbn;
    split; auto; try done; intros _; split; done.
Qed.

(** The handle of the mobile preview is that of the web application, with a placeholder for
    an unknown one. *)
Theorem preview_at_is_web handle :
  preview_at handle = match handle with
    | Some h => if truthy h then atHandle h else "@you" | None => "@you" end.
Proof. destruct handle as [h|]; [|done]. unfold preview_at, atHandle. by destruct (truthy h). Qed.

Lemma last_segment_spec s acc :
  Forall (fun c => c <> 47%N) acc ->
  Forall (fun c => c <> 47%N) (last_segment s acc)
  /\ ((exists pre, s = pre ++ 47%N :: last_segment s acc) \/ last_segment s acc = acc ++ s).
Proof.
  revert acc. induction s as [|c s IH]; intros acc Hacc; cbn [last_segment].
  - split; [done|right]. by rewrite app_nil_r.
  - destruct (N.eqb_spec c 47) as [->|Hc].
    + destruct (IH [] (Forall_nil_2 _)) as [H1 [[pre H2]|H2]]; split; try done; left.
      * exists (47%N :: pre). cbn. by rewrite <- H2.
      * exists []. cbn. by rewrite H2.
    + destruct (IH (acc ++ [c])) as [H1 [[pre H2]|H2]].
      { apply Forall_app. split; [done|by each]. }
      * split; [done|left]. exists (c :: pre). cbn. by rewrite <- H2.
      * split; [done|right]. by rewrite H2, <- app_assoc.
Qed.

(** A picked file exists only with the permission and a selection; it is the first asset,
    and without a name it is called after the last segment of its address. *)
Theorem pickMedia_spec granted result f :
  pickMedia granted result = Some f <->
  granted = true /\ exists a l, result = Some (a :: l) /\ MobileClient.pf_uri f = pa_uri a
    /\ MobileClient.pf_name f = (match pa_fileName a with Some n => n | None => last_segment (pa_uri a) [] end)
    /\ MobileClient.pf_mime f = (match pa_mimeType a with Some m => m | None =>
         if match pa_type a with Some t => t =ₛ "video" | None => false end
         then "video/mp4" else "image/jpeg" end).
Proof.
  unfold pickMedia. split.
  - destruct granted; [|done]. destruct result as [[|a l]|]; [done| |done]. intros [= <-].
    split; [done|]. by exists a, l.
  - intros [-> (a & l & -> & H1 & H2 & H3)]. f_equal. destruct f; cbn in *. congruence.
Qed.

(** A sign-out that fails leaves the menu as it was: nothing is shown, and the item is still
    offered, as it is while the call is in flight. *)
Theorem sign_out_failure_silent upper u n e :
  let s := {| UserMenu.user := Some u; UserMenu.calls := S n |} in
  UserMenu.update (UserMenu.Settled (inl e)) s = ({| UserMenu.user := Some u; UserMenu.calls := n |}, [])
  /\ UserMenu.view upper s = UserMenu.view upper (UserMenu.update (UserMenu.Settled (inl e)) s).1
  /\ offers (UserMenu.view upper s) UserMenu.SignOut.
Proof. repeat split. right; right; left. by split. Qed.
