(* ===== verification/Pages.v ===== *)
(** * The pages of the web application: markup, frames and metadata

    web/src/app: every page.tsx and layout.tsx, providers.tsx, global-error.tsx, manifest.ts,
    the metadata of the root layout and of the pages; web/src/features/marketing,
    web/src/ui/site-footer.tsx, page-header.tsx and shared parts.  A page places
    client components ([Client]) in static markup; their trees are a parameter here and are
    the views of the other files in Site.v.  Headings and paragraphs are texts, [p], [ul] and
    [li] are boxes; an element with an id is a box named by the id with a number sign. *)
From S2P Require Import Prelude JsValue Ui.
From S2P Require Auth Shell Logger.

Local Open Scope js_scope.

(** ** Layouts and shared parts *)

(** The client components the pages place, with the properties they get. *)
Inductive Client :=
  | LoginForm | SignupForm | RequestResetForm | ConfirmResetForm (token : jstr)
  | VerifyEmailClient (token : jstr) | OAuthCallbackClient (state code : option jstr)
  | AnalyticsScreen | CalendarScreen | ChannelsPanel | ComposeScreen | IntegrationsScreen
  | MediaPanel | WalletScreen.

Definition PageHeader {A} (title : jstr) (subtitle : option jstr) (actions : list (node A)) : list (node A) :=
  [text title] ++ (match subtitle with Some s => when (truthy s) [text s] | None => [] end) ++ actions.

Definition LegalArticle {A} (title : jstr) (updated intro : option jstr) (children : list (node A)) :
    list (node A) :=
  [text title]
  ++ (match updated with Some u => when (truthy u) [text ("Last updated: " ++ u)] | None => [] end)
  ++ (match intro with Some i => when (truthy i) [text i] | None => [] end)
  ++ children.

Definition LINKS : list (jstr * jstr) :=
  [("/about" : jstr, "About" : jstr); ("/terms", "Terms"); ("/privacy", "Privacy"); ("/contact", "Contact")].

Definition SiteFooter {A} : list (node A) :=
  [text "Postal"; text "Free, no-paywall scheduling."] ++ map (fun l => Anchor l.2 l.1) LINKS.

Definition MarketingLayout {A} (children : list (node A)) : list (node A) :=
  [Anchor "Postal" "/about"; Anchor "Sign in" "/login"; Anchor "Get started" "/signup";
   Box "main" children] ++ SiteFooter.

Definition FeatureLayout {A} (children : list (node A)) : list (node A) := [Box "#main" children].

(** The route transition: an animation around the page. *)
Definition AppTemplate {A} (children : list (node A)) : list (node A) := children.

(** [AuthGuard] around children: its view with the children in their place. *)
Definition AuthGuard {A} (g : Auth.Guard.St) (children : list (node A)) : list (node A) :=
  Auth.Guard.view g ≫= fun n => match n with
    | Ui.Slot _ => children | Txt v => [Txt v] | _ => [] end.

Definition AppLayout {A} (g : Auth.Guard.St) (pathname : jstr) (children : list (node A)) : list (node A) :=
  AuthGuard g (Shell.AppHeader ++ children ++ Shell.Dock [Shell.dockItems; Shell.dockManage] pathname).

(** A document: the nonce given to the theme's inline script, and the body. *)
Record Document (A : Type) := { script_nonce : option jstr; body : list (node A) }.
Arguments script_nonce {_} _. Arguments body {_} _.

Definition Providers {A : Type} (children : list (node A)) (nonce : option jstr) : Document A :=
  {| script_nonce := nonce; body := children |}.

(** The query client's defaults. *)
Record QueryDefaults := { staleTime : Z; retry : nat; refetchOnWindowFocus : bool }.
Definition queries : QueryDefaults :=
  {| staleTime := 30000; retry := 1; refetchOnWindowFocus := false |}.

(** [headers]: those of the request, as the proxy passed them on. *)
Definition RootLayout {A : Type} (headers : gmap jstr jstr) (children : list (node A)) : Document A :=
  let d := Providers children (headers !! ("x-nonce" : jstr)) in
  {| script_nonce := script_nonce d; body := Anchor "Skip to content" "#main" :: body d |}.

(** The boundary of the root layout: what it logs, and what it shows until the user retries. *)
Definition global_error_log (digest : option jstr) (message : jstr) : jstr * list (jstr * json) :=
  ("global error boundary",
   [("digest", match digest with Some d => JStr d | None => JUndef end); ("message", JStr message)]).

Definition GlobalError {A} (reset : A) : list (node A) :=
  [Box "alert" [text "Something went wrong";
   text "The app hit an unexpected error. Please try again."; Btn "Try again" true reset]].

(** ** The pages of text *)

Definition AboutPage {A} : list (node A) :=
  LegalArticle "About Postal" None
    (Some ("Postal is a free, no-paywall tool for scheduling and publishing to your social "
        ++ "channels. Compose a post once, tailor it per platform, and let Postal publish it on "
        ++ "your schedule." : jstr)) [
    text "What you can do";
    Box "ul" [Box "li" [text
      "Connect X, Instagram, and TikTok and manage them from one calendar."]; Box "li" [text
      "Write a post once and adapt the wording, media, and links per channel."]; Box "li" [text
      "Schedule into open time slots, pick an exact time, or publish right now."]; Box "li" [text
      "See link previews and media exactly as they will appear once published."]; Box "li" [text
      "Track how posts perform with per-channel analytics."]];
    text "Why it is free";
    Box "p" [text
      ("The core product has no paywall. The only paid action is publishing to X, which "
        ++ "charges per request through its API. Postal passes that cost through with a simple "
        ++ "prepaid wallet, priced by the kind of post, so you only pay for what X actually "
        ++ "bills. Everything else, across every other platform, is free.")];
    text "Built to respect your accounts";
    Box "p" [text
      ("Postal connects to each platform through its official authorization flow. Your "
        ++ "access tokens are encrypted at rest, and you can disconnect a channel at any time. "
        ++ "We never post without your instruction.")];
    Box "p" [text "Ready to start? "; Anchor "Create a free account" "/signup"; text " or ";
      Anchor "sign in" "/login"; text "."]].

Definition ContactPage {A} : list (node A) :=
  LegalArticle "Contact" None
    (Some ("We are happy to help with questions, feedback, or account issues." : jstr)) [
    text "Support";
    Box "p" [text "Email "; Anchor "support@lettstv.com" "mailto:support@lettstv.com"; text
      (" and we will get back to you. Including the email on your account and a clear "
        ++ "description of the issue helps us respond faster.")];
    text "Privacy and legal";
    Box "p" [text "For privacy requests, see the "; Anchor "Privacy Policy" "/privacy"; text
      ". For terms questions, see the "; Anchor "Terms of Service" "/terms"; text "."]].

Definition TermsPage {A} : list (node A) :=
  LegalArticle "Terms of Service" (Some ("June 13, 2026" : jstr))
    (Some ("These terms govern your use of Postal. By creating an account or using the service, "
        ++ "you agree to them." : jstr)) [
    text "1. The service";
    Box "p" [text
      ("Postal lets you connect social media accounts and schedule and publish posts to "
        ++ "them. The service is provided as is. We work to keep it reliable, but we do not "
        ++ "guarantee that it will be uninterrupted or error free.")];
    text "2. Your account";
    Box "p" [text
      ("You are responsible for keeping your credentials secure and for all activity under "
        ++ "your account. You must provide a valid email address and verify it. You must be old "
        ++ "enough to use the connected platforms under their own rules.")];
    text "3. Your content and connected accounts";
    Box "p" [text
      ("You keep ownership of everything you publish through Postal. You grant us the "
        ++ "limited rights needed to store your content and deliver it to the platforms you "
        ++ "choose. You are responsible for your content and for complying with the terms and "
        ++ "policies of each platform you connect, including X, Instagram, and TikTok.")];
    text "4. Wallet and X publishing";
    Box "p" [text ("Postal is free to use. Publishing to X is billed by X per request, so Postal "
        ++ "charges those publishes against a prepaid wallet. Credits are priced by the type of "
        ++ "post. Wallet top ups are non refundable except where required by law, and unused "
        ++ "credits remain available in your workspace.")];
    text "5. Acceptable use";
    Box "ul" [Box "li" [text
      "Do not use Postal to send spam or to violate any platform's rules."]; Box "li" [text
      "Do not publish unlawful, infringing, or harmful content."]; Box "li" [text
      "Do not attempt to disrupt, reverse engineer, or abuse the service."]];
    Box "p" [text "We may suspend or close accounts that break these rules."];
    text "6. Termination";
    Box "p" [text
      ("You can stop using Postal and delete your account at any time. We may suspend or "
        ++ "end access if you breach these terms or if we must do so to protect the service or "
        ++ "comply with the law.")];
    text "7. Liability";
    Box "p" [text
      ("To the extent permitted by law, Postal is not liable for indirect or consequential "
        ++ "losses, or for content delivered to or removed by third party platforms. Our total "
        ++ "liability is limited to the amount you paid into your wallet in the prior twelve "
        ++ "months.")];
    text "8. Changes";
    Box "p" [text ("We may update these terms. If we make a material change, we will notify you. "
        ++ "Continued use after a change means you accept the updated terms.")]].

Definition PrivacyPage {A} : list (node A) :=
  LegalArticle "Privacy Policy" (Some ("June 13, 2026" : jstr))
    (Some ("This policy explains what data Postal collects, how we use it, and the choices you "
        ++ "have." : jstr)) [
    text "Data we collect";
    Box "ul" [Box "li" [text "Account data:"; text
      " your email address and a securely hashed password."]; Box "li" [text
      "Connected accounts:"; text
      " access tokens for the social platforms you connect, stored encrypted at rest."]; Box "li"
      [text "Content:"; text " the posts, media, and schedules you create."]; Box "li" [text
      "Usage and analytics:"; text
      (" post performance metrics fetched from the platforms and basic logs needed to "
        ++ "operate the service.")]];
    text "How we use it";
    Box "p" [text
      ("We use your data to operate Postal: to authenticate you, to publish on your behalf, "
        ++ "to show your analytics, and to keep the service secure. We do not sell your data, "
        ++ "and we do not use your content to train models.")];
    text "Service providers";
    Box "p" [text "We share data only with the providers needed to run the service:"];
    Box "ul" [Box "li" [text "Resend"; text
      " to send account verification and password reset email."]; Box "li" [text "Stripe"; text
      " and "; text "Paystack"; text
      " to process wallet top ups. Postal does not store your card details."]; Box "li" [text
      "Cloudflare R2"; text " to store media you upload."]; Box "li" [text "The "; text
      "social platforms"; text
      (" you connect (X, Instagram, TikTok), to publish and read analytics at your "
        ++ "instruction.")]];
    text "Token security";
    Box "p" [text
      ("Access tokens for your connected accounts are protected with envelope encryption. "
        ++ "They are used only to perform actions you ask for, and they are removed when you "
        ++ "disconnect a channel.")];
    text "Retention";
    Box "p" [text
      ("We keep your data while your account is active. Analytics snapshots are retained "
        ++ "for a limited window. When you delete your account, we delete your personal data "
        ++ "and revoke stored tokens, except where we must keep records to comply with the law.")];
    text "Your choices";
    Box "ul" [Box "li" [text "Disconnect any channel at any time to revoke its stored token."];
      Box "li" [text "Delete your account to remove your personal data."]; Box "li" [text
      "Contact us to request a copy of your data or to ask a privacy question."]];
    text "Contact";
    Box "p" [text "Privacy questions can be sent to "; Anchor "support@lettstv.com"
      "mailto:support@lettstv.com"; text "."]].


(** ** The pages with client components *)

Section Pages.
Context {A : Type}.
(** The trees of the client components. *)
Variable client : Client -> list (node A).

Definition LoginPage : list (node A) :=
  Shell.AuthPanel.view "Sign in" (Some ("Welcome back." : jstr)) (client LoginForm)
    [text "New here? "; Anchor "Create an account" "/signup"; Anchor "Forgot your password?" "/reset"].

Definition SignupPage : list (node A) :=
  Shell.AuthPanel.view "Create your account" (Some ("Free, no paywall." : jstr)) (client SignupForm)
    [text "Already have an account? "; Anchor "Sign in" "/login"].

Definition ResetPage : list (node A) :=
  Shell.AuthPanel.view "Reset your password" (Some ("We'll email you a reset link." : jstr))
    (client RequestResetForm) [Anchor "Back to sign in" "/login"].

(** [token ?? ""] *)
Definition ConfirmResetPage (token : option jstr) : list (node A) :=
  Shell.AuthPanel.view "Set a new password" None (client (ConfirmResetForm (default [] token))) [].

Definition VerifyEmailPage (token : option jstr) : list (node A) :=
  Shell.AuthPanel.view "Verify your email" None (client (VerifyEmailClient (default [] token))) [].

Definition OAuthCallbackPage (state code : option jstr) : list (node A) :=
  client (OAuthCallbackClient state code).

Definition AnalyticsPage : list (node A) :=
  PageHeader "Analytics" (Some ("How your published posts are performing on each channel." : jstr)) []
  ++ client AnalyticsScreen.

Definition CalendarPage : list (node A) :=
  PageHeader "Calendar"
    (Some ("Everything scheduled to publish, plus each channel's weekly posting slots." : jstr)) []
  ++ client CalendarScreen.

Definition ChannelsPage : list (node A) :=
  PageHeader "Channels"
    (Some ("Connect and manage the social accounts this workspace publishes to." : jstr)) []
  ++ client ChannelsPanel.

Definition ComposePage : list (node A) :=
  PageHeader "Compose"
    (Some ("Write once, tailor per channel if you like, and save as a draft to schedule." : jstr)) []
  ++ client ComposeScreen.

Definition IntegrationsPage : list (node A) :=
  PageHeader "Integrations" (Some ("Plug third-party services into this workspace." : jstr)) []
  ++ client IntegrationsScreen.

Definition MediaPage : list (node A) :=
  PageHeader "Media"
    (Some ("Upload and manage the images, GIFs and videos you attach to posts." : jstr)) []
  ++ client MediaPanel.

(** [suspended]: the search parameters are not known yet (while the page is prerendered). *)
Definition WalletPage (suspended : bool) : list (node A) :=
  PageHeader "Wallet"
    (Some ("Credits pay for X publishing only. Everything else on Postal is free." : jstr)) []
  ++ (if suspended then [Box "status" [text "Loading wallet"]] else client WalletScreen).
End Pages.

(** ** Metadata *)

(** The fields of a page's metadata the application sets; a page's own [title] is a string. *)
Record Metadata := { md_title : option jstr; md_description : option jstr }.

(** A page without metadata of its own. *)
Definition no_metadata : Metadata := {| md_title := None; md_description := None |}.

Definition titled (t : jstr) : Metadata := {| md_title := Some t; md_description := None |}.
Definition described (t d : jstr) : Metadata := {| md_title := Some t; md_description := Some d |}.

Definition compose_metadata : Metadata := titled "Compose".
Definition calendar_metadata : Metadata := titled "Calendar".
Definition channels_metadata : Metadata := titled "Channels".
Definition media_metadata : Metadata := titled "Media".
Definition analytics_metadata : Metadata := titled "Analytics".
Definition wallet_metadata : Metadata := titled "Wallet".
Definition integrations_metadata : Metadata := titled "Integrations".
Definition oauth_metadata : Metadata := titled "Connecting account".
Definition login_metadata : Metadata :=
  described "Log in" "Log in to Postal to schedule and publish across X, Instagram, and TikTok.".
Definition signup_metadata : Metadata :=
  described "Sign up" "Create a free Postal account. No paywall. Schedule and publish to X, Instagram, and TikTok.".
Definition about_metadata : Metadata :=
  described "About" ("Postal is a free, no-paywall social media scheduling and publishing platform "
    ++ "for X, Instagram, and TikTok.").
Definition terms_metadata : Metadata :=
  described "Terms of Service" "The terms that govern your use of Postal.".
Definition privacy_metadata : Metadata :=
  described "Privacy Policy" "How Postal collects, uses, and protects your data.".
Definition contact_metadata : Metadata :=
  described "Contact" "Get in touch with the Postal team.".

Record SiteMetadata := { sm_default : jstr; sm_template : jstr -> jstr; sm_description : jstr;
  sm_applicationName : jstr; sm_canonical : jstr; sm_og_url : jstr; sm_og_title : jstr;
  sm_twitter_title : jstr; sm_index : bool; sm_follow : bool }.

Definition description : jstr :=
  "Postal is a free, no-paywall social-media scheduling and publishing platform. "
  ++ "Compose once, schedule, and publish to X, Instagram, and TikTok from one calendar.".

Definition metadata : SiteMetadata :=
  {| sm_default := "Postal: Free social-media scheduling & publishing";
     sm_template s := s ++ " · Postal";
     sm_description := description; sm_applicationName := "Postal";
     sm_canonical := "/"; sm_og_url := "/";
     sm_og_title := "Postal: Free social-media scheduling & publishing";
     sm_twitter_title := "Postal: Free social-media scheduling & publishing";
     sm_index := true; sm_follow := true |}.

(** What a page's head says: the framework overrides the fields of the root layout that the
    page sets, applies the template to a title, and keeps every other field. *)
Record Head := { hd_title : jstr; hd_description : jstr; hd_canonical : jstr; hd_og_url : jstr }.

Definition page_head (site : jstr) (page : Metadata) : Head :=
  {| hd_title := match md_title page with Some t => sm_template metadata t | None => sm_default metadata end;
     hd_description := default (sm_description metadata) (md_description page);
     hd_canonical := site ++ sm_canonical metadata;
     hd_og_url := site ++ sm_og_url metadata |}.

(** The color the browser frame takes, by the system's scheme. *)
Definition viewport : list (jstr * jstr) :=
  [("(prefers-color-scheme: light)" : jstr, "#f5f5f7" : jstr); ("(prefers-color-scheme: dark)", "#1e1e20")].

Record Icon := { ic_src : jstr; ic_sizes : jstr; ic_type : jstr }.
Record Manifest := { mf_name : jstr; mf_short_name : jstr; mf_description : jstr; mf_start_url : jstr;
  mf_display : jstr; mf_background_color : jstr; mf_theme_color : jstr; mf_icons : list Icon }.

Definition manifest : Manifest :=
  {| mf_name := "Postal: Free social-media scheduling & publishing"; mf_short_name := "Postal";
     mf_description := "Free, no-paywall social-media scheduling and publishing. "
       ++ "Compose once, schedule, and publish to X, Instagram, and TikTok.";
     mf_start_url := "/"; mf_display := "standalone"; mf_background_color := "#f5f5f7";
     mf_theme_color := "#2f6bef";
     mf_icons := [{| ic_src := "/favicon.ico"; ic_sizes := "any"; ic_type := "image/x-icon" |};
                  {| ic_src := "/icon.png"; ic_sizes := "512x512"; ic_type := "image/png" |};
                  {| ic_src := "/apple-icon.png"; ic_sizes := "180x180"; ic_type := "image/png" |}] |}.
