(* ===== verification/Session.v ===== *)
(** * The session across components: sign-in, guard, panel and sign-out together

    The login page ([AuthPanel] around [LoginForm]) and the application ([AuthGuard] around
    every page) are separate components that share the query [me] and the router.  Here they
    run together: web/src/data/auth.ts gives the calls and the cache operations, and each
    component its own transitions (Auth.v, Shell.v).  The theorems are about the whole: the
    application is never shown without an answer of the server that names a user, and when
    everything has come to rest the page shown is the right one.

    What is assumed of the query package is its documentation: an observer shows the data of
    its key, pending while there is none; [setQueryData] replaces the data and lets a fetch
    in flight go on; [removeQueries] discards the data and any fetch; [undefined] is no data.
    Of the router: navigations are carried out in the order they were asked for, and one to
    the current address changes nothing. *)
From S2P Require Import Prelude JsValue ApiError Ui Progress Query.
From S2P Require DataWeb Auth Shell.

Local Open Scope js_scope.

(** [path]: the address; [cache]: the data of the key [me]; [seen], [pending]: what the
    observers of the mounted page show; [fetching]: a fetch of [me] is in flight; [due]: the
    effect of the page must run; [nav]: the navigations asked for; [form]: the login form;
    [logins], [logouts]: the calls in flight. *)
Record St := { path : jstr; cache : option json; seen : json; pending : bool; fetching : bool;
  due : bool; nav : list jstr; form : Auth.St; logins : nat; logouts : nat }.

Inductive Act :=
  | Form (a : Auth.Act)                 (* typing, submitting, validation *)
  | LoginResult (r : ApiResult)
  | SignOut | LogoutResult (r : ApiResult)
  | MeResult (r : ApiResult) | Refetch
  | Effect | Navigate.

Inductive Eff := CallLogin (c : Auth.Call) | CallLogout | CallMe.

Definition is_public (p : jstr) : bool := p =ₛ "/login".

Definition init (p : jstr) : St :=
  {| path := p; cache := None; seen := JUndef; pending := true; fetching := true; due := true;
     nav := []; form := Auth.init; logins := 0; logouts := 0 |}.

Definition hrefs (l : list Auth.Call) : list jstr :=
  l ≫= fun c => match c with Auth.Replace h => [h] | _ => [] end.

(** The observers show [v]; the effect runs after the render. *)
Definition show (c : option json) (v : json) (p f : bool) (s : St) : St :=
  {| path := path s; cache := c; seen := v; pending := p; fetching := f; due := true;
     nav := nav s; form := form s; logins := logins s; logouts := logouts s |}.

Definition with_form (f : Auth.St) (n : nat) (s : St) : St :=
  {| path := path s; cache := cache s; seen := seen s; pending := pending s; fetching := fetching s;
     due := due s; nav := nav s; form := f; logins := n; logouts := logouts s |}.

Definition with_nav (l : list jstr) (d : bool) (n : nat) (s : St) : St :=
  {| path := path s; cache := cache s; seen := seen s; pending := pending s; fetching := fetching s;
     due := d; nav := l; form := form s; logins := logins s; logouts := n |}.

(** A cache operation on the key [me] ([undefined] is not data). *)
Definition cache_op (op : CacheOp) (s : St) : St :=
  match op with
  | SetQueryData k v =>
      if bool_decide (k = DataWeb.authKeys_me) then
        match v with JUndef => s | _ => show (Some v) v false (fetching s) s end
      else s
  | RemoveQueries => show None (seen s) (pending s) false s
  | InvalidateQueries _ => s
  end.
Definition cache_ops (ops : outcome (list CacheOp)) (s : St) : St :=
  match ops with inr l => fold_left (fun s op => cache_op op s) l s | inl _ => s end.

(** The page mounts: its observers show the cached data, or fetch it. *)
Definition mount (p : jstr) (rest : list jstr) (s : St) : St * list Eff :=
  ({| path := p; cache := cache s; seen := match cache s with Some v => v | None => JUndef end;
      pending := match cache s with Some _ => false | None => true end;
      fetching := match cache s with Some _ => fetching s | None => true end;
      due := true; nav := rest; form := Auth.init; logins := logins s; logouts := logouts s |},
   match cache s with Some _ => [] | None => if fetching s then [] else [CallMe] end).

(** The guard of the application, as it stands now. *)
Definition guard (s : St) : Auth.Guard.St :=
  {| Auth.Guard.user := seen s; Auth.Guard.isPending := pending s; Auth.Guard.due := due s |}.

(** What the effect of the mounted page asks for. *)
Definition redirects (s : St) : list jstr :=
  hrefs (if is_public (path s) then Shell.AuthPanel.effect (seen s)
         else (Auth.Guard.update Auth.Guard.Effect (guard s)).2).

Definition update (a : Act) (s : St) : St * list Eff :=
  match a with
  | Form a =>
      let (f, es) := Auth.update Auth.LoginForm a (form s) in
      let calls := keep Auth.is_request es in
      (with_form f (logins s + length calls) s, map CallLogin calls)
  | LoginResult r =>
      let answer o := match Auth.phase (form s) with
        | Auth.handling _ => (Auth.update Auth.LoginForm (Auth.Answer o) (form s)).1
        | _ => form s end in
      match (m_result DataWeb.useLogin r).2 with
      | inr user =>
          let s := with_form (answer (inr tt)) (pred (logins s)) s in
          let s := cache_ops (m_onSuccess DataWeb.useLogin user JNull) s in
          (with_nav (nav s ++ match Auth.f_redirect Auth.LoginForm with Some h => [h] | None => [] end)
             (due s) (logouts s) s, [])
      | inl e => (with_form (answer (inl e)) (pred (logins s)) s, [])
      end
  | SignOut => (with_nav (nav s) (due s) (S (logouts s)) s, [CallLogout])
  | LogoutResult r =>
      match (m_result DataWeb.useLogout r).2 with
      | inr v =>
          let s := cache_ops (m_onSuccess DataWeb.useLogout v tt) s in
          (with_nav (nav s ++ ["/login" : jstr]) (due s) (pred (logouts s)) s, [])
      | inl _ => (with_nav (nav s) (due s) (pred (logouts s)) s, [])
      end
  | MeResult r =>
      match (q_result DataWeb.useMe r).2 with
      | inr JUndef | inl _ => (show (cache s) (match cache s with Some v => v | None => JUndef end) false false s, [])
      | inr v => (show (Some v) v false false s, [])
      end
  | Refetch =>
      ({| path := path s; cache := cache s; seen := seen s; pending := pending s; fetching := true;
          due := due s; nav := nav s; form := form s; logins := logins s; logouts := logouts s |}, [CallMe])
  | Effect => (with_nav (nav s ++ redirects s) false (logouts s) s, [])
  | Navigate =>
      match nav s with
      | [] => (s, [])
      | h :: rest => if h =ₛ path s then (with_nav rest (due s) (logouts s) s, []) else mount h rest s
      end
  end.

Definition view (s : St) : list (node Act) :=
  if is_public (path s) then view_map Form (Auth.view Auth.LoginForm (form s))
  else view_map (fun _ => Effect) (Auth.Guard.view (guard s))
       ++ when (negb (pending s) && jtruthy (seen s)) [Toggle "menuitem" "Sign out" false true SignOut].

Definition awaiting (s : St) (a : Act) : Prop :=
  match a with
  | Form (Auth.Invalid _) | Form (Auth.Handle _) => Auth.phase (form s) = Auth.validating
  | LoginResult _ => logins s > 0
  | LogoutResult _ => logouts s > 0
  | MeResult _ => fetching s = true
  | Refetch => fetching s = false
  | Effect => due s = true
  | Navigate => nav s <> []
  | _ => False
  end.

Definition session : component :=
  {| Ui.st := St; Ui.act := Act; Ui.eff := Eff; Ui.view := view; Ui.awaiting := awaiting;
     Ui.update := update |}.

(** ** What is shown, and what the server said *)

(** The application's pages are on screen. *)
Definition in_app (s : St) : bool := negb (is_public (path s)) && existsb (jeq "children") (slots (view s)).

(** What an action says about the visitor: a user, nobody, or nothing new. *)
Definition says (a : Act) : option bool :=
  match a with
  | LoginResult r => match (m_result DataWeb.useLogin r).2 with
      | inr JUndef | inl _ => None | inr v => Some (jtruthy v) end
  | MeResult r => match (q_result DataWeb.useMe r).2 with
      | inr JUndef | inl _ => None | inr v => Some (jtruthy v) end
  | LogoutResult r => match (m_result DataWeb.useLogout r).2 with inr _ => Some false | inl _ => None end
  | _ => None
  end.

(** The last word along a run, nobody at first. *)
Definition signed_in (acts : list Act) : bool :=
  fold_left (fun b a => match says a with Some v => v | None => b end) acts false.

(** Nothing is in flight or due. *)
Definition at_rest (s : St) : Prop := nav s = [] /\ due s = false /\ fetching s = false.

(** The steps nobody asks for: effects, navigations and the answer about the visitor. *)
Definition internal (a : Act) : bool :=
  match a with Effect | Navigate | MeResult _ => true | _ => false end.

Definition settling (s' s : St) : Prop :=
  exists a, internal a = true /\ awaiting s a /\ (update a s).1 = s'.

(** ** Lemmas *)

Lemma step_update s a es s' : step session s a es s' -> update a s = (s', es).
Proof. by inversion 1. Qed.

Definition target (s : St) : jstr := if jtruthy (seen s) then "/" else "/login".

(** The mounted page asks for the page of the visitor, unless it is that page. *)
Lemma redirects_spec s h :
  h ∈ redirects s -> pending s = false \/ is_public (path s) = true ->
  h = target s /\ h <> path s.
Proof.
  unfold redirects, target, is_public. destruct (path s =ₛ "/login") eqn:E; intros Hin Hp.
  - apply jeq_true in E as ->. unfold Shell.AuthPanel.effect in Hin. destruct (jtruthy (seen s)); cbn in Hin.
    + by apply list_elem_of_singleton in Hin as ->.
    + by apply elem_of_nil in Hin.
  - destruct Hp as [Hp|[=]]. cbn in Hin. rewrite Hp in Hin. destruct (jtruthy (seen s)); cbn in Hin.
    + by apply elem_of_nil in Hin.
    + apply list_elem_of_singleton in Hin as ->. split; [done|]. intros H. by rewrite <- H in E.
Qed.

Lemma redirects_pending s : pending s = true -> seen s = JUndef -> redirects s = [].
Proof.
  unfold redirects. intros Hp Hs. destruct (is_public (path s)).
  - unfold Shell.AuthPanel.effect. by rewrite Hs.
  - cbn. by rewrite Hp.
Qed.

(** What the observers and the cache agree on, and what is still to come while they wait. *)
Record ok (s : St) : Prop := {
  ok_cache : match cache s with
    | Some v => seen s = v /\ pending s = false /\ v <> JUndef
    | None => jtruthy (seen s) = false end;
  ok_pending : pending s = true -> fetching s = true /\ seen s = JUndef;
  ok_due : due s = false -> forall h, h ∈ redirects s -> h ∈ nav s }.

Lemma ok_init p : ok (init p).
Proof. by constructor. Qed.

Lemma redirects_with_nav l d n s : redirects (with_nav l d n s) = redirects s.
Proof. done. Qed.

Lemma redirects_with_form f n s : redirects (with_form f n s) = redirects s.
Proof. done. Qed.

(** Navigations asked for in addition, with the effect still due when it was. *)
Lemma ok_asks l d n s :
  ok s -> (d = false -> due s = false) -> ok (with_nav (nav s ++ l) d n s).
Proof.
  intros [H1 H2 H3] Hd. constructor; [done|done|]. cbn. intros E h Hin.
  rewrite redirects_with_nav in Hin. apply elem_of_app. left. apply H3; auto.
Qed.

Lemma ok_with_form f n s : ok s -> ok (with_form f n s).
Proof.
  intros [H1 H2 H3]. constructor; [done|done|]. cbn. intros E h Hin.
  rewrite redirects_with_form in Hin. by apply H3.
Qed.

Lemma ok_show c v f s :
  match c with Some w => v = w /\ w <> JUndef | None => jtruthy v = false end -> ok (show c v false f s).
Proof. intros Hc. constructor; [|done|done]. cbn. destruct c; [|done]. by destruct Hc as [-> ?]. Qed.

Lemma ok_set k v s : ok s -> ok (cache_op (SetQueryData k v) s).
Proof.
  intros Hs. cbn. case_bool_decide; [|done]. destruct v; try (by apply ok_show). exact Hs.
Qed.

Lemma ok_mount h rest s : ok s -> ok (mount h rest s).1.
Proof.
  intros [H1 _ _]. constructor; cbn; [|by destruct (cache s)|done].
  destruct (cache s); [|done]. by destruct H1 as (_ & _ & ?).
Qed.

Lemma ok_update a s : ok s -> ok (update a s).1.
Proof.
  intros Hs. pose proof Hs as [H1 H2 H3]. destruct a as [a|r| |r|r| | |]; cbn [update].
  - destruct (Auth.update _ _ _) as [f es]. by apply ok_with_form.
  - destruct (m_result DataWeb.useLogin r).2 as [e|user]; cbn [fst]; [by apply ok_with_form|].
    apply ok_asks; [|done]. apply ok_set. by apply ok_with_form.
  - rewrite <- (app_nil_r (nav s)). by apply ok_asks.
  - destruct (m_result DataWeb.useLogout r).2 as [e|user]; cbn [fst].
    + rewrite <- (app_nil_r (nav s)). by apply ok_asks.
    + apply ok_asks; [|done]. cbn. constructor; done.
  - assert (Herr : ok (show (cache s) (match cache s with Some v => v | None => JUndef end) false false s)).
    { apply ok_show. destruct (cache s); [|done]. by destruct H1 as (_ & _ & ?). }
    destruct (q_result DataWeb.useMe r).2 as [e|[| | | | | |]]; try exact Herr; by apply ok_show.
  - constructor; [done| |done]. cbn. intros Hp. split; [done|]. by apply H2.
  - constructor; [done|done|]. cbn. intros _ h Hin. rewrite redirects_with_nav in Hin.
    apply elem_of_app. by right.
  - destruct (nav s) as [|h rest] eqn:En; [done|]. destruct (h =ₛ path s) eqn:E; [|by apply ok_mount].
    apply jeq_true in E as ->. constructor; [done|done|]. cbn. intros Hd h Hin.
    rewrite redirects_with_nav in Hin. specialize (H3 Hd h Hin).
    rewrite ?En in H3.
    apply elem_of_cons in H3 as [->|H3]; [|done].
    destruct (pending s) eqn:Ep.
    + rewrite (redirects_pending s Ep (proj2 (H2 eq_refl))) in Hin. by apply elem_of_nil in Hin.
    + by apply redirects_spec in Hin as [_ ?]; [|left].
Qed.

Lemma ok_reachable p s : reachable session (init p) s -> ok s.
Proof.
  refine (reachable_invariant session ok _ (ok_init p) _ s).
  intros s1 a es s2 H1 Hs. apply step_update in Hs. pose proof (ok_update a s1 H1) as H. by rewrite Hs in H.
Qed.

(** *** What the page shows *)

Lemma in_app_spec s :
  in_app s = negb (is_public (path s)) && (negb (pending s) && jtruthy (seen s)).
Proof.
  unfold in_app, view. destruct (is_public (path s)); [done|]. unfold Auth.Guard.view, guard. cbn.
  by destruct (pending s), (jtruthy (seen s)).
Qed.

(** Unless the server's last word named a user, nothing the session holds does. *)
Definition disowned (b : bool) (s : St) : Prop :=
  b = false -> jtruthy (seen s) = false /\ forall v, cache s = Some v -> jtruthy v = false.

Lemma disowned_update a s b :
  disowned b s -> disowned (match says a with Some v => v | None => b end) (update a s).1.
Proof.
  unfold disowned. intros H. destruct a as [a|r| |r|r| | |]; cbn [update says]; try exact H.
  - destruct (Auth.update _ _ _) as [f es]. exact H.
  - destruct (m_result DataWeb.useLogin r).2 as [e|[| | | | | |]]; try exact H; cbn;
      intros Hb; (split; [exact Hb|]); intros v' [= <-]; exact Hb.
  - destruct (m_result DataWeb.useLogout r).2 as [e|v]; [exact H|]. cbn. done.
  - assert (Herr : b = false -> jtruthy (match cache s with Some v => v | None => JUndef end) = false
      /\ forall v, cache s = Some v -> jtruthy v = false).
    { intros Hb. destruct (H Hb) as [_ Hc]. split; [|done]. destruct (cache s); [by apply Hc|done]. }
    destruct (q_result DataWeb.useMe r).2 as [e|[| | | | | |]]; try exact Herr; cbn;
      intros Hb; (split; [exact Hb|]); intros v' [= <-]; exact Hb.
  - destruct (nav s) as [|h rest]; [exact H|]. destruct (h =ₛ path s); [exact H|]. cbn.
    intros Hb. destruct (H Hb) as [_ Hc]. split; [|done]. destruct (cache s); [by apply Hc|done].
Qed.

Lemma disowned_steps s tr s' b :
  steps session s tr s' -> disowned b s ->
  disowned (fold_left (fun b a => match says a with Some v => v | None => b end) (map fst tr) b) s'.
Proof.
  intros Hrun. revert b. induction Hrun as [|s a es s1 tr s2 Hs _ IH]; intros b Hb; [done|].
  cbn. apply IH. apply step_update in Hs. pose proof (disowned_update a s b Hb) as H. by rewrite Hs in H.
Qed.

(** *** Coming to rest *)

(** The navigations to another page than the visitor's, each of which mounts a page. *)
Definition bad (s : St) : nat := count (fun h => negb (h =ₛ target s)) (nav s).
Definition mounts_left (s : St) : nat := 2 * bad s + (if path s =ₛ target s then 0 else 1).
Definition phase_left (s : St) : nat :=
  match cache s with None => 2 | Some _ => bit (fetching s) end.
Definition work_left (s : St) : nat := 4 * bit (fetching s) + 2 * bit (due s) + length (nav s).

(** A measure for the three kinds of steps, in lexicographic order. *)
Definition less (s' s : St) : Prop :=
  phase_left s' < phase_left s
  \/ phase_left s' = phase_left s /\ (mounts_left s' < mounts_left s
     \/ mounts_left s' = mounts_left s /\ work_left s' < work_left s).

Lemma less_wf : well_founded less.
Proof.
  assert (H : forall p m w s, phase_left s <= p -> mounts_left s <= m -> work_left s <= w -> Acc less s).
  { induction p as [p IHp] using lt_wf_ind. induction m as [m IHm] using lt_wf_ind.
    induction w as [w IHw] using lt_wf_ind. intros s Hp Hm Hw. constructor. intros s' [H|[E [H|[E' H]]]].
    - apply (IHp (phase_left s')) with (m := mounts_left s') (w := work_left s'); lia.
    - apply (IHm (mounts_left s')) with (w := work_left s'); lia.
    - apply (IHw (work_left s')); lia. }
  intros s. by apply (H (phase_left s) (mounts_left s) (work_left s)).
Qed.

Lemma target_with_nav l d n s : target (with_nav l d n s) = target s.
Proof. done. Qed.

Lemma redirects_target s h : ok s -> h ∈ redirects s -> h = target s.
Proof.
  intros [_ H2 _] Hin. destruct (pending s) eqn:Ep.
  - rewrite (redirects_pending s Ep (proj2 (H2 eq_refl))) in Hin. by apply elem_of_nil in Hin.
  - apply redirects_spec in Hin as [? _]; [done|by left].
Qed.

Lemma redirects_short s : length (redirects s) <= 1.
Proof.
  unfold redirects. destruct (is_public (path s)).
  - unfold Shell.AuthPanel.effect. destruct (jtruthy (seen s)); cbn; lia.
  - cbn. destruct (negb (pending s) && negb (jtruthy (seen s))); cbn; lia.
Qed.

Lemma effect_less s : ok s -> due s = true -> less (update Effect s).1 s.
Proof.
  intros Hs Hd. right. split; [done|right]. split.
  - unfold mounts_left, bad. cbn [update fst]. rewrite target_with_nav. cbn [nav path with_nav].
    rewrite count_app. replace (count _ (redirects s)) with 0; [lia|].
    symmetry. unfold count. apply length_zero_iff_nil. apply keep_none. apply Forall_forall.
    intros h Hin. apply (redirects_target s h Hs) in Hin as ->. by rewrite jeq_refl.
  - unfold work_left. cbn. rewrite Hd, length_app. pose proof (redirects_short s). cbn. lia.
Qed.

Lemma target_mount h rest s : ok s -> target (mount h rest s).1 = target s.
Proof.
  intros [H1 _ _]. unfold target, mount. cbn. destruct (cache s) as [v|].
  - by destruct H1 as [-> _].
  - by rewrite H1.
Qed.

Lemma navigate_less s : ok s -> nav s <> [] -> less (update Navigate s).1 s.
Proof.
  intros Hs Hn. cbn [update]. destruct (nav s) as [|h rest] eqn:En; [done|].
  destruct (h =ₛ path s) eqn:E.
  - right. split; [done|]. unfold mounts_left, bad. cbn [fst]. rewrite target_with_nav.
    cbn [nav path with_nav]. rewrite En. unfold count. cbn [keep].
    destruct (negb (h =ₛ target s)); [left; cbn; lia|right]. split; [done|].
    unfold work_left. cbn. rewrite En. cbn. lia.
  - right. split; [unfold phase_left, mount; cbn; by destruct (cache s)|left].
    unfold mounts_left, bad. rewrite (target_mount h rest s Hs). cbn [mount fst nav path].
    rewrite En. unfold count. cbn [keep]. destruct (h =ₛ target s) eqn:Et; cbn [negb].
    + apply jeq_true in Et as ->. destruct (path s =ₛ target s) eqn:Ep; [|lia].
      apply jeq_true in Ep. by rewrite Ep, jeq_refl in E.
    + cbn [length]. destruct (path s =ₛ target s); lia.
Qed.

Lemma answer_less r s : ok s -> fetching s = true -> less (update (MeResult r) s).1 s.
Proof.
  intros Hs Hf. cbn [update].
  assert (Herr : less (show (cache s) (match cache s with Some v => v | None => JUndef end) false false s) s).
  { destruct (cache s) as [v|] eqn:Ec; [left; unfold phase_left; cbn; rewrite Ec, Hf; cbn; lia|].
    right. split; [unfold phase_left; cbn; by rewrite Ec|right].
    assert (Et : target (show None JUndef false false s) = target s).
    { unfold target. cbn. pose proof (ok_cache s Hs) as Hc. rewrite Ec in Hc. by rewrite Hc. }
    split; [unfold mounts_left, bad; by rewrite Et|]. unfold work_left. cbn. rewrite Hf. cbn.
    destruct (due s); cbn; lia. }
  assert (Hok : forall v, less (show (Some v) v false false s) s).
  { intros v. left. unfold phase_left. cbn. rewrite Hf. destruct (cache s); cbn; lia. }
  destruct (q_result DataWeb.useMe r).2 as [e|[| | | | | |]]; try exact Herr; apply Hok.
Qed.

(** Runs of awaited steps, decided. *)
Definition awaitingb (s : St) (a : Act) : bool :=
  match a with
  | Form (Auth.Invalid _) | Form (Auth.Handle _) =>
      match Auth.phase (form s) with Auth.validating => true | _ => false end
  | LoginResult _ => Nat.ltb 0 (logins s)
  | LogoutResult _ => Nat.ltb 0 (logouts s)
  | MeResult _ => fetching s
  | Refetch => negb (fetching s)
  | Effect => due s
  | Navigate => match nav s with [] => false | _ => true end
  | _ => false
  end.

Fixpoint awaits (s : St) (l : list Act) : bool :=
  match l with [] => true | a :: l' => awaitingb s a && awaits (update a s).1 l' end.

Lemma awaitingb_sound s a : awaitingb s a = true -> awaiting s a.
Proof.
  destruct a as [a|r| |r|r| | |]; cbn.
  - destruct a; try done; by destruct (Auth.phase (form s)).
  - intros H. by apply Nat.ltb_lt.
  - done.
  - intros H. by apply Nat.ltb_lt.
  - done.
  - by intros H%negb_true_iff.
  - done.
  - by destruct (nav s).
Qed.

Lemma awaits_possible s l : awaits s l = true -> possible session s l.
Proof.
  revert s. induction l as [|a l IH]; intros s; [done|]. cbn [awaits possible].
  intros [H1 H2]%andb_true_iff. split; [right; by apply awaitingb_sound|by apply IH].
Qed.

(** A run that starts with a press. *)
Lemma press_possible s a l : offers (view s) a -> awaits (update a s).1 l = true -> possible session s (a :: l).
Proof. intros Ha Hl. split; [by left|]. by apply awaits_possible. Qed.

(** ** Theorems *)


(** C24: whatever the interleaving of answers, effects and navigations, the session comes to
    rest: there is no endless run of its internal steps from a reachable state, one of them
    is awaited until it rests, and at rest a signed-in visitor sees the application and any
    other the sign-in page.  The two redirections never chase each other. *)
Theorem session_settles p s (Hs : reachable session (init p) s) :
  Acc settling s
  /\ (at_rest s \/ exists a, internal a = true /\ awaiting s a)
  /\ (at_rest s -> if jtruthy (seen s) then in_app s = true else is_public (path s) = true).
Proof.
  apply ok_reachable in Hs. split; [|split].
  - induction s as [s IH] using (well_founded_induction less_wf). constructor.
    intros s' (a & Ha & Haw & <-). pose proof (ok_update a s Hs) as Hok.
    apply IH; [|done]. destruct a as [a|r| |r|r| | |]; try done.
    + by apply answer_less.
    + by apply effect_less.
    + by apply navigate_less.
  - destruct (fetching s) eqn:Ef; [right; by exists (MeResult {| r_data := JUndef; r_error := JUndef; r_status := 0 |})|].
    destruct (due s) eqn:Ed; [right; by exists Effect|]. destruct (nav s) eqn:En; [by left|].
    right. exists Navigate. split; [done|]. cbn. by rewrite En.
  - intros (Hn & Hd & Hf). assert (Hp : pending s = false).
    { destruct (pending s) eqn:Ep; [|done]. destruct (ok_pending s Hs Ep). congruence. }
    assert (Hno : redirects s = []).
    { destruct (redirects s) as [|h l] eqn:E; [done|].
      assert (Hin : h ∈ nav s) by (apply (ok_due s Hs Hd); rewrite E; left).
      rewrite Hn in Hin. by apply elem_of_nil in Hin. }
    rewrite in_app_spec, Hp. unfold redirects in Hno. destruct (is_public (path s)).
    + unfold Shell.AuthPanel.effect in Hno. by destruct (jtruthy (seen s)).
    + cbn in Hno. rewrite Hp in Hno. by destruct (jtruthy (seen s)).
Qed.

(** A visitor who opens the sign-in page, is told that nobody is signed in, and signs in. *)
Definition a_user : json := JObj [("id", JStr "u1")].
Definition answers (status : Z) (data : json) : ApiResult :=
  {| r_data := JObj [("data", data)]; r_error := JUndef; r_status := status |}.
Definition nobody : Act := MeResult (answers 401 JUndef).
Definition sign_in : list Act :=
  [Form Auth.Submit; Form (Auth.Handle Auth.a_login); LoginResult (answers 200 (JObj [("user", a_user)]))].


Lemma session_settles_witness :
  Acc settling (init "/") /\ (at_rest (init "/") -> is_public "/" = true).
Proof.
  destruct (session_settles "/" (init "/")) as (H1 & _ & H3).
  - exists []. constructor.
  - split; [exact H1|exact H3].
Defined.

(** A sign-in does not cancel the query in flight: when the answer "nobody" was asked for
    before the sign-in and arrives after it, the visitor who has just signed in, and has not
    signed out, ends on the sign-in page. *)
Theorem late_answer_signs_out :
  exists tr s, steps session (init "/login") tr s
    /\ map fst tr = sign_in ++ [nobody; Effect; Navigate; Effect; Navigate; Effect]
    /\ at_rest s /\ is_public (path s) = true /\ logouts s = 0.
Proof.
  destruct (possible_steps session (init "/login") (sign_in ++ [nobody; Effect; Navigate; Effect; Navigate; Effect]))
    as (tr & Hrun & Htr).
  { apply press_possible; [pick|vm_compute; reflexivity]. }
  eexists tr, _. split; [exact Hrun|]. split; [exact Htr|]. repeat split; vm_compute; reflexivity.
Qed.
