(* ===== verification/Site.v ===== *)
(** * The web site as a whole: routes, frames, policy and forwarding

    The pages of Pages.v at their addresses (the directories of web/src/app), inside the
    layouts of their directories, behind the proxy (web/src/proxy.ts with its matcher) and
    next to the API (the rewrites and headers of web/next.config.ts).  The framework's part is
    its documentation: a directory in parentheses adds nothing to the address; a layout wraps
    every page below it; [:path*] stands for the rest of a path; pages are looked up before
    the rewrites apply. *)
From S2P Require Import Prelude JsValue Ui Schema Security Pages.
From S2P Require Auth Shell Contract Connect Calendar Composer ComposerParts Integrations Schedule.

Local Open Scope js_scope.

(** ** Routes *)

Inductive Page :=
  | pDashboard | pCompose | pCalendar | pChannels | pMedia | pAnalytics | pWallet | pIntegrations
  | pSettings | pOAuthCallback
  | pLogin | pSignup | pReset | pConfirmReset | pVerifyEmail
  | pAbout | pTerms | pPrivacy | pContact.

#[export] Instance Page_eq_dec : EqDecision Page.
Proof. solve_decision. Defined.

(** The directory of each page.tsx. *)
Definition directory (p : Page) : list jstr :=
  match p with
  | pDashboard => ["(app)" : jstr]
  | pCompose => ["(app)" : jstr; "(feature)"; "compose"]
  | pCalendar => ["(app)" : jstr; "(feature)"; "calendar"]
  | pChannels => ["(app)" : jstr; "(feature)"; "channels"]
  | pMedia => ["(app)" : jstr; "(feature)"; "media"]
  | pAnalytics => ["(app)" : jstr; "(feature)"; "analytics"]
  | pWallet => ["(app)" : jstr; "(feature)"; "wallet"]
  | pIntegrations => ["(app)" : jstr; "(feature)"; "integrations"]
  | pSettings => ["(app)" : jstr; "(feature)"; "settings"]
  | pOAuthCallback => ["(app)" : jstr; "oauth"; "callback"]
  | pLogin => ["(auth)" : jstr; "login"]
  | pSignup => ["(auth)" : jstr; "signup"]
  | pReset => ["(auth)" : jstr; "reset"]
  | pConfirmReset => ["(auth)" : jstr; "reset"; "confirm"]
  | pVerifyEmail => ["(auth)" : jstr; "verify-email"]
  | pAbout => ["(marketing)" : jstr; "about"]
  | pTerms => ["(marketing)" : jstr; "terms"]
  | pPrivacy => ["(marketing)" : jstr; "privacy"]
  | pContact => ["(marketing)" : jstr; "contact"]
  end.

Definition pages : list Page :=
  [pDashboard; pCompose; pCalendar; pChannels; pMedia; pAnalytics; pWallet; pIntegrations;
   pSettings; pOAuthCallback; pLogin; pSignup; pReset; pConfirmReset; pVerifyEmail;
   pAbout; pTerms; pPrivacy; pContact].

Definition is_group (segment : jstr) : bool := startsWith segment "(".

(** The address of a directory. *)
Definition route (dir : list jstr) : jstr :=
  match keep (fun s => negb (is_group s)) dir with
  | [] => "/"
  | l => l ≫= fun s => "/" ++ s
  end.

Definition address (p : Page) : jstr := route (directory p).

Definition page_at (path : jstr) : option Page := find (fun p => address p =ₛ path) pages.

(** ** Documents *)

(** The search parameters a page reads; [suspended]: they are not known yet. *)
Record Params := { token : option jstr; state : option jstr; code : option jstr; suspended : bool }.

(** What a document depends on: the request's headers, the guard of the application, the
    trees of the client components, the state of the settings page. *)
Record Env := { headers : gmap jstr jstr; guard : Auth.Guard.St; params : Params;
  client : Client -> list (node unit); settings : Shell.SettingsPage.St }.

Definition content (e : Env) (p : Page) : list (node unit) :=
  match p with
  | pDashboard => Shell.DashboardPage
  | pCompose => ComposePage (client e)
  | pCalendar => CalendarPage (client e)
  | pChannels => ChannelsPage (client e)
  | pMedia => MediaPage (client e)
  | pAnalytics => AnalyticsPage (client e)
  | pWallet => WalletPage (client e) (suspended (params e))
  | pIntegrations => IntegrationsPage (client e)
  | pSettings => view_map (fun _ => tt) (Shell.SettingsPage.view (settings e))
  | pOAuthCallback => OAuthCallbackPage (client e) (state (params e)) (code (params e))
  | pLogin => LoginPage (client e)
  | pSignup => SignupPage (client e)
  | pReset => ResetPage (client e)
  | pConfirmReset => ConfirmResetPage (client e) (token (params e))
  | pVerifyEmail => VerifyEmailPage (client e) (token (params e))
  | pAbout => AboutPage | pTerms => TermsPage | pPrivacy => PrivacyPage | pContact => ContactPage
  end.

(** The layout file of a directory below the root, if it has one. *)
Definition layout (e : Env) (pathname : jstr) (dir : list jstr) : list (node unit) -> list (node unit) :=
  if bool_decide (dir = ["(app)" : jstr]) then fun l => AppLayout (guard e) pathname (AppTemplate l)
  else if bool_decide (dir = ["(app)" : jstr; "(feature)"]) then FeatureLayout
  else if bool_decide (dir = ["(marketing)" : jstr]) then MarketingLayout
  else fun l => l.

(** The layouts from [dir] down to the page. *)
Fixpoint frames (e : Env) (pathname : jstr) (dir rest : list jstr) (page : list (node unit)) : list (node unit) :=
  match rest with
  | [] => page
  | s :: rest' => layout e pathname (dir ++ [s]) (frames e pathname (dir ++ [s]) rest' page)
  end.

Definition document (e : Env) (p : Page) : Document unit :=
  RootLayout (headers e) (frames e (address p) [] (directory p) (content e p)).

Definition page_metadata (p : Page) : Metadata :=
  match p with
  | pCompose => compose_metadata | pCalendar => calendar_metadata | pChannels => channels_metadata
  | pMedia => media_metadata | pAnalytics => analytics_metadata | pWallet => wallet_metadata
  | pIntegrations => integrations_metadata | pOAuthCallback => oauth_metadata
  | pLogin => login_metadata | pSignup => signup_metadata
  | pAbout => about_metadata | pTerms => terms_metadata
  | pPrivacy => privacy_metadata | pContact => contact_metadata
  | pDashboard | pSettings | pReset | pConfirmReset | pVerifyEmail => no_metadata
  end.

(** ** Requests *)

(** [config.matcher]: the alternatives excluded after the first slash; [None] is a dot. *)
Definition excluded : list (list (option N)) :=
  [map Some ("api" : jstr); map Some ("_next/static" : jstr); map Some ("_next/image" : jstr);
   map Some ("favicon" : jstr) ++ [None] ++ map Some ("ico" : jstr)].

Fixpoint looking_at (pat : list (option N)) (s : jstr) : bool :=
  match pat, s with
  | [], _ => true
  | None :: pat', _ :: s' => looking_at pat' s'
  | Some c :: pat', d :: s' => N.eqb c d && looking_at pat' s'
  | _ :: _, [] => false
  end.

Definition is_prefetch (hs : gmap jstr jstr) : bool :=
  bool_decide (is_Some (hs !! ("next-router-prefetch" : jstr)))
  || bool_decide (hs !! ("purpose" : jstr) = Some ("prefetch" : jstr)).

Definition matcher (path : jstr) (hs : gmap jstr jstr) : bool :=
  match path with
  | [] => false
  | c :: rest => N.eqb c 47 && negb (existsb (fun pat => looking_at pat rest) excluded)
  end && negb (is_prefetch hs).

Definition apiTarget (API_PROXY_TARGET : option jstr) (NODE_ENV : jstr) : jstr :=
  match API_PROXY_TARGET with
  | Some t => t
  | None => if NODE_ENV =ₛ "production" then "https://api.postal.lettstv.com" else "http://localhost:8080"
  end.

(** [/api/:path*] is forwarded to [`${apiTarget}/api/:path*`]. *)
Definition rewrites (apiTarget path : jstr) : option jstr :=
  if (path =ₛ "/api") || startsWith path "/api/" then Some (apiTarget ++ "/api" ++ drop 4 path) else None.

Definition securityHeaders : list (jstr * jstr) :=
  [("X-Content-Type-Options" : jstr, "nosniff" : jstr); ("X-Frame-Options", "DENY");
   ("Referrer-Policy", "no-referrer"); ("Cross-Origin-Opener-Policy", "same-origin");
   ("Permissions-Policy", "camera=(), microphone=(), geolocation=(), browsing-topics=()")].

Inductive Answer :=
  | APage (p : Page) (response : gmap jstr jstr) (d : Document unit)
  | Forwarded (url : jstr)
  | NotFound.

(** A request for an address: [None] when the proxy fails.  [uuid]: the random identifier of
    this request; [e]: its headers and the state the page is rendered in. *)
Definition serve (apiTarget uuid : jstr) (isDev : bool) (e : Env) (path : jstr) : option Answer :=
  h ← (if matcher path (headers e) then proxy uuid isDev (headers e)
       else Some {| h_request := headers e; h_response := ∅ |});
  Some match page_at path with
    | Some p =>
        APage p (h_response h)
          (document {| headers := h_request h; guard := guard e; params := params e;
                       client := client e; settings := settings e |} p)
    | None => match rewrites apiTarget path with Some url => Forwarded url | None => NotFound end
    end.

(** ** What is asked of the site *)

(** The pages behind the guard: those of the directory (app). *)
Definition guarded (p : Page) : bool := existsb (jeq "(app)") (directory p).

Definition signed_in (g : Auth.Guard.St) : bool :=
  negb (Auth.Guard.isPending g) && jtruthy (Auth.Guard.user g).

(** A link goes to the skip target, to the mail program, to a page, or to the API. *)
Definition resolves (href : jstr) : bool :=
  (href =ₛ "#main") || startsWith href "mailto:" || bool_decide (is_Some (page_at href))
  || startsWith href "/api/".

Definition sound {A} (v : list (node A)) : Prop := Forall (fun h => resolves h = true) (links v).

(** The frame of a page: the page inside the layouts of its directory. *)
Definition framed (e : Env) (p : Page) : list (node unit) :=
  let inner := content e p in
  match p with
  | pLogin | pSignup | pReset | pConfirmReset | pVerifyEmail => inner
  | pAbout | pTerms | pPrivacy | pContact => MarketingLayout inner
  | pDashboard | pOAuthCallback => AppLayout (guard e) (address p) inner
  | _ => AppLayout (guard e) (address p) (FeatureLayout inner)
  end.

(** ** Lemmas *)

Lemma document_framed e p :
  document e p = RootLayout (headers e) (framed e p).
Proof. by destruct p. Qed.

Lemma page_in p : p ∈ pages.
Proof. apply (bool_decide_unpack _). by destruct p. Qed.

Lemma page_at_address p : page_at (address p) = Some p.
Proof. by destruct p. Qed.

Lemma page_at_some path p : page_at path = Some p -> path = address p.
Proof. intros H. apply find_some in H as [_ H]. symmetry. by apply jeq_true. Qed.

(** No page is below /api. *)
Lemma page_at_api rest : page_at ("/api/" ++ rest) = None.
Proof.
  destruct (page_at ("/api/" ++ rest)) as [p|] eqn:E; [|done]. apply page_at_some in E.
  assert (H : startsWith (address p) "/api/" = true) by (apply startsWith_spec; by exists rest).
  by destruct p.
Qed.

Lemma matcher_page p hs : is_prefetch hs = false -> matcher (address p) hs = true.
Proof. intros H. unfold matcher. rewrite H. by destruct p. Qed.

Lemma matcher_api rest hs : matcher ("/api/" ++ rest) hs = false.
Proof. done. Qed.

(** The guard shows the children to a user, and the spinner to anybody else. *)
Lemma AuthGuard_spec {A} g (v : list (node A)) :
  AuthGuard g v = if signed_in g then v else [text "Loading"].
Proof.
  unfold AuthGuard, Auth.Guard.view, signed_in. destruct (Auth.Guard.isPending g); [done|].
  destruct (jtruthy (Auth.Guard.user g)); [|done]. cbn. by rewrite app_nil_r.
Qed.

(** *** Links *)

Lemma sound_app {A} (v w : list (node A)) : sound (v ++ w) <-> sound v /\ sound w.
Proof. unfold sound. by rewrite links_app, Forall_app. Qed.

Lemma sound_Box {A} r (v w : list (node A)) : sound (Box r v :: w) <-> sound v /\ sound w.
Proof. change (Box r v :: w) with ([Box r v] ++ w). rewrite sound_app. unfold sound at 1. cbn [links].
  by rewrite links_Box, app_nil_r. Qed.

Lemma sound_nil {A} : sound (A:=A) [].
Proof. constructor. Qed.

Lemma sound_anchor {A} l h (v : list (node A)) : resolves h = true -> sound v -> sound (Anchor l h :: v).
Proof. by constructor. Qed.

Lemma sound_other {A} (n : node A) v : node_links n = [] -> sound v -> sound (n :: v).
Proof. unfold sound. cbn [links]. by intros ->. Qed.

Lemma sound_when {A} b (v : list (node A)) : sound v -> sound (when b v).
Proof. destruct b; [done|]. intros _. exact sound_nil. Qed.

Lemma sound_bind {A B} (f : B -> list (node A)) l : (forall x, x ∈ l -> sound (f x)) -> sound (l ≫= f).
Proof.
  induction l as [|x l IH]; intros H; [constructor|].
  change ((x :: l) ≫= f) with (f x ++ (l ≫= f)). apply sound_app. split; [apply H; left|].
  apply IH. intros y Hy. apply H. by right.
Qed.

Lemma sound_map {A B} (f : B -> node A) l : (forall x, x ∈ l -> sound [f x]) -> sound (map f l).
Proof.
  intros H. replace (map f l) with (l ≫= fun x => [f x]); [by apply sound_bind|].
  clear H. induction l as [|x l IH]; [done|]. cbn. by f_equal.
Qed.

(** Goes through a tree whose links are literals. *)
Ltac sound_tree :=
  repeat first
    [ assumption | apply sound_nil | apply sound_when
    | apply sound_anchor; [reflexivity|] | apply sound_Box; split
    | apply sound_other; [reflexivity|] | apply sound_app; split
    | match goal with
      | |- sound (if ?b then _ else _) => destruct b
      | |- sound (match ?o with Some _ => _ | None => _ end) => destruct o
      end ].

Lemma sound_dock {A} pathname : sound (Shell.Dock (A:=A) [Shell.dockItems; Shell.dockManage] pathname).
Proof.
  apply sound_bind. intros items Hi. apply sound_bind. intros i Hin.
  assert (H : resolves (Shell.d_href i) = true).
  { assert (Hall : Forall (fun l => Forall (fun i => resolves (Shell.d_href i) = true) l)
      [Shell.dockItems; Shell.dockManage]) by (apply (bool_decide_unpack _); vm_compute; exact I).
    rewrite Forall_forall in Hall. pose proof (Hall _ Hi) as H1. rewrite Forall_forall in H1. by apply H1. }
  unfold Shell.dock_link. destruct (Shell.dock_active pathname i); [apply sound_Box; split; [|exact sound_nil]|];
    (apply sound_anchor; [exact H|exact sound_nil]).
Qed.

Lemma sound_panel {A} title subtitle (children footer : list (node A)) :
  sound children -> sound footer -> sound (Shell.AuthPanel.view title subtitle children footer).
Proof. intros H1 H2. unfold Shell.AuthPanel.view. sound_tree. Qed.

Lemma sound_app_layout {A} g pathname (v : list (node A)) : sound v -> sound (AppLayout g pathname v).
Proof.
  intros H. unfold AppLayout. rewrite AuthGuard_spec. destruct (signed_in g); [|sound_tree].
  pose proof (@sound_dock A pathname). unfold Shell.AppHeader. sound_tree.
Qed.

Lemma sound_article {A} title updated intro (v : list (node A)) :
  sound v -> sound (LegalArticle title updated intro v).
Proof. intros H. unfold LegalArticle. sound_tree. Qed.

Lemma sound_header {A} title subtitle (v : list (node A)) : sound v -> sound (PageHeader title subtitle v).
Proof. intros H. unfold PageHeader. sound_tree. Qed.

Lemma sound_settings s : sound (view_map (fun _ => tt) (Shell.SettingsPage.view s)).
Proof.
  destruct s as [t w l]. unfold Shell.SettingsPage.view. destruct t, w, l; apply (bool_decide_unpack _); vm_compute; exact I.
Qed.

Lemma sound_content e p : (forall c, sound (client e c)) -> sound (content e p).
Proof.
  intros Hc. destruct p; cbn [content].
  9: apply sound_settings.
  9: apply Hc.
  1: { unfold Shell.DashboardPage. apply sound_Box. split; [|exact sound_nil].
       apply (bool_decide_unpack _); vm_compute; exact I. }
  6: { apply sound_app. split; [apply sound_header; exact sound_nil|].
       destruct (suspended (params e)); [sound_tree|apply Hc]. }
  1-6: apply sound_app; split; [apply sound_header; exact sound_nil|apply Hc].
  1-5: apply sound_panel; [apply Hc|sound_tree].
  all: apply sound_article; sound_tree.
Qed.

(** *** The screens that have links *)

Lemma sound_map_view {A B} (f : A -> B) (v : list (node A)) : sound v -> sound (view_map f v).
Proof. unfold sound. by rewrite links_map. Qed.

Lemma sound_alert {A} e : sound (Ui.alert (A:=A) e).
Proof. unfold Ui.alert. sound_tree. Qed.

Lemma sound_fields s (l : list Auth.Input) : sound (l ≫= Auth.FormField s).
Proof.
  apply sound_bind. intros i _. unfold Auth.FormField. apply sound_other; [done|].
  destruct (Auth.errors s !! Auth.i_name i) as [m|]; [destruct (jtruthy m)|]; sound_tree.
Qed.

Lemma sound_form f s :
  match Auth.f_missing f with Some _ => True | None =>
    forall x v, Auth.f_done f x = Some v -> sound v end -> sound (Auth.view f s).
Proof.
  intros H. unfold Auth.view. destruct (Auth.f_missing f); [sound_tree|].
  destruct (Auth.done_ s ≫= Auth.f_done f) as [v|] eqn:E.
  - destruct (Auth.done_ s) as [x|]; [|done]. by apply (H x).
  - apply sound_app. split; [apply sound_alert|]. apply sound_app. split; [apply sound_fields|sound_tree].
Qed.

Lemma sound_forms token s : Forall (fun f => sound (Auth.view f s))
  [Auth.LoginForm; Auth.SignupForm; Auth.RequestResetForm; Auth.ConfirmResetForm token].
Proof.
  each; apply sound_form; cbn.
  - intros x v. destruct (truthy x); [|done]. intros [= <-]. sound_tree.
  - intros x v [= <-]. sound_tree.
  - intros x v [= <-]. sound_tree.
  - destruct (truthy token); [|done]. intros x v [= <-]. sound_tree.
Qed.

Lemma sound_compose (s : ComposerParts.Screen.St) : sound (ComposerParts.Screen.view s).
Proof.
  unfold ComposerParts.Screen.view. destruct (_ || _); [sound_tree|].
  destruct (ComposerParts.d_data _) as [[|]|]; sound_tree.
Qed.

Lemma sound_shorten s : sound (Composer.shorten_view s).
Proof.
  unfold Composer.shorten_view. cbv zeta. sound_tree.
Qed.

Lemma sound_schedule trigger timeZone s : sound (Schedule.Dialog.view trigger timeZone s).
Proof.
  unfold Schedule.Dialog.view, Schedule.Dialog.form, Schedule.Dialog.option_row, Schedule.alert_of.
  sound_tree.
Qed.

Lemma sound_overview `{Calendar.DateFns} le now p : sound (Calendar.Overview.OverviewWidgets (A:=unit) le now p).
Proof.
  assert (Hrows : sound (Calendar.Overview.upcoming le p ≫= Calendar.Overview.job_row (A:=unit) now p))
    by (apply sound_bind; intros j _; unfold Calendar.Overview.job_row; sound_tree).
  assert (Hdrafts : sound (map (fun x => text (A:=unit) (Calendar.Overview.draft_text x)) (Calendar.Overview.drafts p)))
    by (apply sound_map; intros x _; sound_tree).
  assert (Hchannels : sound (Calendar.Overview.channels_widget (A:=unit) p)).
  { unfold Calendar.Overview.channels_widget, Calendar.Overview.WidgetHeader. sound_tree.
    destruct (Calendar.Overview.channels p) as [[|]|]; sound_tree.
    all: try (apply sound_bind; intros x _; sound_tree). }
  unfold Calendar.Overview.OverviewWidgets. destruct (Calendar.Overview.active p); [|sound_tree].
  unfold Calendar.Overview.WidgetHeader. sound_tree.
Qed.

Lemma sound_document e p : (forall c, sound (client e c)) -> sound (body (document e p)).
Proof.
  intros Hclient. rewrite document_framed. unfold RootLayout, Providers. cbn [body].
  apply sound_anchor; [reflexivity|]. pose proof (sound_content e p Hclient) as Hc. unfold framed.
  assert (Hfeature : sound (FeatureLayout (content e p))) by (unfold FeatureLayout; sound_tree).
  assert (Hmarketing : sound (MarketingLayout (content e p))).
  { unfold MarketingLayout. sound_tree. }
  destruct p; cbv zeta; first [exact Hc|exact Hmarketing|apply sound_app_layout; first [exact Hc|exact Hfeature]].
Qed.

(** *** The policy of a page *)

Lemma proxy_spec uuid isDev hs h : proxy uuid isDev hs = Some h ->
  exists nonce, h_request h !! ("x-nonce" : jstr) = Some nonce
    /\ h_response h !! ("content-security-policy" : jstr) = Some (csp nonce isDev)
    /\ (uuid <> [] -> parse_csp (csp nonce isDev) = directives nonce isDev /\ atob nonce = uuid).
Proof.
  unfold proxy. destruct (btoa uuid) as [nonce|] eqn:E; [|done]. intros [= <-].
  apply btoa_inv in E as [Ho ->]. exists (base64 uuid). cbn [h_request h_response].
  rewrite lookup_insert_ne by done. rewrite lookup_insert_eq, lookup_singleton_eq.
  split; [done|]. split; [done|]. intros Hne. split; [|by apply atob_base64].
  apply parse_policy; [by destruct uuid as [|a [|b [|c s]]]|by apply base64_chars].
Qed.

(** ** Theorems *)


(** The sign-in page around its form, the callback, and the rest of the screens left to
    their slots. *)
Definition some_clients (c : Client) : list (node unit) :=
  match c with
  | LoginForm => view_map (fun _ => tt) (Auth.view Auth.LoginForm Auth.init)
  | OAuthCallbackClient st cd =>
      view_map (fun _ => tt) (Connect.Callback.view st cd Connect.Callback.init)
  | _ => [Ui.Slot "client"]
  end.

Definition some_env (user : json) : Env :=
  {| headers := ∅; guard := Auth.Guard.init user false; client := some_clients;
     params := {| token := None; state := None; code := None; suspended := false |};
     settings := Shell.SettingsPage.init None false |}.

Lemma some_clients_sound c : sound (some_clients c).
Proof.
  destruct c; cbn [some_clients]; try (apply sound_other; [done|exact sound_nil]).
  - apply sound_map_view, (Forall_inv (sound_forms [] Auth.init)).
  - apply sound_map_view. unfold Connect.Callback.view.
    destruct (Connect.Callback.status state0 code0 Connect.Callback.init); sound_tree.
Qed.


(** C26: a page and its policy agree, and the API is not touched.  Served to a browser that is
    not prefetching, every page of the site carries a policy that the browser reads as the
    directives of the source, and the inline script of the page has the very nonce that
    policy admits, drawn from the identifier of this request; an address below /api/ is
    forwarded, unchanged, to the API with neither page nor policy, whatever its headers. *)
Theorem served_with_its_policy apiTarget uuid isDev e (Hne : uuid <> []) :
  (forall p a, is_prefetch (headers e) = false ->
     serve apiTarget uuid isDev e (address p) = Some a ->
     exists nonce policy response d,
       a = APage p response d
       /\ response !! ("content-security-policy" : jstr) = Some policy
       /\ parse_csp policy = directives nonce isDev
       /\ script_nonce d = Some nonce /\ atob nonce = uuid)
  /\ (forall rest, serve apiTarget uuid isDev e ("/api/" ++ rest)
                   = Some (Forwarded (apiTarget ++ "/api/" ++ rest))).
Proof.
  split.
  - intros p a Hp Hs. unfold serve in Hs. rewrite (matcher_page p _ Hp) in Hs.
    destruct (proxy uuid isDev (headers e)) as [h|] eqn:E; [|done].
    rewrite page_at_address in Hs. cbn [mbind option_bind] in Hs. injection Hs as <-.
    destruct (proxy_spec _ _ _ _ E) as (nonce & H1 & H2 & H3). destruct (H3 Hne) as [H4 H5].
    eexists nonce, _, _, _. split; [reflexivity|]. split; [exact H2|]. split; [exact H4|]. split; [exact H1|exact H5].
  - intros rest. unfold serve. rewrite matcher_api, page_at_api. cbn [mbind option_bind].
    unfold rewrites. rewrite (proj2 (startsWith_spec _ _)) by (by exists rest). rewrite orb_true_r. reflexivity.
Qed.

Lemma served_with_its_policy_witness :
  exists nonce policy response d,
    serve "http://localhost:8080" "3b241101-e2bb-4255" false (some_env JNull) "/terms"
      = Some (APage pTerms response d)
    /\ response !! ("content-security-policy" : jstr) = Some policy
    /\ parse_csp policy = directives nonce false /\ script_nonce d = Some nonce.
Proof.
  destruct (serve "http://localhost:8080" "3b241101-e2bb-4255" false (some_env JNull) (address pTerms))
    as [a|] eqn:E; [|discriminate E].
  destruct (served_with_its_policy "http://localhost:8080" "3b241101-e2bb-4255" false (some_env JNull) ltac:(done))
    as [H _].
  destruct (H pTerms a eq_refl E) as (nonce & policy & response & d & -> & H1 & H2 & H3 & _).
  exists nonce, policy, response, d. by rewrite <- E.
Defined.

(** what a visitor sees of a page.  Of a page of the directory (app), nothing but the
    spinner until the server has named a user, and then the page between the header and the
    dock; a page outside that directory is the same whatever the guard knows.  Every address
    of the site map and the start address of the installed application is a page, and of
    these the home page alone is behind the guard. *)
Theorem site_guarded e p :
  (guarded p = true -> body (document e p) = Anchor "Skip to content" "#main" ::
     if signed_in (guard e)
     then Shell.AppHeader
          ++ (if bool_decide (p = pDashboard \/ p = pOAuthCallback) then content e p
              else FeatureLayout (content e p))
          ++ Shell.Dock [Shell.dockItems; Shell.dockManage] (address p)
     else [text "Loading"])
  /\ (guarded p = false -> forall g, body (document e p) = body (document
        {| headers := headers e; guard := g; params := params e; client := client e;
           settings := settings e |} p))
  /\ Forall (fun path => exists q, page_at path = Some q /\ guarded q = (path =ₛ "/"))
       (mf_start_url manifest :: Shell.sitemap_paths).
Proof.
  split; [|split].
  - intros Hg. rewrite document_framed. unfold RootLayout, Providers. cbn [body]. f_equal.
    unfold framed, AppLayout. cbv zeta.
    destruct p; try (vm_compute in Hg; discriminate Hg); rewrite AuthGuard_spec; reflexivity.
  - intros Hg g. rewrite !document_framed. destruct p; try (vm_compute in Hg; discriminate Hg); reflexivity.
  - unfold Shell.sitemap_paths. each; eexists; (split; reflexivity).
Qed.

Lemma site_guarded_witness :
  guarded pWallet = true
  /\ body (document (some_env JNull) pWallet) = [Anchor "Skip to content" "#main"; text "Loading"]
  /\ guarded pPrivacy = false
  /\ body (document (some_env JNull) pPrivacy) = body (document (some_env (JObj [])) pPrivacy).
Proof.
  split; [reflexivity|]. split; [exact (proj1 (site_guarded (some_env JNull) pWallet) eq_refl)|].
  split; [reflexivity|].
  exact (proj1 (proj2 (site_guarded (some_env JNull) pPrivacy)) eq_refl (Auth.Guard.init (JObj []) false)).
Defined.

(** The skip link of every page points at an element that only the pages of the signed-in
    application have: not the public pages, nor the callback, nor any page while the guard
    waits. *)
Theorem skip_target_missing e p
    (Hclient : forall c, shows_role "#main" (client e c) = false) :
  head (links (body (document e p))) = Some ("#main" : jstr)
  /\ shows_role "#main" (body (document e p))
     = guarded p && signed_in (guard e) && negb (bool_decide (p = pOAuthCallback)).
Proof.
  split; [done|]. rewrite document_framed. unfold RootLayout, Providers. cbn [body].
  change (Anchor "Skip to content" "#main" :: framed e p) with ([Anchor "Skip to content" "#main"] ++ framed e p).
  rewrite shows_role_app. change (shows_role "#main" [Anchor "Skip to content" "#main"]) with false.
  unfold framed, AppLayout, FeatureLayout, Shell.AppHeader. cbv zeta. rewrite !AuthGuard_spec.
  assert (Hpanel : forall t s c f, shows_role "#main" (client e c) = false -> shows_role "#main" f = false ->
    shows_role "#main" (Shell.AuthPanel.view t s (client e c) f) = false).
  { intros t s c f H1 H2. unfold Shell.AuthPanel.view. rewrite !shows_role_app, H1, H2.
    by destruct s as [s|]; [destruct (truthy s)|]. }
  destruct (guarded p) eqn:Eg.
  - destruct (signed_in (guard e)); destruct p; try (vm_compute in Eg; discriminate Eg); try reflexivity.
    cbn [content]. rewrite !shows_role_app. unfold OAuthCallbackPage. rewrite Hclient. vm_compute. reflexivity.
  - destruct p; try (vm_compute in Eg; discriminate Eg); try (vm_compute; reflexivity);
      apply Hpanel; try apply Hclient; reflexivity.
Qed.

(** Every page names the home page as its canonical address, the pages of the site map too:
    no page sets its own, and the root layout's is inherited. *)
Lemma canonical_is_home site p :
  hd_canonical (page_head site (page_metadata p)) = site ++ "/" /\ hd_og_url (page_head site (page_metadata p)) = site ++ "/".
Proof. done. Qed.
