(* ===== verification/Reset.v ===== *)
(** * Resetting the mobile project: mobile/scripts/reset-project.js

    The script moves (or deletes) the directories src and scripts and writes a blank
    application.  The disk is an association list of paths and entries under the root of the
    project; the calls of the file-system module are those of its documentation on top of
    rename(2), and any of them may fail at any time, having done part of its work.  What the
    theorems show: when the user asks to keep the files, no file is lost, not even by a
    failure half-way; when the user asks to delete them, nothing else is touched; and what
    the disk holds when the script succeeds. *)
From S2P Require Import Prelude JsValue.

Local Open Scope js_scope.

(** ** The disk *)

Abbreviation path := (list jstr).

Inductive entry := File (content : jstr) | Dir.

#[export] Instance entry_eq_dec : EqDecision entry.
Proof. solve_decision. Defined.

Abbreviation disk := (list (path * entry)).

Fixpoint find_entry (d : disk) (p : path) : option entry :=
  match d with
  | [] => None
  | (q, e) :: d' => if bool_decide (q = p) then Some e else find_entry d' p
  end.

(** The root is a directory. *)
Definition get (d : disk) (p : path) : option entry :=
  match p with [] => Some Dir | _ => find_entry d p end.

(** What is left of [q] after [p], when [q] is [p] or below it. *)
Fixpoint strip (p q : path) : option path :=
  match p, q with
  | [], _ => Some q
  | s :: p', t :: q' => if bool_decide (s = t) then strip p' q' else None
  | _ :: _, [] => None
  end.

Definition under (p q : path) : bool := bool_decide (is_Some (strip p q)).

(** *** The calls *)

Definition existsSync (d : disk) (p : path) : bool := bool_decide (is_Some (get d p)).

(** [mkdir] with [recursive]: makes what is missing of [pre ++ rest], below [pre]. *)
Fixpoint mkdir (pre rest : path) (d : disk) : jstr + disk :=
  match rest with
  | [] => inr d
  | s :: rest' =>
      let p := pre ++ [s] in
      match get d p with
      | Some Dir => mkdir p rest' d
      | Some (File _) => inl (match rest' with [] => "EEXIST" : jstr | _ => "ENOTDIR" end)
      | None => mkdir p rest' ((p, Dir) :: d)
      end
  end.

Definition parent (p : path) : path := take (pred (length p)) p.

(** Something is below the path. *)
Definition occupied (d : disk) (p : path) : bool :=
  existsb (fun e => match strip p e.1 with Some (_ :: _) => true | _ => false end) d.

Definition moved (old new p : path) : path :=
  match strip old p with Some r => new ++ r | None => p end.

(** A directory replaces an empty directory, a file replaces a file. *)
Definition rename (old new : path) (d : disk) : jstr + disk :=
  match get d old, get d (parent new), get d new with
  | None, _, _ | _, None, _ => inl ("ENOENT" : jstr)
  | _, Some (File _), _ => inl ("ENOTDIR" : jstr)
  | Some Dir, _, Some (File _) => inl ("ENOTDIR" : jstr)
  | Some (File _), _, Some Dir => inl ("EISDIR" : jstr)
  | Some _, _, _ =>
      if under old new || under new old then inl ("EINVAL" : jstr)
      else if occupied d new then inl ("ENOTEMPTY" : jstr)
      else inr (map (fun e => (moved old new e.1, e.2)) (keep (fun e => negb (under new e.1)) d))
  end.

(** [rm] with [recursive] and [force]; [kept]: what a failure leaves. *)
Definition rm (kept : path -> bool) (p : path) (d : disk) : disk :=
  keep (fun e => negb (under p e.1) || kept e.1) d.

Definition writeFile (p : path) (content : jstr) (d : disk) : jstr + disk :=
  match get d (parent p), get d p with
  | Some Dir, Some Dir => inl ("EISDIR" : jstr)
  | Some Dir, _ => inr ((p, File content) :: d)
  | Some (File _), _ => inl ("ENOTDIR" : jstr)
  | None, _ => inl ("ENOENT" : jstr)
  end.

(** ** The script *)

Record World := { on_disk : disk; ops : nat; console : list jstr }.

(** A failure of the environment: its message, and how much of the call was done. *)
Record Fault := { message : jstr; kept : path -> bool; done_ : nat }.

(** An awaited computation over the world: rejected with a message, or resolved. *)
Definition M (A : Type) : Type := World -> (jstr + A) * World.

Definition ret {A} (x : A) : M A := fun w => (inr x, w).
Definition bind {A B} (m : M A) (k : A -> M B) : M B :=
  fun w => match m w with (inl e, w') => (inl e, w') | (inr x, w') => k x w' end.
Definition log (line : jstr) : M unit :=
  fun w => (inr tt, {| on_disk := on_disk w; ops := ops w; console := console w ++ [line] |}).
Definition look {A} (f : disk -> A) : M A := fun w => (inr (f (on_disk w)), w).

Local Notation "'do' x <- m ; k" := (bind m (fun x => k)) (at level 200, x name, m at level 100, k at level 200).
Local Notation "m ;> k" := (bind m (fun _ => k)) (at level 100, right associativity).

Definition exampleDir : jstr := "example".
Definition oldDirs : list jstr := ["src" : jstr; "scripts"].
Definition newAppDir : path := ["src" : jstr; "app"].
Definition newline : jstr := [10%N].

Definition lines (l : list jstr) : jstr := concat (map (fun s => s ++ newline) l).

Definition quoted (s : jstr) : jstr := [34%N] ++ s ++ [34%N].

Definition indexContent : jstr := lines [
  "import { Text, View, StyleSheet } from " ++ quoted "react-native" ++ ";";
  [];
  "export default function Index() {";
  "  return (";
  "    <View style={styles.container}>";
  "      <Text>Edit src/app/index.tsx to edit this screen.</Text>";
  "    </View>";
  "  );";
  "}";
  [];
  "const styles = StyleSheet.create({";
  "  container: {";
  "    flex: 1,";
  "    alignItems: " ++ quoted "center" ++ ",";
  "    justifyContent: " ++ quoted "center" ++ ",";
  "  },";
  "});"].

Definition layoutContent : jstr := lines [
  "import { Stack } from " ++ quoted "expo-router" ++ ";";
  [];
  "export default function RootLayout() {";
  "  return <Stack />;";
  "}"].

Section Script.
(** The failures of the environment, by the number of the call. *)
Variable fault : nat -> option Fault.

Definition io (act : disk -> jstr + disk) (partial : Fault -> disk -> disk) : M unit :=
  fun w =>
    let world d := {| on_disk := d; ops := S (ops w); console := console w |} in
    match fault (ops w) with
    | Some f => (inl (message f), world (partial f (on_disk w)))
    | None => match act (on_disk w) with
              | inl e => (inl e, world (on_disk w))
              | inr d => (inr tt, world d)
              end
    end.

Definition resolved (d : disk) (r : jstr + disk) : disk := match r with inr d' => d' | inl _ => d end.

Definition mkdir_ (p : path) : M unit :=
  io (mkdir [] p) (fun f d => resolved d (mkdir [] (take (done_ f) p) d)).
Definition rename_ (old new : path) : M unit := io (rename old new) (fun _ d => d).
Definition rm_ (p : path) : M unit :=
  io (fun d => inr (rm (fun _ => false) p d)) (fun f => rm (kept f) p).
Definition writeFile_ (p : path) (content : jstr) : M unit :=
  io (writeFile p content) (fun f d => resolved d (writeFile p (take (done_ f) content) d)).

(** One turn of the loop over the old directories. *)
Definition move_one (userInput dir : jstr) : M unit :=
  do present <- look (fun d => existsSync d [dir]);
  if present : bool then
    if userInput =ₛ "y" then
      rename_ [dir] [exampleDir; dir] ;>
      log ("➡️ /" ++ dir ++ " moved to /" ++ exampleDir ++ "/" ++ dir ++ ".")
    else rm_ [dir] ;> log ("❌ /" ++ dir ++ " deleted.")
  else log ("➡️ /" ++ dir ++ " does not exist, skipping.").

Fixpoint each_ {A} (f : A -> M unit) (l : list A) : M unit :=
  match l with [] => ret tt | x :: l' => f x ;> each_ f l' end.

Definition blank_app (userInput : jstr) : M unit :=
  mkdir_ newAppDir ;> log (newline ++ "📁 New /src/app directory created.") ;>
  writeFile_ (newAppDir ++ ["index.tsx" : jstr]) indexContent ;> log "📄 src/app/index.tsx created." ;>
  writeFile_ (newAppDir ++ ["_layout.tsx" : jstr]) layoutContent ;> log "📄 src/app/_layout.tsx created." ;>
  log (newline ++ "✅ Project reset complete. Next steps:") ;>
  log ("1. Run `npx expo start` to start a development server." ++ newline
       ++ "2. Edit src/app/index.tsx to edit the main screen." ++ newline
       ++ "3. Put all your application code in /src, only screens and layout files should be in /src/app."
       ++ (if userInput =ₛ "y"
           then newline ++ "4. Delete the /" ++ exampleDir ++ " directory when you're done referencing it."
           else [])).

(** The body of the [try] block. *)
Definition reset (userInput : jstr) : M unit :=
  (if userInput =ₛ "y" then mkdir_ [exampleDir] ;> log ("📁 /" ++ exampleDir ++ " directory created.")
   else ret tt) ;>
  each_ (move_one userInput) oldDirs ;>
  blank_app userInput.

(** The [catch] block: the promise always resolves. *)
Definition moveDirectories (userInput : jstr) (w : World) : World :=
  match reset userInput w with
  | (inr _, w') => w'
  | (inl e, w') => {| on_disk := on_disk w'; ops := ops w';
                      console := console w' ++ ["❌ Error during script execution: " ++ e] |}
  end.

(** The answer to the question: empty is yes. *)
Definition userInput_of (answer : jstr) : jstr :=
  let i := lower (trim answer) in if truthy i then i else "y".

Definition on_answer (answer : jstr) (w : World) : World :=
  let userInput := userInput_of answer in
  if (userInput =ₛ "y") || (userInput =ₛ "n") then moveDirectories userInput w
  else {| on_disk := on_disk w; ops := ops w;
          console := console w ++ ["❌ Invalid input. Please enter 'Y' or 'N'."] |}.
End Script.

(** ** What is asked of the script *)

(** Directories all the way up. *)
Definition closed (d : disk) : Prop :=
  forall p s e, get d (p ++ [s]) = Some e -> get d p = Some Dir.

(** The disk [g] with the directory example, and in it the directories [ms] that were moved. *)
Definition after_moves (ms : list jstr) (g : path -> option entry) (p : path) : option entry :=
  match p with
  | [] => Some Dir
  | [x] => if x =ₛ exampleDir then Some Dir else if bool_decide (x ∈ ms) then None else g p
  | x :: y :: r =>
      if x =ₛ exampleDir then if bool_decide (y ∈ ms) then g (y :: r) else g p
      else if bool_decide (x ∈ ms) then None else g p
  end.

(** Every file of [d0] is in [d], in its place or below example. *)
Definition keeps (d0 d : disk) : Prop :=
  forall p c, get d0 p = Some (File c) ->
    get d p = Some (File c) \/ get d (exampleDir :: p) = Some (File c).

(** The blank application. *)
Definition blank (p : path) : option entry :=
  if bool_decide (p = newAppDir ++ ["index.tsx" : jstr]) then Some (File indexContent)
  else if bool_decide (p = newAppDir ++ ["_layout.tsx" : jstr]) then Some (File layoutContent)
  else if bool_decide (p = newAppDir \/ p = ["src" : jstr]) then Some Dir
  else None.

(** ** Lemmas *)

Lemma strip_spec p q r : strip p q = Some r <-> q = p ++ r.
Proof.
  revert q. induction p as [|s p IH]; intros q; cbn [strip app].
  - split; [by intros [= ->]|by intros ->].
  - destruct q as [|t q]; [done|]. case_bool_decide as H.
    + subst t. rewrite IH. split; [by intros ->|by intros [= ->]].
    + split; [done|]. intros [= Hs _]. by destruct H.
Qed.

Lemma under_spec p q : under p q = true <-> exists r, q = p ++ r.
Proof.
  unfold under. rewrite bool_decide_eq_true. split.
  - intros [r H]. exists r. by apply strip_spec.
  - intros [r H]. exists r. by apply strip_spec.
Qed.

Lemma strip_none p q : strip p q = None <-> under p q = false.
Proof. unfold under. rewrite bool_decide_eq_false. destruct (strip p q); split; try done. intros H; destruct H; by eexists. Qed.

Lemma find_keep (g : path -> bool) d p :
  find_entry (keep (fun e => g e.1) d) p = if g p then find_entry d p else None.
Proof.
  induction d as [|[q e] d IH]; cbn [keep find_entry fst]; [by destruct (g p)|].
  destruct (g q) eqn:E; cbn [find_entry]; case_bool_decide as H; rewrite ?IH; try done; subst q; by rewrite ?E.
Qed.

Lemma get_keep (g : path -> bool) d p : g [] = true ->
  get (keep (fun e => g e.1) d) p = if g p then get d p else None.
Proof. intros H. destruct p; [by rewrite H|]. apply find_keep. Qed.

Lemma find_moved old new d p : (forall r r', old ++ r <> new ++ r') ->
  find_entry (map (fun e => (moved old new e.1, e.2)) (keep (fun e => negb (under new e.1)) d)) p
  = match strip new p with
    | Some r => find_entry d (old ++ r)
    | None => if under old p then None else find_entry d p
    end.
Proof.
  intros Hinc. induction d as [|[q e] d IH]; cbn [keep map find_entry fst].
  - destruct (strip new p); [done|]. by destruct (under old p).
  - destruct (under new q) eqn:Eq; cbn [negb map find_entry fst snd]; rewrite IH; clear IH.
    + apply under_spec in Eq as [rq ->]. destruct (strip new p) as [r|] eqn:Ep.
      * case_bool_decide as H; [|done]. by destruct (Hinc r rq).
      * destruct (under old p); [done|]. case_bool_decide as H; [|done]. subst p.
        apply strip_none in Ep. rewrite (proj2 (under_spec _ _)) in Ep by (by exists rq). done.
    + unfold moved. destruct (strip old q) as [rq|] eqn:Eo.
      * apply strip_spec in Eo as ->. destruct (strip new p) as [r|] eqn:Ep.
        -- apply strip_spec in Ep as ->. case_bool_decide as H; case_bool_decide as H'; try done.
           ++ destruct H'. apply app_inv_head in H. congruence.
           ++ destruct H. apply app_inv_head in H'. congruence.
        -- case_bool_decide as H.
           { subst p. apply strip_none in Ep.
             rewrite (proj2 (under_spec _ _)) in Ep by (by exists rq). done. }
           destruct (under old p) eqn:E; [done|]. case_bool_decide as H'; [|done]. subst p.
           rewrite (proj2 (under_spec _ _)) in E by (by exists rq). done.
      * apply strip_none in Eo. destruct (strip new p) as [r|] eqn:Ep.
        -- apply strip_spec in Ep as ->. case_bool_decide as H.
           { subst q. rewrite (proj2 (under_spec _ _)) in Eq by (by exists r). done. }
           case_bool_decide as H'; [|done]. subst q.
           rewrite (proj2 (under_spec _ _)) in Eo by (by exists r). done.
        -- case_bool_decide as H; [|done]. subst q. by rewrite Eo.
Qed.

Lemma occupied_none d p s r : occupied d p = false -> find_entry d (p ++ s :: r) = None.
Proof.
  unfold occupied. induction d as [|[q e] d IH]; cbn [existsb find_entry fst]; [done|].
  intros [H1 H2]%orb_false_iff. case_bool_decide as H; [|by apply IH]. subst q.
  by rewrite (proj2 (strip_spec p (p ++ s :: r) (s :: r)) eq_refl) in H1.
Qed.

Lemma rename_inv old new d d' : rename old new d = inr d' ->
  exists e, get d old = Some e /\ occupied d new = false
    /\ (e = Dir -> forall c, get d new <> Some (File c))
    /\ d' = map (fun e => (moved old new e.1, e.2)) (keep (fun e => negb (under new e.1)) d).
Proof.
  unfold rename. destruct (get d old) as [[c|]|]; [| |done];
    (destruct (get d (parent new)) as [[?|]|]; [done| |done]);
    (destruct (get d new) as [[?|]|]; try done);
    (destruct (under old new || under new old); [done|]; destruct (occupied d new); [done|]);
    intros [= <-]; eexists; repeat split; done.
Qed.

Lemma closed_below d s r : closed d -> get d [s] = None -> get d (s :: r) = None.
Proof.
  intros Hd Hs. induction r as [|t r IH] using rev_ind; [done|].
  destruct (get d (s :: r ++ [t])) as [e|] eqn:E; [|done].
  apply (Hd (s :: r)) in E. congruence.
Qed.

Lemma after_moves_other ms g x r : x <> exampleDir ->
  after_moves ms g (x :: r) = if bool_decide (x ∈ ms) then None else g (x :: r).
Proof. intros H. apply jeq_false in H. destruct r; cbn [after_moves]; by rewrite H. Qed.

Lemma after_moves_example ms g x r :
  after_moves ms g (exampleDir :: x :: r) = if bool_decide (x ∈ ms) then g (x :: r) else g (exampleDir :: x :: r).
Proof. done. Qed.

(** A directory moved below example. *)
Lemma get_moved ms d0 d d' x : x <> exampleDir -> x ∉ ms ->
  (forall p, get d p = after_moves ms (get d0) p) ->
  rename [x] [exampleDir; x] d = inr d' ->
  forall p, get d' p = after_moves (x :: ms) (get d0) p.
Proof.
  intros Hx Hms Hd Hr p. apply rename_inv in Hr as (e & _ & _ & _ & ->).
  destruct p as [|y r]; [done|]. unfold get at 1. rewrite find_moved.
  2: { intros r1 r2 [= H _]. by destruct Hx. }
  destruct (strip [exampleDir; x] (y :: r)) as [r'|] eqn:E.
  - apply strip_spec in E. injection E as -> ->. cbn [app]. change (find_entry d (x :: r')) with (get d (x :: r')).
    rewrite Hd, after_moves_other by done. rewrite after_moves_example.
    rewrite bool_decide_eq_false_2 by done. by rewrite bool_decide_eq_true_2 by left.
  - apply strip_none in E. change (find_entry d (y :: r)) with (get d (y :: r)). rewrite Hd.
    destruct (decide (y = exampleDir)) as [->|Hy].
    + change (under [x] (exampleDir :: r)) with (bool_decide (is_Some (if bool_decide (x = exampleDir) then Some r else None))).
      rewrite (bool_decide_eq_false_2 (x = exampleDir)) by done. cbn.
      destruct r as [|z r]; [done|]. destruct (decide (z = x)) as [->|Hz].
      * rewrite (proj2 (under_spec _ _)) in E by (by exists r). done.
      * rewrite (bool_decide_ext (z ∈ x :: ms) (z ∈ ms)); [done|]. rewrite elem_of_cons. naive_solver.
    + rewrite !after_moves_other by done. unfold under. cbn [strip].
      destruct (decide (x = y)) as [->|Hxy].
      * rewrite (bool_decide_eq_true_2 (y = y)) by done. rewrite (bool_decide_eq_true_2 (y ∈ y :: ms)) by left. done.
      * rewrite (bool_decide_eq_false_2 (x = y)) by done. cbn.
        rewrite (bool_decide_ext (y ∈ x :: ms) (y ∈ ms)); [done|]. rewrite elem_of_cons. naive_solver.
Qed.

(** *** Triples: what a computation does to the disk, resolved or rejected *)

Definition triple {A} (P : disk -> Prop) (m : M A) (Q : A -> disk -> Prop) (E : disk -> Prop) : Prop :=
  forall w, P (on_disk w) -> match m w with
    | (inr x, w') => Q x (on_disk w') | (inl _, w') => E (on_disk w') end.

Lemma triple_bind {A B} P (m : M A) Q (k : A -> M B) R E :
  triple P m Q E -> (forall x, triple (Q x) (k x) R E) -> triple P (bind m k) R E.
Proof.
  intros Hm Hk w Hw. unfold bind. specialize (Hm w Hw). destruct (m w) as [[e|x] w']; [done|]. by apply Hk.
Qed.

Lemma triple_ret {A} (x : A) (Q : A -> disk -> Prop) E : triple (Q x) (ret x) Q E.
Proof. intros w Hw. exact Hw. Qed.

Lemma triple_log P line E : triple P (log line) (fun _ => P) E.
Proof. intros w Hw. exact Hw. Qed.

Lemma triple_look {A} P (f : disk -> A) E : triple P (look f) (fun x d => P d /\ x = f d) E.
Proof. intros w Hw. by split. Qed.

Lemma triple_weaken {A} (P P' : disk -> Prop) (m : M A) Q (Q' : A -> disk -> Prop) E :
  (forall d, P d -> P' d) -> (forall x d, Q' x d -> Q x d) -> triple P' m Q' E -> triple P m Q E.
Proof.
  intros HP HQ H w Hw. specialize (H w (HP _ Hw)). destruct (m w) as [[e|x] w']; [done|]. by apply HQ.
Qed.

Lemma triple_io (P Q E : disk -> Prop) fault act partial :
  (forall d, P d -> match act d with inr d' => Q d' | inl _ => E d end) ->
  (forall d f, P d -> E (partial f d)) ->
  triple P (io fault act partial) (fun _ => Q) E.
Proof.
  intros Hact Hpart w Hw. unfold io. destruct (fault (ops w)) as [f|]; [by apply Hpart|].
  specialize (Hact _ Hw). by destruct (act (on_disk w)).
Qed.

(** A pure fact about the disk before. *)
Lemma triple_pure {A} (F : Prop) P (m : M A) Q E :
  (F -> triple P m Q E) -> triple (fun d => P d /\ F) m Q E.
Proof. intros H w [Hw HF]. by apply H. Qed.

(** *** The blank application touches src alone *)

Definition outside (p : path) : Prop := under ["src" : jstr] p = false.

Lemma mkdir_outside rest pre d d' p : mkdir pre rest d = inr d' -> outside p ->
  (pre = [] -> head rest = Some ("src" : jstr) \/ rest = []) -> (pre <> [] -> under ["src" : jstr] pre = true) ->
  get d' p = get d p.
Proof.
  revert pre d. induction rest as [|s rest IH]; intros pre d; cbn [mkdir]; [by intros [= ->]|].
  intros H Hp Hnil Hne. assert (Hu : under ["src" : jstr] (pre ++ [s]) = true).
  { destruct pre as [|t pre].
    - destruct (Hnil eq_refl) as [[= ->]|?]; done.
    - specialize (Hne ltac:(done)). apply under_spec in Hne as [r ->]. apply under_spec.
      exists (r ++ [s]). by rewrite app_assoc. }
  destruct (get d (pre ++ [s])) as [[c|]|] eqn:E; [done| |].
  - apply (IH _ _ H Hp); [|done]. intros ?. by destruct pre.
  - rewrite (IH _ _ H Hp); [|by destruct pre|done]. destruct p as [|t p]; [done|]. cbn [get find_entry].
    rewrite bool_decide_eq_false_2; [done|]. intros Heq. unfold outside in Hp. congruence.
Qed.

Lemma writeFile_outside q c d d' p : writeFile q c d = inr d' -> under ["src" : jstr] q = true -> outside p ->
  get d' p = get d p.
Proof.
  unfold writeFile, outside. intros H Hq Hp.
  assert (d' = (q, File c) :: d) as ->.
  { destruct (get d (parent q)) as [[?|]|], (get d q) as [[?|]|]; congruence. }
  destruct p as [|t p]; [done|]. cbn [get find_entry]. rewrite bool_decide_eq_false_2; [done|]. congruence.
Qed.

(** A property of what is outside src is kept by the blank application, complete or not. *)
Lemma triple_blank fault userInput (F : disk -> Prop) :
  (forall d d', F d -> (forall p, outside p -> get d' p = get d p) -> F d') ->
  triple F (blank_app fault userInput) (fun _ => F) F.
Proof.
  intros HF.
  assert (Hmk : forall rest d, rest = newAppDir \/ rest = ["src" : jstr] \/ rest = [] -> F d -> F (resolved d (mkdir [] rest d))).
  { intros rest d Hrest Hd. destruct (mkdir [] rest d) as [e|d'] eqn:E; [done|]. cbn. apply (HF d); [done|].
    intros p Hp. apply (mkdir_outside _ _ _ _ _ E Hp); [|done]. intros _. destruct Hrest as [->|[->| ->]]; auto. }
  assert (Hwr : forall q c d, under ["src" : jstr] q = true -> F d -> F (resolved d (writeFile q c d))).
  { intros q c d Hq Hd. destruct (writeFile q c d) as [e|d'] eqn:E; [done|]. cbn. apply (HF d); [done|].
    intros p Hp. by apply (writeFile_outside _ _ _ _ _ E). }
  assert (Hmk_ : triple F (mkdir_ fault newAppDir) (fun _ => F) F).
  { apply triple_io.
    - intros d Hd. specialize (Hmk newAppDir d (or_introl eq_refl) Hd). by destruct (mkdir [] newAppDir d).
    - intros d f Hd. apply Hmk; [|done]. destruct (done_ f) as [|[|n]]; [by auto..|]. left.
      destruct n; reflexivity. }
  assert (Hwr_ : forall q c, under ["src" : jstr] q = true -> triple F (writeFile_ fault q c) (fun _ => F) F).
  { intros q c Hq. apply triple_io.
    - intros d Hd. specialize (Hwr q c d Hq Hd). by destruct (writeFile q c d).
    - intros d f Hd. by apply Hwr. }
  unfold blank_app.
  repeat first [apply triple_log | exact Hmk_ | apply Hwr_; reflexivity
               | eapply triple_bind; [first [apply triple_log|exact Hmk_|apply Hwr_; reflexivity]|intros []]].
Qed.

(** *** Moving keeps every file *)

Section Moving.
Variable d0 : disk.
Hypothesis Hclosed : closed d0.
Hypothesis Hdirs : forall x c, x ∈ oldDirs -> get d0 [x] <> Some (File c).

(** Of the directories [l], those that existed were moved to places where there was no file. *)
Definition placed (l : list jstr) (d : disk) : Prop :=
  exists ms, (forall p, outside p \/ l <> oldDirs -> get d p = after_moves ms (get d0) p)
    /\ (forall x r c, x ∈ ms -> get d0 (exampleDir :: x :: r) <> Some (File c))
    /\ (forall x, x ∈ ms -> x ∈ l)
    /\ (forall x, x ∈ l -> x ∈ ms \/ get d0 [x] = None)
    /\ (forall c, get d0 [exampleDir] <> Some (File c)).

Lemma old_not_example x : x ∈ oldDirs -> x <> exampleDir.
Proof.
  assert (H : Forall (fun x => x <> exampleDir) oldDirs) by (apply (bool_decide_unpack _); vm_compute; exact I).
  rewrite Forall_forall in H. apply H.
Qed.

Lemma outside_example p : outside (exampleDir :: p).
Proof. done. Qed.

Lemma outside_ne x r : x <> ("src" : jstr) -> outside (x :: r).
Proof.
  intros H. unfold outside, under. cbn [strip]. rewrite bool_decide_eq_false_2; [done|]. intros [? Hs].
  by rewrite bool_decide_eq_false_2 in Hs.
Qed.

Lemma placed_keeps l d : (forall x, x ∈ l -> x ∈ oldDirs) -> placed l d -> keeps d0 d.
Proof.
  intros Hl (ms & Hd & Hfree & Hms & Hall & Hex) p c Hp.
  destruct p as [|x r]; [done|]. destruct (decide (x = exampleDir)) as [->|Hx].
  - left. rewrite Hd by (left; apply outside_example). destruct r as [|y r].
    + by destruct (Hex c).
    + rewrite after_moves_example. case_bool_decide as H; [|done]. by destruct (Hfree y r c H).
  - destruct (decide (x ∈ ms)) as [Hm|Hm].
    + right. rewrite Hd by (left; apply outside_example). rewrite after_moves_example.
      by rewrite bool_decide_eq_true_2.
    + left. rewrite Hd; [rewrite after_moves_other by done; by rewrite bool_decide_eq_false_2|].
      destruct (decide (x = ("src" : jstr))) as [->|Hsrc]; [|left; by apply outside_ne].
      right. intros ->. destruct (Hall ("src" : jstr) ltac:(left)) as [?|Hno]; [done|].
      by rewrite (closed_below _ _ _ Hclosed Hno) in Hp.
Qed.

Lemma placed_none : (forall c, get d0 [exampleDir] <> Some (File c)) ->
  forall d, (forall p, get d p = match p with [x] => if x =ₛ exampleDir then Some Dir else get d0 p | _ => get d0 p end) ->
  placed [] d.
Proof.
  intros Hex d Hd. exists []. split; [|split; [|split; [|split]]]; try done.
  - intros p _. rewrite Hd. destruct p as [|x [|y r]]; [done| |]; cbn [after_moves]; by destruct (x =ₛ exampleDir).
  - intros x r c H. by apply elem_of_nil in H.
  - intros x H. by apply elem_of_nil in H.
Qed.

Lemma triple_move_one fault l x : x ∉ l -> x ∈ oldDirs -> (forall y, y ∈ l -> y ∈ oldDirs) ->
  triple (placed l) (move_one fault "y" x) (fun _ => placed (l ++ [x])) (keeps d0).
Proof.
  intros Hx Hin Hl. assert (Hne : l <> oldDirs) by (by intros ->).
  assert (Hskip : forall d, placed l d -> get d [x] = None -> placed (l ++ [x]) d).
  { intros d (ms & Hd & Hfree & Hms & Hall & Hex) Hno. exists ms.
    assert (Hm : x ∉ ms) by (intros H; by apply Hx, Hms).
    rewrite Hd in Hno by (by right). rewrite after_moves_other in Hno by (by apply old_not_example).
    rewrite bool_decide_eq_false_2 in Hno by done.
    split; [intros p _; apply Hd; by right|]. split; [done|]. split; [intros y Hy; apply elem_of_app; auto|].
    split; [|done]. intros y [Hy|Hy%list_elem_of_singleton]%elem_of_app; [by apply Hall|]. subst y. by right. }
  assert (Hmove : forall d, placed l d -> match rename [x] [exampleDir; x] d with
      inr d' => placed (l ++ [x]) d' | inl _ => keeps d0 d end).
  { intros d Hpl. destruct (rename [x] [exampleDir; x] d) as [e|d'] eqn:E; [by apply (placed_keeps l)|].
    destruct Hpl as (ms & Hd & Hfree & Hms & Hall & Hex).
    assert (Hm : x ∉ ms) by (intros H; by apply Hx, Hms).
    assert (Hd' : forall p, get d p = after_moves ms (get d0) p) by (intros p; apply Hd; by right).
    exists (x :: ms). split; [intros p _; by apply (get_moved ms d0 d d' x (old_not_example x Hin) Hm Hd' E)|].
    apply rename_inv in E as (e & He & Hocc & Hfile & _).
    rewrite Hd', after_moves_other, bool_decide_eq_false_2 in He by (done || by apply old_not_example).
    assert (e = Dir) as -> by (destruct e as [c|]; [by destruct (Hdirs x c Hin)|done]).
    split; [|split; [|split]]; try done.
    - intros y r c [->|Hy]%elem_of_cons; [|by apply Hfree]. intros Hf. destruct r as [|z r].
      + apply (Hfile eq_refl c). rewrite Hd', after_moves_example. by rewrite bool_decide_eq_false_2.
      + pose proof (occupied_none d [exampleDir; x] z r Hocc) as Hno.
        change (find_entry d ([exampleDir; x] ++ z :: r)) with (get d (exampleDir :: x :: z :: r)) in Hno.
        rewrite Hd', after_moves_example, bool_decide_eq_false_2 in Hno by done. congruence.
    - intros y [->|Hy]%elem_of_cons; apply elem_of_app; [right; by left|left; by apply Hms].
    - intros y [Hy|Hy%list_elem_of_singleton]%elem_of_app; [|subst y; left; by left].
      destruct (Hall y Hy); [left; by right|by right]. }
  unfold move_one. eapply triple_bind; [apply triple_look|]. intros [|].
  - eapply (triple_bind _ _ (fun _ => placed (l ++ [x]))); [|intros []; apply triple_log].
    apply triple_io; [intros d [Hd _]; by apply Hmove|intros d f [Hd _]; by apply (placed_keeps l)].
  - eapply triple_weaken; [|intros ? ? H; exact H|apply triple_log]. intros d [Hd Hno].
    apply Hskip; [done|]. unfold existsSync in Hno. symmetry in Hno.
    apply bool_decide_eq_false in Hno. by apply eq_None_not_Some.
Qed.

Lemma triple_reset fault : triple (fun d => d = d0) (reset fault "y") (fun _ => keeps d0) (keeps d0).
Proof.
  assert (Hrefl : keeps d0 d0) by (intros p c H; by left).
  unfold reset. eapply triple_bind with (Q := fun _ => placed []).
  { cbn. eapply (triple_bind _ _ (fun _ => placed [])); [|intros []; apply triple_log]. apply triple_io.
    - intros d ->. cbn [mkdir app]. destruct (get d0 [exampleDir]) as [[c|]|] eqn:E; [done| |].
      + apply placed_none; [congruence|]. intros [|x [|y r]]; try done.
        destruct (x =ₛ exampleDir) eqn:Ex; [|done]. by apply jeq_true in Ex as ->.
      + apply placed_none; [congruence|]. intros [|x r]; [done|]. cbn [get find_entry].
        destruct r as [|y r].
        * case_bool_decide as H.
          -- injection H as <-. by rewrite jeq_refl.
          -- rewrite (proj2 (jeq_false _ _)); [done|]. congruence.
        * by rewrite bool_decide_eq_false_2.
    - intros d f ->. destruct (done_ f) as [|n]; [done|]. cbn [take mkdir resolved app].
      rewrite take_nil. cbn [mkdir]. destruct (get d0 [exampleDir]) as [[c|]|] eqn:E; try done.
      intros p c Hp. left. destruct p as [|x r]; [done|]. cbn [get find_entry resolved].
      rewrite bool_decide_eq_false_2; [done|]. intros H. rewrite <- H in Hp. congruence. }
  intros []. eapply triple_bind with (Q := fun _ => placed oldDirs).
  - unfold oldDirs at 1. cbn [each_]. eapply triple_bind; [apply triple_move_one|intros []].
    + apply not_elem_of_nil.
    + left.
    + intros y Hy. by apply elem_of_nil in Hy.
    + eapply (triple_bind _ _ (fun _ => placed (([] ++ ["src" : jstr]) ++ ["scripts" : jstr])));
        [apply triple_move_one|intros []; exact (triple_ret tt (fun _ => placed oldDirs) (keeps d0))].
      * intros H%list_elem_of_singleton. done.
      * right; left.
      * intros y ->%list_elem_of_singleton. left.
  - intros []. eapply triple_weaken; [intros d H; exact H|intros ? d H; exact (placed_keeps oldDirs d (fun _ H => H) H)|].
    intros w Hw. assert (HF : forall d d', placed oldDirs d -> (forall p, outside p -> get d' p = get d p) -> placed oldDirs d').
    { intros d d' (ms & Hd & Hrest) Hout. exists ms. split; [|done]. intros p [Hp|Hp]; [|done].
      rewrite Hout by done. apply Hd. by left. }
    pose proof (triple_blank fault "y" (placed oldDirs) HF w Hw) as H.
    destruct (blank_app fault "y" w) as [[e|[]] w']; [|done]. by apply (placed_keeps oldDirs _ (fun _ H => H)).
Qed.
End Moving.

(** *** Deleting touches nothing else *)

Section Deleting.
Variable d0 : disk.

Definition elsewhere (p : path) : Prop := outside p /\ under ["scripts" : jstr] p = false.

Definition untouched (d : disk) : Prop := forall p, elsewhere p -> get d p = get d0 p.

Lemma untouched_rm kept x d : x ∈ oldDirs -> untouched d -> untouched (rm kept [x] d).
Proof.
  intros Hx Hd p Hp. unfold rm. rewrite (get_keep (fun p => negb (under [x] p) || kept p)) by done.
  assert (under [x] p = false) as ->; [|by apply Hd].
  destruct Hp as [H1 H2]. unfold oldDirs in Hx. apply elem_of_cons in Hx as [->|Hx]; [done|].
  by apply list_elem_of_singleton in Hx as ->.
Qed.

Lemma triple_delete fault : triple untouched (reset fault "n") (fun _ => untouched) untouched.
Proof.
  assert (Hone : forall x, x ∈ oldDirs -> triple untouched (move_one fault "n" x) (fun _ => untouched) untouched).
  { intros x Hx. unfold move_one. eapply triple_bind; [apply triple_look|]. intros [|].
    - eapply (triple_bind _ _ (fun _ => untouched)); [|intros []; apply triple_log].
      apply triple_io; [intros d [Hd _]; by apply untouched_rm|intros d f [Hd _]; by apply untouched_rm].
    - eapply triple_weaken; [|intros ? ? H; exact H|apply triple_log]. by intros d [Hd _]. }
  unfold reset. eapply (triple_bind _ _ (fun _ => untouched)); [exact (triple_ret tt (fun _ => untouched) untouched)|].
  intros []. eapply (triple_bind _ _ (fun _ => untouched)).
  - unfold oldDirs. cbn [each_]. eapply (triple_bind _ _ (fun _ => untouched)); [apply Hone; left|intros []].
    eapply (triple_bind _ _ (fun _ => untouched)); [apply Hone; right; left|intros []].
    exact (triple_ret tt (fun _ => untouched) untouched).
  - intros []. apply triple_blank. intros d d' Hd Hout p Hp. rewrite Hout by apply Hp. by apply Hd.
Qed.
End Deleting.

(** *** Without failures *)

Definition calm (n : nat) : option Fault := None.

Lemma triple_calm (P Q E : disk -> Prop) act partial :
  (forall d, P d -> exists d', act d = inr d' /\ Q d') -> triple P (io calm act partial) (fun _ => Q) E.
Proof. intros H w Hw. unfold io, calm. destruct (H _ Hw) as (d' & -> & Hd'). exact Hd'. Qed.

Definition blank_disk (d : disk) : disk :=
  (newAppDir ++ ["_layout.tsx" : jstr], File layoutContent)
  :: (newAppDir ++ ["index.tsx" : jstr], File indexContent) :: (newAppDir, Dir) :: (["src" : jstr], Dir) :: d.

Lemma blank_result d : (forall p, under ["src" : jstr] p = true -> get d p = None) ->
  forall p, get (blank_disk d) p = if under ["src" : jstr] p then blank p else get d p.
Proof.
  intros Hno p. destruct p as [|x r]; [done|]. unfold blank_disk, blank. cbn [get find_entry].
  destruct (under ["src" : jstr] (x :: r)) eqn:E.
  - specialize (Hno _ E). cbn [get] in Hno. rewrite Hno.
    repeat case_bool_decide; try done; try congruence; naive_solver.
  - repeat (rewrite bool_decide_eq_false_2; [|intros H; rewrite <- H in E; discriminate E]). done.
Qed.

Lemma triple_blank_calm userInput d1 E : (forall p, under ["src" : jstr] p = true -> get d1 p = None) ->
  triple (fun d => d = d1) (blank_app calm userInput) (fun _ d => d = blank_disk d1) E.
Proof.
  intros Hno. unfold blank_app.
  eapply (triple_bind _ _ (fun _ d => d = (newAppDir, Dir) :: (["src" : jstr], Dir) :: d1)).
  { apply triple_calm. intros d ->. eexists. split; [|reflexivity]. unfold newAppDir. cbn [mkdir app].
    rewrite (Hno ["src" : jstr]) by done.
    assert (get ((["src" : jstr], Dir) :: d1) ["src" : jstr; "app"] = None) as ->; [|done].
    cbn [get find_entry]. rewrite bool_decide_eq_false_2 by done. exact (Hno ["src" : jstr; "app"] eq_refl). }
  intros []. eapply triple_bind; [apply triple_log|intros []].
  eapply (triple_bind _ _ (fun _ d => d = (newAppDir ++ ["index.tsx" : jstr], File indexContent)
    :: (newAppDir, Dir) :: (["src" : jstr], Dir) :: d1)).
  { apply triple_calm. intros d ->. eexists. split; [|reflexivity]. unfold writeFile.
    cbn [parent newAppDir app length pred take get find_entry]. rewrite bool_decide_eq_true_2 by done.
    rewrite !bool_decide_eq_false_2 by done. pose proof (Hno ["src" : jstr; "app"; "index.tsx"] eq_refl) as H.
    cbn [get] in H. by rewrite H. }
  intros []. eapply triple_bind; [apply triple_log|intros []].
  eapply (triple_bind _ _ (fun _ d => d = blank_disk d1)).
  { apply triple_calm. intros d ->. eexists. split; [|reflexivity]. unfold writeFile.
    cbn [parent newAppDir app length pred take get find_entry].
    rewrite (bool_decide_eq_false_2 (["src" : jstr; "app"; "index.tsx"] = _)) by done.
    rewrite bool_decide_eq_true_2 by done. rewrite !bool_decide_eq_false_2 by done.
    pose proof (Hno ["src" : jstr; "app"; "_layout.tsx"] eq_refl) as H. cbn [get] in H. by rewrite H. }
  intros []. eapply triple_bind; [apply triple_log|intros []].
  eapply triple_bind; [apply triple_log|intros []]. apply triple_log.
Qed.

Lemma find_present d q e : (q, e) ∈ d -> is_Some (find_entry d q).
Proof.
  induction d as [|[q' e'] d IH]; [by intros ?%elem_of_nil|]. cbn [find_entry].
  intros [[= <- <-]|H]%elem_of_cons; [by rewrite bool_decide_eq_true_2|].
  case_bool_decide; [done|by apply IH].
Qed.

Lemma occupied_empty d p : (forall s r, find_entry d (p ++ s :: r) = None) -> occupied d p = false.
Proof.
  intros H. unfold occupied. apply not_true_iff_false. intros Hex. apply existsb_exists in Hex as ([q e] & Hin & Hq).
  cbn [fst] in Hq. destruct (strip p q) as [[|s r]|] eqn:E; [done| |done]. apply strip_spec in E as ->.
  apply list_elem_of_In, find_present in Hin. rewrite H in Hin. by destruct Hin.
Qed.

Section Calm.
Variable d0 : disk.
Hypothesis Hclosed : closed d0.

(** The directories of [l] that existed. *)
Definition present (l : list jstr) : list jstr := keep (fun x => existsSync d0 [x]) l.

Definition removed (l : list jstr) (p : path) : option entry :=
  match p with x :: _ => if bool_decide (x ∈ l) then None else get d0 p | [] => Some Dir end.

Lemma triple_remove l x E : x ∉ l ->
  triple (fun d => forall p, get d p = removed l p) (move_one calm "n" x)
    (fun _ d => forall p, get d p = removed (x :: l) p) E.
Proof.
  intros Hx. assert (Hnext : forall y r, removed (x :: l) (y :: r) = if bool_decide (x = y) then None else removed l (y :: r)).
  { intros y r. cbn [removed]. destruct (decide (x = y)) as [->|Hxy].
    - rewrite (bool_decide_eq_true_2 (y = y)) by done. by rewrite bool_decide_eq_true_2 by left.
    - rewrite (bool_decide_eq_false_2 (x = y)) by done.
      rewrite (bool_decide_ext (y ∈ x :: l) (y ∈ l)); [done|]. rewrite elem_of_cons. naive_solver. }
  unfold move_one. eapply triple_bind; [apply triple_look|]. intros [|].
  - eapply (triple_bind _ _ (fun _ d => forall p, get d p = removed (x :: l) p)); [|intros []; apply triple_log].
    apply triple_calm. intros d [Hd _]. eexists. split; [reflexivity|]. intros p. unfold rm.
    rewrite (get_keep (fun p => negb (under [x] p) || false)) by done. rewrite orb_false_r, Hd.
    destruct p as [|y r]; [done|]. rewrite Hnext. unfold under. cbn [strip]. by destruct (bool_decide (x = y)).
  - eapply triple_weaken; [|intros ? ? H; exact H|apply triple_log]. intros d [Hd Hno] p.
    destruct p as [|y r]; [done|]. rewrite Hd, Hnext. case_bool_decide as H; [|done]. subst y.
    unfold existsSync in Hno. symmetry in Hno. apply bool_decide_eq_false, eq_None_not_Some in Hno.
    rewrite Hd in Hno. cbn [removed] in *. rewrite bool_decide_eq_false_2 in * by done.
    by apply closed_below.
Qed.

Hypothesis Hfree : get d0 [exampleDir] = None.

Lemma triple_move l x E : x ∉ l -> x ∈ oldDirs ->
  triple (fun d => forall p, get d p = after_moves (present l) (get d0) p) (move_one calm "y" x)
    (fun _ d => forall p, get d p = after_moves (present (x :: l)) (get d0) p) E.
Proof.
  intros Hx Hin. pose proof (old_not_example x Hin) as Hne.
  assert (Hp : x ∉ present l) by (unfold present; rewrite keep_In; naive_solver).
  assert (Hget : forall d, (forall p, get d p = after_moves (present l) (get d0) p) -> get d [x] = get d0 [x]).
  { intros d Hd. by rewrite Hd, after_moves_other, bool_decide_eq_false_2. }
  unfold move_one. eapply triple_bind; [apply triple_look|]. intros [|].
  - eapply (triple_bind _ _ (fun _ d => forall p, get d p = after_moves (present (x :: l)) (get d0) p));
      [|intros []; apply triple_log].
    apply triple_calm. intros d [Hd Hyes]. symmetry in Hyes. unfold existsSync in Hyes.
    rewrite (Hget d Hd) in Hyes. assert (Hpx : present (x :: l) = x :: present l).
    { unfold present. cbn [keep]. unfold existsSync at 1. by rewrite Hyes. }
    assert (Hbelow : forall r, get d (exampleDir :: x :: r) = None).
    { intros r. rewrite Hd, after_moves_example, bool_decide_eq_false_2 by done. by apply closed_below. }
    assert (Hr : exists d', rename [x] [exampleDir; x] d = inr d').
    { unfold rename. rewrite (Hget d Hd). apply bool_decide_eq_true in Hyes as [e ->].
      assert (get d (parent [exampleDir; x]) = Some Dir) as -> by (by rewrite Hd).
      rewrite (Hbelow []).
      assert (under [x] [exampleDir; x] || under [exampleDir; x] [x] = false) as ->.
      { unfold under. cbn [strip]. rewrite (bool_decide_eq_false_2 (x = exampleDir)) by done.
        by rewrite (bool_decide_eq_false_2 (exampleDir = x)) by done. }
      rewrite occupied_empty by (intros s r; exact (Hbelow (s :: r))). destruct e; by eexists. }
    destruct Hr as [d' Hr]. exists d'. split; [done|]. rewrite Hpx. by apply (get_moved _ _ d).
  - eapply triple_weaken; [|intros ? ? H; exact H|apply triple_log]. intros d [Hd Hno] p.
    assert (present (x :: l) = present l) as ->; [|by apply Hd].
    unfold present. cbn [keep]. unfold existsSync in Hno |- * at 1. rewrite (Hget d Hd) in Hno. by rewrite <- Hno.
Qed.
End Calm.

(** The disk of a computation that cannot be rejected. *)
Lemma triple_resolves {A} P (m : M A) Q w : triple P m Q (fun _ => False) -> P (on_disk w) ->
  exists x w', m w = (inr x, w') /\ Q x (on_disk w').
Proof. intros H Hw. specialize (H w Hw). destruct (m w) as [[e|x] w']; [done|]. by exists x, w'. Qed.

Lemma reset_delete_result d0 : closed d0 ->
  triple (fun d => d = d0) (reset calm "n")
    (fun _ d => forall p, get d p = if under ["src" : jstr] p then blank p else removed d0 oldDirs p) (fun _ => False).
Proof.
  intros Hc. unfold reset.
  eapply (triple_bind _ _ (fun _ d => forall p, get d p = removed d0 [] p)).
  { intros w Hw. change (forall p, get (on_disk w) p = removed d0 [] p). rewrite Hw. by intros [|x r]. }
  intros []. eapply (triple_bind _ _ (fun _ d => forall p, get d p = removed d0 oldDirs p)).
  { unfold oldDirs. cbn [each_].
    eapply (triple_bind _ _ (fun _ d => forall p, get d p = removed d0 ["src" : jstr] p)).
    { apply (triple_remove d0 Hc []). apply not_elem_of_nil. }
    intros []. eapply (triple_bind _ _ (fun _ d => forall p, get d p = removed d0 ["scripts" : jstr; "src"] p)).
    { apply (triple_remove d0 Hc ["src" : jstr]). by intros ?%list_elem_of_singleton. }
    intros []. intros w Hw. unfold ret. intros p. rewrite Hw. destruct p as [|x r]; [done|]. cbn [removed].
    rewrite (bool_decide_ext (x ∈ ["scripts" : jstr; "src"]) (x ∈ ["src" : jstr; "scripts"])); [done|].
    rewrite !elem_of_cons. tauto. }
  intros [] w Hw. assert (Hno : forall p, under ["src" : jstr] p = true -> get (on_disk w) p = None).
  { intros p (r & ->)%under_spec. by rewrite Hw. }
  pose proof (triple_blank_calm "n" (on_disk w) (fun _ => False) Hno w eq_refl) as H.
  destruct (blank_app calm "n" w) as [[e|[]] w']; [done|]. rewrite H. intros p. rewrite blank_result by done.
  by rewrite Hw.
Qed.

Lemma reset_move_result d0 : closed d0 -> get d0 [exampleDir] = None ->
  triple (fun d => d = d0) (reset calm "y")
    (fun _ d => forall p, get d p = if under ["src" : jstr] p then blank p
                                    else after_moves (present d0 oldDirs) (get d0) p) (fun _ => False).
Proof.
  intros Hc Hfree. unfold reset.
  eapply (triple_bind _ _ (fun _ d => forall p, get d p = after_moves [] (get d0) p)).
  { cbn. eapply (triple_bind _ _ (fun _ d => forall p, get d p = after_moves [] (get d0) p));
      [|intros []; apply triple_log].
    apply triple_calm. intros d ->. cbn [mkdir app]. rewrite Hfree. eexists. split; [reflexivity|].
    intros [|x r]; [done|]. cbn [get find_entry]. destruct (decide (x = exampleDir)) as [->|Hx].
    - destruct r as [|y r]; [by rewrite bool_decide_eq_true_2|]. by rewrite bool_decide_eq_false_2.
    - rewrite after_moves_other by done. rewrite bool_decide_eq_false_2 by congruence. done. }
  intros []. eapply (triple_bind _ _ (fun _ d => forall p, get d p = after_moves (present d0 oldDirs) (get d0) p)).
  { unfold oldDirs at 1. cbn [each_].
    eapply (triple_bind _ _ (fun _ d => forall p, get d p = after_moves (present d0 ["src" : jstr]) (get d0) p)).
    { apply (triple_move d0 Hc Hfree []); [apply not_elem_of_nil|left]. }
    intros []. eapply (triple_bind _ _ (fun _ d => forall p, get d p = after_moves (present d0 ["scripts" : jstr; "src"]) (get d0) p)).
    { apply (triple_move d0 Hc Hfree ["src" : jstr]); [by intros ?%list_elem_of_singleton|right; left]. }
    intros []. intros w Hw. unfold ret. intros p. rewrite Hw.
    assert (H : forall x, bool_decide (x ∈ present d0 ["scripts" : jstr; "src"]) = bool_decide (x ∈ present d0 oldDirs)).
    { intros x. apply bool_decide_ext. unfold present, oldDirs. rewrite !keep_In, !elem_of_cons. tauto. }
    destruct p as [|x [|y r]]; [done| |]; cbn [after_moves]; by rewrite !H. }
  intros [] w Hw. assert (Hno : forall p, under ["src" : jstr] p = true -> get (on_disk w) p = None).
  { intros p (r & ->)%under_spec. rewrite Hw. cbn [app]. rewrite after_moves_other by done.
    case_bool_decide as H; [done|]. apply closed_below; [done|].
    unfold present in H. rewrite keep_In in H. unfold existsSync in H. apply eq_None_not_Some. intros Hs.
    apply H. split; [left|]. by apply bool_decide_eq_true. }
  pose proof (triple_blank_calm "y" (on_disk w) (fun _ => False) Hno w eq_refl) as H.
  destruct (blank_app calm "y" w) as [[e|[]] w']; [done|]. rewrite H. intros p. rewrite blank_result by done.
  by rewrite Hw.
Qed.

Lemma find_in d p e : find_entry d p = Some e -> (p, e) ∈ d.
Proof.
  induction d as [|[q e'] d IH]; [done|]. cbn [find_entry]. case_bool_decide as H.
  - intros [= ->]. subst q. left.
  - intros Hf. right. by apply IH.
Qed.

(** A disk on which the parent of every entry is a directory. *)
Lemma closed_check d : Forall (fun e => get d (parent e.1) = Some Dir) d -> closed d.
Proof.
  intros H p s e Hp. assert (Hin : (p ++ [s], e) ∈ d) by (apply find_in; by destruct p).
  rewrite Forall_forall in H. apply H in Hin. unfold parent in Hin. cbn [fst] in Hin.
  rewrite length_app, Nat.add_1_r in Hin. cbn [pred] in Hin. by rewrite take_app_length in Hin.
Qed.

(** ** Theorems *)

(** C27: nothing is lost that the user wanted to keep.  Unless the answer is "n", whatever
    calls fail and however much of them was done, every file of the project is still there
    with its content when the script ends, in its place or below example; and when the
    answer is "n", everything outside src and scripts is as it was. *)
Theorem reset_loses_nothing fault answer w
    (Hclosed : closed (on_disk w))
    (Hdirs : forall x c, x ∈ oldDirs -> get (on_disk w) [x] <> Some (File c)) :
  (userInput_of answer <> "n" -> keeps (on_disk w) (on_disk (on_answer fault answer w)))
  /\ (userInput_of answer = "n" ->
      forall p, elsewhere p -> get (on_disk (on_answer fault answer w)) p = get (on_disk w) p).
Proof.
  unfold on_answer. split.
  - intros Hn. destruct (userInput_of answer =ₛ "y") eqn:Ey; cbn [orb].
    + apply jeq_true in Ey. rewrite Ey. unfold moveDirectories.
      pose proof (triple_reset _ Hclosed Hdirs fault w eq_refl) as H. by destruct (reset fault "y" w) as [[e|[]] w'].
    + apply jeq_false in Hn. rewrite Hn. intros p c H. by left.
  - intros ->. cbn [orb]. unfold moveDirectories.
    pose proof (triple_delete (on_disk w) fault w (fun p _ => eq_refl)) as H.
    change (("n" : jstr) =ₛ "y") with false. change (("n" : jstr) =ₛ "n") with true. cbn [orb].
    by destruct (reset fault "n" w) as [[e|[]] w'].
Qed.

(** what the script leaves when no call fails, on every path of the disk: the blank
    application under src, and of the rest what was there, with src and scripts gone when
    the answer is "n" and below example when it is "y" or empty (and there was no
    example). *)
Theorem reset_result answer w (Hclosed : closed (on_disk w)) :
  let w' := on_answer calm answer w in
  (userInput_of answer = "n" ->
     forall p, get (on_disk w') p = if under ["src" : jstr] p then blank p else removed (on_disk w) oldDirs p)
  /\ (userInput_of answer = "y" -> get (on_disk w) [exampleDir] = None ->
     forall p, get (on_disk w') p = if under ["src" : jstr] p then blank p
                                    else after_moves (present (on_disk w) oldDirs) (get (on_disk w)) p)
  /\ (userInput_of answer <> "y" -> userInput_of answer <> "n" -> on_disk w' = on_disk w).
Proof.
  cbv zeta. unfold on_answer. split; [|split].
  - intros ->. change (("n" : jstr) =ₛ "y") with false. change (("n" : jstr) =ₛ "n") with true. cbn [orb].
    destruct (triple_resolves _ _ _ w (reset_delete_result _ Hclosed) eq_refl) as (x & w' & Hw & H).
    unfold moveDirectories. by rewrite Hw.
  - intros -> Hfree. change (("y" : jstr) =ₛ "y") with true. cbn [orb].
    destruct (triple_resolves _ _ _ w (reset_move_result _ Hclosed Hfree) eq_refl) as (x & w' & Hw & H).
    unfold moveDirectories. by rewrite Hw.
  - intros Hy Hn. apply jeq_false in Hy, Hn. by rewrite Hy, Hn.
Qed.

(** A project, and a full disk at the second move. *)
Definition project : disk :=
  [(["src" : jstr], Dir); (["src" : jstr; "app"], Dir); (["src" : jstr; "app"; "index.tsx"], File "mine");
   (["scripts" : jstr], Dir); (["scripts" : jstr; "reset-project.js"], File "this"); (["package.json" : jstr], File "{}")].
Definition on_project : World := {| on_disk := project; ops := 0; console := [] |}.
Definition failing (n : nat) : option Fault :=
  if Nat.eqb n 2 then Some {| message := "EIO"; kept := fun _ => false; done_ := 0 |} else None.

Lemma project_closed : closed project.
Proof. apply closed_check, (bool_decide_unpack _). vm_compute. exact I. Qed.

Lemma project_dirs x c : x ∈ oldDirs -> get project [x] <> Some (File c).
Proof. unfold oldDirs. intros [->|[->|H%elem_of_nil]%elem_of_cons]%elem_of_cons; done. Qed.

Lemma reset_loses_nothing_witness :
  get (on_disk (on_answer failing " Y " on_project)) ["example" : jstr; "src"; "app"; "index.tsx"] = Some (File "mine")
  /\ keeps project (on_disk (on_answer failing " Y " on_project))
  /\ get (on_disk (on_answer failing "n" on_project)) ["package.json" : jstr] = Some (File "{}").
Proof.
  split; [reflexivity|]. split.
  - exact (proj1 (reset_loses_nothing failing " Y " on_project project_closed project_dirs) ltac:(done)).
  - exact (proj2 (reset_loses_nothing failing "n" on_project project_closed project_dirs) eq_refl
             ["package.json" : jstr] (conj eq_refl eq_refl)).
Defined.

Lemma reset_result_witness :
  (forall p, get (on_disk (on_answer calm [] on_project)) p
             = if under ["src" : jstr] p then blank p else after_moves ["src" : jstr; "scripts"] (get project) p)
  /\ on_disk (on_answer calm "maybe" on_project) = project.
Proof.
  split.
  - exact (proj1 (proj2 (reset_result [] on_project project_closed)) eq_refl eq_refl).
  - exact (proj2 (proj2 (reset_result "maybe" on_project project_closed)) ltac:(done) ltac:(done)).
Defined.
