(* ===== verification/Design.v ===== *)
(** * Design tokens and primitive controls

    mobile/src/lib/tokens.ts, use-palette.ts and the primitives of mobile/src/ui; of the web,
    the controls of web/src/ui/primitives with a behaviour of their own: the form field with
    its accessible description and its show/hide button, the button, the empty state, the
    spinner.  Contrast.v measures the palettes. *)
From S2P Require Import Prelude JsValue Ui.
From S2P Require MobileTeam Shell.

Local Open Scope js_scope.

(** ** Tokens *)

Record Palette := { surface : jstr; elevated : jstr; fg : jstr; fgMuted : jstr; fgSubtle : jstr;
  accent : jstr; accentSoft : jstr; accentFg : jstr; danger : jstr; success : jstr; warning : jstr;
  separator : jstr; vibrancyPanel : jstr; vibrancyDock : jstr }.

Definition light : Palette :=
  {| surface := "#f3f5f9"; elevated := "#ffffff"; fg := "#1e2433"; fgMuted := "#5c6577";
     fgSubtle := "#828b9d"; accent := "#2f6bef"; accentSoft := "#5e8df5"; accentFg := "#ffffff";
     danger := "#d93a34"; success := "#1ba35d"; warning := "#bb7d18"; separator := "#e0e3ea";
     vibrancyPanel := "rgba(255,255,255,0.86)"; vibrancyDock := "rgba(252,253,255,0.78)" |}.

Definition dark : Palette :=
  {| surface := "#15171f"; elevated := "#222633"; fg := "#e8eaf0"; fgMuted := "#a3a9b9";
     fgSubtle := "#747b8d"; accent := "#5d87ff"; accentSoft := "#4a72e8"; accentFg := "#ffffff";
     danger := "#f05547"; success := "#36c97c"; warning := "#e8a23d"; separator := "rgba(255,255,255,0.13)";
     vibrancyPanel := "rgba(34,38,51,0.85)"; vibrancyDock := "rgba(34,38,51,0.78)" |}.

(** The colors of a palette that are declared as six hexadecimal digits in both. *)
Definition solid (p : Palette) : list jstr :=
  [surface p; elevated p; fg p; fgMuted p; fgSubtle p; accent p; accentSoft p; accentFg p; danger p;
   success p; warning p].

(** The separator is solid in the light palette alone. *)
Definition translucent (p : Palette) : list jstr := [vibrancyPanel p; vibrancyDock p].

(** The palette in force. *)
Definition usePalette (system_ : option jstr) (preference : MobileTeam.Settings.ThemePreference) : Palette :=
  if Shell.scheme system_ preference =ₛ "dark" then dark else light.

Definition space : list (jstr * Z) :=
  [("xs" : jstr, 4); ("sm", 8); ("md", 12); ("lg", 16); ("xl", 24); ("xxl", 32)]%Z.
Definition radius : list (jstr * Z) := [("sm" : jstr, 8); ("md", 12); ("lg", 16); ("xl", 22); ("full", 999)]%Z.
Definition type : list (jstr * Z) :=
  [("caption" : jstr, 12); ("body", 14); ("subhead", 16); ("title", 20); ("display", 28)]%Z.

(** ** Colors *)

(** Red, green, blue, and the opacity in 255ths or hundredths. *)
Record Color := { red : Z; green : Z; blue : Z; alpha : Z * Z }.

Definition hex_digit (c : N) : option Z :=
  if (48 <=? c)%N && (c <=? 57)%N then Some (Z.of_N c - 48)%Z
  else if (97 <=? c)%N && (c <=? 102)%N then Some (Z.of_N c - 87)%Z else None.

Definition hex_pair (c d : N) : option Z :=
  x ← hex_digit c; y ← hex_digit d; Some (16 * x + y)%Z.

(** A decimal numeral of at most three digits. *)
Definition small (s : jstr) : option Z :=
  match s with
  | [] | _ :: _ :: _ :: _ :: _ => None
  | _ => foldl (fun acc c => a ← acc; if (48 <=? c)%N && (c <=? 57)%N then Some (10 * a + (Z.of_N c - 48))%Z else None)
               (Some 0%Z) s
  end.

Fixpoint commas (s : jstr) : list jstr :=
  match s with
  | [] => [[]]
  | c :: s' => match commas s' with
      | w :: l => if N.eqb c 44 then [] :: w :: l else (c :: w) :: l
      | [] => [[c]] end
  end.

(** What the platform reads: [#rrggbb], [#rrggbbaa], [rgba(r,g,b,0.aa)]. *)
Definition parse_color (s : jstr) : option Color :=
  match s with
  | [35%N; a; b; c; d; e; f] =>
      r ← hex_pair a b; g ← hex_pair c d; l ← hex_pair e f;
      Some {| red := r; green := g; blue := l; alpha := (255, 255)%Z |}
  | [35%N; a; b; c; d; e; f; h; k] =>
      r ← hex_pair a b; g ← hex_pair c d; l ← hex_pair e f; o ← hex_pair h k;
      Some {| red := r; green := g; blue := l; alpha := (o, 255%Z) |}
  | _ =>
      if startsWith s "rgba(0" || startsWith s "rgba(1" || startsWith s "rgba(2" || startsWith s "rgba(3" then
        match commas (take (length s - 6) (drop 5 s)) with
        | [r; g; l; o] =>
            x ← small r; y ← small g; z ← small l; q ← small (drop 2 o);
            if bool_decide (x <= 255 /\ y <= 255 /\ z <= 255)%Z && startsWith o "0." && bool_decide (last s = Some 41%N)
            then Some {| red := x; green := y; blue := z; alpha := (q, 100%Z) |} else None
        | _ => None
        end
      else None
  end.

(** [`${color}22`]: two more digits, the opacity. *)
Definition tint (color suffix : jstr) : jstr := color ++ suffix.

(** ** The primitives of the mobile app *)

Inductive PillTone := neutral | tone_accent | tone_success | tone_warning | tone_danger.

Definition tone_color (p : Palette) (t : PillTone) : jstr :=
  match t with
  | tone_accent => accent p | tone_success => success p | tone_warning => warning p
  | tone_danger => danger p | neutral => fgMuted p
  end.

(** The background, the color of the dot and the text, and the text. *)
Definition StatusPill (p : Palette) (t : PillTone) (children : jstr) : jstr * jstr * jstr :=
  (tint (tone_color p t) "22", tone_color p t, children).

Inductive ButtonVariant := primary | secondary | ghost | danger_.

Definition background (p : Palette) (v : ButtonVariant) : jstr :=
  match v with primary => accent p | danger_ => danger p | secondary => elevated p | ghost => "transparent" end.

Definition textColor (p : Palette) (v : ButtonVariant) : jstr :=
  match v with primary | danger_ => accentFg p | _ => fg p end.

(** While loading, a spinner stands in for the label. *)
Definition Button {A} (children : jstr) (onPress : A) (disabled loading : bool) : list (node A) :=
  [Btn (if loading then [] else children) (negb (disabled || loading)) onPress].

Definition minHeight : Z := 44.

Definition BrandSplash {A} : list (node A) := [Box "img" [text "Postal"]; text "Postal"; Box "progressbar" []].

(** The field of the mobile app: focus, and the show/hide button of a password. *)
Module MobileField.
Record St := { focused : bool; revealed : bool }.
Definition init : St := {| focused := false; revealed := false |}.

Inductive Act := Focus | Blur | Reveal.

Definition update (a : Act) (s : St) : St :=
  match a with
  | Focus => {| focused := true; revealed := revealed s |}
  | Blur => {| focused := false; revealed := revealed s |}
  | Reveal => {| focused := focused s; revealed := negb (revealed s) |}
  end.

Definition borderColor (p : Palette) (error : option jstr) (s : St) : jstr :=
  if match error with Some e => truthy e | None => false end then danger p
  else if focused s then accent p else separator p.

(** [secureTextEntry]: whether the characters are hidden. *)
Definition hidden (isSecure : bool) (s : St) : bool := isSecure && negb (revealed s).

Definition toggle (isSecure : bool) (s : St) : list (node Act) :=
  when isSecure [Btn (if revealed s then "Hide password" else "Show password") true Reveal].
End MobileField.

(** ** The primitives of the web application *)

Definition is_set (s : option jstr) : bool := match s with Some t => truthy t | None => false end.

Module WebField.
Record Props := { label : jstr; error : option jstr; hint : option jstr; id : option jstr;
  autoId : jstr; type_ : jstr }.

(** [revealed] *)
Abbreviation St := bool.

Section Field.
Variable p : Props.

Definition fieldId : jstr := match id p with Some i => i | None => autoId p end.
Definition errorId : jstr := fieldId ++ "-error".
Definition hintId : jstr := fieldId ++ "-hint".

(** The identifiers in [aria-describedby]. *)
Definition describedBy : list jstr := when (is_set (error p)) [errorId] ++ when (is_set (hint p)) [hintId].

Definition isPassword : bool := type_ p =ₛ "password".
Definition inputType (revealed : St) : jstr :=
  if isPassword then (if revealed then "text" else "password") else type_ p.

Inductive Act := Input (value : jstr) | Reveal.

(** An element with an id is a box named by the id with a number sign. *)
Definition view (value : jstr) (revealed : St) : list (node Act) :=
  [text (label p); Field (label p) value true Input]
  ++ when isPassword [Toggle "button" (if revealed then "Hide password" else "Show password") revealed true Reveal]
  ++ match hint p with
     | Some h => when (truthy h && negb (is_set (error p))) [Box ("#" ++ hintId) [text h]]
     | None => []
     end
  ++ match error p with
     | Some e => when (truthy e) [Box ("#" ++ errorId) [Box "alert" [text e]]]
     | None => []
     end.

Definition update (a : Act) (revealed : St) : St :=
  match a with Reveal => negb revealed | Input _ => revealed end.
End Field.
End WebField.

(** The size of a web button, as its height in pixels. *)
Inductive Size := sm | md | lg | icon.
Definition height (s : Size) : Z := match s with sm => 32 | md => 40 | lg => 48 | icon => 40 end.
Definition default_size : Size := md.

(** [type]: a button that is not a child's element never submits a form unless told to. *)
Definition button_type (asChild : bool) (type : option jstr) : option jstr :=
  if asChild then None else Some (match type with Some t => t | None => "button" end).

Definition EmptyState {A} (title : jstr) (description action : option (list (node A))) : list (node A) :=
  [text title] ++ default [] description ++ default [] action.

Definition Spinner {A} (label : option jstr) : list (node A) :=
  [Box "status" [text (match label with Some l => l | None => "Loading" end)]].

(** ** Theorems *)

(** every token is a color.  In both palettes the solid tokens are opaque colors and the
    translucent ones are not; and each tint the application makes by adding two digits to a
    token (pills, notes, icon boxes, selections) is that token's color with that opacity. *)
Theorem tokens_are_colors :
  Forall (fun p =>
    Forall (fun t => exists r g b, parse_color t = Some {| red := r; green := g; blue := b; alpha := (255, 255)%Z |}
      /\ Forall (fun suffix => exists o, (0 < o < 255)%Z
           /\ parse_color (tint t suffix) = Some {| red := r; green := g; blue := b; alpha := (o, 255%Z) |})
         ["22" : jstr; "12"; "33"; "14"; "1f"; "1a"; "40"]) (solid p)
    /\ Forall (fun t => exists r g b a, parse_color t = Some {| red := r; green := g; blue := b; alpha := (a, 100%Z) |}
         /\ (0 < a < 100)%Z) (translucent p)
    /\ is_Some (parse_color (separator p))
    /\ (forall t, tone_color p t ∈ solid p)) [light; dark].
Proof.
  each; (split; [|split; [|split; [by eexists|]]]); try (unfold solid, translucent; each);
    try (do 3 eexists; split; [reflexivity|]; each; eexists; (split; [|reflexivity]); lia);
    try (do 4 eexists; split; [reflexivity|lia]);
    intros t; apply (bool_decide_unpack _); destruct t; vm_compute; exact I.
Qed.

(** what a field says of itself.  Each identifier in [aria-describedby] is that of an
    element of the field, except when there is an error and a hint: the hint is not shown
    then, and its identifier points nowhere.  The password is shown in clear exactly when the
    button says so, and a field of another type never changes its type. *)
Theorem field_described p value revealed :
  ((forall i, i ∈ WebField.describedBy p -> ("#" ++ i) ∈ roles (WebField.view p value revealed))
   <-> is_set (WebField.error p) && is_set (WebField.hint p) = false)
  /\ (WebField.isPassword p = true ->
      (WebField.inputType p revealed =ₛ "text") = revealed
      /\ offers (WebField.view p value revealed) WebField.Reveal)
  /\ (WebField.isPassword p = false ->
      WebField.inputType p revealed = WebField.type_ p
      /\ ~ offers (WebField.view p value revealed) WebField.Reveal).
Proof.
  unfold WebField.view, WebField.describedBy, WebField.inputType. set (i := WebField.hintId p). set (j := WebField.errorId p).
  split; [|split].
  - destruct (WebField.error p) as [e|], (WebField.hint p) as [h|]; cbn [is_set];
      try destruct (truthy e); try destruct (truthy h); cbn [when negb andb app];
      destruct (WebField.isPassword p); cbn; split; try done; intros H; try (intros k Hk; set_solver).
    all: exfalso; assert (Hi : ("#" ++ i) ∈ ["#" ++ j; "alert" : jstr]) by (apply H; set_solver).
    all: apply elem_of_cons in Hi as [Hi|Hi%list_elem_of_singleton]; [|discriminate Hi].
    all: apply (f_equal length) in Hi; unfold i, j, WebField.hintId, WebField.errorId in Hi;
      rewrite !length_app in Hi; cbn in Hi; lia.
  - intros ->. split; [by destruct revealed|]. right; right; left. by split.
  - intros ->. split; [done|]. cbn [when app]. intros [[]|[[_ [v Hv]]|H]]; [discriminate Hv|].
    rewrite offers_app in H. destruct (WebField.hint p) as [h|], (WebField.error p) as [e|];
      rewrite ?offers_when in H; cbn in H; tauto.
Qed.

Definition signup_field : WebField.Props :=
  {| WebField.label := "Password"; WebField.error := None; WebField.hint := Some ("At least 8 characters." : jstr);
     WebField.id := None; WebField.autoId := ":r1:"; WebField.type_ := "password" |}.

Lemma field_described_witness :
  ("#:r1:-hint" : jstr) ∈ roles (WebField.view signup_field [] false)
  /\ offers (WebField.view signup_field [] false) WebField.Reveal.
Proof.
  destruct (field_described signup_field [] false) as (H1 & H2 & _). split.
  - apply (proj2 H1 eq_refl ":r1:-hint"). left.
  - exact (proj2 (H2 eq_refl)).
Defined.

(** The characters of a mobile password are hidden exactly after an even number of presses
    of its button, wherever the focus went in between. *)
Lemma mobile_hidden_parity acts :
  MobileField.hidden true (fold_left (fun s a => MobileField.update a s) acts MobileField.init)
  = Nat.even (count (fun a => match a with MobileField.Reveal => true | _ => false end) acts).
Proof.
  assert (H : forall s, MobileField.hidden true (fold_left (fun s a => MobileField.update a s) acts s)
    = xorb (MobileField.revealed s)
        (Nat.even (count (fun a => match a with MobileField.Reveal => true | _ => false end) acts))).
  { induction acts as [|a acts IH]; intros s; [by destruct s as [f []]|]. cbn [fold_left]. rewrite IH.
    unfold count. destruct a; cbn [keep length]; try done. rewrite Nat.even_succ, <- Nat.negb_even.
    cbn. by destruct (MobileField.revealed s), (Nat.even _). }
  exact (H MobileField.init).
Qed.
