(* ===== verification/Contrast.v ===== *)
(** * The contrast of the mobile palettes, in the arithmetic of the real numbers

    docs/FRONTEND_PLAN.md (section 9.2) asks for the contrast of WCAG 2.2 AA: 4.5 to 1 for
    text, 3 to 1 for large text and controls.  The ratio is defined as the standard defines
    it, with the power 2.4 of real numbers, on the colors the tokens parse to; the channels
    are bracketed by integers found by bisection, from which the ratio of two colors is
    decided unless it is very close to the bound. *)
From Stdlib Require Import Reals Lra.
From S2P Require Import Prelude Design.
From S2P Require MobileTeam.

(** ** The standard's definitions *)

Local Open Scope R_scope.

(** The linear intensity of a channel between 0 and 255. *)
Definition channel (c : Z) : R :=
  if (c <=? 10)%Z then IZR c / 255 / 12.92 else Rpower ((IZR c / 255 + 0.055) / 1.055) 2.4.

Definition luminance (c : Color) : R :=
  0.2126 * channel (red c) + 0.7152 * channel (green c) + 0.0722 * channel (blue c).

(** The ratio of the lighter to the darker. *)
Definition contrast (a b : Color) : R :=
  (Rmax (luminance a) (luminance b) + 0.05) / (Rmin (luminance a) (luminance b) + 0.05).

(** ** Brackets *)

(** The largest number below [n + 2 ^ bits] whose fifth power is at most [target]. *)
Fixpoint search (bits : nat) (n target : Z) : Z :=
  match bits with
  | O => n
  | S b => let m := (n + 2 ^ Z.of_nat b)%Z in
           search b (if (m ^ 5 <=? target)%Z then m else n) target
  end.

Lemma search_spec bits n t : (n ^ 5 <= t < (n + 2 ^ Z.of_nat bits) ^ 5)%Z ->
  (n <= search bits n t /\ search bits n t ^ 5 <= t < (search bits n t + 1) ^ 5)%Z.
Proof.
  revert n. induction bits as [|b IH]; intros n H; cbn [search]; [split; [lia|exact H]|].
  assert (Hp : (2 ^ Z.of_nat (S b) = 2 ^ Z.of_nat b + 2 ^ Z.of_nat b)%Z) by (rewrite Nat2Z.inj_succ, Z.pow_succ_r; lia).
  rewrite Hp, Z.add_assoc in H. destruct (Z.leb_spec ((n + 2 ^ Z.of_nat b) ^ 5) t) as [Hle|Hlt].
  - destruct (IH (n + 2 ^ Z.of_nat b)%Z) as [H1 H2]; [lia|]. split; [|exact H2].
    assert (0 <= 2 ^ Z.of_nat b)%Z by (apply Z.pow_nonneg; lia). lia.
  - apply IH. lia.
Qed.

(** The channel in units of [parts], rounded down. *)
Definition parts : Z := 10000.

Definition low (c : Z) : Z :=
  if (c <=? 10)%Z then (c * parts * 100 / (255 * 1292))%Z
  else search 14 0 ((40 * c + 561) ^ 12 * parts ^ 5 / 10761 ^ 12)%Z.

Definition octet (c : Z) : Prop := (0 <= c <= 255)%Z.

Lemma low_small c : (c <= 10)%Z ->
  (low c * (255 * 1292) <= c * parts * 100 <= (low c + 1) * (255 * 1292))%Z.
Proof.
  intros H%Z.leb_le. unfold low. rewrite H.
  pose proof (Z.div_mod (c * parts * 100) (255 * 1292) ltac:(lia)) as H1.
  pose proof (Z.mod_pos_bound (c * parts * 100) (255 * 1292) ltac:(lia)). lia.
Qed.

Lemma low_large c : (10 < c <= 255)%Z ->
  (0 <= low c)%Z /\ (low c ^ 5 * 10761 ^ 12 <= (40 * c + 561) ^ 12 * parts ^ 5 <= (low c + 1) ^ 5 * 10761 ^ 12)%Z.
Proof.
  intros [H Hc]. unfold low. rewrite (proj2 (Z.leb_gt _ _) H).
  set (num := ((40 * c + 561) ^ 12 * parts ^ 5)%Z). set (d := (10761 ^ 12)%Z).
  assert (Hd : (0 < d)%Z) by done.
  assert (Hnum : (0 <= num <= d * parts ^ 5)%Z).
  { unfold num, d. split; [apply Z.mul_nonneg_nonneg; [apply Z.pow_nonneg; lia|done]|].
    apply Z.mul_le_mono_nonneg_r; [done|]. apply Z.pow_le_mono_l. lia. }
  clearbody num d.
  assert (Ht : (0 <= num / d < (2 ^ Z.of_nat 14) ^ 5)%Z).
  { split; [apply Z.div_pos; lia|]. apply Z.div_lt_upper_bound; [done|].
    apply Z.le_lt_trans with (d * parts ^ 5)%Z; [lia|]. apply (proj1 (Z.mul_lt_mono_pos_l d (parts ^ 5) _ Hd)). reflexivity. }
  destruct (search_spec 14 0 (num / d)) as [H1 H2]; [exact Ht|]. set (n := search 14 0 (num / d)) in *.
  split; [done|]. pose proof (Z.div_mod num d ltac:(lia)). pose proof (Z.mod_pos_bound num d Hd). nia.
Qed.

Lemma root5 y : 0 < y -> Rpower (y ^ 5) (1 / 5) = y.
Proof.
  intros Hy. rewrite <- Rpower_pow by done. rewrite Rpower_mult.
  replace (INR 5 * (1 / 5)) with 1 by (cbn; lra). by apply Rpower_1.
Qed.

Lemma root12 x : 0 < x -> Rpower (x ^ 12) (1 / 5) = Rpower x 2.4.
Proof. intros Hx. rewrite <- Rpower_pow by done. rewrite Rpower_mult. f_equal. cbn. lra. Qed.

Lemma root_mono x y : 0 < x -> 0 < y -> x <= y -> Rpower x (1 / 5) <= Rpower y (1 / 5).
Proof. intros Hx Hy H. apply Rle_Rpower_l; [lra|]. by split. Qed.

(** A fifth power that compares to a twelfth, both as quotients of integers. *)
Lemma quotient_pow a b n : IZR b <> 0 -> (IZR a / IZR b) ^ n = IZR (a ^ Z.of_nat n) / IZR (b ^ Z.of_nat n).
Proof. intros Hb. rewrite <- !pow_IZR. unfold Rdiv. rewrite Rpow_mult_distr, pow_inv. done. Qed.

Lemma quotient_le a b c d : (0 < b)%Z -> (0 < d)%Z -> (a * d <= c * b)%Z -> IZR a / IZR b <= IZR c / IZR d.
Proof.
  intros Hb Hd H. apply IZR_lt in Hb, Hd. apply IZR_le in H. rewrite !mult_IZR in H.
  apply (Rmult_le_reg_r (IZR b * IZR d)); [by apply Rmult_lt_0_compat|].
  replace (IZR a / IZR b * (IZR b * IZR d)) with (IZR a * IZR d) by (field; lra).
  replace (IZR c / IZR d * (IZR b * IZR d)) with (IZR c * IZR b) by (field; lra). done.
Qed.

Lemma base_quotient c : (IZR c / 255 + 0.055) / 1.055 = IZR (40 * c + 561) / IZR 10761.
Proof. rewrite plus_IZR, mult_IZR. lra. Qed.

Lemma channel_bracket c : octet c ->
  IZR (low c) / IZR parts <= channel c <= IZR (low c + 1) / IZR parts.
Proof.
  intros Hc. unfold channel. destruct (c <=? 10)%Z eqn:E.
  - apply Z.leb_le in E. pose proof (low_small c E) as [H1 H2].
    replace (IZR c / 255 / 12.92) with (IZR (c * 100) / IZR (255 * 1292)) by (rewrite !mult_IZR; lra).
    split; apply quotient_le; unfold parts in *; lia.
  - apply Z.leb_gt in E. destruct (low_large c) as (H0 & H1 & H2); [unfold octet in Hc; lia|].
    rewrite base_quotient. set (b := IZR (40 * c + 561) / IZR 10761).
    assert (Hb : 0 < b).
    { unfold b. apply Rdiv_lt_0_compat; apply IZR_lt; lia. }
    assert (Hpow : b ^ 12 = IZR ((40 * c + 561) ^ 12) / IZR (10761 ^ 12)) by (apply quotient_pow; apply eq_IZR_contrapositive; lia).
    assert (Hfive : forall n, (IZR n / IZR parts) ^ 5 = IZR (n ^ 5) / IZR (parts ^ 5))
      by (intros n; apply quotient_pow, eq_IZR_contrapositive; done).
    assert (Hpos : forall n, (0 < n)%Z -> 0 < IZR n / IZR parts)
      by (intros n Hn; apply Rdiv_lt_0_compat; apply IZR_lt; done).
    split.
    + destruct (Z.eq_dec (low c) 0%Z) as [->|Hne].
      { unfold Rdiv. rewrite Rmult_0_l. left. apply exp_pos. }
      rewrite <- (root5 (IZR (low c) / IZR parts)), <- (root12 b) by (done || (apply Hpos; lia)).
      apply root_mono; [apply pow_lt, Hpos; lia|by apply pow_lt|]. rewrite Hpow, Hfive.
      apply quotient_le; [done|done|exact H1].
    + rewrite <- (root5 (IZR (low c + 1) / IZR parts)), <- (root12 b) by (done || (apply Hpos; lia)).
      apply root_mono; [by apply pow_lt|apply pow_lt, Hpos; lia|]. rewrite Hpow, Hfive.
      apply quotient_le; [done|done|exact H2].
Qed.

(** The luminance in ten-thousandths of [parts]. *)
Definition floor (c : Color) : Z := (2126 * low (red c) + 7152 * low (green c) + 722 * low (blue c))%Z.
Definition unit : Z := (10000 * parts)%Z.

Definition octets (c : Color) : Prop := octet (red c) /\ octet (green c) /\ octet (blue c).

Lemma luminance_bracket c : octets c ->
  IZR (floor c) / IZR unit <= luminance c <= IZR (floor c + 10000) / IZR unit.
Proof.
  intros (Hr & Hg & Hb). apply channel_bracket in Hr, Hg, Hb. unfold luminance, floor, unit, parts in *.
  rewrite !plus_IZR, !mult_IZR in *. lra.
Qed.

(** With these floors the first is the lighter and the ratio is at least [n] tenths, or below. *)
Definition at_least (n fa fb : Z) : bool :=
  (n * (fb + 10000 + 5 * 100 * parts) <=? 10 * (fa + 5 * 100 * parts))%Z && (fb + 10000 <=? fa)%Z.
Definition below (n fa fb : Z) : bool :=
  (10 * (fa + 10000 + 5 * 100 * parts) <? n * (fb + 5 * 100 * parts))%Z && (fb + 10000 <=? fa)%Z.

Lemma floor_nonneg c : octets c -> 0 <= luminance c.
Proof.
  intros (Hr & Hg & Hb).
  assert (H : forall k, octet k -> 0 <= channel k).
  { intros k [Hk1 Hk2]. unfold channel. destruct (k <=? 10)%Z; [|left; apply exp_pos].
    apply IZR_le in Hk1. lra. }
  apply H in Hr, Hg, Hb. unfold luminance. lra.
Qed.

Lemma lighter a b : octets a -> octets b -> (floor b + 10000 <= floor a)%Z ->
  contrast a b = (luminance a + 0.05) / (luminance b + 0.05).
Proof.
  intros Ha Hb H. apply luminance_bracket in Ha, Hb.
  assert (luminance b <= luminance a).
  { assert (IZR (floor b + 10000) / IZR unit <= IZR (floor a) / IZR unit); [|lra].
    apply quotient_le; [done..|]. unfold unit, parts. lia. }
  unfold contrast. by rewrite Rmax_left, Rmin_right by lra.
Qed.

Lemma ratio_ge n x y : 0 < y + 0.05 -> n * (y + 0.05) <= x + 0.05 -> n <= (x + 0.05) / (y + 0.05).
Proof.
  intros Hy H. apply (Rmult_le_reg_r (y + 0.05)); [done|].
  replace ((x + 0.05) / (y + 0.05) * (y + 0.05)) with (x + 0.05) by (field; lra). done.
Qed.

Lemma ratio_lt n x y : 0 < y + 0.05 -> x + 0.05 < n * (y + 0.05) -> (x + 0.05) / (y + 0.05) < n.
Proof.
  intros Hy H. apply (Rmult_lt_reg_r (y + 0.05)); [done|].
  replace ((x + 0.05) / (y + 0.05) * (y + 0.05)) with (x + 0.05) by (field; lra). done.
Qed.

Lemma at_least_sound n a b : (0 <= n)%Z -> octets a -> octets b -> at_least n (floor a) (floor b) = true ->
  IZR n / 10 <= contrast a b.
Proof.
  intros Hn Ha Hb H. apply andb_true_iff in H as [H1%Z.leb_le H2%Z.leb_le]. rewrite lighter by done.
  pose proof (luminance_bracket a Ha) as [La _]. pose proof (luminance_bracket b Hb) as [_ Lb].
  pose proof (floor_nonneg b Hb) as Nb. apply ratio_ge; [lra|]. apply IZR_le in H1, Hn. unfold unit, parts in *.
  rewrite !mult_IZR, !plus_IZR, !mult_IZR in *. pose proof (Rmult_le_compat_l _ _ _ Hn Lb). lra.
Qed.

Lemma below_sound n a b : (0 <= n)%Z -> octets a -> octets b -> below n (floor a) (floor b) = true ->
  contrast a b < IZR n / 10.
Proof.
  intros Hn Ha Hb H. apply andb_true_iff in H as [H1%Z.ltb_lt H2%Z.leb_le]. rewrite lighter by done.
  pose proof (luminance_bracket a Ha) as [_ La]. pose proof (luminance_bracket b Hb) as [Lb _].
  pose proof (floor_nonneg b Hb) as Nb. apply ratio_lt; [lra|]. apply IZR_lt in H1. apply IZR_le in Hn.
  unfold unit, parts in *. rewrite !mult_IZR, !plus_IZR, !mult_IZR in *.
  pose proof (Rmult_le_compat_l _ _ _ Hn Lb). lra.
Qed.

(** The same on the texts of tokens. *)
Definition octetsb (c : Color) : bool :=
  forallb (fun k => (0 <=? k)%Z && (k <=? 255)%Z) [red c; green c; blue c].

Lemma octetsb_sound c : octetsb c = true -> octets c.
Proof.
  unfold octetsb, octets, octet. cbn [forallb]. rewrite !andb_true_iff, !Z.leb_le. tauto.
Qed.

(** The ratio of two tokens. *)
Definition token_contrast (a b : jstr) : option R :=
  match parse_color a, parse_color b with Some x, Some y => Some (contrast x y) | _, _ => None end.

Definition decided (p : Z -> Z -> bool) (a b : jstr) : bool :=
  match parse_color a, parse_color b with
  | Some x, Some y =>
      let fx := floor x in let fy := floor y in octetsb x && octetsb y && (p fx fy || p fy fx)
  | _, _ => false
  end.

Lemma contrast_comm a b : contrast a b = contrast b a.
Proof. unfold contrast. by rewrite Rmax_comm, Rmin_comm. Qed.

Lemma token_at_least n a b : (0 <= n)%Z -> decided (at_least n) a b = true ->
  exists r, token_contrast a b = Some r /\ IZR n / 10 <= r.
Proof.
  intros Hn. unfold decided, token_contrast. destruct (parse_color a) as [x|]; [|done].
  destruct (parse_color b) as [y|]; [|done]. cbv zeta. rewrite !andb_true_iff, orb_true_iff.
  intros [[Hx%octetsb_sound Hy%octetsb_sound] [H|H]]; eexists; (split; [reflexivity|]).
  - by apply at_least_sound.
  - rewrite contrast_comm. by apply at_least_sound.
Qed.

Lemma token_below n a b : (0 <= n)%Z -> decided (below n) a b = true ->
  exists r, token_contrast a b = Some r /\ r < IZR n / 10.
Proof.
  intros Hn. unfold decided, token_contrast. destruct (parse_color a) as [x|]; [|done].
  destruct (parse_color b) as [y|]; [|done]. cbv zeta. rewrite !andb_true_iff, orb_true_iff.
  intros [[Hx%octetsb_sound Hy%octetsb_sound] [H|H]]; eexists; (split; [reflexivity|]).
  - by apply below_sound.
  - rewrite contrast_comm. by apply below_sound.
Qed.

Definition readable (n : Z) (a b : jstr) : Prop := exists r, token_contrast a b = Some r /\ IZR n / 10 <= r.

(** ** Theorems *)



(** In the dark palette the label of a primary button, 14 points and not bold enough to be
    large text, stays below 3.3 to 1, that of a dangerous one below 3.5, and the text of an
    error on a card below 4.5. *)
Theorem dark_labels_faint :
  (exists r, token_contrast (textColor dark primary) (background dark primary) = Some r /\ r < 3.3)
  /\ (exists r, token_contrast (textColor dark danger_) (background dark danger_) = Some r /\ r < 3.5)
  /\ (exists r, token_contrast (danger dark) (elevated dark) = Some r /\ r < 4.5).
Proof.
  assert (H : forall n a b, (0 <= n)%Z -> decided (below n) a b = true ->
    exists r, token_contrast a b = Some r /\ r < IZR n / 10) by exact token_below.
  replace 3.3 with (IZR 33 / 10) by lra. replace 3.5 with (IZR 35 / 10) by lra.
  replace 4.5 with (IZR 45 / 10) by lra.
  split; [|split]; apply H; try done; vm_compute; reflexivity.
Qed.
