(* ===== verification/Icons.v ===== *)
(** * The icons and the logo: config/platforms.tsx and ui/logo.tsx of both apps

    The glyphs are drawings: elements of an SVG document with their path data.  Here the
    path data is read as the SVG standard reads it (implicit separators, repeated commands,
    relative and absolute coordinates, reflected control points), into the segments it
    draws; the points of a segment are points of the real plane.  What the theorems show
    is what the eye checks: nothing is painted outside of the view box, where it would be
    cut off, and the two applications draw the same marks.

    Lengths are in thousandths of the user unit, which no number of these drawings goes
    beyond.  Of the commands, the quadratic curves, and of the arcs those of ellipses that
    are not circles, are not read: a path that used one would have no drawing here. *)
From Stdlib Require Import Reals Lra.
From S2P Require Import Prelude Platforms.
From S2P Require Design.

Local Open Scope js_scope.

(** ** Reading path data *)

Definition is_digit (c : N) : bool := ((48 <=? c) && (c <=? 57))%N.
Definition digit (c : N) : Z := Z.of_N (c - 48).
Definition is_separator (c : N) : bool := N.eqb c 32 || N.eqb c 44 || N.eqb c 10.

Fixpoint skip (s : jstr) : jstr :=
  match s with c :: s' => if is_separator c then skip s' else s | [] => [] end.

Fixpoint whole (s : jstr) (acc : Z) : Z * jstr :=
  match s with
  | c :: s' => if is_digit c then whole s' (10 * acc + digit c)%Z else (acc, s)
  | [] => (acc, [])
  end.

(** The decimals, the next one worth [unit] thousandths. *)
Fixpoint decimals (s : jstr) (unit : Z) (acc : Z) : option (Z * jstr) :=
  match s with
  | c :: s' => if is_digit c then
                 if Z.eqb unit 0 then None else decimals s' (unit / 10) (acc + unit * digit c)
               else Some (acc, s)
  | [] => Some (acc, [])
  end.

(** An unsigned number: digits, then decimals after a point; one of the two is there. *)
Definition unsigned (s : jstr) : option (Z * jstr) :=
  let '(n, s') := whole s 0 in
  match s' with
  | 46%N :: c :: r => if is_digit c then decimals (c :: r) 100 (1000 * n)
                      else if length s' <? length s then Some (1000 * n, c :: r)%Z else None
  | _ => if length s' <? length s then Some (1000 * n, s')%Z else None
  end.

(** A number ends where the next sign, point or letter starts another token. *)
Definition number (s : jstr) : option (Z * jstr) :=
  match s with
  | 45%N :: s' => match unsigned s' with Some (n, r) => Some (- n, r)%Z | None => None end
  | 43%N :: s' => unsigned s'
  | _ => unsigned s
  end.

(** A flag is one character, [0] or [1], which needs no separator after it. *)
Definition arc_flag (s : jstr) : option (Z * jstr) :=
  match s with 48%N :: r => Some (0, r)%Z | 49%N :: r => Some (1, r)%Z | _ => None end.

(** What a command takes: numbers, and flags where [true]. *)
Definition signature (c : N) : option (list bool) :=
  if N.eqb c 77 || N.eqb c 109 || N.eqb c 76 || N.eqb c 108 then Some [false; false]       (* M m L l *)
  else if N.eqb c 72 || N.eqb c 104 || N.eqb c 86 || N.eqb c 118 then Some [false]         (* H h V v *)
  else if N.eqb c 67 || N.eqb c 99 then Some (repeat false 6)                              (* C c *)
  else if N.eqb c 83 || N.eqb c 115 then Some (repeat false 4)                             (* S s *)
  else if N.eqb c 65 || N.eqb c 97 then Some [false; false; false; true; true; false; false] (* A a *)
  else if N.eqb c 90 || N.eqb c 122 then Some []                                           (* Z z *)
  else None.

Fixpoint arguments (sig : list bool) (s : jstr) : option (list Z * jstr) :=
  match sig with
  | [] => Some ([], s)
  | f :: sig =>
      match (if f then arc_flag else number) (skip s) with
      | Some (z, r) => match arguments sig r with Some (zs, r') => Some (z :: zs, r') | None => None end
      | None => None
      end
  end.

(** A command's arguments may come again without its letter: lines after a move. *)
Definition again (c : N) : N := if N.eqb c 77 then 76%N else if N.eqb c 109 then 108%N else c.

Definition Command : Type := N * list Z.

Fixpoint commands (fuel : nat) (last : option N) (s : jstr) : option (list Command) :=
  match fuel with
  | O => None
  | S fuel =>
      match skip s with
      | [] => Some []
      | c :: s' =>
          let read k sig r :=
            match arguments sig r with
            | Some (zs, r') => match commands fuel (match sig with [] => None | _ => Some (again k) end) r' with
                               | Some l => Some ((k, zs) :: l)
                               | None => None
                               end
            | None => None
            end in
          match signature c with
          | Some sig => read c sig s'
          | None => match last with
                    | Some k => match signature k with Some sig => read k sig (c :: s') | None => None end
                    | None => None
                    end
          end
      end
  end.

(** Each round reads at least one character. *)
Definition read_path (d : jstr) : option (list Command) := commands (S (length d)) None d.

(** ** The segments a path draws *)

Definition Pt : Type := Z * Z.

Inductive Seg :=
  | Line (p q : Pt)
  | Cubic (p a b q : Pt)
  | Arc (p : Pt) (r : Z) (large sweep : bool) (q : Pt)
  (** the quarter of a circle on one side of its center, horizontally and vertically *)
  | Quarter (c : Pt) (r : Z) (east below : bool).

(** The pen: where it is, where the subpath started, the control point of the curve that
    ends here. *)
Record Pen := { at_ : Pt; start : Pt; control : option Pt }.

Definition add (p : Pt) (x y : Z) : Pt := (p.1 + x, p.2 + y)%Z.
Definition go (pen : Pen) (q : Pt) (c : option Pt) : Pen :=
  {| at_ := q; start := start pen; control := c |}.
Definition reflected (pen : Pen) : Pt :=
  match control pen with
  | Some c => (2 * (at_ pen).1 - c.1, 2 * (at_ pen).2 - c.2)%Z
  | None => at_ pen
  end.

(** Whether a command is written in lower case: relative to the pen. *)
Definition relative (c : N) : bool := (97 <=? c)%N.

Definition draw (pen : Pen) (cmd : Command) : option (Pen * list Seg) :=
  let p := at_ pen in
  let o := if relative cmd.1 then p else (0, 0)%Z in
  let upper := if relative cmd.1 then (cmd.1 - 32)%N else cmd.1 in
  let line q := Some (go pen q None, [Line p q]) in
  match upper, cmd.2 with
  | 77%N, [x; y] => let q := add o x y in Some ({| at_ := q; start := q; control := None |}, [])
  | 76%N, [x; y] => line (add o x y)
  | 72%N, [x] => line (o.1 + x, p.2)%Z
  | 86%N, [y] => line (p.1, o.2 + y)%Z
  | 67%N, [x1; y1; x2; y2; x; y] =>
      let b := add o x2 y2 in let q := add o x y in
      Some (go pen q (Some b), [Cubic p (add o x1 y1) b q])
  | 83%N, [x2; y2; x; y] =>
      let b := add o x2 y2 in let q := add o x y in
      Some (go pen q (Some b), [Cubic p (reflected pen) b q])
  | 65%N, [rx; ry; _; large; sweep; x; y] =>
      let q := add o x y in
      if negb (Z.eqb rx ry) then None
      else Some (go pen q None,
             if Z.eqb rx 0 then [Line p q]
             else [Arc p (Z.abs rx) (Z.eqb large 1) (Z.eqb sweep 1) q])
  | 90%N, [] => Some ({| at_ := start pen; start := start pen; control := None |}, [Line p (start pen)])
  | _, _ => None
  end.

Fixpoint draw_all (pen : Pen) (l : list Command) : option (list Seg) :=
  match l with
  | [] => Some []
  | c :: l => match draw pen c with
              | Some (pen', s) => match draw_all pen' l with Some s' => Some (s ++ s') | None => None end
              | None => None
              end
  end.

(** Path data starts with a move. *)
Definition path_segments (d : jstr) : option (list Seg) :=
  match read_path d with
  | Some ((77%N, [x; y]) :: l) =>
      draw_all {| at_ := (x, y); start := (x, y); control := None |} l
  | Some ((109%N, [x; y]) :: l) =>
      draw_all {| at_ := (x, y); start := (x, y); control := None |} l
  | _ => None
  end.

(** ** Drawings *)

Inductive Paint := NoPaint | Ink (color : jstr).

Inductive Shape :=
  | Path (d : jstr)
  | Rect (x y w h rx : Z)
  | Circle (cx cy r : Z).

Record Element := { shape : Shape; fill : Paint; stroke : Paint; strokeWidth : Z }.

(** An [svg] element: its view box is a square from the origin; [round] says that its
    lines have round ends and joins. *)
Record Svg := { viewBox : Z; elements : list Element; round : bool }.

(** The outline of a shape; a rounded rectangle is four sides and four quarter circles. *)
Definition outline (s : Shape) : option (list Seg) :=
  match s with
  | Path d => path_segments d
  | Rect x y w h rx =>
      (let x' := x + w in let y' := y + h in
       Some [Line (x + rx, y) (x' - rx, y); Line (x', y + rx) (x', y' - rx);
             Line (x' - rx, y') (x + rx, y'); Line (x, y' - rx) (x, y + rx);
             Quarter (x' - rx, y + rx) rx true false; Quarter (x' - rx, y' - rx) rx true true;
             Quarter (x + rx, y' - rx) rx false true; Quarter (x + rx, y + rx) rx false false])%Z
  | Circle cx cy r =>
      Some [Quarter (cx, cy) r true false; Quarter (cx, cy) r true true;
            Quarter (cx, cy) r false true; Quarter (cx, cy) r false false]
  end.

(** *** The glyphs of the registries *)

Definition X_PATH : jstr :=
  "M18.244 2.25h3.308l-7.227 8.26 8.502 11.24H16.17l-5.214-6.817L4.99 21.75H1.68l7.73-8.835L1.254 2.25H8.08l4.713 6.231 5.45-6.231Zm-1.161 17.52h1.833L7.084 4.126H5.117l11.966 15.644Z".
Definition TELEGRAM_PATH : jstr :=
  "M21.94 4.66a1 1 0 0 0-1.06-.14L2.6 11.84c-.84.33-.82 1.53.03 1.84l4.34 1.57 1.7 5.16c.2.6.95.78 1.4.33l2.4-2.36 4.5 3.31c.5.37 1.22.1 1.36-.51L23 5.7a1 1 0 0 0-1.06-1.04ZM9.4 14.2l-.27 4.06-1.3-3.95 9.2-6.66-7.63 6.55Z".
Definition FACEBOOK_PATH : jstr :=
  "M24 12.07C24 5.4 18.63 0 12 0S0 5.4 0 12.07c0 6.03 4.39 11.03 10.13 11.93v-8.44H7.08v-3.49h3.05V9.41c0-3.02 1.79-4.69 4.53-4.69 1.31 0 2.68.24 2.68.24v2.97h-1.51c-1.49 0-1.96.93-1.96 1.89v2.25h3.33l-.53 3.49h-2.8V24C19.61 23.1 24 18.1 24 12.07z".
Definition TIKTOK_PATH : jstr :=
  "M19.59 6.69a4.83 4.83 0 0 1-3.77-4.25V2h-3.45v13.67a2.89 2.89 0 0 1-5.2 1.74 2.89 2.89 0 0 1 2.31-4.64 2.93 2.93 0 0 1 .88.13V9.4a6.84 6.84 0 0 0-1-.05A6.33 6.33 0 0 0 5 20.1a6.34 6.34 0 0 0 10.86-4.43v-7a8.16 8.16 0 0 0 4.77 1.52v-3.4a4.85 4.85 0 0 1-1-.1z".

Definition filled (s : Shape) (c : jstr) : Element :=
  {| shape := s; fill := Ink c; stroke := NoPaint; strokeWidth := 1000 |}.
Definition stroked (s : Shape) (c : jstr) : Element :=
  {| shape := s; fill := NoPaint; stroke := Ink c; strokeWidth := 2000 |}.
Definition glyph (d color : jstr) : Svg :=
  {| viewBox := 24000; elements := [filled (Path d) color]; round := false |}.

(** Web: the ink is the text's color. *)
Module Web.
Definition XGlyph : Svg := glyph X_PATH "currentColor".
Definition TelegramGlyph : Svg := glyph TELEGRAM_PATH "currentColor".
Definition FacebookGlyph : Svg := glyph FACEBOOK_PATH "currentColor".
Definition TikTokGlyph : Svg := glyph TIKTOK_PATH "currentColor".
Definition InstagramGlyph : Svg :=
  {| viewBox := 24000;
     elements := [stroked (Rect 2000 2000 20000 20000 5000) "currentColor";
                  stroked (Circle 12000 12000 4200) "currentColor";
                  filled (Circle 17400 6600 1100) "currentColor"];
     round := true |}.

(** [Radio] is a component of the package lucide-react. *)
Definition icon (radio : Svg) (i : Icon) : Svg :=
  match i with
  | Platforms.XGlyph => XGlyph
  | Platforms.InstagramGlyph => InstagramGlyph
  | Platforms.FacebookGlyph => FacebookGlyph
  | Platforms.TelegramGlyph => TelegramGlyph
  | Platforms.TikTokGlyph => TikTokGlyph
  | Radio => radio
  end.

(** [Logo]: the colors are custom properties of the style sheet, or white. *)
Inductive Tone := accent | onAccent.
Definition Logo (tone : Tone) : Svg :=
  let faceA : jstr := match tone with onAccent => "#ffffff" | accent => "var(--accent)" end in
  let faceB : jstr := match tone with onAccent => "rgba(255,255,255,0.78)" | accent => "var(--accent-soft)" end in
  {| viewBox := 100000;
     elements := [filled (Path "M93 8 L7 46 L40 60 Z") faceA; filled (Path "M93 8 L40 60 L52 93 Z") faceB];
     round := false |}.
End Web.

Module Mobile.
Section Glyphs.
(** The prop [color], [currentColor] by default. *)
Variable color : jstr.
Definition XGlyph : Svg := glyph X_PATH color.
Definition TelegramGlyph : Svg := glyph TELEGRAM_PATH color.
Definition FacebookGlyph : Svg := glyph FACEBOOK_PATH color.
Definition TikTokGlyph : Svg := glyph TIKTOK_PATH color.
Definition InstagramGlyph : Svg :=
  {| viewBox := 24000;
     elements := [stroked (Rect 2000 2000 20000 20000 5000) color;
                  stroked (Circle 12000 12000 4200) color;
                  filled (Circle 17400 6600 1100) color];
     round := false |}.

Definition icon (radio : Svg) (i : Icon) : Svg :=
  match i with
  | Platforms.XGlyph => XGlyph
  | Platforms.InstagramGlyph => InstagramGlyph
  | Platforms.FacebookGlyph => FacebookGlyph
  | Platforms.TelegramGlyph => TelegramGlyph
  | Platforms.TikTokGlyph => TikTokGlyph
  | Radio => radio
  end.
End Glyphs.

Definition FACE_A : jstr := "M93 8 L7 46 L40 60 Z".
Definition FACE_B : jstr := "M93 8 L40 60 L52 93 Z".

(** [Logo]: the badge is a rounded square under the plane, with a gradient; its corners
    are [size * 0.225] whatever the size, that is 22.5 units of the view box. *)
Inductive Variant := badge | glyph_.
Definition Logo (palette : Design.Palette) (variant : Variant) : Svg :=
  {| viewBox := 100000;
     elements := match variant with
       | glyph_ => [filled (Path FACE_B) (Design.accentSoft palette); filled (Path FACE_A) (Design.accent palette)]
       | badge => [filled (Rect 0 0 100000 100000 22500) "url(#postalBg)";
                   filled (Path "M76.4 26 L23.6 49.4 L43 57.8 Z") "#ffffff";
                   filled (Path "M76.4 26 L43 57.8 L50.4 78.2 Z") "#ffffff"]
       end;
     round := false |}.
End Mobile.

(** ** The points of a drawing *)

Section Plane.
Local Open Scope R_scope.

Definition RPt : Type := R * R.
Definition real (p : Pt) : RPt := (IZR p.1, IZR p.2).

Definition dist2 (p q : RPt) : R := (p.1 - q.1) * (p.1 - q.1) + (p.2 - q.2) * (p.2 - q.2).
(** Positive when the turn from [p] to [q] around [c] is clockwise on the screen, whose
    vertical axis points down. *)
Definition turn (c p q : RPt) : R :=
  (p.1 - c.1) * (q.2 - c.2) - (p.2 - c.2) * (q.1 - c.1).

Definition mix4 (t p a b q : R) : R :=
  (1 - t) * (1 - t) * (1 - t) * p + 3 * (1 - t) * (1 - t) * t * a
  + 3 * (1 - t) * t * t * b + t * t * t * q.

(** A circle through both ends, of the given radius, or of half their distance when that
    is longer. *)
Definition circle_of (r : R) (p q c : RPt) (rho : R) : Prop :=
  dist2 p c = rho * rho /\ dist2 q c = rho * rho
  /\ (dist2 p q <= 4 * (r * r) -> rho = r) /\ (4 * (r * r) < dist2 p q -> 4 * (rho * rho) = dist2 p q).

(** The smaller of the arcs from [p] to [q] that turn this way, or the larger. *)
Definition on_arc (large : bool) (s : R) (c p q x : RPt) : Prop :=
  if large then s * turn c p q <= 0 /\ (0 <= s * turn c p x \/ 0 <= s * turn c x q)
  else 0 <= s * turn c p q /\ 0 <= s * turn c p x /\ 0 <= s * turn c x q.

Definition drawn (g : Seg) (x : RPt) : Prop :=
  match g with
  | Line p q => exists t, 0 <= t <= 1 /\ x.1 = (1 - t) * IZR p.1 + t * IZR q.1 /\ x.2 = (1 - t) * IZR p.2 + t * IZR q.2
  | Cubic p a b q => exists t, 0 <= t <= 1
      /\ x.1 = mix4 t (IZR p.1) (IZR a.1) (IZR b.1) (IZR q.1) /\ x.2 = mix4 t (IZR p.2) (IZR a.2) (IZR b.2) (IZR q.2)
  | Arc p r large sweep q => real p <> real q /\ exists c rho,
      circle_of (IZR r) (real p) (real q) c rho /\ dist2 x c = rho * rho
      /\ on_arc large (if sweep then 1 else -1) c (real p) (real q) x
  | Quarter c r east below => dist2 x (real c) = IZR r * IZR r
      /\ 0 <= (if east then 1 else -1) * (x.1 - IZR c.1) /\ 0 <= (if below then 1 else -1) * (x.2 - IZR c.2)
  end.

Definition on_outline (s : Shape) (x : RPt) : Prop :=
  exists l, outline s = Some l /\ Exists (fun g => drawn g x) l.

(** A point is inside of a shape only if no straight way out of it avoids the outline. *)
Definition enclosed (s : Shape) (x : RPt) : Prop :=
  forall u v, (u, v) <> (0, 0) -> exists t, 0 <= t /\ on_outline s (x.1 + t * u, x.2 + t * v).

Definition inked (p : Paint) : Prop := p <> NoPaint.

(** Where an element may leave paint. *)
Definition painted_by (e : Element) (x : RPt) : Prop :=
  (inked (fill e) /\ (on_outline (shape e) x \/ enclosed (shape e) x))
  \/ (inked (stroke e) /\ exists y, on_outline (shape e) y /\ 4 * dist2 x y <= IZR (strokeWidth e) * IZR (strokeWidth e)).

Definition painted (g : Svg) (x : RPt) : Prop := Exists (fun e => painted_by e x) (elements g).

Definition within (lo hi : R) (x : RPt) : Prop := lo <= x.1 <= hi /\ lo <= x.2 <= hi.
Definition in_view (g : Svg) (x : RPt) : Prop := within 0 (IZR (viewBox g)) x.
End Plane.

(** Distributes the injection of the integers. *)
Ltac push_IZR :=
  repeat match goal with
  | H : context [IZR (_ * _)%Z] |- _ => rewrite mult_IZR in H
  | H : context [IZR (_ - _)%Z] |- _ => rewrite minus_IZR in H
  | H : context [IZR (_ + _)%Z] |- _ => rewrite plus_IZR in H
  | |- context [IZR (_ * _)%Z] => rewrite mult_IZR
  | |- context [IZR (_ - _)%Z] => rewrite minus_IZR
  | |- context [IZR (_ + _)%Z] => rewrite plus_IZR
  end.

(** ** Deciding the bounds *)

Section Check.
Local Open Scope Z_scope.

Definition between (lo hi z : Z) : bool := (lo <=? z) && (z <=? hi).
Definition pt_fits (lo hi : Z) (p : Pt) : bool := between lo hi p.1 && between lo hi p.2.

(** A disk, given by twice its center and the square of its diameter. *)
Definition disk_fits (lo hi : Z) (c2 d2 : Z) : bool :=
  (0 <=? c2 - 2 * lo) && (d2 <=? (c2 - 2 * lo) * (c2 - 2 * lo))
  && (0 <=? 2 * hi - c2) && (d2 <=? (2 * hi - c2) * (2 * hi - c2)).

Definition seg_fits (lo hi : Z) (g : Seg) : bool :=
  match g with
  | Line p q => pt_fits lo hi p && pt_fits lo hi q
  | Cubic p a b q => pt_fits lo hi p && pt_fits lo hi a && pt_fits lo hi b && pt_fits lo hi q
  | Arc p _ large _ q =>
      let d2 := (p.1 - q.1) * (p.1 - q.1) + (p.2 - q.2) * (p.2 - q.2) in
      negb large && disk_fits lo hi (p.1 + q.1) d2 && disk_fits lo hi (p.2 + q.2) d2
  | Quarter c r _ _ => (0 <=? r) && between lo hi (c.1 - r) && between lo hi (c.1 + r)
                       && between lo hi (c.2 - r) && between lo hi (c.2 + r)
  end.

Definition outline_fits (lo hi : Z) (s : Shape) : bool :=
  match outline s with Some l => forallb (seg_fits lo hi) l | None => false end.

(** The paint of a stroke goes half its width beyond the outline. *)
Definition overhang (e : Element) : Z :=
  match stroke e with Ink _ => (strokeWidth e + 1) / 2 | NoPaint => 0 end.
Definition element_fits (side : Z) (e : Element) : bool :=
  (0 <=? strokeWidth e) && outline_fits (overhang e) (side - overhang e) (shape e).

Definition svg_fits (g : Svg) : bool := forallb (element_fits (viewBox g)) (elements g).
End Check.

(** ** Bounds *)

Section Bounds.
Local Open Scope R_scope.

Lemma mix2_bound lo hi t p q : 0 <= t <= 1 -> lo <= p <= hi -> lo <= q <= hi -> lo <= (1 - t) * p + t * q <= hi.
Proof. intros. split; nra. Qed.

Lemma mix4_bound lo hi t p a b q :
  0 <= t <= 1 -> lo <= p <= hi -> lo <= a <= hi -> lo <= b <= hi -> lo <= q <= hi -> lo <= mix4 t p a b q <= hi.
Proof.
  intros Ht Hp Ha Hb Hq. unfold mix4.
  assert (H0 : 0 <= (1 - t) * (1 - t) * (1 - t)) by (apply Rmult_le_pos; nra).
  assert (H1 : 0 <= 3 * (1 - t) * (1 - t) * t) by (apply Rmult_le_pos; nra).
  assert (H2 : 0 <= 3 * (1 - t) * t * t) by (apply Rmult_le_pos; nra).
  assert (H3 : 0 <= t * t * t) by (apply Rmult_le_pos; nra).
  assert (E : (1 - t) * (1 - t) * (1 - t) + 3 * (1 - t) * (1 - t) * t + 3 * (1 - t) * t * t + t * t * t = 1) by ring.
  revert H0 H1 H2 H3 E.
  generalize ((1 - t) * (1 - t) * (1 - t)) (3 * (1 - t) * (1 - t) * t) (3 * (1 - t) * t * t) (t * t * t).
  intros w0 w1 w2 w3 H0 H1 H2 H3 E. split; nra.
Qed.

(** *** The smaller arc lies in the disk on its chord *)

Lemma square_nonneg (x : R) : 0 <= x * x.
Proof. apply Rle_0_sqr. Qed.

(** In vectors from the center: [x] is between [a] and [b], all of the same length. *)
Lemma between_dot ax ay bx by_ xx xy k :
  ax * ax + ay * ay = k -> bx * bx + by_ * by_ = k -> xx * xx + xy * xy = k ->
  0 <= ax * by_ - ay * bx -> 0 <= ax * xy - ay * xx -> 0 <= xx * by_ - xy * bx ->
  (ax <> bx \/ ay <> by_) ->
  k + (ax * bx + ay * by_) <= xx * (ax + bx) + xy * (ay + by_).
Proof.
  intros Ha Hb Hx HD HU HV Hne.
  set (d := ax * bx + ay * by_).
  pose proof (square_nonneg (ax + bx)) as S1. pose proof (square_nonneg (ay + by_)) as S2.
  pose proof (square_nonneg (ax - bx)) as S3. pose proof (square_nonneg (ay - by_)) as S4.
  assert (Hd : d <= k) by (unfold d; lra). assert (Hd' : - k <= d) by (unfold d; lra).
  assert (Ha2 : ay * ay = k - ax * ax) by lra. assert (Hb2 : by_ * by_ = k - bx * bx) by lra.
  remember (ax * by_ - ay * bx) as D eqn:ED. remember (ax * xy - ay * xx) as U eqn:EU.
  remember (xx * by_ - xy * bx) as V eqn:EV.
  assert (Ex : D * xx = V * ax + U * bx) by (subst; ring).
  assert (Ey : D * xy = V * ay + U * by_) by (subst; ring).
  assert (Hlag : D * D + d * d = k * k) by (rewrite <- Ha at 1; rewrite <- Hb; subst D; unfold d; ring).
  assert (Hdot : D * (xx * (ax + bx) + xy * (ay + by_)) = (U + V) * (k + d)).
  { transitivity ((D * xx) * (ax + bx) + (D * xy) * (ay + by_)); [ring|]. rewrite Ex, Ey.
    transitivity (V * (ax * ax + ay * ay) + U * (bx * bx + by_ * by_) + (U + V) * d); [unfold d; ring|].
    rewrite Ha, Hb. ring. }
  assert (Hnorm : D * D * k = (U + V) * (U + V) * k - 2 * (U * V) * (k - d)).
  { transitivity ((D * xx) * (D * xx) + (D * xy) * (D * xy)); [rewrite <- Hx; ring|]. rewrite Ex, Ey.
    transitivity (V * V * (ax * ax + ay * ay) + U * U * (bx * bx + by_ * by_) + 2 * (U * V) * d); [unfold d; ring|].
    rewrite Ha, Hb. ring. }
  destruct (Rle_lt_or_eq_dec 0 D HD) as [HD'|HD0].
  - assert (Hk : 0 < k) by nra.
    assert (HUV : 0 <= U * V) by (by apply Rmult_le_pos).
    assert (HDUV : D <= U + V). { apply Rnot_lt_le. intros Hlt. assert (D * D > (U + V) * (U + V)) by nra. nra. }
    apply (Rmult_le_reg_l D); [done|]. rewrite Hdot. apply Rmult_le_compat_r; lra.
  - assert (Hdk : (k - d) * (k + d) = 0) by (rewrite <- HD0 in Hlag; lra).
    apply Rmult_integral in Hdk as [Hdk|Hdk].
    + exfalso. destruct Hne as [Hne|Hne]; apply Hne; apply Rminus_diag_uniq, Rsqr_0_uniq; unfold Rsqr, d in *; lra.
    + assert (ax + bx = 0) by (apply Rsqr_0_uniq; unfold Rsqr, d in *; lra).
      assert (ay + by_ = 0) by (apply Rsqr_0_uniq; unfold Rsqr, d in *; lra).
      replace (ax + bx) with 0 by lra. replace (ay + by_) with 0 by lra. lra.
Qed.

(** The square of twice the distance from the middle of the chord. *)
Definition chord2 (p q x : RPt) : R :=
  (2 * x.1 - p.1 - q.1) * (2 * x.1 - p.1 - q.1) + (2 * x.2 - p.2 - q.2) * (2 * x.2 - p.2 - q.2).

Lemma arc_disk s c p q x k :
  s * s = 1 -> dist2 p c = k -> dist2 q c = k -> dist2 x c = k -> p <> q ->
  on_arc false s c p q x -> chord2 p q x <= dist2 p q.
Proof.
  destruct c as [cx cy], p as [px py], q as [qx qy], x as [xx xy].
  unfold dist2, on_arc, turn, chord2. cbn [fst snd]. intros Hs Hp Hq Hx Hne (H1 & H2 & H3).
  assert (Hmirror : (px - cx <> qx - cx \/ py - cy <> qy - cy)).
  { destruct (Req_dec px qx) as [->|E]; [|left; lra]. right. intros E. apply Hne. f_equal. lra. }
  assert (Hs' : s = 1 \/ s = -1).
  { assert ((s - 1) * (s + 1) = 0) as [E|E]%Rmult_integral by lra; [left|right]; lra. }
  destruct Hs' as [-> | ->].
  - pose proof (between_dot (px - cx) (py - cy) (qx - cx) (qy - cy) (xx - cx) (xy - cy) k Hp Hq Hx
      ltac:(lra) ltac:(lra) ltac:(lra) Hmirror). nra.
  - pose proof (between_dot (qx - cx) (qy - cy) (px - cx) (py - cy) (xx - cx) (xy - cy) k Hq Hp Hx
      ltac:(lra) ltac:(lra) ltac:(lra) ltac:(destruct Hmirror; [left|right]; congruence)). nra.
Qed.

Lemma between_IZR lo hi z : between lo hi z = true -> IZR lo <= IZR z <= IZR hi.
Proof. unfold between. intros [H1%Z.leb_le H2%Z.leb_le]%andb_true_iff. split; by apply IZR_le. Qed.

Lemma pt_fits_IZR lo hi p : pt_fits lo hi p = true ->
  IZR lo <= IZR p.1 <= IZR hi /\ IZR lo <= IZR p.2 <= IZR hi.
Proof. unfold pt_fits. intros [H1 H2]%andb_true_iff. split; by apply between_IZR. Qed.

Lemma square_le_sides a d2 m : 0 <= m -> a * a <= d2 -> d2 <= m * m -> a <= m.
Proof. intros Hm Ha Hd. apply Rnot_lt_le. intros Hlt. nra. Qed.

(** A coordinate of a point of the disk. *)
Lemma disk_fits_IZR lo hi c2 d2 x :
  disk_fits lo hi c2 d2 = true -> (2 * x - IZR c2) * (2 * x - IZR c2) <= IZR d2 -> IZR lo <= x <= IZR hi.
Proof.
  unfold disk_fits.
  intros [[[H1%Z.leb_le H2%Z.leb_le]%andb_true_iff H3%Z.leb_le]%andb_true_iff H4%Z.leb_le]%andb_true_iff Hx.
  apply IZR_le in H1, H2, H3, H4. push_IZR.
  assert (- (2 * x - IZR c2) <= IZR c2 - 2 * IZR lo) by (apply (square_le_sides _ (IZR d2)); lra).
  assert (2 * x - IZR c2 <= 2 * IZR hi - IZR c2) by (apply (square_le_sides _ (IZR d2)); lra).
  lra.
Qed.

Lemma square_le_abs a r : 0 <= r -> a * a <= r * r -> - r <= a <= r.
Proof. intros Hr Ha. split; apply Rnot_lt_le; intros Hlt; nra. Qed.

Lemma seg_fits_drawn lo hi g x : seg_fits lo hi g = true -> drawn g x -> within (IZR lo) (IZR hi) x.
Proof.
  destruct g as [p q|p a b q|p r large sweep q|c r east below]; cbn [seg_fits drawn].
  - intros [[Hp1 Hp2]%pt_fits_IZR [Hq1 Hq2]%pt_fits_IZR]%andb_true_iff (t & Ht & H1 & H2).
    unfold within. rewrite H1, H2. split; by apply mix2_bound.
  - intros [[[[Hp1 Hp2]%pt_fits_IZR [Ha1 Ha2]%pt_fits_IZR]%andb_true_iff [Hb1 Hb2]%pt_fits_IZR]%andb_true_iff
      [Hq1 Hq2]%pt_fits_IZR]%andb_true_iff (t & Ht & H1 & H2).
    unfold within. rewrite H1, H2. split; by apply mix4_bound.
  - intros [[Hl%negb_true_iff H1]%andb_true_iff H2]%andb_true_iff (Hne & c & rho & (Hp & Hq & _) & Hx & Hon).
    subst large. eapply arc_disk in Hon; [|by destruct sweep; lra|done..].
    unfold chord2, dist2, real in Hon. cbn [fst snd] in Hon.
    pose proof (square_nonneg (2 * x.1 - IZR p.1 - IZR q.1)). pose proof (square_nonneg (2 * x.2 - IZR p.2 - IZR q.2)).
    split; [eapply disk_fits_IZR; [exact H1|]|eapply disk_fits_IZR; [exact H2|]]; push_IZR; lra.
  - intros [[[[Hr%Z.leb_le H1%between_IZR]%andb_true_iff H2%between_IZR]%andb_true_iff
      H3%between_IZR]%andb_true_iff H4%between_IZR]%andb_true_iff (Hd & _ & _).
    apply IZR_le in Hr. push_IZR. unfold dist2, real in Hd. cbn [fst snd] in Hd.
    pose proof (square_nonneg (x.1 - IZR c.1)). pose proof (square_nonneg (x.2 - IZR c.2)).
    assert (- IZR r <= x.1 - IZR c.1 <= IZR r) by (apply square_le_abs; lra).
    assert (- IZR r <= x.2 - IZR c.2 <= IZR r) by (apply square_le_abs; lra).
    split; lra.
Qed.

Lemma outline_fits_on lo hi s x : outline_fits lo hi s = true -> on_outline s x -> within (IZR lo) (IZR hi) x.
Proof.
  unfold outline_fits. intros H (l & Hl & Hx). rewrite Hl in H.
  apply Exists_exists in Hx as (g & Hg & Hx). rewrite forallb_forall in H.
  eapply seg_fits_drawn; [|exact Hx]. apply H, list_elem_of_In, Hg.
Qed.

(** A point outside of the box has a way out that does not meet it. *)
Lemma outline_fits_enclosed lo hi s x : outline_fits lo hi s = true -> enclosed s x -> within (IZR lo) (IZR hi) x.
Proof.
  intros H He.
  assert (Hway : forall u v, (u, v) <> (0, 0) ->
    exists t, 0 <= t /\ within (IZR lo) (IZR hi) (x.1 + t * u, x.2 + t * v)).
  { intros u v Huv. destruct (He u v Huv) as (t & Ht & Hon). exists t. split; [done|]. by eapply outline_fits_on. }
  assert (Hne : (1, 0) <> (0, 0) /\ (-1, 0) <> (0, 0) /\ (0, 1) <> (0, 0) /\ (0, -1) <> (0, 0))
    by (split_and!; intros [=]; lra).
  destruct Hne as (N1 & N2 & N3 & N4).
  destruct (Hway _ _ N1) as (t1 & H1 & [A1 _]), (Hway _ _ N2) as (t2 & H2 & [A2 _]).
  destruct (Hway _ _ N3) as (t3 & H3 & [_ A3]), (Hway _ _ N4) as (t4 & H4 & [_ A4]).
  cbn [fst snd] in *. split; lra.
Qed.

Lemma element_fits_painted side e x :
  element_fits side e = true -> painted_by e x -> within 0 (IZR side) x.
Proof.
  unfold element_fits. intros [Hw%Z.leb_le H]%andb_true_iff Hx.
  assert (Ho : (0 <= overhang e)%Z).
  { unfold overhang. destruct (stroke e); [lia|]. apply Z.div_pos; lia. }
  apply IZR_le in Ho.
  assert (Hin : forall y, within (IZR (overhang e)) (IZR (side - overhang e)) y -> within 0 (IZR side) y).
  { intros y [Hy1 Hy2]. push_IZR. split; lra. }
  destruct Hx as [[_ [Hx|Hx]]|[Hs (y & Hy & Hd)]].
  - by apply Hin, (outline_fits_on _ _ _ _ H).
  - by apply Hin, (outline_fits_enclosed _ _ _ _ H).
  - apply (outline_fits_on _ _ _ _ H) in Hy as [Hy1 Hy2]. push_IZR.
    assert (Hwo : (strokeWidth e <= 2 * overhang e)%Z).
    { unfold overhang. destruct (stroke e); [by destruct Hs|].
      pose proof (Z.div_mod (strokeWidth e + 1) 2 ltac:(lia)). pose proof (Z.mod_pos_bound (strokeWidth e + 1) 2 ltac:(lia)). lia. }
    apply IZR_le in Hwo, Hw. push_IZR. unfold dist2 in Hd.
    pose proof (square_nonneg (x.1 - y.1)). pose proof (square_nonneg (x.2 - y.2)).
    assert (- IZR (strokeWidth e) <= 2 * (x.1 - y.1) <= IZR (strokeWidth e)) by (apply square_le_abs; lra).
    assert (- IZR (strokeWidth e) <= 2 * (x.2 - y.2) <= IZR (strokeWidth e)) by (apply square_le_abs; lra).
    split; lra.
Qed.

Lemma svg_fits_painted g x : svg_fits g = true -> painted g x -> in_view g x.
Proof.
  unfold svg_fits, painted. intros H (e & He & Hx)%Exists_exists. rewrite forallb_forall in H.
  eapply element_fits_painted; [|exact Hx]. apply H, list_elem_of_In, He.
Qed.
End Bounds.

(** ** The two applications *)

(** What is painted where does not depend on the color of the ink. *)
Definition same_marks (a b : Element) : Prop :=
  shape a = shape b /\ (inked (fill a) <-> inked (fill b)) /\ (inked (stroke a) <-> inked (stroke b))
  /\ strokeWidth a = strokeWidth b.

Lemma painted_same a b x : same_marks a b -> painted_by a x -> painted_by b x.
Proof. unfold painted_by. intros (-> & -> & -> & ->). done. Qed.

Lemma painted_same_all g h x :
  Forall2 same_marks (elements g) (elements h) -> painted g x -> painted h x.
Proof.
  unfold painted. induction 1 as [|a b l l' Hab _ IH]; [done|].
  intros [Hx|Hx]%Exists_cons; [left; by eapply painted_same|right; by apply IH].
Qed.

#[export] Instance same_marks_sym : Symmetric same_marks.
Proof. intros a b (H1 & H2 & H3 & H4). by split_and!. Qed.

Lemma painted_iff g h x : Forall2 same_marks (elements g) (elements h) -> painted g x <-> painted h x.
Proof. intros H. split; apply painted_same_all; [done|by symmetry]. Qed.

Lemma icon_same_marks radio radio' color i :
  i <> Radio -> Forall2 same_marks (elements (Web.icon radio i)) (elements (Mobile.icon color radio' i)).
Proof. intros Hi. destruct i; [..|done]; repeat constructor; unfold inked; cbn; congruence. Qed.

Lemma logo_marks palette tone x : painted (Web.Logo tone) x <-> painted (Mobile.Logo palette Mobile.glyph_) x.
Proof.
  unfold painted. cbn [elements Web.Logo Mobile.Logo]. rewrite !Exists_cons, Exists_nil.
  assert (H : forall s c c', painted_by (filled s c) x <-> painted_by (filled s c') x).
  { intros s c c'. split; apply painted_same; repeat constructor; unfold inked; cbn; congruence. }
  split; intros [Hx|[Hx|[]]]; [right; left|left|right; left|left]; revert Hx; apply H.
Qed.

(** The two registries give a known platform the same icon. *)
Lemma icon_fallback key :
  (Platforms.pi_icon (Platforms.Web.platformInfo key) <> Radio ->
     Platforms.pi_icon (Platforms.Mobile.platformInfo key) = Platforms.pi_icon (Platforms.Web.platformInfo key))
  /\ (Platforms.pi_icon (Platforms.Web.platformInfo key) = Radio ->
        Platforms.pi_icon (Platforms.Mobile.platformInfo key) = XGlyph).
Proof.
  unfold Platforms.Web.platformInfo, Platforms.Mobile.platformInfo, Platforms.Web.PLATFORMS, Platforms.Mobile.PLATFORMS.
  cbn [find_first Platforms.pi_key Platforms.telegram].
  repeat match goal with
  | |- context [jeq ?a key] => destruct (jeq a key); [by split|]
  end.
  split; [intros H; by destruct H|done].
Qed.

(** An element whose path is read, and draws something. *)
Definition drawable (e : Element) : Prop := exists g l, outline (shape e) = Some (g :: l).

(** ** Properties *)

(** C32: no mark is cut off: in both applications the path data of every icon of the
    registries and of every form of the logo is read to its end, each element draws
    something, and nothing is painted outside of the view box, the width of the strokes
    counted. *)
Theorem marks_in_view radio color palette tone variant g
  (H : (exists i, i <> Radio /\ (g = Web.icon radio i \/ g = Mobile.icon color radio i))
       \/ g = Web.Logo tone \/ g = Mobile.Logo palette variant) :
  Forall drawable (elements g) /\ forall x, painted g x -> in_view g x.
Proof.
  assert (Hok : Forall drawable (elements g) /\ svg_fits g = true).
  { destruct H as [([] & Hi & [-> | ->])|[-> | ->]]; try done;
      [..|destruct tone|destruct variant]; (split; [|vm_compute; reflexivity]);
      repeat constructor; eexists _, _; vm_compute; reflexivity. }
  destruct Hok as [Hd Hf]. split; [done|]. intros x. by apply svg_fits_painted.
Qed.

Lemma marks_in_view_witness :
  Forall drawable (elements Web.TikTokGlyph) /\ forall x, painted Web.TikTokGlyph x -> in_view Web.TikTokGlyph x.
Proof.
  apply (marks_in_view Web.XGlyph [] Design.light Web.accent Mobile.badge).
  left. exists TikTokGlyph. split; [discriminate|]. left. reflexivity.
Defined.


(** the plane of the badge is not the plane of the logo: no scaling and translation takes
    one to the other (its comment says that the icon, the splash and the login share one
    shape). *)
Theorem badge_plane_differs :
  path_segments Mobile.FACE_A = Some [Line (93000, 8000) (7000, 46000); Line (7000, 46000) (40000, 60000); Line (40000, 60000) (93000, 8000)]%Z
  /\ path_segments "M76.4 26 L23.6 49.4 L43 57.8 Z" = Some [Line (76400, 26000) (23600, 49400); Line (23600, 49400) (43000, 57800); Line (43000, 57800) (76400, 26000)]%Z
  /\ ~ exists k u : R, (k * 93000 + u = 76400 /\ k * 7000 + u = 23600 /\ k * 40000 + u = 43000)%R.
Proof. split; [vm_compute; reflexivity|]. split; [vm_compute; reflexivity|]. intros (k & u & H1 & H2 & H3). lra. Qed.
