(* ===== verification/Status.v ===== *)
(** * Statuses, icons and small stores

    What conveys a status, in both applications: a pill with a text and a tone (its color).
    docs/FRONTEND_PLAN.md (9.2) asks that a status is never a color alone.  The wrappers of
    the web's icons, hints and tooltips with what they announce to assistive technology;
    the theme and workspace stores of the mobile application, and the active workspace that
    both applications derive from theirs. *)
From S2P Require Import Prelude JsValue Ui Schema Design.
From S2P Require Confirm Access Calendar MobileTeam MobileScreens.

Local Open Scope js_scope.

#[export] Instance PillTone_eq_dec : EqDecision PillTone.
Proof. solve_decision. Defined.

(** ** Pills *)

(** A pill shows its text next to a dot, both in the color of its tone. *)
Record Pill := { tone : PillTone; children : jstr }.

Module Web.
(** ui/primitives/status-pill.tsx: the tone is [neutral] by default; the dot is hidden from
    assistive technology. *)
Definition StatusPill (t : option PillTone) (text : jstr) : Pill :=
  {| tone := match t with Some t => t | None => neutral end; children := text |}.

(** features/schedule/job-item.tsx *)
Definition JOB_TONE (s : JobStatus) : PillTone :=
  match s with
  | scheduled => tone_accent | publishing => tone_warning | published => tone_success
  | failed => tone_danger | canceled => neutral
  end.

(** features/channels/channel-card.tsx *)
Definition STATUS_TONE (s : ChannelStatus) : PillTone :=
  match s with ch_active => tone_success | ch_expired => tone_warning | ch_revoked => tone_danger end.

Definition job_pill (s : JobStatus) : Pill := StatusPill (Some (JOB_TONE s)) (Confirm.status_label s).
Definition channel_pill (s : ChannelStatus) : Pill := StatusPill (Some (STATUS_TONE s)) (Confirm.STATUS s).

(** The pill of the overview, features/dashboard/overview-widgets.tsx. *)
Definition overview_pill (s : ChannelStatus) (text : jstr) : Pill :=
  StatusPill (Some (match s with ch_active => tone_success | _ => tone_warning end)) text.

(** ui/primitives/icon.tsx: what assistive technology sees of an icon. *)
Record A11y := { aria_hidden : option bool; aria_label : option jstr; role : option jstr }.
Definition Icon (label : option jstr) : A11y :=
  {| aria_hidden := if is_set label then None else Some true;
     aria_label := label;
     role := if is_set label then Some ("img" : jstr) else None |}.

(** ui/primitives/tooltip.tsx: the trigger is the child itself; the content shows while the
    package opens it, on hover and focus. *)
Record Tip (A : Type) := { content : list (node A); trigger : list (node A); side : jstr }.
Arguments content {_} _. Arguments trigger {_} _. Arguments side {_} _.
Definition Tooltip {A} (content children : list (node A)) (side : option jstr) : Tip A :=
  {| content := content; trigger := children; side := match side with Some s => s | None => "top" end |}.

Definition shown {A} (open : bool) (t : Tip A) : list (node A) :=
  trigger t ++ when open [Box "tooltip" (content t)].

(** ui/primitives/hint.tsx: a button with a name, and nothing to do but to be focused. *)
Definition Hint (children : list (node unit)) (label : option jstr) : Tip unit :=
  Tooltip children
    [Btn (match label with Some l => l | None => "More information" end) true tt] None.
End Web.

Module Mobile.
(** features/schedule/job-status.ts *)
Definition JOB_TONE (s : JobStatus) : PillTone :=
  match s with
  | scheduled => tone_accent | publishing => tone_warning | published => tone_success
  | failed => tone_danger | canceled => neutral
  end.

(** app/(tabs)/channels.tsx *)
Definition STATUS (s : ChannelStatus) : Pill :=
  match s with
  | ch_active => {| children := "Active"; tone := tone_success |}
  | ch_expired => {| children := "Expired"; tone := tone_warning |}
  | ch_revoked => {| children := "Revoked"; tone := tone_danger |}
  end.

Definition job_pill (s : JobStatus) : Pill :=
  {| tone := JOB_TONE s; children := Confirm.status_label s |}.

(** app/(tabs)/more/members.tsx *)
Definition roleTone (role : jstr) : PillTone :=
  if role =ₛ "owner" then tone_accent else if role =ₛ "admin" then tone_success else neutral.
End Mobile.

(** ** Stores *)

(** mobile stores/theme.ts and stores/workspace.ts: kept in memory only. *)
Record ThemeState := { preference : MobileTeam.Settings.ThemePreference }.
Definition useThemeStore : ThemeState := {| preference := MobileTeam.Settings.system |}.
Definition setPreference (p : MobileTeam.Settings.ThemePreference) (_ : ThemeState) : ThemeState :=
  {| preference := p |}.

Record WorkspaceState := { activeId : option jstr }.
Definition useWorkspaceStore : WorkspaceState := {| activeId := None |}.
Definition setActive (id : jstr) (_ : WorkspaceState) : WorkspaceState := {| activeId := Some id |}.

(** [useActiveWorkspace()]: [data] is that of the query. *)
Record ActiveWorkspace := { workspaces : list Workspace; active : option Workspace; isLoading : bool }.

Definition web_useActiveWorkspace (data : option (list Workspace)) (loading : bool) (activeId : option jstr)
    : ActiveWorkspace :=
  let ws := match data with Some l => l | None => [] end in
  {| workspaces := ws; active := Access.activeWorkspace ws activeId; isLoading := loading |}.

Definition mobile_useActiveWorkspace (data : option (list Workspace)) (loading : bool) (s : WorkspaceState)
    : ActiveWorkspace :=
  let ws := match data with Some l => l | None => [] end in
  {| workspaces := ws; active := Access.activeWorkspace ws (activeId s); isLoading := loading |}.

(** ** Properties *)

(** a status is never a color alone: in both applications the texts of the pills tell the
    states of a job apart, and those of a channel, whatever their tones; and the two
    applications show the same pill for the same state. *)
Theorem status_in_words :
  (forall s s', children (Web.job_pill s) = children (Web.job_pill s') -> s = s')
  /\ (forall s s', children (Web.channel_pill s) = children (Web.channel_pill s') -> s = s')
  /\ (forall s, Mobile.job_pill s = Web.job_pill s)
  /\ (forall s, Mobile.STATUS s = Web.channel_pill s).
Proof. split_and!; [intros [] []; done|intros [] []; done|by intros []|by intros []]. Qed.

(** an icon is either hidden from assistive technology or an image with a name. *)
Theorem icon_announced label :
  (Web.aria_hidden (Web.Icon label) = Some true /\ Web.role (Web.Icon label) = None)
  \/ (Web.aria_hidden (Web.Icon label) = None /\ Web.role (Web.Icon label) = Some ("img" : jstr)
      /\ exists l, label = Some l /\ truthy l = true).
Proof.
  unfold Web.Icon, is_set. destruct label as [l|]; [|by left]. destruct (truthy l) eqn:E; [right|by left].
  split_and!; [done|done|by exists l].
Qed.

(** the active workspace is one of the list, the chosen one while it is there, and there is
    none only when the list is empty; the two applications agree. *)
Theorem active_workspace_listed data loading s :
  let r := mobile_useActiveWorkspace data loading s in
  r = web_useActiveWorkspace data loading (activeId s)
  /\ match active r with
     | Some w => w ∈ workspaces r
         /\ forall i w', activeId s = Some i -> w' ∈ workspaces r -> w_id w' = i -> w_id w = i
     | None => workspaces r = []
     end.
Proof.
  cbn. split; [done|]. set (ws := match data with Some l => l | None => [] end).
  unfold Access.activeWorkspace.
  destruct (find _ ws) as [w|] eqn:E.
  - apply find_some in E as [Hin Hw]. split; [by apply list_elem_of_In|]. intros i w' Hi _ _.
    rewrite Hi in Hw. by apply jeq_true in Hw.
  - destruct ws as [|w l] eqn:Ews; [done|]. split; [by left|]. intros i w' Hi Hin Hid. exfalso.
    apply list_elem_of_In in Hin. pose proof (find_none _ _ E _ Hin) as Hn. cbn in Hn.
    rewrite Hi, Hid in Hn. by rewrite jeq_refl in Hn.
Qed.
