(* ===== verification/Answers.v ===== *)
(** * The rest of the contract: error answers, files, and operations for machines

    Contract.v types the operations the typed client calls.  Here are the others of
    web/src/api/schema.d.ts (media files, the export, the probes, the webhooks) with the
    addresses the direct hooks build themselves (DirectWeb.v), and the one schema of every
    error answer, with what [normalizeError] makes of it. *)
From S2P Require Import Prelude JsValue ApiError Security Contract.
From S2P Require Async DirectWeb.

Local Open Scope js_scope.

(** ** Schemas and operations *)

Definition FieldError : ty := TObject [("field", opt TString); ("message", opt TString)].
Definition ErrorDetail : ty := TObject [("code", opt TString); ("message", opt TString);
  ("request_id", opt TString); ("fields", opt (TArray FieldError))].
(** The body of every answer that is not a success: 400, 401, 403, 404, 409, 429. *)
Definition Error : ty := TObject [("error", req ErrorDetail)].
Definition Readiness : ty := TObject [("status", opt (TUnion [TLit "ready"; TLit "not ready"]));
  ("checks", opt (TRecord TString))].
Definition AssetEnvelope : ty := TObject [("data", opt T.Asset)].

(** A request without parameters. *)
Definition plain (method path : jstr) (answer : ty) : Operation :=
  {| o_method := method; o_path := path; o_params := []; o_query := []; o_body := None; o_answer := answer |}.

Definition get_healthz : Operation := plain "GET" "/healthz" (TObject [("status", opt TString)]).
Definition get_readyz : Operation := plain "GET" "/readyz" Readiness.
Definition get_metrics : Operation := plain "GET" "/metrics" TString.
Definition get_ping : Operation := plain "GET" "/api/v1/ping" T.MessageEnvelope.
Definition post_webhooks_stripe : Operation := plain "POST" "/api/v1/billing/webhooks/stripe" TUndefined.
Definition post_webhooks_paystack : Operation := plain "POST" "/api/v1/billing/webhooks/paystack" TUndefined.

(** A file, as the text of a form's part. *)
Definition post_media : Operation := {| o_method := "POST";
  o_path := "/api/v1/workspaces/{workspaceID}/media/"; o_params := [("workspaceID", TString)];
  o_query := []; o_body := Some (req (TObject [("file", req TString)])); o_answer := AssetEnvelope |}.
Definition get_media_download : Operation := {| o_method := "GET";
  o_path := "/api/v1/workspaces/{workspaceID}/media/{mediaID}/download";
  o_params := [("workspaceID", TString); ("mediaID", TString)]; o_query := []; o_body := None;
  o_answer := TString |}.
Definition get_analytics_export : Operation := {| o_method := "GET";
  o_path := "/api/v1/workspaces/{workspaceID}/analytics/export.csv";
  o_params := [("workspaceID", TString)]; o_query := []; o_body := None; o_answer := TString |}.

Definition contract : list Operation :=
  operations ++ [get_healthz; get_readyz; get_metrics; get_ping; post_webhooks_stripe;
                 post_webhooks_paystack; post_media; get_media_download; get_analytics_export].

(** ** Addresses *)

(** The segments of a path; one in braces stands for any identifier. *)
Definition segments (s : jstr) : list jstr := split_on 47 s.

Definition matches_segment (pat s : jstr) : bool := startsWith pat "{" || (pat =ₛ s).

Fixpoint matches (pat s : list jstr) : bool :=
  match pat, s with
  | [], [] => true
  | p :: pat', x :: s' => matches_segment p x && matches pat' s'
  | _, _ => false
  end.

(** The operations an address belongs to. *)
Definition at_url (method url : jstr) : list Operation :=
  keep (fun o => (o_method o =ₛ method) && matches (segments (o_path o)) (segments url)) contract.

(** An identifier as the servers make them: no slash. *)
Definition identifier (s : jstr) : Prop := Forall (fun c => c <> 47%N) s.

(** ** Lemmas *)

Lemma contract_well_formed :
  NoDup (map (fun o => (o_method o, o_path o)) contract)
  /\ Forall (fun o => placeholders (o_path o) None = map fst (o_params o)) contract.
Proof.
  split; [|by repeat constructor]. apply (bool_decide_unpack _). vm_compute. exact I.
Qed.

Lemma segments_cons w s : identifier w -> segments (w ++ "/" ++ s) = w :: segments s.
Proof. intros H. apply (split_cons 47 w s H). Qed.

Lemma segments_word w : identifier w -> segments w = [w].
Proof. apply split_word. Qed.

Lemma segments_prefix s : segments ("/api/v1/workspaces/" ++ s)
  = ([] : jstr) :: ("api" : jstr) :: ("v1" : jstr) :: ("workspaces" : jstr) :: segments s.
Proof. done. Qed.

(** *** Members of a typed object *)

Lemma typed_prop fs v k o t : has_type (TObject fs) v = true -> field_of k fs = Some (o, t) ->
  exists w, get_prop v k = Some w /\ (o = true /\ w = JUndef \/ has_type t w = true).
Proof.
  intros H Hk. destruct (field_typed fs v k o t H Hk) as (w & Hw & Ht). exists w. split; [|done].
  unfold Query.req_prop in Hw. destruct (get_prop v k); congruence.
Qed.

(** What the reader of a field error finds: texts, or nothing where the contract allows it. *)
Definition text_or_nothing : ty := TUnion [TString; TUndefined].

Lemma optional_text w : true = true /\ w = JUndef \/ has_type TString w = true -> has_type text_or_nothing w = true.
Proof. intros [[_ ->]|H]; [done|]. by destruct w. Qed.

Lemma collect_typed l acc :
  Forall (fun f => has_type FieldError f = true) l ->
  (forall k v, acc !! k = Some v -> has_type text_or_nothing v = true) ->
  exists m, collect_fields l acc = Some m /\ forall k v, m !! k = Some v -> has_type text_or_nothing v = true.
Proof.
  intros Hl. revert acc. induction Hl as [|f l Hf _ IH]; intros acc Hacc; [by exists acc|]. cbn [collect_fields].
  destruct (typed_prop _ _ "field" true TString Hf eq_refl) as (k & -> & _).
  destruct (typed_prop _ _ "message" true TString Hf eq_refl) as (m & -> & Hm).
  apply IH. intros k' v. destruct (decide (k' = to_key k)) as [->|Hne].
  - rewrite lookup_insert_eq. intros [= <-]. by apply optional_text.
  - rewrite lookup_insert_ne by done. apply Hacc.
Qed.

Lemma forallb_Forall {A} (p : A -> bool) l : forallb p l = true -> Forall (fun x => p x = true) l.
Proof. intros H. apply Forall_forall. intros x Hx. by apply (proj1 (forallb_forall _ _) H), list_elem_of_In. Qed.

(** A value that [JSON.parse] can return: [undefined] is nowhere in it. *)
Fixpoint parsed (v : json) : bool :=
  match v with
  | JUndef => false
  | JArr l => forallb parsed l
  | JObj kv => forallb (fun p => parsed p.2) kv
  | _ => true
  end.

Lemma parsed_field k kv w : parsed (JObj kv) = true -> field k kv = Some w -> parsed w = true.
Proof.
  cbn [parsed]. induction kv as [|[k' v] kv IH]; [done|]. cbn [forallb field snd].
  intros [Hv Hkv]%andb_true_iff. destruct (field k kv) as [x|] eqn:E.
  - intros [= <-]. by apply IH.
  - destruct (k' =ₛ k); [|done]. by intros [= <-].
Qed.

Lemma parsed_text v : has_type text_or_nothing v = true -> parsed v = true -> has_type TString v = true.
Proof. by destruct v. Qed.

(** A property that is present has a text. *)
Lemma present_text fs kv k w : has_type (TObject fs) (JObj kv) = true -> field_of k fs = Some (true, TString) ->
  parsed (JObj kv) = true -> has_prop k (JObj kv) = true -> get_prop (JObj kv) k = Some w ->
  has_type TString w = true.
Proof.
  intros Ht Hk Hp Hh Hw. destruct (typed_prop _ _ _ _ _ Ht Hk) as (w' & Hw' & Hor).
  rewrite Hw' in Hw. injection Hw as ->. apply optional_text in Hor. apply parsed_text; [done|].
  cbn [has_prop get_prop] in *. destruct (field k kv) as [x|] eqn:E; [|done].
  injection Hw' as ->. by apply (parsed_field k kv).
Qed.

Lemma normalize_typed friendly status body :
  has_type Error body = true -> parsed body = true ->
  exists n, (normalize friendly status body).2 = NErr n
    /\ has_type TString (ne_code n) = true /\ has_type TString (ne_message n) = true
    /\ has_type text_or_nothing (ne_requestId n) = true /\ ne_status n = status
    /\ forall k v, ne_fieldErrors n !! k = Some v -> has_type text_or_nothing v = true.
Proof.
  intros Ht Hp. unfold normalize. destruct (isApiErrorBody body) eqn:E.
  2: { eexists. split; [reflexivity|]. cbn. split_and?; try done; intros k v; by rewrite lookup_empty. }
  apply isApiErrorBody_shape in E as (kv & err & c & m & -> & He & Hc & Hm).
  pose proof (parsed_field _ _ _ Hp He) as Hpe. cbn [get_prop]. rewrite He.
  destruct (typed_prop _ _ "error" false ErrorDetail Ht eq_refl) as (w & Hw & [[? _]|Hte]); [done|].
  cbn [get_prop] in Hw. rewrite He in Hw. injection Hw as <-.
  unfold normalize_envelope. cbn [get_prop]. rewrite Hc, Hm.
  destruct (typed_prop _ _ "request_id" true TString Hte eq_refl) as (rid & Hrid & Hridt).
  destruct (typed_prop _ _ "fields" true (TArray FieldError) Hte eq_refl) as (fs & Hfs & Hfst).
  cbn [get_prop] in Hrid, Hfs. injection Hrid as Hrid. injection Hfs as Hfs. rewrite Hrid, Hfs.
  assert (Hfe : exists mm, fieldErrors_of fs = Some mm
    /\ forall k v, mm !! k = Some v -> has_type text_or_nothing v = true).
  { unfold fieldErrors_of. destruct Hfst as [[_ ->]|Hl].
    - exists ∅. split; [done|]. intros k v. by rewrite lookup_empty.
    - destruct fs; try done. cbn [iterate]. apply collect_typed; [by apply forallb_Forall|].
      intros k v. by rewrite lookup_empty. }
  destruct Hfe as (mm & -> & Hmm). eexists. split; [reflexivity|]. cbn.
  assert (Htext : forall k x, field_of k [("code" : jstr, opt TString); ("message", opt TString);
      ("request_id", opt TString); ("fields", opt (TArray FieldError))] = Some (true, TString) ->
      field k err = Some x -> has_type TString x = true).
  { intros k x Hk Hx. apply (present_text _ err k x Hte Hk Hpe); cbn [has_prop get_prop]; by rewrite Hx. }
  split; [by apply (Htext "code")|]. split; [by apply (Htext "message")|].
  split; [by apply optional_text|]. done.
Qed.

(** *** The addresses of the direct hooks *)

Ltac url_segments :=
  repeat first [rewrite segments_prefix | rewrite segments_cons by assumption | rewrite segments_word by assumption].

Lemma at_url_segments method url segs : segments url = segs ->
  at_url method url = keep (fun o => (o_method o =ₛ method) && matches (segments (o_path o)) segs) contract.
Proof. by intros <-. Qed.

(** ** Theorems *)


(** A body without a code, and one that names a field without a message. *)
Definition no_code : json := JObj [("error", JObj [("message", JStr "no")])].
Definition no_message : json :=
  JObj [("error", JObj [("code", JStr "c"); ("message", JStr "m"); ("fields", JArr [JObj [("field", JStr "email")]])])].


(** the addresses the web hooks build by hand.  For identifiers without a slash, the
    upload, the download and the export are the operations of the contract of those names;
    publish access, the activity feed, the connection with credentials and the resend of a
    verification mail are no operation of it, so nothing types their calls. *)
Theorem direct_addresses ws other
    (Hws : identifier ws) (Hother : identifier other) :
  at_url "POST" (Async.rq_url (DirectWeb.upload_request [] ws [] None JNull)) = [post_media]
  /\ at_url "GET" (DirectWeb.mediaDownloadURL [] ws other) = [get_media_download]
  /\ at_url "GET" (DirectWeb.analyticsCsvURL [] ws) = [get_analytics_export]
  /\ Forall (fun method => Forall (fun url => at_url method url = [])
       [DirectWeb.member_channels_url ws other; "/api/v1/workspaces/" ++ ws ++ "/activity";
        "/api/v1/workspaces/" ++ ws ++ "/channels/connect-manual"; "/api/v1/auth/verify-email/resend"])
       ["GET" : jstr; "POST"; "PUT"].
Proof.
  assert (Hseg : forall s l, segments s = l ->
    segments ("/api/v1/workspaces/" ++ ws ++ "/" ++ s) = ([] : jstr) :: ("api" : jstr) :: ("v1" : jstr) :: ("workspaces" : jstr) :: ws :: l).
  { intros s l <-. rewrite segments_prefix. by rewrite segments_cons. }
  assert (Hid : forall a s l, segments s = l -> segments (a ++ "/" ++ other ++ "/" ++ s) = segments a ++ other :: l
    \/ ~ identifier a).
  { intros a s l <-. destruct (decide (Forall (fun c => c <> 47%N) a)) as [Ha|Ha]; [left|by right].
    rewrite !segments_cons by done. by rewrite (segments_word a Ha). }
  split; [|split; [|split]].
  - rewrite (at_url_segments _ _ _ (Hseg "media/" _ eq_refl)). by destruct ws.
  - unfold DirectWeb.mediaDownloadURL.
    assert (H : segments ("media" ++ "/" ++ other ++ "/" ++ "download") = [("media" : jstr); other; "download"])
      by (destruct (Hid "media" "download" _ eq_refl) as [H|H]; [exact H|destruct H; by repeat constructor]).
    rewrite (at_url_segments _ _ _ (Hseg _ _ H)). by destruct ws, other.
  - rewrite (at_url_segments _ _ _ (Hseg "analytics/export.csv" _ eq_refl)). by destruct ws.
  - assert (H : segments ("members" ++ "/" ++ other ++ "/" ++ "channels") = [("members" : jstr); other; "channels"])
      by (destruct (Hid "members" "channels" _ eq_refl) as [H|H]; [exact H|destruct H; by repeat constructor]).
    each.
    all: first [ reflexivity
      | rewrite (at_url_segments _ _ _ (Hseg "activity" _ eq_refl)); by destruct ws
      | rewrite (at_url_segments _ _ _ (Hseg "channels/connect-manual" _ eq_refl)); by destruct ws
      | rewrite (at_url_segments _ _ _ (Hseg _ _ H)); by destruct ws, other ].
Qed.

Lemma direct_addresses_witness :
  at_url "POST" (Async.rq_url (DirectWeb.upload_request [] "w1" [] None JNull)) = [post_media]
  /\ at_url "GET" ("/api/v1/workspaces/" ++ "w1" ++ "/activity") = [].
Proof.
  destruct (direct_addresses "w1" "u1") as (H1 & _ & _ & H2); [by repeat constructor..|]. split; [exact H1|].
  apply Forall_inv in H2. exact (Forall_inv (Forall_inv_tail H2)).
Defined.
