(* ===== verification/MobileSite.v ===== *)
(** * The mobile application as a whole: routes, stacks and the session gate

    mobile/src/app: the screens at their addresses, the navigators of the layouts
    (_layout.tsx of the root, of the tabs and of "more"), and the gate that holds the splash
    until the session is known, around the guards of the two groups (MobileAuth.v).  As on the
    web, a directory in parentheses adds nothing to an address, and neither does a file called
    index; the framework shows only the screens its files define. *)
From S2P Require Import Prelude JsValue Ui MobileAuth MobileTeam.
From S2P Require MobileScreens Site.

Local Open Scope js_scope.

(** ** Routes *)

(** The screen files, with their directories. *)
Definition screens : list (list jstr) :=
  [["(auth)" : jstr; "login"]; ["(auth)" : jstr; "signup"]; ["(auth)" : jstr; "reset"];
   ["(tabs)" : jstr; "index"]; ["(tabs)" : jstr; "compose"]; ["(tabs)" : jstr; "calendar"];
   ["(tabs)" : jstr; "channels"];
   ["(tabs)" : jstr; "more"; "index"]; ["(tabs)" : jstr; "more"; "analytics"];
   ["(tabs)" : jstr; "more"; "members"]; ["(tabs)" : jstr; "more"; "settings"];
   ["(tabs)" : jstr; "more"; "wallet"]].

Definition address (file : list jstr) : jstr := Site.route (keep (fun s => negb (s =ₛ "index")) file).

Definition is_route (path : jstr) : bool := existsb (fun f => address f =ₛ path) screens.

(** ** The navigators *)

(** The groups of the root stack, the tabs with their titles, the stack of "more" (its
    menu has no title). *)
Definition ROOT : list jstr := ["(auth)" : jstr; "(tabs)"].
Definition TABS : list (jstr * jstr) :=
  [("index" : jstr, "Home" : jstr); ("compose", "Compose"); ("calendar", "Calendar");
   ("channels", "Channels"); ("more", "More")].
Definition MORE : list (jstr * option jstr) :=
  [("index" : jstr, None); ("analytics", Some ("Analytics" : jstr)); ("members", Some ("Members" : jstr));
   ("wallet", Some ("Wallet" : jstr)); ("settings", Some ("Settings" : jstr))].

(** What a navigator must name: the entries of its directory. *)
Definition dir_entries (dir : list jstr) : list jstr :=
  remove_dups (screens ≫= fun f =>
    if bool_decide (take (length dir) f = dir) then take 1 (drop (length dir) f) else []).

(** The query client's defaults, as on the web but for the refetch on focus. *)
Definition queries : nat * Z := (1, 30000%Z).

(** [ready]: what [useBootstrap] returns. *)
Definition SessionGate (ready : bool) (path : jstr) (user : option json) (isPending : bool) : Screen :=
  if ready then layout path user isPending else Splash.

(** The text of the status bar, against the scheme. *)
Definition status_bar (scheme : jstr) : jstr := if scheme =ₛ "dark" then "light" else "dark".

(** ** Lemmas *)

Lemma is_route_spec path : is_route path = true <-> exists f, f ∈ screens /\ address f = path.
Proof.
  unfold is_route. rewrite existsb_exists. split; intros (f & Hf & H); exists f.
  - split; [by apply list_elem_of_In|by apply jeq_true].
  - split; [by apply list_elem_of_In|by apply jeq_true].
Qed.

(** ** Theorems *)

(** the mobile application has no dead link and no unreachable navigator entry.  The
    menu's entries (whose type the code casts away), the links and redirections of the
    forms, the guards and the sign-outs lead to screens; each navigator names exactly the
    entries of its directory; no two screens share an address, and the guard that a path
    gets is the one of the group its file is in. *)
Theorem mobile_navigation_ok :
  Forall (fun i => is_route i.1.1 = true) MORE_ITEMS
  /\ (forall user isPending path href, SessionGate true path user isPending = Redirect href -> is_route href = true)
  /\ (forall resolver k a s s' es href, Form.update resolver k a s = (s', es) -> Form.Replace href ∈ es -> is_route href = true)
  /\ NoDup (map address screens)
  /\ (dir_entries [] ≡ₚ ROOT /\ dir_entries ["(tabs)" : jstr] ≡ₚ map fst TABS
      /\ dir_entries ["(tabs)" : jstr; "more"] ≡ₚ map fst MORE)
  /\ Forall (fun f => forall user isPending, SessionGate true (address f) user isPending
       = if bool_decide (head f = Some ("(auth)" : jstr)) then AuthLayout user isPending
         else TabLayout user isPending) screens.
Proof.
  split; [|split; [|split; [|split; [|split]]]].
  - unfold MORE_ITEMS; each; reflexivity.
  - intros user isPending path href. unfold SessionGate, layout, AuthLayout, TabLayout.
    destruct (is_in path _), isPending, user as [u|]; try destruct (jtruthy u); try done; by intros [= <-].
  - intros resolver k a s s' es href H Hin.
    assert (He : Forall (fun e => match e with Form.Replace h => is_route h = true | _ => True end) es).
    { revert H. destruct a; cbn; repeat case_match; intros [= <- <-]; repeat constructor. }
    rewrite Forall_forall in He. exact (He _ Hin).
  - apply (bool_decide_unpack _). vm_compute. exact I.
  - split_and!; apply (bool_decide_unpack _); vm_compute; exact I.
  - unfold screens; each; intros user isPending; reflexivity.
Qed.

(** A visitor at a tab's address who is not signed in is sent to a screen. *)
Lemma mobile_navigation_ok_witness :
  SessionGate true "/wallet" (Some JNull) false = Redirect "/login" /\ is_route "/login" = true.
Proof.
  assert (H : SessionGate true "/wallet" (Some JNull) false = Redirect "/login") by reflexivity.
  split; [exact H|]. exact (proj1 (proj2 mobile_navigation_ok) _ _ _ _ H).
Defined.

(** behind the gate.  Whatever the path, the screens of the tabs are shown only when the
    bootstrap has settled and the answer about the visitor names a user, and the public
    forms only when it has settled and names nobody: no sign-in form flashes before the
    session is known. *)
Theorem gate_holds_splash ready path user isPending :
  SessionGate ready path user isPending = Show ->
  ready = true /\ isPending = false
  /\ ((exists u, user = Some u /\ jtruthy u = true) <-> is_in path ["/login" : jstr; "/signup"; "/reset"] = false).
Proof.
  assert (Hu : (exists u, user = Some u /\ jtruthy u = true)
    <-> match user with Some u => jtruthy u | None => false end = true).
  { destruct user as [u|]; split; try done; [by intros (u' & [= <-] & H)|by exists u|by intros (u' & ? & _)]. }
  rewrite Hu. unfold SessionGate, layout, AuthLayout, TabLayout. destruct ready; [|done].
  set (someone := match user with Some u => jtruthy u | None => false end).
  destruct (is_in path _), isPending, someone; done.
Qed.

Lemma gate_holds_splash_witness :
  SessionGate true "/login" (Some JNull) false = Show
  /\ ~ exists u, Some JNull = Some u /\ jtruthy u = true.
Proof.
  split; [reflexivity|]. intros Hu.
  destruct (gate_holds_splash true "/login" (Some JNull) false eq_refl) as (_ & _ & H).
  discriminate (proj1 H Hu).
Defined.
