(* ===== verification/EndToEnd.v ===== *)
(** * From a button to the network: screens, hooks and clients composed

    A screen (Composer.v, Schedule.v) issues calls; a call is a mutation of a data hook
    (Query.v, DataWeb.v, DataMobile.v); the typed client turns it into a request, which the
    transport of the application ([apiFetch] of ApiClient.v or MobileClient.v) sends, and
    sends again after a refresh; what comes back is unwrapped by the hook and reaches the
    screen as the answer it awaits.  Here the layers run together: [wired] relates a run of a
    screen to the executions of the calls it issued.  The theorems are about what the server
    sees: however sessions expire, tokens go stale and requests are sent again, it never
    accepts twice what the user asked for once.

    The typed client is a package; [TypedClient] is what its documentation says of it.  Each
    transport discharges [Transport]. *)
From S2P Require Import Prelude JsValue Async Ui Schema Query.
From S2P Require ApiError ApiClient MobileClient Contract DataWeb DataMobile Composer ComposerMobile Schedule.

Local Open Scope js_scope.

(** ** Interfaces *)

Abbreviation Exchanges := (list (Request * option Response)).

(** The answers, among these exchanges, by which the server accepted the request. *)
Definition acceptances (xs : Exchanges) : list Response :=
  omap (fun x => match x.2 with Some res => if rs_ok res then Some res else None | None => None end) xs.

(** The package behind [api]: the request of a call, and what it makes of a response: of a
    successful one whose body parses, the body. *)
Class TypedClient := {
  request_of : ApiCall -> Request;
  read : Response -> outcome ApiResult;
  read_ok res b : rs_ok res = true -> rs_json res = Some b ->
    read res = inr {| r_data := b; r_error := JUndef; r_status := rs_status res |};
  read_status res r : read res = inr r -> r_status r = rs_status res }.

(** The acceptance of a call that settles so. *)
Definition acceptance (o : outcome Response) : list Response :=
  match o with inr res => if rs_ok res then [res] else [] | inl _ => [] end.

(** What the screens need of [apiFetch]: of the requests it sends none is accepted but the
    one whose answer is the outcome of the call. *)
Class Transport := {
  transport : jstr -> Request -> prog Response;
  accepts_once rid req tr o : exec (transport rid req) tr o -> acceptances (sent tr) = acceptance o }.

(** ** The calls of a screen *)

Section Calls.
Context {C : TypedClient} {T : Transport}.

(** [mutateAsync]: the typed client, the hook's unwrapping, then its [onSuccess]. *)
Definition settle {V} (m : Mutation V) (v : V) (o : outcome Response) : outcome json :=
  match o with
  | inl e => inl e
  | inr res =>
      match read res with
      | inl e => inl e
      | inr r =>
          match (m_result m r).2 with
          | inl e => inl e
          | inr data => match m_onSuccess m data v with inl e => inl e | inr _ => inr data end
          end
      end
  end.

(** An execution of the call: the requests sent with their answers, and how it settles. *)
Definition performs {V} (m : Mutation V) (v : V) (xs : Exchanges) (o : outcome json) : Prop :=
  exists rid tr out, exec (transport rid (request_of (m_call m v))) tr out
    /\ xs = sent tr /\ o = settle m v out.

Section Wiring.
Context (c : component).
(** The effects that are calls, and the answers to them. *)
Variable calls : eff c -> option (Exchanges -> outcome json -> Prop).
Variable delivers : act c -> option (outcome json -> Prop).

Definition is_call (e : eff c) : bool := match calls e with Some _ => true | None => false end.
Definition executes (e : eff c) (xs : Exchanges) (o : outcome json) : Prop :=
  match calls e with Some P => P xs o | None => False end.

(** [wired ps tr log]: along a run [tr] that starts with the calls [ps] in flight, the calls
    executed as [log] says; those still in flight at its end execute too, their answers not
    delivered yet. *)
Inductive wired : list (eff c) -> list (act c * list (eff c)) -> list (eff c * Exchanges) -> Prop :=
  | wired_end log : Forall (fun l => exists o, executes l.1 l.2 o) log -> wired (map fst log) [] log
  | wired_step ps a es tr log :
      delivers a = None -> wired (ps ++ keep is_call es) tr log -> wired ps ((a, es) :: tr) log
  | wired_answer ps1 e ps2 a es tr xs o D log :
      delivers a = Some D -> executes e xs o -> D o ->
      wired (ps1 ++ ps2 ++ keep is_call es) tr log ->
      wired (ps1 ++ e :: ps2) ((a, es) :: tr) ((e, xs) :: log).

(** How often the server accepted a call of this kind. *)
Variable counted : eff c -> bool.
Definition weight (l : eff c * Exchanges) : nat := if counted l.1 then length (acceptances l.2) else 0.
Definition accepted (log : list (eff c * Exchanges)) : nat := sum_list (map weight log).

(** *** A bound on the acceptances, by a potential of the screen *)

Context (I : st c -> list (eff c) -> Prop) (cap : st c -> list (eff c) -> nat) (more : act c -> nat)
  (served : eff c * Exchanges -> Prop).

(** What has to be shown of one step: the calls in flight are paid for, a step that delivers
    nothing does not lower the potential below what it adds, and an answer pays for the
    acceptances of its call. *)
Record pays := {
  pays_flight s ps : I s ps -> count counted ps <= cap s ps;
  pays_step s a es s' ps : I s ps -> step c s a es s' -> delivers a = None ->
    I s' (ps ++ keep is_call es) /\ cap s' (ps ++ keep is_call es) <= cap s ps + more a;
  pays_answer s a es s' ps1 e ps2 xs o D :
    I s (ps1 ++ e :: ps2) -> step c s a es s' -> delivers a = Some D -> D o ->
    executes e xs o -> served (e, xs) ->
    I s' (ps1 ++ ps2 ++ keep is_call es)
    /\ weight (e, xs) + cap s' (ps1 ++ ps2 ++ keep is_call es) <= cap s (ps1 ++ e :: ps2) + more a }.

Lemma wired_bound : pays ->
  (forall e xs o, executes e xs o -> length (acceptances xs) <= 1) ->
  forall s tr s', steps c s tr s' -> forall ps log, wired ps tr log -> I s ps -> Forall served log ->
  accepted log <= cap s ps + sum_list (map (fun x => more x.1) tr).
Proof.
  intros [Hf Hs Ha] Hone s tr s' Hrun.
  induction Hrun as [s|s a es s1 tr s2 Hstep _ IH]; intros ps log Hw HI Hok.
  - inversion Hw as [l Hex| |]; subst. pose proof (Hf _ _ HI) as Hc.
    assert (accepted log <= count counted (map fst log)); [|cbn [map sum_list]; lia]. clear -Hone Hex.
    induction Hex as [|[e xs] l (o & He) _ IH]; [done|]. apply (Hone e xs o) in He.
    change (accepted ((e, xs) :: l)) with (weight (e, xs) + accepted l).
    change (map fst ((e, xs) :: l)) with ([e] ++ map fst l). rewrite count_app.
    assert (Hc : count counted [e] = if counted e then 1 else 0) by (cbn; by destruct (counted e)).
    unfold weight. cbn [fst snd]. rewrite Hc. destruct (counted e); lia.
  - change (sum_list (map (fun x => more x.1) ((a, es) :: tr))) with (more a + sum_list (map (fun x => more x.1) tr)).
    inversion Hw as [|? ? ? ? ? Hd Hw'|ps1 e ps2 ? ? ? xs o D l Hd He Ho Hw']; subst.
    + destruct (Hs _ _ _ _ _ HI Hstep Hd) as [HI' Hc]. specialize (IH _ _ Hw' HI' Hok). lia.
    + apply Forall_cons in Hok as [Hok1 Hok].
      destruct (Ha _ _ _ _ _ _ _ _ _ _ HI Hstep Hd Ho He Hok1) as [HI' Hc].
      specialize (IH _ _ Hw' HI' Hok). change (accepted ((e, xs) :: l)) with (weight (e, xs) + accepted l). lia.
Qed.
End Wiring.

Lemma performs_acceptance {V} (m : Mutation V) v xs o : performs m v xs o ->
  exists out, acceptances xs = acceptance out /\ o = settle m v out.
Proof. intros (rid & tr & out & He & -> & ->). exists out. by rewrite (accepts_once _ _ _ _ He). Qed.

Lemma performs_length {V} (m : Mutation V) v xs o : performs m v xs o -> length (acceptances xs) <= 1.
Proof.
  intros ([e|res] & -> & _)%performs_acceptance; cbn; [lia|]. destruct (rs_ok res); cbn; lia.
Qed.
End Calls.

(** ** The transports of the two applications *)

Lemma acceptances_answer (r : Request) x : acceptances [(r, x)] = acceptance (ApiClient.answer x).
Proof. destruct x as [res|]; [|done]. cbn. by destruct (rs_ok res). Qed.

Lemma acceptances_refused (r : Request) res xs :
  rs_ok res = false -> acceptances ((r, Some res) :: xs) = acceptances xs.
Proof. intros H. cbn. by rewrite H. Qed.

Lemma rs_ok_high res : (300 <= rs_status res)%Z -> rs_ok res = false.
Proof. intros H. unfold rs_ok. apply andb_false_iff. right. apply Z.leb_gt. lia. Qed.

Lemma needs_refresh_refused req res : ApiClient.needs_refresh req res = true -> rs_ok res = false.
Proof.
  intros [H _]%andb_true_iff. apply rs_ok_high.
  apply orb_true_iff in H as [H%Z.eqb_eq|[_ [H%Z.eqb_eq _]%andb_true_iff]%andb_true_iff]; lia.
Qed.

#[export] Instance web_transport (has_document : bool) (has_storage : option bool) : Transport.
Proof.
  refine {| transport := ApiClient.apiFetch has_document has_storage |}.
  intros rid req tr o H%ApiClient.exec_apiFetch.
  inversion H as [e Hm Hs|r1 x Hc Hn Hs|r1 res Hc Hn Hs|r1 res r2 x Hc Hc2 Hn Hs|r1 res e Hc Hn Hm Hs]; subst;
    try (apply needs_refresh_refused in Hn; rewrite acceptances_refused by done); cbn [acceptance].
  - done.
  - apply acceptances_answer.
  - by rewrite Hn.
  - apply acceptances_answer.
  - done.
Defined.

#[export] Instance mobile_transport : Transport.
Proof.
  refine {| transport := MobileClient.apiFetch |}.
  intros rid req tr o H%MobileClient.mobile_exec_apiFetch.
  inversion H as [r1 x Hc Hn Hs|r1 res Hc Hn Hl Hs|r1 res r2 x Hc Hc2 Hn Hl Hs]; subst;
    try (assert (Hr : rs_ok res = false) by (apply rs_ok_high; lia); rewrite acceptances_refused by done);
    cbn [acceptance].
  - apply acceptances_answer.
  - by rewrite Hr.
  - apply acceptances_answer.
Defined.

(** ** Values and records: what the screens read of an answer, and the body of a save *)

Definition text_of (v : json) (k : jstr) : jstr :=
  match get_prop v k with Some (JStr s) => s | _ => [] end.
Definition text_opt (v : json) (k : jstr) : option jstr :=
  match get_prop v k with Some (JStr s) => Some s | _ => None end.
Definition number_of (v : json) (k : jstr) : Z := match get_prop v k with Some (JNum z) => z | _ => 0 end.
Definition array_of {A} (f : json -> A) (v : json) (k : jstr) : option (list A) :=
  match get_prop v k with Some (JArr l) => Some (map f l) | _ => None end.

Definition kind_json (k : MediaKind) : jstr := match k with image => "image" | gif => "gif" | video => "video" end.
Definition kind_of (s : jstr) : MediaKind := if s =ₛ "gif" then gif else if s =ₛ "video" then video else image.

Definition media_json (m : MediaMeta) : json :=
  JObj [("media_id", JStr (mm_media_id m)); ("kind", JStr (kind_json (mm_kind m)));
        ("mime", JStr (mm_mime m)); ("bytes", JNum (mm_bytes m))].
Definition media_of (v : json) : MediaMeta :=
  {| mm_media_id := text_of v "media_id"; mm_kind := kind_of (text_of v "kind");
     mm_mime := text_of v "mime"; mm_bytes := number_of v "bytes" |}.

Definition variant_json (v : VariantInput) : json :=
  JObj [("channel_id", JStr (vi_channel_id v));
        ("body", match vi_body v with Some b => JStr b | None => JUndef end);
        ("media", match vi_media v with Some l => JArr (map media_json l) | None => JUndef end)].
Definition variants_json (vs : list VariantInput) : json := JArr (map variant_json vs).

Definition variant_of (v : json) : Variant :=
  {| v_id := text_of v "id"; v_channel_id := text_of v "channel_id"; v_body := text_of v "body";
     v_media := array_of media_of v "media" |}.
Definition post_of (v : json) : Post :=
  {| p_id := text_of v "id"; p_workspace_id := text_of v "workspace_id";
     p_author_user_id := text_opt v "author_user_id"; p_status := text_of v "status";
     p_created_at := text_of v "created_at"; p_variants := array_of variant_of v "variants" |}.

Lemma media_roundtrip m : media_of (media_json m) = m.
Proof. destruct m as [i [] mi b]; reflexivity. Qed.

(** The variants of a save have the type the contract gives them. *)
Lemma variants_typed vs : Contract.has_type (Contract.TArray Contract.T.VariantInput) (variants_json vs) = true.
Proof.
  assert (Hm : forall m, Contract.has_type Contract.T.MediaMeta (media_json m) = true) by (intros [i [] mi b]; reflexivity).
  apply forallb_forall. intros x (v & <- & _)%in_map_iff. unfold variant_json.
  destruct v as [c [b|] [l|]]; cbn -[media_json]; rewrite ?andb_true_r; try done;
    apply forallb_forall; intros y (m & <- & _)%in_map_iff; apply Hm.
Qed.

(** *** What the hooks make of an answer *)

Section Hooks.
Context {C : TypedClient}.

(** A call that the server has not accepted settles as an error, for a hook that tests the
    status of the response. *)
Definition tests_status {V} (m : Mutation V) : Prop :=
  forall r v, r_ok r = false -> (m_result m r).2 <> inr v.

Lemma settle_refused {V} (m : Mutation V) v out data :
  tests_status m -> settle m v out = inr data -> exists res, out = inr res /\ rs_ok res = true.
Proof.
  intros Hm. destruct out as [e|res]; [done|]. cbn. destruct (read res) as [e|r] eqn:Er; [done|].
  apply read_status in Er. destruct (rs_ok res) eqn:Ho; [by exists res|].
  destruct ((m_result m r).2) as [e|d] eqn:Ed; [done|]. exfalso. eapply Hm; [|exact Ed].
  unfold r_ok. by rewrite Er.
Qed.

Lemma reject_error (ne : Z -> json -> logged Exn) status error (v : json) :
  (Query.reject ne status error).2 <> inr v.
Proof. unfold Query.reject. by destruct (ne status error). Qed.

Lemma unwrap_data_tests ne r (v : json) : r_ok r = false -> (Query.unwrap_data ne r).2 <> inr v.
Proof. intros H. unfold Query.unwrap_data. rewrite H. apply reject_error. Qed.

Lemma unwrap_inner_tests ne k d r (v : json) : r_ok r = false -> (Query.unwrap_inner ne k d r).2 <> inr v.
Proof.
  intros H. unfold Query.unwrap_inner. pose proof (unwrap_data_tests ne r) as Hu.
  destruct (Query.unwrap_data ne r) as [l [e|w]]; [done|]. by destruct (Hu w).
Qed.

(** An accepted save is answered with the post, and a post has an id. *)
Definition answers_post (res : Response) : Prop :=
  exists b v, rs_json res = Some b /\ get_prop b "data" = Some v /\ truthy (text_of v "id") = true.

Lemma get_prop_object v k : truthy (text_of v k) = true -> exists s, get_prop v k = Some (JStr s) /\ jtruthy v = true.
Proof.
  unfold text_of. destruct v; try done; cbn [get_prop]. case_match; try done. intros H1. case_match; try done. subst. eauto.
Qed.

Lemma read_post res (ne : Z -> json -> logged Exn) :
  rs_ok res = true -> answers_post res ->
  exists r v, read res = inr r /\ Query.unwrap_data ne r = ([], inr v) /\ truthy (text_of v "id") = true.
Proof.
  intros Ho (b & v & Hb & Hv & Hid). rewrite (read_ok _ _ Ho Hb). eexists _, v. split; [reflexivity|].
  split; [|done]. destruct (get_prop_object _ _ Hid) as (s & _ & Ht).
  unfold Query.unwrap_data, opt_prop, req_prop, r_ok. cbn [r_data r_status]. unfold rs_ok in Ho.
  by rewrite Ho, Hv, Ht.
Qed.

(** The hooks that save a post. *)
Definition saves_post {V} (m : Mutation V) (ne : Z -> json -> logged Exn) : Prop :=
  m_result m = Query.unwrap_data ne
  /\ forall v x, truthy (text_of v "id") = true -> exists ops, m_onSuccess m v x = inr ops.

Lemma settle_post {V} (m : Mutation V) ne x res :
  saves_post m ne -> rs_ok res = true -> answers_post res ->
  exists v, settle m x (inr res) = inr v /\ truthy (text_of v "id") = true.
Proof.
  intros [Hm Hs] Ho Ha. destruct (read_post res ne Ho Ha) as (r & v & Hr & Hu & Hid). exists v.
  cbn. rewrite Hr, Hm, Hu. cbn. destruct (Hs v x Hid) as [ops ->]. done.
Qed.

Lemma save_performed {T : Transport} {V} (m : Mutation V) ne x xs o :
  saves_post m ne -> performs m x xs o -> Forall answers_post (acceptances xs) ->
  match o with
  | inl _ => acceptances xs = []
  | inr v => truthy (text_of v "id") = true
  end.
Proof.
  intros Hm (out & Hx & ->)%performs_acceptance Hs.
  destruct (settle m x out) as [e|v] eqn:Es.
  - rewrite Hx in Hs |- *. destruct out as [e'|res]; [done|]. cbn [acceptance] in *.
    destruct (rs_ok res) eqn:Ho; [|done]. apply Forall_cons in Hs as [Hs _].
    destruct (settle_post m ne x res Hm Ho Hs) as (v & Hv & _). congruence.
  - destruct (settle_refused m x out v) as (res & -> & Ho); [|done|].
    { destruct Hm as [Hm _]. intros r w Hr. rewrite Hm. by apply unwrap_data_tests. }
    cbn [acceptance] in Hx. rewrite Ho in Hx. rewrite Hx in Hs. apply Forall_cons in Hs as [Hs _].
    destruct (settle_post m ne x res Hm Ho Hs) as (w & Hw & Hid). congruence.
Qed.

(** An accepted publication is answered with an object, whatever it holds. *)
Definition answers_data (res : Response) : Prop :=
  exists b v, rs_json res = Some b /\ get_prop b "data" = Some v /\ jtruthy v = true.

Definition schedules {V} (m : Mutation V) (ne : Z -> json -> logged Exn) : Prop :=
  m_result m = Query.unwrap_inner ne "jobs" (JArr [])
  /\ forall v x, exists ops, m_onSuccess m v x = inr ops.

Lemma schedule_performed {T : Transport} {V} (m : Mutation V) ne x xs e :
  schedules m ne -> performs m x xs (inl e) -> Forall answers_data (acceptances xs) -> acceptances xs = [].
Proof.
  intros [Hm Hs] (out & Hx & Ho)%performs_acceptance Ha. rewrite Hx in Ha |- *.
  destruct out as [e'|res]; [done|]. cbn [acceptance] in *. destruct (rs_ok res) eqn:Hok; [|done].
  apply Forall_cons in Ha as [(b & v & Hb & Hv & Ht) _]. exfalso. unfold settle in Ho.
  rewrite (read_ok _ _ Hok Hb), Hm in Ho. unfold Query.unwrap_inner, Query.unwrap_data, opt_prop, req_prop, r_ok in Ho.
  cbn [r_data r_status] in Ho. unfold rs_ok in Hok. rewrite Hok, Hv, Ht in Ho. cbn in Ho.
  destruct (get_prop v "jobs") as [w|] eqn:Hw; [|by destruct v].
  destruct (Hs (nullish w (JArr [])) x) as [ops Hops]. rewrite Hops in Ho. done.
Qed.
End Hooks.

(** ** The web composer *)

Section Composer.
Context {C : TypedClient} {T : Transport}.
Variable ws : jstr.
Import Composer.

Definition composer_calls (e : Composer.Eff) : option (Exchanges -> outcome json -> Prop) :=
  match e with
  | CreatePost vs => Some (performs (DataWeb.useCreatePost ws) (variants_json vs))
  | UpdatePost id vs => Some (performs (DataWeb.useUpdatePost ws) (id, variants_json vs))
  | _ => None
  end.

Definition composer_delivers (a : Composer.Act) : option (outcome json -> Prop) :=
  match a with
  | PostSaved (inr p) => Some (fun o => exists v, o = inr v /\ p = post_of v)
  | PostSaved (inl e) => Some (fun o => o = inl e)
  | _ => None
  end.

Definition composer_wired := wired component composer_calls composer_delivers [].

Definition is_create (e : Composer.Eff) : bool := match e with CreatePost _ => true | _ => false end.

(** The drafts the server has created for this composer. *)
Definition created (log : list (Composer.Eff * Exchanges)) : nat := accepted component is_create log.

Definition saves_served (l : Composer.Eff * Exchanges) : Prop := Forall answers_post (acceptances l.2).

Lemma creates_save : saves_post (DataWeb.useCreatePost ws) ApiError.Web.normalizeError.
Proof. split; [done|]. intros v x _. by eexists. Qed.

Lemma updates_save : saves_post (DataWeb.useUpdatePost ws) ApiError.Web.normalizeError.
Proof.
  split; [done|]. intros v x Hid. destruct (get_prop_object _ _ Hid) as (s & Hs & _).
  cbn. unfold req_prop. rewrite Hs. by eexists.
Qed.

(** The call in flight while the post is being saved: a creation only without a post. *)
Definition flight (s : St) (ps : list Composer.Eff) : Prop :=
  match saving s with
  | Some SavingPost => exists e, ps = [e] /\ (is_create e = true -> has_post s = false)
  | _ => ps = []
  end.
Definition to_create (s : St) : nat := if has_post s then 0 else 1.

Lemma composer_quiet a s s' es :
  Ui.update component a s = (s', es) ->
  match a with Save | PostSaved _ | Validated _ => False | _ => True end ->
  saving s' = saving s /\ has_post s' = has_post s /\ keep (is_call component composer_calls) es = [].
Proof.
  intros Hu Ha. destruct a; try done; cbn in Hu; try (by injection Hu as <- <-).
  - injection Hu as <- <-. by destruct (tab s =ₛ id).
  - destruct o; injection Hu as <- <-; [done|]. by destruct (shortening s).
Qed.

Lemma composer_executes e xs o : executes component composer_calls e xs o -> saves_served (e, xs) ->
  match o with inl _ => acceptances xs = [] | inr v => truthy (text_of v "id") = true end.
Proof.
  unfold executes. destruct e; cbn [composer_calls]; try done.
  - exact (save_performed _ _ _ _ _ creates_save).
  - exact (save_performed _ _ _ _ _ updates_save).
Qed.

Lemma composer_once e xs o : executes component composer_calls e xs o -> length (acceptances xs) <= 1.
Proof. unfold executes. destruct e; cbn [composer_calls]; try done; apply performs_length. Qed.

Lemma composer_pays :
  pays component composer_calls composer_delivers is_create flight (fun s _ => to_create s) (fun _ => 0) saves_served.
Proof.
  split.
  - intros s ps. unfold flight, to_create. destruct (saving s) as [[]|].
    + intros (e & -> & H). cbn. destruct (is_create e); [by rewrite H|]. cbn. lia.
    + intros ->. cbn. lia.
    + intros ->. cbn. lia.
  - intros s a es s' ps HI Hs Hd. assert (Hu : Ui.update component a s = (s', es)) by (by inversion Hs).
    assert (Hv : forall o, a = Validated o -> saving s = Some ValidatingPost).
    { intros o ->. inversion Hs as [? ? ? H|? ? ? H]; subst; [|done]. by apply (offers_user s (Validated o)) in H. }
    assert (Hother : match a with Save | PostSaved _ | Validated _ => False | _ => True end ->
      flight s' (ps ++ keep (is_call component composer_calls) es) /\ to_create s' <= to_create s + 0).
    { intros Ha. destruct (composer_quiet _ _ _ _ Hu Ha) as (H1 & H2 & H3). rewrite H3, app_nil_r.
      unfold flight, to_create in *. rewrite H1, H2. split; [exact HI|lia]. }
    destruct a as [id|t|b|b| |m| | |[e|p]|o|o|cs|w]; try done; try (by apply Hother); clear Hother.
    + apply step_save, can_save_spec in Hs as (Hn & _ & _). unfold flight in HI. rewrite Hn in HI. subst ps.
      injection Hu as <- <-. unfold flight, to_create, has_post. cbn.
      destruct (postId s) as [i|]; [destruct (truthy i) eqn:E|]; cbn; (split; [eexists; split; [done|done]|lia]).
    + specialize (Hv _ eq_refl). unfold flight in HI. rewrite Hv in HI. subst ps.
      destruct o; injection Hu as <- <-; unfold flight, to_create, has_post; cbn; split; (done || lia).
  - intros s a es s' ps1 e ps2 xs o D HI Hs Hd Ho He Hok.
    assert (Hu : Ui.update component a s = (s', es)) by (by inversion Hs).
    destruct a as [| | | | | | | |[err|p]| | | |]; try done.
    all: assert (Hsv : saving s = Some SavingPost) by
      (inversion Hs as [? ? ? H|? ? ? H]; subst; [by apply (offers_user s (PostSaved _)) in H|exact H]).
    all: unfold flight in HI; rewrite Hsv in HI; destruct HI as (e0 & Heq & Hc).
    all: assert (Hps : ps1 = [] /\ e = e0 /\ ps2 = []) by (destruct ps1 as [|x []]; simplify_eq/=; done).
    all: destruct Hps as (-> & -> & ->); cbn in Hd; injection Hd as <-; injection Hu as <- <-.
    + subst o. pose proof (composer_executes _ _ _ He Hok) as Hx. cbn in Hx. split; [done|].
      unfold weight. cbn [fst snd]. rewrite Hx. unfold to_create, has_post. cbn. destruct (is_create e0); lia.
    + destruct Ho as (v & -> & ->). pose proof (composer_executes _ _ _ He Hok) as Hx. cbn in Hx.
      pose proof (composer_once _ _ _ He) as H1. split; [done|].
      unfold weight, to_create. cbn [fst snd]. unfold has_post at 1. cbn. rewrite Hx.
      destruct (is_create e0); [|lia]. rewrite (Hc eq_refl). lia.
Qed.
End Composer.

(** ** The mobile composer

    The screen keeps its state: "New post" forgets the post, also while a save is in flight,
    and editing a draft of the list replaces it. *)

Section MobileComposer.
Context {C : TypedClient} {T : Transport}.
Variable mediaUri : jstr -> jstr.
Variable ws : jstr.
Import Composer ComposerMobile.
Abbreviation compose := (Compose.component mediaUri).

Definition compose_calls (e : Compose.Eff) : option (Exchanges -> outcome json -> Prop) :=
  match e with
  | Compose.CreatePost vs => Some (performs (DataMobile.useCreatePost ws) (variants_json vs))
  | Compose.UpdatePost id vs => Some (performs (DataMobile.useUpdatePost ws) (id, variants_json vs))
  | _ => None
  end.

Definition compose_delivers (a : Compose.Act) : option (outcome json -> Prop) :=
  match a with
  | Compose.PostSaved (inr p) => Some (fun o => exists v, o = inr v /\ p = post_of v)
  | Compose.PostSaved (inl e) => Some (fun o => o = inl e)
  | _ => None
  end.

Definition compose_wired := wired compose compose_calls compose_delivers [].

Definition creates (e : Compose.Eff) : bool := match e with Compose.CreatePost _ => true | _ => false end.
Definition compose_created (log : list (Compose.Eff * Exchanges)) : nat := accepted compose creates log.
Definition compose_served (l : Compose.Eff * Exchanges) : Prop := Forall answers_post (acceptances l.2).

(** What lets the next save create another post. *)
Definition renews (a : Compose.Act) : nat :=
  match a with
  | Compose.Reset => 1
  | Compose.OnEdit p => if truthy (p_id p) then 0 else 1
  | _ => 0
  end.

Lemma mobile_creates_save : saves_post (DataMobile.useCreatePost ws) ApiError.Mobile.normalizeError.
Proof. split; [done|]. intros v x _. by eexists. Qed.

Lemma mobile_updates_save : saves_post (DataMobile.useUpdatePost ws) ApiError.Mobile.normalizeError.
Proof.
  split; [done|]. intros v x Hid. destruct (get_prop_object _ _ Hid) as (s & Hs & _).
  cbn. unfold req_prop. rewrite Hs. by eexists.
Qed.

(** One save at a time; the creation in flight is counted, whatever the screen shows. *)
Definition compose_flight (s : Compose.St) (ps : list Compose.Eff) : Prop :=
  match Compose.saving s with Some SavingPost => exists e, ps = [e] | _ => ps = [] end.
Definition next_creates (s : Compose.St) : nat := if Compose.has_post s then 0 else 1.
Definition compose_cap (s : Compose.St) (ps : list Compose.Eff) : nat :=
  match ps with e :: _ => if creates e then 1 else next_creates s | [] => next_creates s end.

Lemma compose_quiet a s s' es :
  Ui.update compose a s = (s', es) ->
  match a with Compose.Save | Compose.PostSaved _ | Compose.Validated _ => False | _ => True end ->
  Compose.saving s' = Compose.saving s /\ next_creates s' <= next_creates s + renews a
  /\ keep (is_call compose compose_calls) es = [].
Proof.
  intros Hu Ha. destruct a as [id|t|id| | | |p|[f|]|latest [e|x]|o|o|cs|c]; try done; cbn in Hu;
    injection Hu as <- <-; (split; [done|]; split; [|done]);
    unfold next_creates, Compose.has_post; cbn; repeat case_match; lia.
Qed.

Lemma compose_cap_le s s' ps n :
  next_creates s' <= next_creates s + n -> compose_cap s' ps <= compose_cap s ps + n.
Proof. intros H. unfold compose_cap. destruct ps as [|e ps]; [done|]. destruct (creates e); lia. Qed.

Lemma compose_executes e xs o : executes compose compose_calls e xs o -> compose_served (e, xs) ->
  match o with inl _ => acceptances xs = [] | inr v => truthy (text_of v "id") = true end.
Proof.
  unfold executes. destruct e; cbn [compose_calls]; try done.
  - exact (save_performed _ _ _ _ _ mobile_creates_save).
  - exact (save_performed _ _ _ _ _ mobile_updates_save).
Qed.

Lemma compose_once e xs o : executes compose compose_calls e xs o -> length (acceptances xs) <= 1.
Proof. unfold executes. destruct e; cbn [compose_calls]; try done; apply performs_length. Qed.

Lemma compose_pays :
  pays compose compose_calls compose_delivers creates compose_flight compose_cap renews compose_served.
Proof.
  split.
  - intros s ps. unfold compose_flight, compose_cap. destruct (Compose.saving s) as [[]|];
      [intros (e & ->); cbn; destruct (creates e); cbn; lia|intros ->; cbn; lia..].
  - intros s a es s' ps HI Hs Hd. assert (Hu : Ui.update compose a s = (s', es)) by (by inversion Hs).
    assert (Hv : forall o, a = Compose.Validated o -> Compose.saving s = Some ValidatingPost).
    { intros o ->. inversion Hs as [? ? ? H|? ? ? H]; subst; [|done]. by apply offers_compose in H. }
    assert (Hother : match a with Compose.Save | Compose.PostSaved _ | Compose.Validated _ => False | _ => True end ->
      compose_flight s' (ps ++ keep (is_call compose compose_calls) es)
      /\ compose_cap s' (ps ++ keep (is_call compose compose_calls) es) <= compose_cap s ps + renews a).
    { intros Ha. destruct (compose_quiet _ _ _ _ Hu Ha) as (H1 & H2 & H3). rewrite H3, app_nil_r.
      split; [unfold compose_flight in *; by rewrite H1|by apply compose_cap_le]. }
    destruct a as [id|t|id| | | |p|f|latest o|[e|q]|o|cs|c]; try done; try (by apply Hother); clear Hother.
    + destruct (step_compose_save _ _ _ _ Hs) as (_ & Hn & _). unfold compose_flight in HI. rewrite Hn in HI. subst ps.
      cbn in Hu. injection Hu as <- <-. unfold compose_flight, compose_cap, next_creates, Compose.has_post. cbn.
      destruct (Compose.postId s) as [i|]; [destruct (truthy i) eqn:E|]; cbn; rewrite ?E; (split; [by eexists|lia]).
    + specialize (Hv _ eq_refl). unfold compose_flight in HI. rewrite Hv in HI. subst ps.
      destruct o; cbn in Hu; injection Hu as <- <-; unfold compose_flight, compose_cap, next_creates, Compose.has_post;
        cbn; split; (done || lia).
  - intros s a es s' ps1 e ps2 xs o D HI Hs Hd Ho He Hok.
    assert (Hu : Ui.update compose a s = (s', es)) by (by inversion Hs).
    destruct a as [| | | | | | | | |[err|p]| | |]; try done.
    all: assert (Hsv : Compose.saving s = Some SavingPost) by
      (inversion Hs as [? ? ? H|? ? ? H]; subst; [by apply offers_compose in H|exact H]).
    all: unfold compose_flight in HI; rewrite Hsv in HI; destruct HI as (e0 & Heq).
    all: assert (Hps : ps1 = [] /\ e = e0 /\ ps2 = []) by (destruct ps1 as [|x []]; simplify_eq/=; done).
    all: destruct Hps as (-> & -> & ->); cbn in Hd; injection Hd as <-; cbn in Hu; injection Hu as <- <-.
    + subst o. pose proof (compose_executes _ _ _ He Hok) as Hx. cbn in Hx. split; [done|].
      unfold weight, compose_cap, next_creates, Compose.has_post. cbn [fst snd]. rewrite Hx. cbn.
      destruct (creates e0); [|lia]. repeat case_match; lia.
    + destruct Ho as (v & -> & ->). pose proof (compose_executes _ _ _ He Hok) as Hx. cbn in Hx.
      pose proof (compose_once _ _ _ He) as H1. split; [done|].
      unfold weight, compose_cap, next_creates. cbn [fst snd]. unfold Compose.has_post at 1. cbn. rewrite Hx.
      destruct (creates e0); lia.
Qed.
End MobileComposer.

(** ** Publishing: the web dialog and the mobile sheet *)

Definition status_of (s : jstr) : JobStatus :=
  if s =ₛ "publishing" then publishing else if s =ₛ "published" then published
  else if s =ₛ "failed" then failed else if s =ₛ "canceled" then canceled else scheduled.
Definition job_of (v : json) : Job :=
  {| j_id := text_of v "id"; j_post_id := text_of v "post_id"; j_channel_id := text_of v "channel_id";
     j_run_at := text_of v "run_at"; j_status := status_of (text_of v "status");
     j_attempts := number_of v "attempts"; j_last_error := text_opt v "last_error";
     j_created_at := text_of v "created_at" |}.
Definition jobs_of (v : json) : list Job := match v with JArr l => map job_of l | _ => [] end.

Definition settled_as (r : outcome (list Job)) (o : outcome json) : Prop :=
  match r with inl e => o = inl e | inr jobs => exists v, o = inr v /\ jobs = jobs_of v end.

Section Publishing.
Context {C : TypedClient} {T : Transport}.
Variable ws : jstr.
(** The clock: the text of a moment. *)
Variable moment : Schedule.RunAt -> jstr.

Definition jobs_served {E} (l : E * Exchanges) : Prop := Forall answers_data (acceptances l.2).

Lemma web_schedules : schedules (DataWeb.useSchedulePost ws) ApiError.Web.normalizeError.
Proof. split; [done|]. intros v x. by eexists. Qed.

Lemma mobile_schedules : schedules (DataMobile.useSchedulePost ws) ApiError.Mobile.normalizeError.
Proof. split; [done|]. intros v x. by eexists. Qed.

Section Dialog.
Variable postId trigger timeZone : jstr.
Variable localISO : jstr -> option jstr.
Abbreviation dialog := (Schedule.Dialog.component postId trigger timeZone localISO).
Import Schedule.Dialog.

Definition dialog_calls (i : Schedule.Input) : option (Exchanges -> outcome json -> Prop) :=
  Some (performs (DataWeb.useSchedulePost ws)
    {| DataWeb.si_postId := Schedule.in_postId i; DataWeb.si_runAt := option_map moment (Schedule.in_runAt i);
       DataWeb.si_toSlots := Schedule.in_toSlots i |}).

Definition dialog_delivers (a : Act) : option (outcome json -> Prop) :=
  match a with Settled r => Some (settled_as r) | _ => None end.

Definition dialog_wired := wired dialog dialog_calls dialog_delivers [].

Definition is_close (a : Act) : nat := match a with OpenChange false => 1 | _ => 0 end.

Definition dialog_flight (s : St) (ps : list Schedule.Input) : Prop :=
  if pending s then exists e, ps = [e] /\ scheduled s = None else ps = [].
Definition to_publish (s : St) : nat := match scheduled s with None => 1 | Some _ => 0 end.

Lemma dialog_pays :
  pays dialog dialog_calls dialog_delivers (fun _ => true) dialog_flight (fun s _ => to_publish s) is_close jobs_served.
Proof.
  split.
  - intros s ps. unfold dialog_flight, to_publish. destruct (pending s).
    + intros (e & -> & ->). done.
    + intros ->. cbn. lia.
  - intros s a es s' ps HI Hs Hd. assert (Hu : Ui.update dialog a s = (s', es)) by (by inversion Hs).
    unfold dialog_flight, to_publish in *. destruct a as [[]|m|w| |r]; try done; cbn in Hu.
    + injection Hu as <- <-. cbn. rewrite app_nil_r. split; [exact HI|lia].
    + injection Hu as <- <-. cbn. rewrite app_nil_r. split; [|lia].
      destruct (pending s); [|done]. destruct HI as (e & -> & _). eauto.
    + injection Hu as <- <-. cbn. rewrite app_nil_r. split; [exact HI|lia].
    + injection Hu as <- <-. cbn. rewrite app_nil_r. split; [exact HI|lia].
    + assert (Hp : scheduled s = None /\ pending s = false).
      { inversion Hs as [? ? ? H|? ? ? H]; subst; [|done]. by apply Schedule.offers_dialog_view in H. }
      destruct Hp as [Hsc Hp]. rewrite Hp in HI. subst ps.
      destruct (input postId localISO s); injection Hu as <- <-; cbn; rewrite ?Hp, ?Hsc; split; eauto; lia.
  - intros s a es s' ps1 e ps2 xs o D HI Hs Hd Ho He Hok.
    assert (Hu : Ui.update dialog a s = (s', es)) by (by inversion Hs).
    destruct a as [| | | |r]; try done. injection Hd as <-.
    unfold dialog_flight, to_publish in *. destruct (pending s) eqn:Hp; [|by destruct ps1].
    destruct HI as (e0 & Heq & Hsc). rewrite Hsc.
    assert (Hps : ps1 = [] /\ ps2 = []) by (destruct ps1 as [|x []]; simplify_eq/=; done).
    destruct Hps as (-> & ->). unfold executes in He. cbn in He.
    pose proof (performs_length _ _ _ _ He) as H1. unfold weight. cbn [fst snd].
    destruct r as [err|jobs]; injection Hu as <- <-; cbn; (split; [done|]); [|lia].
    cbn in Ho. subst o. rewrite (schedule_performed _ _ _ _ _ web_schedules He Hok).
    cbn. rewrite Hsc. lia.
Qed.
End Dialog.

Section Sheet.
Variable postId timeZone : jstr.
Variable iso dateText timeText : Z -> jstr.
Abbreviation sheet := (Schedule.Sheet.component postId timeZone iso dateText timeText).
Import Schedule.Sheet.

Definition sheet_calls (e : Eff) : option (Exchanges -> outcome json -> Prop) :=
  match e with
  | Schedule i => Some (performs (DataMobile.useSchedulePost ws)
      {| DataMobile.si_postId := Schedule.in_postId i; DataMobile.si_runAt := option_map moment (Schedule.in_runAt i);
         DataMobile.si_toSlots := Schedule.in_toSlots i |})
  | OnClose => None
  end.

Definition sheet_delivers (a : Act) : option (outcome json -> Prop) :=
  match a with Settled r => Some (settled_as r) | _ => None end.

Definition sheet_wired := wired sheet sheet_calls sheet_delivers [].

Definition is_shut (a : Act) : nat := match a with Close => 1 | _ => 0 end.

Definition sheet_flight (s : St) (ps : list Eff) : Prop :=
  if pending s then exists e, ps = [e] /\ scheduled s = None else ps = [].
Definition sheet_to_publish (s : St) : nat := match scheduled s with None => 1 | Some _ => 0 end.

Lemma sheet_pays :
  pays sheet sheet_calls sheet_delivers (fun _ => true) sheet_flight (fun s _ => sheet_to_publish s) is_shut jobs_served.
Proof.
  split.
  - intros s ps. unfold sheet_flight, sheet_to_publish. destruct (pending s).
    + intros (e & -> & ->). done.
    + intros ->. cbn. lia.
  - intros s a es s' ps HI Hs Hd. assert (Hu : Ui.update sheet a s = (s', es)) by (by inversion Hs).
    unfold sheet_flight, sheet_to_publish in *. destruct a as [|m|pk|d| |r]; try done; cbn in Hu.
    + injection Hu as <- <-. cbn. rewrite app_nil_r. split; [|lia].
      destruct (pending s); [|done]. destruct HI as (e & -> & _). eauto.
    + injection Hu as <- <-. cbn. rewrite app_nil_r. split; [exact HI|lia].
    + injection Hu as <- <-. cbn. rewrite app_nil_r. split; [exact HI|lia].
    + injection Hu as <- <-. cbn. rewrite app_nil_r. split; [exact HI|lia].
    + assert (Hp : scheduled s = None /\ pending s = false).
      { inversion Hs as [? ? ? H|? ? ? H]; subst; [|done]. exact (Schedule.offers_sheet_view _ _ _ _ _ H). }
      destruct Hp as [Hsc Hp]. rewrite Hp in HI. subst ps.
      injection Hu as <- <-; cbn; rewrite ?Hsc; split; eauto; lia.
  - intros s a es s' ps1 e ps2 xs o D HI Hs Hd Ho He Hok.
    assert (Hu : Ui.update sheet a s = (s', es)) by (by inversion Hs).
    destruct a as [| | | | |r]; try done. injection Hd as <-.
    unfold sheet_flight, sheet_to_publish in *. destruct (pending s) eqn:Hp; [|by destruct ps1].
    destruct HI as (e0 & Heq & Hsc). rewrite Hsc.
    assert (Hps : ps1 = [] /\ ps2 = []) by (destruct ps1 as [|x []]; simplify_eq/=; done).
    destruct Hps as (-> & ->). unfold executes in He. destruct e as [|i]; [done|]. cbn in He.
    pose proof (performs_length _ _ _ _ He) as H1. unfold weight. cbn [fst snd].
    destruct r as [err|jobs]; injection Hu as <- <-; cbn; (split; [done|]); [|lia].
    cbn in Ho. subst o. rewrite (schedule_performed _ _ _ _ _ mobile_schedules He Hok).
    cbn. rewrite Hsc. lia.
Qed.
End Sheet.
End Publishing.

Lemma sum_zeros {A} (l : list A) : sum_list (map (fun _ => 0) l) = 0.
Proof. by induction l. Qed.

(** ** Theorems *)




(** A server that keeps its answers in the contract. *)
#[local] Instance plain_client : TypedClient.
Proof.
  refine {|
    request_of c := {| rq_method := c_method c; rq_url := c_path c; rq_headers := ∅; rq_body := c_body c |};
    read res := match rs_json res with
                | Some b => inr {| r_data := if rs_ok res then b else JUndef;
                                   r_error := if rs_ok res then JUndef else b; r_status := rs_status res |}
                | None => inl (JsError "Unexpected end of JSON input")
                end |}.
  - intros res b Ho Hb. by rewrite Hb, Ho.
  - intros res r. destruct (rs_json res); [|done]. by intros [= <-].
Defined.

Definition expired : Response := {| rs_status := 401; rs_headers := ∅; rs_json := Some JNull |}.
Definition a_post : json := JObj [("id", JStr "p1"); ("status", JStr "draft")].
Definition created_answer : Response :=
  {| rs_status := 201; rs_headers := ∅; rs_json := Some (JObj [("data", a_post)]) |}.

(** The requests of a save with an expired session: refused, then sent with a new token. *)
Definition save_request (vs : list VariantInput) : Request :=
  request_of (m_call (DataWeb.useCreatePost "w") (variants_json vs)).
Definition first_try (vs : list VariantInput) : Request :=
  set_header "x-request-id" "r" (ApiClient.with_csrf (Some ("t1" : jstr)) (save_request vs)).
Definition save_trace (vs : list VariantInput) : list event :=
  [ELoad SessionCsrf (Some (Some ("t1" : jstr))); EFetch (first_try vs) (Some expired); EJoin true;
   ELoad SessionCsrf (Some (Some ("t2" : jstr)));
   EFetch (ApiClient.with_csrf (Some ("t2" : jstr)) (first_try vs)) (Some created_answer)].

Lemma a_creation vs :
  performs (T := web_transport true (Some true)) (DataWeb.useCreatePost "w") (variants_json vs)
    (sent (save_trace vs)) (inr a_post).
Proof.
  exists ("r" : jstr), (save_trace vs), (inr created_answer). split; [|by split].
  unfold save_trace. cbn. repeat constructor; by intros [=].
Qed.


(** On mobile: a draft, "New post", and another draft. *)
Definition mobile_save (vs : list VariantInput) : list event :=
  let rq := request_of (m_call (DataMobile.useCreatePost "w") (variants_json vs)) in
  [ELoad AccessToken (Some (Some ("t" : jstr)));
   EFetch (set_header "x-request-id" "r" (MobileClient.with_bearer (Some ("t" : jstr)) rq)) (Some created_answer)].

Lemma a_mobile_creation vs :
  performs (T := mobile_transport) (DataMobile.useCreatePost "w") (variants_json vs)
    (sent (mobile_save vs)) (inr a_post).
Proof.
  exists ("r" : jstr), (mobile_save vs), (inr created_answer). split; [|by split].
  unfold mobile_save. cbn. repeat constructor; by intros [=].
Qed.

Definition two_drafts (v1 v2 : list VariantInput) : list (ComposerMobile.Compose.Act * list ComposerMobile.Compose.Eff) :=
  let p := post_of a_post in
  [(ComposerMobile.Compose.NewChannels [Composer.x_channel], []);
   (ComposerMobile.Compose.Toggle_ "c1", []); (ComposerMobile.Compose.EditBody "hi", []);
   (ComposerMobile.Compose.Save, [ComposerMobile.Compose.CreatePost v1]);
   (ComposerMobile.Compose.PostSaved (inr p), [ComposerMobile.Compose.ValidatePost "p1"]);
   (ComposerMobile.Compose.Validated (inr []), []);
   (ComposerMobile.Compose.Reset, []);
   (ComposerMobile.Compose.Toggle_ "c1", []); (ComposerMobile.Compose.EditBody "ho", []);
   (ComposerMobile.Compose.Save, [ComposerMobile.Compose.CreatePost v2]);
   (ComposerMobile.Compose.PostSaved (inr p), [ComposerMobile.Compose.ValidatePost "p1"])].

Abbreviation mobile_composer := (ComposerMobile.Compose.component (fun i => i)).


(** A dialog closed while its call is in flight, and the answer that comes later. *)
Definition jobs_answer : Response :=
  {| rs_status := 201; rs_headers := ∅; rs_json := Some (JObj [("data", JObj [("jobs", JArr [JObj []])])]) |}.

