(* ===== verification/Forms.v ===== *)
(** * The web forms with their validation

    Auth.v leaves the validation of the four forms open.  Here are the schemas of
    web/src/features/auth/schemas.ts and the forms resolved by them: what the resolver hands
    to a form, valid values or the first message of each field, is that of its schema.  A
    form so resolved is one of Auth.v, so that what holds there holds here; and what it sends
    satisfies the rules the schema states.  As in MobileAuth.v, the validation package's test
    of an address is a parameter, and a minimum length counts code units. *)
From S2P Require Import Prelude JsValue ApiError Ui.
From S2P Require Auth MobileAuth.

Local Open Scope js_scope.

(** ** schemas.ts *)

(** A field and the messages its checks leave on a value. *)
Abbreviation Schema := (list (jstr * (jstr -> list jstr))).

(** [z.string().min(n, message)] *)
Definition min (n : nat) (message v : jstr) : list jstr := when (length v <? n) [message].

Definition newPassword : jstr -> list jstr := min 8 "Use at least 8 characters".

Section Schemas.
Variable isEmail : jstr -> bool.

(** [z.email("Enter a valid email address")] *)
Definition email (v : jstr) : list jstr := when (negb (isEmail v)) ["Enter a valid email address" : jstr].

Definition loginSchema : Schema := [("email" : jstr, email); ("password" : jstr, min 1 "Password is required")].
Definition signupSchema : Schema := [("email" : jstr, email); ("password" : jstr, newPassword)].
Definition requestResetSchema : Schema := [("email" : jstr, email)].
Definition confirmResetSchema : Schema := [("new_password" : jstr, newPassword)].

(** ** Validation *)

(** The issues of the values, in the order of the fields. *)
Definition issues (sch : Schema) (vs : gmap jstr jstr) : list (jstr * jstr) :=
  sch ≫= fun f => map (fun m => (f.1, m)) (f.2 (Auth.value f.1 vs)).

(** What the resolver reports: the first message of each field. *)
Definition first_errors (l : list (jstr * jstr)) : gmap jstr json :=
  foldl (fun m i => match m !! i.1 with Some _ => m | None => <[i.1 := JStr i.2]> m end) ∅ l.

(** The form, its answers from the resolver. *)
Definition resolved (f : Auth.FormSpec) (sch : Schema) : component :=
  {| Ui.st := Auth.St; Ui.act := Auth.Act; Ui.eff := Auth.Call; Ui.view := Auth.view f;
     Ui.update := Auth.update f;
     Ui.awaiting s a := Auth.awaiting s a /\
       match a with
       | Auth.Handle vs => issues sch vs = []
       | Auth.Invalid errs => exists vs, issues sch vs <> [] /\ errs = first_errors (issues sch vs)
       | _ => True
       end |}.

(** The four forms with their resolvers. *)
Definition FORMS (token : jstr) : list (Auth.FormSpec * Schema) :=
  [(Auth.LoginForm, loginSchema); (Auth.SignupForm, signupSchema);
   (Auth.RequestResetForm, requestResetSchema); (Auth.ConfirmResetForm token, confirmResetSchema)].

(** ** Lemmas *)

(** The rules a request keeps. *)
Definition valid_call (e : Auth.Call) : Prop :=
  match e with
  | Auth.Login mail password => isEmail mail = true /\ password <> []
  | Auth.Signup mail password => isEmail mail = true /\ 8 <= length password
  | Auth.RequestReset mail => isEmail mail = true
  | Auth.ConfirmReset _ password => 8 <= length password
  | Auth.Replace _ => True
  end.

Lemma min_nil n message v : min n message v = [] <-> n <= length v.
Proof. unfold min. destruct (length v <? n) eqn:E; [apply Nat.ltb_lt in E|apply Nat.ltb_ge in E]; cbn; split; intros; (done || lia). Qed.

Lemma email_nil v : email v = [] <-> isEmail v = true.
Proof. unfold email. by destruct (isEmail v). Qed.

Lemma no_issues sch vs : issues sch vs = [] <-> Forall (fun f => f.2 (Auth.value f.1 vs) = []) sch.
Proof.
  induction sch as [|f sch IH]; [by split|]. unfold issues in *. cbn [mbind list_bind].
  rewrite Forall_cons, <- IH. split.
  - intros [H1 H2]%app_eq_nil. split; [by apply map_eq_nil in H1|done].
  - by intros [-> ->].
Qed.

Lemma sends_valid token f sch vs : (f, sch) ∈ FORMS token -> issues sch vs = [] -> valid_call (Auth.f_call f vs).
Proof.
  intros Hf Hi%no_issues. unfold FORMS in Hf. rewrite !elem_of_cons in Hf.
  destruct Hf as [[= -> ->]|[[= -> ->]|[[= -> ->]|[[= -> ->]|Hf]]]]; [..|by apply elem_of_nil in Hf];
    unfold loginSchema, signupSchema, requestResetSchema, confirmResetSchema in Hi;
    rewrite ?Forall_cons in Hi; cbn [fst snd] in Hi; destruct_and?;
    cbn; unfold newPassword in *; rewrite ?email_nil, ?min_nil in *; split_and?; try done.
  intros E. rewrite E in *. cbn in *. lia.
Qed.

Lemma FORMS_plain token f sch : (f, sch) ∈ FORMS token -> Auth.plain_form f.
Proof.
  intros Hf. assert (H : f ∈ map fst (FORMS token)) by (apply list_elem_of_fmap; by exists (f, sch)).
  exact (proj1 (Forall_forall _ _) (Auth.plain_forms token) f H).
Qed.

Lemma resolved_steps f sch s tr s' : steps (resolved f sch) s tr s' -> steps (Auth.form f) s tr s'.
Proof.
  intros Hrun. induction Hrun as [s|s a es s1 tr s2 Hs _ IH]; [exact (steps_refl (Auth.form f) s)|].
  eapply (steps_cons (Auth.form f)); [|exact IH]. inversion Hs as [? ? ? H Hu|? ? ? [H _] Hu]; subst; [exact (by_user (Auth.form f) _ _ _ _ H Hu)|exact (by_env (Auth.form f) _ _ _ _ H Hu)].
Qed.

Lemma resolved_issues token f sch : (f, sch) ∈ FORMS token ->
  forall s a es s', step (resolved f sch) s a es s' -> Forall valid_call es.
Proof.
  intros Hf s a es s' Hs. assert (Hu : Auth.update f a s = (s', es)) by (by inversion Hs).
  assert (Hh : forall vs, a = Auth.Handle vs -> issues sch vs = []).
  { intros vs ->. inversion Hs as [? ? ? H|? ? ? H]; subst; [|exact (proj2 H)].
    exfalso. by apply (Auth.offers_form f) in H; [|eapply FORMS_plain]. }
  destruct a as [n v| | |errs|vs|[e|[]]]; cbn in Hu; try (by injection Hu as <- <-).
  - injection Hu as <- <-. apply Forall_cons. split; [|done]. eapply sends_valid; [exact Hf|by apply Hh].
  - destruct (Auth.phase s); try (by injection Hu as <- <-).
    destruct (Auth.f_redirect f); injection Hu as <- <-; repeat constructor.
Qed.

(** The form is on the screen: neither the missing-token notice nor the closing message. *)
Definition form_shown (f : Auth.FormSpec) (s : Auth.St) : Prop :=
  Auth.f_missing f = None /\ (Auth.done_ s ≫= Auth.f_done f) = None.

Lemma submit_shown f s : Auth.plain_form f -> offers (Auth.view f s) Auth.Submit -> form_shown f s.
Proof.
  intros [_ Hd] H. unfold form_shown. unfold Auth.view in H. destruct (Auth.f_missing f); [cbn in H; tauto|].
  split; [done|]. destruct (Auth.done_ s ≫= Auth.f_done f) as [v|] eqn:E; [|done].
  destruct (Auth.done_ s) as [m|]; [|done]. by apply (Hd _ _ _ E) in H.
Qed.

Lemma back_hidden f s : Auth.plain_form f -> form_shown f s -> ~ offers (Auth.view f s) Auth.Back.
Proof.
  intros Hp [Hm Hd] H. unfold Auth.view in H. rewrite Hm, Hd, !offers_app in H. destruct H as [H|[H|H]].
  - by apply offers_alert in H.
  - by apply Auth.offers_fields in H as (? & ? & ?).
  - cbn in H. destruct H as [[_ H]|H]; done.
Qed.

(** While the values are validated the form stays on the screen. *)
Definition steady (f : Auth.FormSpec) (s : Auth.St) : Prop :=
  Auth.phase s = Auth.validating -> form_shown f s.

Lemma steady_step f sch s a es s' :
  Auth.plain_form f -> steady f s -> step (resolved f sch) s a es s' -> steady f s'.
Proof.
  intros Hp Hs Hst. assert (Hu : Auth.update f a s = (s', es)) by (by inversion Hst).
  intros Hv. destruct a as [n v| | |errs|vs|[e|[]]]; cbn in Hu.
  - injection Hu as <- <-. by apply Hs in Hv.
  - injection Hu as <- <-. inversion Hst as [? ? ? H|? ? ? H]; subst; [|by destruct H].
    by apply submit_shown in H.
  - injection Hu as <- <-. apply Hs in Hv as Hf. inversion Hst as [? ? ? H|? ? ? H]; subst; [|by destruct H].
    by apply back_hidden in H.
  - by injection Hu as <- <-.
  - by injection Hu as <- <-.
  - injection Hu as <- <-. destruct (Auth.phase s) eqn:E; [by apply Hs|by apply Hs|].
    revert Hv. unfold Auth.failed. repeat case_match; done.
  - destruct (Auth.phase s) eqn:E; [| |]; try (injection Hu as <- <-; by apply Hs).
    destruct (Auth.f_redirect f); by injection Hu as <- <-.
Qed.

Lemma first_errors_from (l : list (jstr * jstr)) (m : gmap jstr json) (k : jstr) : is_Some (m !! k) \/ k ∈ map fst l ->
  let e := foldl (fun m i => match m !! i.1 with Some _ => m | None => <[i.1 := JStr i.2]> m end) m l in
  exists v, e !! k = Some v /\ (m !! k = Some v \/ exists t, v = JStr t /\ (k, t) ∈ l).
Proof.
  revert m. induction l as [|[k' t] l IH]; intros m Hk; cbn.
  { destruct Hk as [[v Hv]|H]; [exists v; auto|by apply elem_of_nil in H]. }
  set (m' := match m !! k' with Some _ => m | None => <[k' := JStr t]> m end).
  assert (Hm' : forall v, m' !! k = Some v -> m !! k = Some v \/ k = k' /\ v = JStr t).
  { intros v. unfold m'. destruct (m !! k'); [auto|]. destruct (decide (k = k')) as [->|Hne].
    - rewrite lookup_insert_eq. intros [= <-]. auto.
    - rewrite lookup_insert_ne by congruence. auto. }
  destruct (IH m') as (v & Hv & Hor).
  { destruct Hk as [[v Hv]|Hk].
    - left. unfold m'. destruct (m !! k') eqn:E; [by exists v|]. exists v. by rewrite lookup_insert_ne by congruence.
    - cbn in Hk. apply elem_of_cons in Hk as [->|Hk]; [left|by right]. unfold m'.
      destruct (m !! k') eqn:E; [by rewrite E|by rewrite lookup_insert_eq]. }
  exists v. split; [exact Hv|]. destruct Hor as [H|(t' & -> & H)].
  - destruct (Hm' _ H) as [H'|[-> ->]]; [by left|right]. exists t. split; [done|apply elem_of_cons; by left].
  - right. exists t'. split; [done|apply elem_of_cons; by right].
Qed.

Lemma first_errors_lookup l k : k ∈ map fst l -> exists t, first_errors l !! k = Some (JStr t) /\ (k, t) ∈ l.
Proof.
  intros Hk. destruct (first_errors_from l ∅ k (or_intror Hk)) as (v & Hv & [H|(t & -> & H)]); [|eauto].
  by rewrite lookup_empty in H.
Qed.

(** The issues of a form are about its inputs, and say something. *)
Lemma issues_about token f sch vs k t : (f, sch) ∈ FORMS token -> (k, t) ∈ issues sch vs ->
  k ∈ map Auth.i_name (Auth.f_inputs f) /\ truthy t = true.
Proof.
  intros Hf Hi. apply list_elem_of_bind in Hi as (fd & Hi & Hfd). apply list_elem_of_fmap in Hi as (m & [= -> ->] & Hm).
  unfold FORMS in Hf. rewrite !elem_of_cons in Hf.
  destruct Hf as [[= -> ->]|[[= -> ->]|[[= -> ->]|[[= -> ->]|Hf]]]]; [..|by apply elem_of_nil in Hf];
    unfold loginSchema, signupSchema, requestResetSchema, confirmResetSchema in Hfd; rewrite !elem_of_cons in Hfd;
    destruct_or?; try (by apply elem_of_nil in Hfd); subst fd; cbn [fst snd] in *;
    unfold email, newPassword, min, when in Hm; revert Hm; case_match; intros Hm;
    first [by apply elem_of_nil in Hm|apply list_elem_of_singleton in Hm as ->];
    (split; [apply (bool_decide_unpack _); vm_compute; exact I|reflexivity]).
Qed.

Lemma field_alert f s i m : form_shown f s -> i ∈ Auth.f_inputs f ->
  Auth.errors s !! Auth.i_name i = Some (JStr m) -> truthy m = true -> shows_role "alert" (Auth.view f s) = true.
Proof.
  intros [Hm Hd] Hi He Ht. unfold Auth.view. rewrite Hm, Hd, !shows_role_app.
  assert (H : shows_role "alert" (Auth.f_inputs f ≫= Auth.FormField s) = true); [|by rewrite H, orb_true_r].
  induction (Auth.f_inputs f) as [|j l IH]; [by apply elem_of_nil in Hi|]. cbn [mbind list_bind].
  rewrite shows_role_app. apply elem_of_cons in Hi as [<-|Hi].
  - unfold Auth.FormField at 1. rewrite He. cbn [jtruthy]. by rewrite Ht.
  - by rewrite IH, orb_true_r.
Qed.

(** A refused submission leaves its message on the screen. *)
Lemma invalid_shown token f sch s errs es s' : (f, sch) ∈ FORMS token -> steady f s ->
  step (resolved f sch) s (Auth.Invalid errs) es s' ->
  es = [] /\ Auth.phase s' = Auth.idle /\ shows_role "alert" (Auth.view f s') = true.
Proof.
  intros Hf Hs Hst. pose proof (FORMS_plain _ _ _ Hf) as Hp.
  inversion Hst as [? ? ? H|? ? ? H Hu]; subst; [by apply (Auth.offers_form f) in H|].
  cbn in H. destruct H as [Hv (vs & Hne & ->)]. cbn in Hu. injection Hu as <- <-. split; [done|]. split; [done|].
  destruct (issues sch vs) as [|[k t] l] eqn:El; [done|].
  destruct (first_errors_lookup ((k, t) :: l) k) as (t' & He & Hin); [apply elem_of_cons; by left|].
  rewrite <- El in Hin. destruct (issues_about _ _ _ _ _ _ Hf Hin) as [Hk Ht].
  apply list_elem_of_fmap in Hk as (i & -> & Hi). eapply (field_alert _ _ i t'); [|exact Hi|exact He|exact Ht].
  exact (Hs Hv).
Qed.
End Schemas.

(** ** Theorems *)

(** C22: the web forms send valid values only, and say why they refuse others.  A form
    resolved by its schema is a form of Auth.v, so that what is proved there holds of it;
    every request it makes along any run carries an address the package accepts and a
    password of the required length; a submission that its schema refuses sends nothing,
    leaves the form usable and shows an alert; and for the same values the schemas leave the
    issues that those of the mobile application leave. *)
Theorem web_forms_validated isEmail token f sch tr s
    (Hf : (f, sch) ∈ FORMS isEmail token) (Hrun : steps (resolved f sch) Auth.init tr s) :
  steps (Auth.form f) Auth.init tr s
  /\ Forall (valid_call isEmail) (issued tr)
  /\ (forall errs es s', step (resolved f sch) s (Auth.Invalid errs) es s' ->
        es = [] /\ Auth.phase s' = Auth.idle /\ shows_role "alert" (Auth.view f s') = true)
  /\ (forall vs, issues (loginSchema isEmail) vs
                 = MobileAuth.loginSchema isEmail (Auth.value "email" vs) (Auth.value "password" vs)
              /\ issues (signupSchema isEmail) vs
                 = MobileAuth.signupSchema isEmail (Auth.value "email" vs) (Auth.value "password" vs)
              /\ issues (requestResetSchema isEmail) vs
                 = MobileAuth.requestResetSchema isEmail (Auth.value "email" vs)
              /\ issues confirmResetSchema vs
                 = MobileAuth.confirmResetSchema (Auth.value "new_password" vs)).
Proof.
  pose proof (FORMS_plain _ _ _ _ Hf) as Hp. split; [by apply resolved_steps in Hrun|]. split; [|split].
  - destruct (steps_issued (resolved f sch) (fun _ => True) (valid_call isEmail)
      (fun s a es s' _ H => conj I (resolved_issues _ _ _ _ Hf s a es s' H)) _ _ _ Hrun I) as [_ H]. exact H.
  - intros errs es s' Hst. eapply invalid_shown; [exact Hf| |exact Hst].
    refine (steps_invariant (resolved f sch) (steady f) _ _ _ _ Hrun _); [|done].
    intros s1 a es1 s2 H1 H2. exact (steady_step isEmail f sch s1 a es1 s2 Hp H1 H2).
  - intros vs. unfold MobileAuth.loginSchema, MobileAuth.signupSchema, MobileAuth.requestResetSchema,
      MobileAuth.confirmResetSchema, MobileAuth.email_issues, MobileAuth.min_issues, issues,
      loginSchema, signupSchema, requestResetSchema, confirmResetSchema, newPassword, email, min, when.
    cbn [mbind list_bind fst snd].
    split_and!; repeat case_match; reflexivity.
Qed.

(** A password of seven characters is refused with its message, and of eight is sent. *)
Lemma web_forms_validated_witness :
  let isEmail (v : jstr) := includes v "@" in
  let vs p : gmap jstr jstr := {["email" := "a@b.co"%js; "password" := p]} in
  exists tr s, steps (resolved Auth.SignupForm (signupSchema isEmail)) Auth.init tr s
    /\ map fst tr = [Auth.Submit; Auth.Invalid (first_errors (issues (signupSchema isEmail) (vs "1234567"%js)));
                     Auth.Submit; Auth.Handle (vs "12345678"%js)]
    /\ Forall (valid_call isEmail) (issued tr) /\ issued tr = [Auth.Signup "a@b.co" "12345678"].
Proof.
  intros isEmail vs. set (c := resolved Auth.SignupForm (signupSchema isEmail)).
  assert (Hrun : exists s, steps c Auth.init
    [(Auth.Submit, []); (Auth.Invalid (first_errors (issues (signupSchema isEmail) (vs "1234567"%js))), []);
     (Auth.Submit, []); (Auth.Handle (vs "12345678"%js), [Auth.Signup "a@b.co" "12345678"])] s).
  { eexists.
    eapply steps_cons; [eapply (by_user c _ Auth.Submit); [|reflexivity]; pick|].
    eapply steps_cons; [eapply (by_env c _ (Auth.Invalid _)); [|reflexivity]; split; [done|]; by exists (vs "1234567"%js)|].
    eapply steps_cons; [eapply (by_user c _ Auth.Submit); [|reflexivity]; pick|].
    eapply steps_cons; [eapply (by_env c _ (Auth.Handle _)); [|reflexivity]; by split|].
    apply steps_refl. }
  destruct Hrun as [s Hrun]. eexists _, s. split; [exact Hrun|]. split; [reflexivity|]. split; [|reflexivity].
  refine (proj1 (proj2 (web_forms_validated isEmail [] Auth.SignupForm (signupSchema isEmail) _ s _ Hrun))).
  apply elem_of_cons. right. apply elem_of_cons. by left.
Defined.
