(* ===== verification/ModuleGraph.v ===== *)
(** * Source files, their imports, and the evaluation of modules

    A source file as the tools that load it see it before any of its code runs: its path,
    its directive, its import declarations.  The import graph of an application, the
    evaluation of modules as ECMAScript defines it (InnerModuleEvaluation: depth first, in
    the order of the declarations, each module once), and its theory: in a graph without
    cycles, the evaluation of any entries ends, and evaluates every module after those it
    imports, so that no binding is read before it is initialised. *)
From stdpp Require Import strings.
From S2P Require Import Prelude.

Local Open Scope string_scope.

(** ** Import declarations *)

(** What a declaration binds: [X], [* as X], [{ x }], [{ type x }]. *)
Inductive Binding := Default | Namespace | Name (x : string) | TypeName (x : string).

(** [import type] declarations are erased by the compiler. *)
Record Import := { type_only : bool; bindings : list Binding; specifier : string }.

Record SourceFile := { path : string; use_client : bool; imports : list Import }.

Definition import (bs : list Binding) (s : string) : Import :=
  {| type_only := false; bindings := bs; specifier := s |}.
Definition import_type (bs : list Binding) (s : string) : Import :=
  {| type_only := true; bindings := bs; specifier := s |}.
Definition names (l : list string) : list Binding := map Name l.

(** The sources of an application; the files that are imported without being sources
    (style sheets, declarations). *)
Record Project := { sources : list SourceFile; assets : list string }.

(** A declaration that binds types alone is erased too; one that binds nothing is there for
    its effects. *)
Definition is_type (b : Binding) : bool := match b with TypeName _ => true | _ => false end.
Definition at_runtime (i : Import) : bool :=
  negb (type_only i)
  && match bindings i with [] => true | bs => negb (forallb is_type bs) end.

(** ** Resolution of specifiers *)

(** A slash is character 47. *)
Definition is_slash (c : Ascii.ascii) : bool := Nat.eqb (Ascii.nat_of_ascii c) 47.

Fixpoint segments (s : string) : list string :=
  match s with
  | EmptyString => [EmptyString]
  | String c s' =>
      if is_slash c then EmptyString :: segments s'
      else match segments s' with h :: t => String c h :: t | [] => [String c EmptyString] end
  end.

(** One step of a relative path, from a directory with the innermost segment first. *)
Definition walk (dir : list string) (s : string) : list string :=
  if String.eqb s "." then dir else if String.eqb s ".." then tail dir else s :: dir.

(** [@/x] is [src/x] (the [paths] of tsconfig.json); [./x] and [../x] are relative to the
    directory of the file; anything else is a package. *)
Definition locate (file spec : string) : option string :=
  match segments spec with
  | s :: rest =>
      if String.eqb s "@" then Some (String.concat "/" ("src" :: rest))
      else if String.eqb s "." || String.eqb s ".."
      then Some (String.concat "/" (rev (fold_left walk (s :: rest) (tail (rev (segments file))))))
      else None
  | [] => None
  end.

Definition extensions : list string :=
  [EmptyString; ".ts"; ".tsx"; ".d.ts"; "/index.ts"; "/index.tsx"].

Inductive Target := Package | Missing | Ambiguous | File (p : string).
Global Instance Target_eq_dec : EqDecision Target.
Proof. solve_decision. Defined.

Definition files (app : Project) : list string := map path (sources app) ++ assets app.

(** What is left of [s] after [pre]. *)
Fixpoint strip (pre s : string) : option string :=
  match pre, s with
  | EmptyString, _ => Some s
  | String a pre', String b s' => if Ascii.eqb a b then strip pre' s' else None
  | String _ _, EmptyString => None
  end.

(** A file for a specifier without (or with) its extension. *)
Definition candidate (stem p : string) : bool :=
  match strip stem p with Some e => existsb (String.eqb e) extensions | None => false end.

Definition resolve (fs : list string) (file spec : string) : Target :=
  match locate file spec with
  | None => Package
  | Some stem =>
      match List.filter (candidate stem) fs with
      | [p] => File p
      | [] => Missing
      | _ => Ambiguous
      end
  end.

(** ** The import graph *)

Abbreviation Graph := (list (string * list Target)).

Definition targets (fs : list string) (keep : Import -> bool) (f : SourceFile) : list Target :=
  map (fun i => resolve fs (path f) (specifier i)) (List.filter keep (imports f)).

Definition graph (keep : Import -> bool) (app : Project) : Graph :=
  let fs := files app in map (fun f => (path f, targets fs keep f)) (sources app).

Definition local (t : Target) : list string := match t with File p => [p] | _ => [] end.
Definition edges (g : Graph) (m : string) : list string :=
  match find (fun e => String.eqb e.1 m) g with Some e => flat_map local e.2 | None => [] end.

(** What the compiler keeps, and all of it. *)
Definition runtime : Project -> Graph := graph at_runtime.
Definition declared : Project -> Graph := graph (fun _ => true).

Definition reaches (g : Graph) : string -> string -> Prop := rtc (fun m d => d ∈ edges g m).

(** ** Evaluation *)

(** The modules whose evaluation has begun, and those whose code has run, in order. *)
Record Registry := { started : list string; evaluated : list string }.
Definition fresh : Registry := {| started := []; evaluated := [] |}.

Local Close Scope string_scope.

Lemma existsb_elem m l : {m ∈ l /\ existsb (String.eqb m) l = true} + {m ∉ l /\ existsb (String.eqb m) l = false}.
Proof.
  destruct (existsb (String.eqb m) l) eqn:E; [left|right]; split; [|done| |done].
  - apply existsb_exists in E as (x & Hx & ->%String.eqb_eq). by apply list_elem_of_In.
  - intros H%list_elem_of_In. enough (existsb (String.eqb m) l = true) by congruence.
    apply existsb_exists. exists m. split; [done|apply String.eqb_refl].
Qed.

Section Evaluation.
Variable deps : string -> list string.

Fixpoint visit (n : nat) (m : string) (r : Registry) : option Registry :=
  match n with
  | 0 => None
  | S n' =>
      if existsb (String.eqb m) (started r) then Some r
      else
        r' ← foldl (fun o d => o ≫= visit n' d)
               (Some {| started := m :: started r; evaluated := evaluated r |}) (deps m);
        Some {| started := started r'; evaluated := evaluated r' ++ [m] |}
  end.

(** The entries are loaded one after another into the same registry. *)
Definition load (n : nat) (entries : list string) (r : Registry) : option Registry :=
  foldl (fun o m => o ≫= visit n m) (Some r) entries.

(** Each module comes after those it imports. *)
Definition after_imports (l : list string) : Prop :=
  forall l1 m l2, l = l1 ++ m :: l2 -> forall d, d ∈ deps m -> d ∈ l1.

Lemma after_imports_nil : after_imports [].
Proof. intros [|x l1] m l2 H; discriminate. Qed.

Lemma after_imports_snoc l m :
  after_imports l -> (forall d, d ∈ deps m -> d ∈ l) -> after_imports (l ++ [m]).
Proof.
  intros Hl Hm l1 x l2 H d Hd.
  destruct l2 as [|y l2] using rev_ind.
  - apply app_inj_tail in H as [-> ->]. by apply Hm.
  - rewrite app_comm_cons, app_assoc in H. apply app_inj_tail in H as [-> _]. by eapply Hl.
Qed.

(** No cycle: a rank that decreases along the imports. *)
Context (rank : string -> nat) (Hrank : forall m d, d ∈ deps m -> rank d < rank m).

Abbreviation reached := (rtc (fun a b => b ∈ deps a)).

Lemma reached_rank a b : reached a b -> rank b <= rank a.
Proof. induction 1 as [|a b c H _ IH]; [done|]. specialize (Hrank a b H). lia. Qed.

(** What holds between two visits. *)
Record well (r : Registry) : Prop := {
  we_nodup : NoDup (evaluated r);
  we_after : after_imports (evaluated r);
  we_began m : m ∈ evaluated r -> m ∈ started r;
}.

(** The modules whose evaluation has begun and not ended are not below [top]. *)
Definition above (top : nat) (r : Registry) : Prop :=
  forall m, m ∈ started r -> m ∉ evaluated r -> top <= rank m.

(** What an evaluation adds: modules that the ones asked for reach. *)
Record extends (ms : list string) (r r' : Registry) : Prop := {
  ex_order : exists l, evaluated r' = evaluated r ++ l
    /\ (forall x, x ∈ l -> exists m, m ∈ ms /\ reached m x);
  ex_started m : m ∈ started r -> m ∈ started r';
  ex_open m : m ∈ started r' -> m ∉ evaluated r' -> m ∈ started r;
  ex_asked m : m ∈ ms -> m ∈ evaluated r';
}.

Lemma extends_mono ms r r' x : extends ms r r' -> x ∈ evaluated r -> x ∈ evaluated r'.
Proof. intros [(l & -> & _) _ _ _] Hx. apply elem_of_app. by left. Qed.

Lemma extends_above ms r r' t : extends ms r r' -> above t r -> above t r'.
Proof.
  intros He Ht x Hx Hn. apply Ht; [by apply (ex_open _ _ _ He)|].
  intros H. apply Hn. by eapply extends_mono.
Qed.

Lemma extends_refl r : extends [] r r.
Proof.
  split; [exists []|done|done|by intros m Hm%elem_of_nil].
  split; [by rewrite app_nil_r|by intros x Hx%elem_of_nil].
Qed.

Lemma extends_cons m ms r r1 r2 : extends [m] r r1 -> extends ms r1 r2 -> extends (m :: ms) r r2.
Proof.
  intros H1 H2. destruct (ex_order _ _ _ H1) as (l1 & E1 & R1), (ex_order _ _ _ H2) as (l2 & E2 & R2). split.
  - exists (l1 ++ l2). split; [by rewrite app_assoc, <- E1|]. intros x [Hx|Hx]%elem_of_app.
    + destruct (R1 x Hx) as (a & ->%list_elem_of_singleton & Ha). exists m. split; [left|done].
    + destruct (R2 x Hx) as (a & Hin & Ha). exists a. split; [by right|done].
  - intros x Hx. by apply (ex_started _ _ _ H2), (ex_started _ _ _ H1).
  - intros x Hx Hn. apply (ex_open _ _ _ H1); [by apply (ex_open _ _ _ H2)|].
    intros H. apply Hn. by eapply extends_mono.
  - intros x [->|Hx]%elem_of_cons; [|by apply (ex_asked _ _ _ H2)].
    apply (extends_mono _ _ _ _ H2), (ex_asked _ _ _ H1). left.
Qed.

Definition visits_well (n : nat) : Prop := forall m r,
  rank m < n -> well r -> above (S (rank m)) r ->
  exists r', visit n m r = Some r' /\ extends [m] r r' /\ well r'.

Lemma visits_list n t ms r :
  visits_well n -> (forall d, d ∈ ms -> rank d < t /\ rank d < n) -> well r -> above t r ->
  exists r', foldl (fun o d => o ≫= visit n d) (Some r) ms = Some r' /\ extends ms r r' /\ well r'.
Proof.
  intros Hv. revert r. induction ms as [|m ms IH]; intros r Hms Hw Ht.
  - exists r. split; [done|]. split; [apply extends_refl|done].
  - destruct (Hms m) as [Hmt Hmn]; [left|].
    destruct (Hv m r Hmn Hw) as (r1 & E1 & X1 & W1).
    { intros x Hx Hn. specialize (Ht x Hx Hn). lia. }
    destruct (IH r1) as (r2 & E2 & X2 & W2); [intros d Hd; apply Hms; by right|done|by eapply extends_above|].
    exists r2. split; [cbn; by rewrite E1|]. split; [by eapply extends_cons|done].
Qed.

(** The end of a visit: the code of the module runs. *)
Lemma visit_ends m r r1 :
  let r0 := {| started := m :: started r; evaluated := evaluated r |} in
  m ∉ started r -> well r -> extends (deps m) r0 r1 -> well r1 ->
  let r2 := {| started := started r1; evaluated := evaluated r1 ++ [m] |} in
  extends [m] r r2 /\ well r2.
Proof.
  intros r0 Hm Hw Hx [W1 W2 W3] r2. destruct (ex_order _ _ _ Hx) as (l & E & R); cbn in E.
  assert (Hnew : m ∉ evaluated r1).
  { rewrite E. intros [H|H]%elem_of_app; [by apply Hm, (we_began _ Hw)|].
    destruct (R m H) as (d & Hd & Hr%reached_rank). specialize (Hrank m d Hd). lia. }
  split; split; cbn.
  - exists (l ++ [m]). split; [by rewrite E, app_assoc|]. intros x [H|H]%elem_of_app.
    + destruct (R x H) as (d & Hd & Hr). exists m. split; [left|]. by eapply rtc_l.
    + apply list_elem_of_singleton in H as ->. exists m. split; [left|constructor].
  - intros x H. apply (ex_started _ _ _ Hx). set_solver.
  - intros x H Hn. assert (Hx0 : x ∈ started r0) by (apply (ex_open _ _ _ Hx); set_solver). set_solver.
  - intros x ->%list_elem_of_singleton. set_solver.
  - apply NoDup_app. split; [done|]. split; [set_solver|apply NoDup_singleton].
  - apply after_imports_snoc; [done|]. apply (ex_asked _ _ _ Hx).
  - intros x [H|H]%elem_of_app; [by apply W3|]. apply list_elem_of_singleton in H as ->.
    apply (ex_started _ _ _ Hx). set_solver.
Qed.

Lemma visit_well n : visits_well n.
Proof.
  induction n as [|n IH]; intros m r Hn Hw Ht; [lia|]. cbn.
  destruct (existsb_elem m (started r)) as [[Hs ->]|[Hs ->]].
  - exists r. split; [done|]. split; [|done]. split; [exists []; split; [by rewrite app_nil_r|set_solver]|done|done|].
    intros x ->%list_elem_of_singleton. destruct (decide (m ∈ evaluated r)) as [H|H]; [done|].
    specialize (Ht m Hs H). lia.
  - destruct (visits_list n (rank m) (deps m) {| started := m :: started r; evaluated := evaluated r |})
      as (r1 & E1 & X1 & W1); [done| | | |].
    + intros d Hd. specialize (Hrank m d Hd). lia.
    + destruct Hw as [H1 H2 H3]. split; [done..|]. cbn. set_solver.
    + intros x Hx Hne. cbn in *. destruct (decide (x = m)) as [->|Hxm]; [done|].
      enough (S (rank m) <= rank x) by lia. apply Ht; set_solver.
    + rewrite E1. eexists. split; [done|]. by eapply visit_ends.
Qed.

Lemma well_fresh : well fresh.
Proof. split; [constructor|apply after_imports_nil|cbn; set_solver]. Qed.

(** Loading any entries ends, with enough fuel: the modules that they reach, each once and
    after those it imports. *)
Theorem load_evaluates n entries :
  (forall m, m ∈ entries -> rank m < n) ->
  exists r, load n entries fresh = Some r /\ NoDup (evaluated r) /\ after_imports (evaluated r)
    /\ (forall x, x ∈ evaluated r <-> exists m, m ∈ entries /\ reached m x).
Proof.
  intros Hn. destruct (visits_list n (S (max_list (map rank entries))) entries fresh) as (r & E & X & [W1 W2 W3]).
  - apply visit_well.
  - intros d Hd. split; [|by apply Hn]. apply Nat.lt_succ_r, max_list_elem_of_le. apply list_elem_of_fmap. by exists d.
  - apply well_fresh.
  - intros x Hx. cbn in Hx. set_solver.
  - exists r. split; [done|]. split; [done|]. split; [done|]. intros x. split.
    + intros Hx. destruct (ex_order _ _ _ X) as (l & El & R). rewrite El in Hx. by apply R.
    + intros (m & Hm & Hr). apply (ex_asked _ _ _ X) in Hm. revert Hm. induction Hr as [|a b c Hab _ IH]; [done|].
      intros Ha. apply IH. apply list_elem_of_split in Ha as (l1 & l2 & Ha).
      rewrite Ha. apply elem_of_app. left. by eapply W2.
Qed.
End Evaluation.

(** ** Checks of a graph, edge by edge *)

Definition every_edge (P : string -> string -> bool) (g : Graph) : bool :=
  forallb (fun e => forallb (P e.1) (flat_map local e.2)) g.

Lemma every_edge_spec P g m d : every_edge P g = true -> d ∈ edges g m -> P m d = true.
Proof.
  unfold every_edge, edges. rewrite forallb_forall. intros H Hd.
  destruct (find _ g) as [[m' ts]|] eqn:E; [|by apply elem_of_nil in Hd].
  apply find_some in E as [Hin Hm]. apply String.eqb_eq in Hm as <-. specialize (H _ Hin).
  rewrite forallb_forall in H. apply H. by apply list_elem_of_In.
Qed.

(** The position in a list, as a rank. *)
Fixpoint position (l : list string) (m : string) : nat :=
  match l with [] => 0 | x :: l' => if String.eqb x m then 0 else S (position l' m) end.
Definition decreasing (order : list string) : Graph -> bool :=
  every_edge (fun m d => position order d <? position order m).

Lemma decreasing_position order g m d :
  decreasing order g = true -> d ∈ edges g m -> position order d < position order m.
Proof. intros H Hd. apply Nat.ltb_lt. by apply (every_edge_spec _ _ _ _ H). Qed.

Lemma position_le l m : position l m <= length l.
Proof. induction l as [|x l IH]; cbn; [lia|]. destruct (String.eqb x m); lia. Qed.

(** What is closed under the edges holds of all that a module reaches. *)
Lemma reaches_closed (P : string -> bool) g m n :
  every_edge (fun a b => implb (P a) (P b)) g = true -> reaches g m n -> P m = true -> P n = true.
Proof.
  intros H. induction 1 as [|a b c Hab _ IH]; [done|]. intros Ha. apply IH.
  apply (every_edge_spec _ _ _ _ H) in Hab. by rewrite Ha in Hab.
Qed.
