(* ===== verification/ModulesWeb.v ===== *)
(** * The source files of web/ and their imports

    One definition per file of web/src (tests apart), named after its path: the directive
    and the import declarations at its top, in order.  The one import that is not a
    declaration, the dynamic one of data/governance.ts, is made when a hook runs: see
    DirectWeb.v. *)
From stdpp Require Import strings.
From S2P Require Import Prelude ModuleGraph.

Local Open Scope string_scope.

(** ** src/api/ *)

Definition api_client : SourceFile :=
  {| path := "src/api/client.ts"; use_client := false;
     imports :=
       [import [Default] "openapi-fetch";
        import (names ["logger"]) "@/lib/logger";
        import_type (names ["paths"]) "./schema"] |}.

(** ** src/app/ *)

Definition app_app_feature_analytics_page : SourceFile :=
  {| path := "src/app/(app)/(feature)/analytics/page.tsx"; use_client := false;
     imports :=
       [import (names ["BarChart3"]) "lucide-react";
        import (names ["AnalyticsScreen"]) "@/features/analytics/analytics-screen";
        import (names ["PageHeader"]) "@/ui/page-header"] |}.

Definition app_app_feature_calendar_page : SourceFile :=
  {| path := "src/app/(app)/(feature)/calendar/page.tsx"; use_client := false;
     imports :=
       [import (names ["Calendar"]) "lucide-react";
        import (names ["CalendarScreen"]) "@/features/schedule/calendar-screen";
        import (names ["PageHeader"]) "@/ui/page-header"] |}.

Definition app_app_feature_channels_page : SourceFile :=
  {| path := "src/app/(app)/(feature)/channels/page.tsx"; use_client := false;
     imports :=
       [import (names ["Radio"]) "lucide-react";
        import (names ["ChannelsPanel"]) "@/features/channels/channels-panel";
        import (names ["PageHeader"]) "@/ui/page-header"] |}.

Definition app_app_feature_compose_page : SourceFile :=
  {| path := "src/app/(app)/(feature)/compose/page.tsx"; use_client := false;
     imports :=
       [import (names ["SquarePen"]) "lucide-react";
        import (names ["ComposeScreen"]) "@/features/composer/compose-screen";
        import (names ["PageHeader"]) "@/ui/page-header"] |}.

Definition app_app_feature_integrations_page : SourceFile :=
  {| path := "src/app/(app)/(feature)/integrations/page.tsx"; use_client := false;
     imports :=
       [import (names ["Puzzle"]) "lucide-react";
        import (names ["IntegrationsScreen"]) "@/features/integrations/integrations-screen";
        import (names ["PageHeader"]) "@/ui/page-header"] |}.

Definition app_app_feature_layout : SourceFile :=
  {| path := "src/app/(app)/(feature)/layout.tsx"; use_client := false; imports := [] |}.

Definition app_app_feature_media_page : SourceFile :=
  {| path := "src/app/(app)/(feature)/media/page.tsx"; use_client := false;
     imports :=
       [import (names ["ImageIcon"]) "lucide-react";
        import (names ["MediaPanel"]) "@/features/media/media-panel";
        import (names ["PageHeader"]) "@/ui/page-header"] |}.

Definition app_app_feature_settings_page : SourceFile :=
  {| path := "src/app/(app)/(feature)/settings/page.tsx"; use_client := true;
     imports :=
       [import (names ["Settings"]) "lucide-react";
        import (names ["useState"]) "react";
        import (names ["MembersPanel"]) "@/features/members/members-panel";
        import (names ["AccountPanel"]) "@/features/settings/account-panel";
        import (names ["useActiveWorkspace"]) "@/features/workspace/use-active-workspace";
        import (names ["cn"]) "@/lib/cn";
        import (names ["PageHeader"]) "@/ui/page-header";
        import (names ["Spinner"]) "@/ui/primitives/spinner"] |}.

Definition app_app_feature_wallet_page : SourceFile :=
  {| path := "src/app/(app)/(feature)/wallet/page.tsx"; use_client := false;
     imports :=
       [import (names ["Wallet"]) "lucide-react";
        import (names ["Suspense"]) "react";
        import (names ["WalletScreen"]) "@/features/wallet/wallet-screen";
        import (names ["PageHeader"]) "@/ui/page-header";
        import (names ["Spinner"]) "@/ui/primitives/spinner"] |}.

Definition app_app_layout : SourceFile :=
  {| path := "src/app/(app)/layout.tsx"; use_client := true;
     imports :=
       [import (names ["dockItems"; "dockManage"]) "@/config/nav";
        import (names ["AuthGuard"]) "@/features/auth/auth-guard";
        import (names ["AppHeader"]) "@/features/shell/app-header";
        import (names ["Dock"]) "@/ui/dock/dock"] |}.

Definition app_app_oauth_callback_page : SourceFile :=
  {| path := "src/app/(app)/oauth/callback/page.tsx"; use_client := false;
     imports :=
       [import (names ["OAuthCallbackClient"]) "@/features/channels/oauth-callback-client"] |}.

Definition app_app_page : SourceFile :=
  {| path := "src/app/(app)/page.tsx"; use_client := true;
     imports :=
       [import [Default] "next/link";
        import (names ["dockItems"; "dockManage"]) "@/config/nav";
        import (names ["OverviewWidgets"]) "@/features/dashboard/overview-widgets";
        import (names ["Hint"]) "@/ui/primitives/hint";
        import (names ["Icon"]) "@/ui/primitives/icon";
        import (names ["Panel"]) "@/ui/primitives/panel"] |}.

Definition app_app_template : SourceFile :=
  {| path := "src/app/(app)/template.tsx"; use_client := true;
     imports :=
       [import (names ["motion"; "useReducedMotion"]) "framer-motion"] |}.

Definition app_auth_login_page : SourceFile :=
  {| path := "src/app/(auth)/login/page.tsx"; use_client := false;
     imports :=
       [import [Default] "next/link";
        import (names ["AuthPanel"]) "@/features/auth/auth-panel";
        import (names ["LoginForm"]) "@/features/auth/login-form"] |}.

Definition app_auth_reset_confirm_page : SourceFile :=
  {| path := "src/app/(auth)/reset/confirm/page.tsx"; use_client := false;
     imports :=
       [import (names ["AuthPanel"]) "@/features/auth/auth-panel";
        import (names ["ConfirmResetForm"]) "@/features/auth/confirm-reset-form"] |}.

Definition app_auth_reset_page : SourceFile :=
  {| path := "src/app/(auth)/reset/page.tsx"; use_client := false;
     imports :=
       [import [Default] "next/link";
        import (names ["AuthPanel"]) "@/features/auth/auth-panel";
        import (names ["RequestResetForm"]) "@/features/auth/request-reset-form"] |}.

Definition app_auth_signup_page : SourceFile :=
  {| path := "src/app/(auth)/signup/page.tsx"; use_client := false;
     imports :=
       [import [Default] "next/link";
        import (names ["AuthPanel"]) "@/features/auth/auth-panel";
        import (names ["SignupForm"]) "@/features/auth/signup-form"] |}.

Definition app_auth_verify_email_page : SourceFile :=
  {| path := "src/app/(auth)/verify-email/page.tsx"; use_client := false;
     imports :=
       [import (names ["AuthPanel"]) "@/features/auth/auth-panel";
        import (names ["VerifyEmailClient"]) "@/features/auth/verify-email-client"] |}.

Definition app_marketing_about_page : SourceFile :=
  {| path := "src/app/(marketing)/about/page.tsx"; use_client := false;
     imports :=
       [import [Default] "next/link";
        import (names ["LegalArticle"]) "@/features/marketing/legal-article"] |}.

Definition app_marketing_contact_page : SourceFile :=
  {| path := "src/app/(marketing)/contact/page.tsx"; use_client := false;
     imports :=
       [import (names ["LegalArticle"]) "@/features/marketing/legal-article"] |}.

Definition app_marketing_layout : SourceFile :=
  {| path := "src/app/(marketing)/layout.tsx"; use_client := false;
     imports :=
       [import [Default] "next/link";
        import (names ["Logo"]) "@/ui/logo";
        import (names ["SiteFooter"]) "@/ui/site-footer"] |}.

Definition app_marketing_privacy_page : SourceFile :=
  {| path := "src/app/(marketing)/privacy/page.tsx"; use_client := false;
     imports :=
       [import (names ["LegalArticle"]) "@/features/marketing/legal-article"] |}.

Definition app_marketing_terms_page : SourceFile :=
  {| path := "src/app/(marketing)/terms/page.tsx"; use_client := false;
     imports :=
       [import (names ["LegalArticle"]) "@/features/marketing/legal-article"] |}.

Definition app_error : SourceFile :=
  {| path := "src/app/error.tsx"; use_client := true;
     imports :=
       [import (names ["useEffect"]) "react";
        import (names ["logger"]) "@/lib/logger";
        import (names ["Button"]) "@/ui/primitives/button";
        import (names ["Panel"]) "@/ui/primitives/panel"] |}.

Definition app_global_error : SourceFile :=
  {| path := "src/app/global-error.tsx"; use_client := true;
     imports :=
       [import (names ["useEffect"]) "react";
        import (names ["logger"]) "@/lib/logger";
        import [] "./globals.css"] |}.

Definition app_layout : SourceFile :=
  {| path := "src/app/layout.tsx"; use_client := false;
     imports :=
       [import (names ["headers"]) "next/headers";
        import_type (names ["Metadata"; "Viewport"]) "next";
        import (names ["Inter"]) "next/font/google";
        import (names ["Providers"]) "./providers";
        import [] "./globals.css"] |}.

Definition app_manifest : SourceFile :=
  {| path := "src/app/manifest.ts"; use_client := false;
     imports :=
       [import_type (names ["MetadataRoute"]) "next"] |}.

Definition app_providers : SourceFile :=
  {| path := "src/app/providers.tsx"; use_client := true;
     imports :=
       [import (names ["QueryClient"; "QueryClientProvider"]) "@tanstack/react-query";
        import (names ["Provider"]) "@radix-ui/react-tooltip";
        import (names ["ThemeProvider"]) "next-themes";
        import [Name "useState"; TypeName "ReactNode"] "react"] |}.

Definition app_robots : SourceFile :=
  {| path := "src/app/robots.ts"; use_client := false;
     imports :=
       [import_type (names ["MetadataRoute"]) "next"] |}.

Definition app_sitemap : SourceFile :=
  {| path := "src/app/sitemap.ts"; use_client := false;
     imports :=
       [import_type (names ["MetadataRoute"]) "next"] |}.

(** ** src/config/ *)

Definition config_capabilities : SourceFile :=
  {| path := "src/config/capabilities.ts"; use_client := false;
     imports :=
       [import_type (names ["components"]) "@/api/schema"] |}.

Definition config_nav : SourceFile :=
  {| path := "src/config/nav.ts"; use_client := false;
     imports :=
       [import (names ["BarChart3"; "Calendar"; "Home"; "ImageIcon"; "Puzzle"; "Radio"; "Settings";
                   "SquarePen"; "Wallet"]) "lucide-react";
        import_type (names ["DockItem"]) "@/ui/dock/dock"] |}.

Definition config_platforms : SourceFile :=
  {| path := "src/config/platforms.tsx"; use_client := false;
     imports :=
       [import (names ["Radio"]) "lucide-react";
        import_type (names ["ComponentType"; "SVGProps"]) "react"] |}.

(** ** src/data/ *)

Definition data_analytics : SourceFile :=
  {| path := "src/data/analytics.ts"; use_client := false;
     imports :=
       [import (names ["useQuery"]) "@tanstack/react-query";
        import (names ["api"; "API_ORIGIN"]) "@/api/client";
        import_type (names ["components"]) "@/api/schema";
        import (names ["normalizeError"]) "@/lib/api-error"] |}.

Definition data_auth : SourceFile :=
  {| path := "src/data/auth.ts"; use_client := false;
     imports :=
       [import (names ["useMutation"; "useQuery"; "useQueryClient"]) "@tanstack/react-query";
        import (names ["api"]) "@/api/client";
        import_type (names ["components"]) "@/api/schema";
        import [Name "normalizeError"; TypeName "NormalizedError"] "@/lib/api-error"] |}.

Definition data_billing : SourceFile :=
  {| path := "src/data/billing.ts"; use_client := false;
     imports :=
       [import (names ["useMutation"; "useQuery"; "useQueryClient"]) "@tanstack/react-query";
        import (names ["api"]) "@/api/client";
        import_type (names ["components"]) "@/api/schema";
        import [Name "normalizeError"; TypeName "NormalizedError"] "@/lib/api-error"] |}.

Definition data_channels : SourceFile :=
  {| path := "src/data/channels.ts"; use_client := false;
     imports :=
       [import (names ["useMutation"; "useQuery"; "useQueryClient"]) "@tanstack/react-query";
        import (names ["api"; "csrfToken"]) "@/api/client";
        import_type (names ["components"]) "@/api/schema";
        import [Name "normalizeError"; TypeName "NormalizedError"] "@/lib/api-error"] |}.

Definition data_governance : SourceFile :=
  {| path := "src/data/governance.ts"; use_client := false;
     imports :=
       [import (names ["useMutation"; "useQuery"; "useQueryClient"]) "@tanstack/react-query";
        import [Name "normalizeError"; TypeName "NormalizedError"] "@/lib/api-error"] |}.

Definition data_integrations : SourceFile :=
  {| path := "src/data/integrations.ts"; use_client := false;
     imports :=
       [import (names ["useMutation"; "useQuery"; "useQueryClient"]) "@tanstack/react-query";
        import (names ["api"]) "@/api/client";
        import_type (names ["components"]) "@/api/schema";
        import [Name "normalizeError"; TypeName "NormalizedError"] "@/lib/api-error"] |}.

Definition data_media : SourceFile :=
  {| path := "src/data/media.ts"; use_client := false;
     imports :=
       [import (names ["useMutation"; "useQuery"; "useQueryClient"]) "@tanstack/react-query";
        import (names ["api"; "API_ORIGIN"; "csrfToken"]) "@/api/client";
        import_type (names ["components"]) "@/api/schema";
        import [Name "normalizeError"; TypeName "NormalizedError"] "@/lib/api-error"] |}.

Definition data_posts : SourceFile :=
  {| path := "src/data/posts.ts"; use_client := false;
     imports :=
       [import (names ["useMutation"; "useQuery"; "useQueryClient"]) "@tanstack/react-query";
        import (names ["api"]) "@/api/client";
        import_type (names ["components"]) "@/api/schema";
        import [Name "normalizeError"; TypeName "NormalizedError"] "@/lib/api-error"] |}.

Definition data_schedule : SourceFile :=
  {| path := "src/data/schedule.ts"; use_client := false;
     imports :=
       [import (names ["useMutation"; "useQuery"; "useQueryClient"]) "@tanstack/react-query";
        import (names ["api"]) "@/api/client";
        import_type (names ["components"]) "@/api/schema";
        import [Name "normalizeError"; TypeName "NormalizedError"] "@/lib/api-error"] |}.

Definition data_workspaces : SourceFile :=
  {| path := "src/data/workspaces.ts"; use_client := false;
     imports :=
       [import (names ["useMutation"; "useQuery"; "useQueryClient"]) "@tanstack/react-query";
        import (names ["api"]) "@/api/client";
        import_type (names ["components"]) "@/api/schema";
        import_type (names ["Capability"; "Role"]) "@/config/capabilities";
        import [Name "normalizeError"; TypeName "NormalizedError"] "@/lib/api-error"] |}.

(** ** src/features/ *)

Definition features_analytics_analytics_screen : SourceFile :=
  {| path := "src/features/analytics/analytics-screen.tsx"; use_client := true;
     imports :=
       [import (names ["format"]) "date-fns";
        import (names ["BarChart3"; "Download"]) "lucide-react";
        import (names ["useState"]) "react";
        import (names ["analyticsCsvURL"; "useAnalyticsOverview"]) "@/data/analytics";
        import (names ["useChannels"]) "@/data/channels";
        import (names ["usePosts"]) "@/data/posts";
        import (names ["useActiveWorkspace"]) "@/features/workspace/use-active-workspace";
        import (names ["cn"]) "@/lib/cn";
        import (names ["atHandle"]) "@/lib/format";
        import (names ["Button"]) "@/ui/primitives/button";
        import (names ["EmptyState"]) "@/ui/primitives/empty-state";
        import (names ["Hint"]) "@/ui/primitives/hint";
        import (names ["Icon"]) "@/ui/primitives/icon";
        import (names ["Panel"]) "@/ui/primitives/panel";
        import (names ["Spinner"]) "@/ui/primitives/spinner";
        import (names ["PostDetail"]) "./post-detail"] |}.

Definition features_analytics_post_detail : SourceFile :=
  {| path := "src/features/analytics/post-detail.tsx"; use_client := true;
     imports :=
       [import (names ["atHandle"]) "@/lib/format";
        import (names ["subDays"]) "date-fns";
        import (names ["useMemo"; "useState"]) "react";
        import (names ["useMetricSeries"; "usePostAnalytics"]) "@/data/analytics";
        import_type (names ["Channel"]) "@/data/channels";
        import (names ["Spinner"]) "@/ui/primitives/spinner";
        import (names ["SeriesChart"]) "./series-chart"] |}.

Definition features_analytics_series_chart : SourceFile :=
  {| path := "src/features/analytics/series-chart.tsx"; use_client := true;
     imports :=
       [import (names ["format"]) "date-fns";
        import (names ["Area"; "AreaChart"; "CartesianGrid"; "ResponsiveContainer"; "Tooltip"; "XAxis";
                   "YAxis"]) "recharts";
        import_type (names ["SeriesPoint"]) "@/data/analytics"] |}.

Definition features_auth_auth_guard : SourceFile :=
  {| path := "src/features/auth/auth-guard.tsx"; use_client := true;
     imports :=
       [import (names ["useRouter"]) "next/navigation";
        import [Name "useEffect"; TypeName "ReactNode"] "react";
        import (names ["useMe"]) "@/data/auth";
        import (names ["Spinner"]) "@/ui/primitives/spinner"] |}.

Definition features_auth_auth_panel : SourceFile :=
  {| path := "src/features/auth/auth-panel.tsx"; use_client := true;
     imports :=
       [import [Default] "next/link";
        import (names ["useRouter"]) "next/navigation";
        import [Name "useEffect"; TypeName "ReactNode"] "react";
        import (names ["useMe"]) "@/data/auth";
        import (names ["Logo"]) "@/ui/logo";
        import (names ["Panel"]) "@/ui/primitives/panel";
        import (names ["ThemeToggle"]) "@/ui/theme-toggle"] |}.

Definition features_auth_confirm_reset_form : SourceFile :=
  {| path := "src/features/auth/confirm-reset-form.tsx"; use_client := true;
     imports :=
       [import (names ["zodResolver"]) "@hookform/resolvers/zod";
        import [Default] "next/link";
        import (names ["useState"]) "react";
        import (names ["useForm"]) "react-hook-form";
        import (names ["useConfirmReset"]) "@/data/auth";
        import_type (names ["NormalizedError"]) "@/lib/api-error";
        import (names ["Button"]) "@/ui/primitives/button";
        import (names ["FormField"]) "@/ui/primitives/form-field";
        import (names ["applyServerErrors"]) "./form-errors";
        import [Name "confirmResetSchema"; TypeName "ConfirmResetValues"] "./schemas"] |}.

Definition features_auth_form_errors : SourceFile :=
  {| path := "src/features/auth/form-errors.ts"; use_client := false;
     imports :=
       [import_type (names ["FieldValues"; "Path"; "UseFormSetError"]) "react-hook-form";
        import_type (names ["NormalizedError"]) "@/lib/api-error"] |}.

Definition features_auth_login_form : SourceFile :=
  {| path := "src/features/auth/login-form.tsx"; use_client := true;
     imports :=
       [import (names ["zodResolver"]) "@hookform/resolvers/zod";
        import (names ["useRouter"]) "next/navigation";
        import (names ["useState"]) "react";
        import (names ["useForm"]) "react-hook-form";
        import (names ["useLogin"]) "@/data/auth";
        import_type (names ["NormalizedError"]) "@/lib/api-error";
        import (names ["Button"]) "@/ui/primitives/button";
        import (names ["FormField"]) "@/ui/primitives/form-field";
        import (names ["applyServerErrors"]) "./form-errors";
        import (names ["ResendVerification"]) "./resend-verification";
        import [Name "loginSchema"; TypeName "LoginValues"] "./schemas"] |}.

Definition features_auth_request_reset_form : SourceFile :=
  {| path := "src/features/auth/request-reset-form.tsx"; use_client := true;
     imports :=
       [import (names ["zodResolver"]) "@hookform/resolvers/zod";
        import (names ["useState"]) "react";
        import (names ["useForm"]) "react-hook-form";
        import (names ["useRequestReset"]) "@/data/auth";
        import_type (names ["NormalizedError"]) "@/lib/api-error";
        import (names ["Button"]) "@/ui/primitives/button";
        import (names ["FormField"]) "@/ui/primitives/form-field";
        import [Name "requestResetSchema"; TypeName "RequestResetValues"] "./schemas"] |}.

Definition features_auth_resend_verification : SourceFile :=
  {| path := "src/features/auth/resend-verification.tsx"; use_client := true;
     imports :=
       [import (names ["useEffect"; "useState"]) "react";
        import (names ["useResendVerification"]) "@/data/auth";
        import_type (names ["NormalizedError"]) "@/lib/api-error";
        import (names ["Button"]) "@/ui/primitives/button"] |}.

Definition features_auth_schemas : SourceFile :=
  {| path := "src/features/auth/schemas.ts"; use_client := false;
     imports :=
       [import (names ["z"]) "zod"] |}.

Definition features_auth_signup_form : SourceFile :=
  {| path := "src/features/auth/signup-form.tsx"; use_client := true;
     imports :=
       [import (names ["zodResolver"]) "@hookform/resolvers/zod";
        import [Default] "next/link";
        import (names ["useState"]) "react";
        import (names ["useForm"]) "react-hook-form";
        import (names ["useSignup"]) "@/data/auth";
        import_type (names ["NormalizedError"]) "@/lib/api-error";
        import (names ["Button"]) "@/ui/primitives/button";
        import (names ["FormField"]) "@/ui/primitives/form-field";
        import (names ["applyServerErrors"]) "./form-errors";
        import (names ["ResendVerification"]) "./resend-verification";
        import [Name "signupSchema"; TypeName "SignupValues"] "./schemas"] |}.

Definition features_auth_user_menu : SourceFile :=
  {| path := "src/features/auth/user-menu.tsx"; use_client := true;
     imports :=
       [import [Namespace] "@radix-ui/react-dropdown-menu";
        import (names ["LogOut"]) "lucide-react";
        import (names ["useRouter"]) "next/navigation";
        import (names ["useLogout"; "useMe"]) "@/data/auth";
        import (names ["Icon"]) "@/ui/primitives/icon"] |}.

Definition features_auth_verify_email_client : SourceFile :=
  {| path := "src/features/auth/verify-email-client.tsx"; use_client := true;
     imports :=
       [import [Default] "next/link";
        import (names ["useEffect"; "useRef"; "useState"]) "react";
        import (names ["useVerifyEmail"]) "@/data/auth";
        import_type (names ["NormalizedError"]) "@/lib/api-error";
        import (names ["Button"]) "@/ui/primitives/button"] |}.

Definition features_channels_channel_card : SourceFile :=
  {| path := "src/features/channels/channel-card.tsx"; use_client := true;
     imports :=
       [import (names ["useState"]) "react";
        import (names ["platformInfo"]) "@/config/platforms";
        import [Name "useDisconnectChannel"; TypeName "Channel"; TypeName "ChannelStatus"] "@/data/channels";
        import_type (names ["NormalizedError"]) "@/lib/api-error";
        import (names ["atHandle"]) "@/lib/format";
        import (names ["Button"]) "@/ui/primitives/button";
        import (names ["ConfirmDialog"]) "@/ui/primitives/confirm-dialog";
        import (names ["StatusPill"]) "@/ui/primitives/status-pill";
        import (names ["Tooltip"]) "@/ui/primitives/tooltip"] |}.

Definition features_channels_channels_panel : SourceFile :=
  {| path := "src/features/channels/channels-panel.tsx"; use_client := true;
     imports :=
       [import (names ["Radio"]) "lucide-react";
        import (names ["PLATFORMS"]) "@/config/platforms";
        import (names ["useChannels"]) "@/data/channels";
        import (names ["useActiveWorkspace"]) "@/features/workspace/use-active-workspace";
        import (names ["EmptyState"]) "@/ui/primitives/empty-state";
        import (names ["Hint"]) "@/ui/primitives/hint";
        import (names ["Panel"]) "@/ui/primitives/panel";
        import (names ["Spinner"]) "@/ui/primitives/spinner";
        import (names ["StatusPill"]) "@/ui/primitives/status-pill";
        import (names ["Tooltip"]) "@/ui/primitives/tooltip";
        import (names ["ChannelCard"]) "./channel-card";
        import (names ["ConnectChannelButton"]) "./connect-channel-button";
        import (names ["ManualConnectChannel"]) "./manual-connect-channel"] |}.

Definition features_channels_connect_channel_button : SourceFile :=
  {| path := "src/features/channels/connect-channel-button.tsx"; use_client := true;
     imports :=
       [import (names ["useState"]) "react";
        import (names ["useConnectChannel"]) "@/data/channels";
        import_type (names ["NormalizedError"]) "@/lib/api-error";
        import (names ["Button"]) "@/ui/primitives/button"] |}.

Definition features_channels_manual_connect_channel : SourceFile :=
  {| path := "src/features/channels/manual-connect-channel.tsx"; use_client := true;
     imports :=
       [import (names ["useState"]) "react";
        import (names ["useConnectManual"]) "@/data/channels";
        import_type (names ["NormalizedError"]) "@/lib/api-error";
        import (names ["Button"]) "@/ui/primitives/button";
        import (names ["FormField"]) "@/ui/primitives/form-field"] |}.

Definition features_channels_oauth_callback_client : SourceFile :=
  {| path := "src/features/channels/oauth-callback-client.tsx"; use_client := true;
     imports :=
       [import [Default] "next/link";
        import (names ["useRouter"]) "next/navigation";
        import (names ["useEffect"; "useRef"; "useState"]) "react";
        import (names ["useCompleteOAuth"]) "@/data/channels";
        import_type (names ["NormalizedError"]) "@/lib/api-error";
        import (names ["atHandle"]) "@/lib/format";
        import (names ["Button"]) "@/ui/primitives/button";
        import (names ["Panel"]) "@/ui/primitives/panel";
        import (names ["Spinner"]) "@/ui/primitives/spinner"] |}.

Definition features_composer_channel_picker : SourceFile :=
  {| path := "src/features/composer/channel-picker.tsx"; use_client := true;
     imports :=
       [import (names ["platformInfo"]) "@/config/platforms";
        import_type (names ["Channel"]) "@/data/channels";
        import (names ["cn"]) "@/lib/cn";
        import (names ["atHandle"]) "@/lib/format";
        import (names ["Tooltip"]) "@/ui/primitives/tooltip"] |}.

Definition features_composer_compose_screen : SourceFile :=
  {| path := "src/features/composer/compose-screen.tsx"; use_client := true;
     imports :=
       [import (names ["Radio"]) "lucide-react";
        import [Default] "next/link";
        import (names ["useState"]) "react";
        import (names ["useChannels"]) "@/data/channels";
        import (names ["usePost"]) "@/data/posts";
        import (names ["useActiveWorkspace"]) "@/features/workspace/use-active-workspace";
        import (names ["Button"]) "@/ui/primitives/button";
        import (names ["EmptyState"]) "@/ui/primitives/empty-state";
        import (names ["Panel"]) "@/ui/primitives/panel";
        import (names ["Spinner"]) "@/ui/primitives/spinner";
        import (names ["Composer"]) "./composer";
        import (names ["DraftsList"]) "./drafts-list"] |}.

Definition features_composer_composer : SourceFile :=
  {| path := "src/features/composer/composer.tsx"; use_client := true;
     imports :=
       [import [Default] "next/link";
        import (names ["useState"]) "react";
        import (names ["platformInfo"]) "@/config/platforms";
        import (names ["useWallet"]) "@/data/billing";
        import (names ["useShortenLinks"]) "@/data/integrations";
        import_type (names ["Channel"]) "@/data/channels";
        import [Name "firstURL"; Name "useCreatePost"; Name "useUpdatePost"; Name "useValidatePost"; TypeName "MediaMeta"; TypeName "Post"; TypeName "VariantValidation"] "@/data/posts";
        import_type (names ["NormalizedError"]) "@/lib/api-error";
        import (names ["atHandle"]) "@/lib/format";
        import (names ["cn"]) "@/lib/cn";
        import (names ["Button"]) "@/ui/primitives/button";
        import (names ["Panel"]) "@/ui/primitives/panel";
        import (names ["StatusPill"]) "@/ui/primitives/status-pill";
        import (names ["ChannelPicker"]) "./channel-picker";
        import (names ["MediaAttach"]) "./media-attach";
        import (names ["PostPreview"]) "./post-preview";
        import (names ["UtmPreview"]) "./utm-preview";
        import (names ["VariantEditor"]) "./variant-editor"] |}.

Definition features_composer_drafts_list : SourceFile :=
  {| path := "src/features/composer/drafts-list.tsx"; use_client := true;
     imports :=
       [import (names ["useState"]) "react";
        import [Name "usePosts"; Name "useDeletePost"; TypeName "Post"] "@/data/posts";
        import (names ["ScheduleDialog"]) "@/features/schedule/schedule-dialog";
        import_type (names ["NormalizedError"]) "@/lib/api-error";
        import (names ["Button"]) "@/ui/primitives/button";
        import (names ["ConfirmDialog"]) "@/ui/primitives/confirm-dialog";
        import (names ["Spinner"]) "@/ui/primitives/spinner";
        import (names ["StatusPill"]) "@/ui/primitives/status-pill"] |}.

Definition features_composer_media_attach : SourceFile :=
  {| path := "src/features/composer/media-attach.tsx"; use_client := true;
     imports :=
       [import [Namespace] "@radix-ui/react-dialog";
        import (names ["Film"; "ImagePlus"; "X"]) "lucide-react";
        import (names ["useState"]) "react";
        import [Name "mediaDownloadURL"; Name "useMedia"; TypeName "Asset"] "@/data/media";
        import_type (names ["MediaMeta"]) "@/data/posts";
        import (names ["formatBytes"]) "@/lib/format";
        import (names ["Button"]) "@/ui/primitives/button";
        import (names ["EmptyState"]) "@/ui/primitives/empty-state";
        import (names ["Icon"]) "@/ui/primitives/icon";
        import (names ["Spinner"]) "@/ui/primitives/spinner"] |}.

Definition features_composer_post_preview : SourceFile :=
  {| path := "src/features/composer/post-preview.tsx"; use_client := true;
     imports :=
       [import (names ["BarChart2"; "Bookmark"; "Heart"; "MessageCircle"; "Repeat2"; "Share"]) "lucide-react";
        import (names ["platformInfo"]) "@/config/platforms";
        import_type (names ["Channel"]) "@/data/channels";
        import (names ["mediaDownloadURL"]) "@/data/media";
        import [Name "firstURL"; Name "useLinkPreview"; TypeName "MediaMeta"] "@/data/posts";
        import (names ["atHandle"]) "@/lib/format";
        import (names ["cn"]) "@/lib/cn";
        import (names ["Hint"]) "@/ui/primitives/hint";
        import (names ["Icon"]) "@/ui/primitives/icon"] |}.

Definition features_composer_utm_preview : SourceFile :=
  {| path := "src/features/composer/utm-preview.tsx"; use_client := true;
     imports :=
       [import (names ["useState"]) "react";
        import (names ["useUtmPreview"]) "@/data/posts";
        import_type (names ["NormalizedError"]) "@/lib/api-error";
        import (names ["Button"]) "@/ui/primitives/button";
        import (names ["Hint"]) "@/ui/primitives/hint"] |}.

Definition features_composer_variant_editor : SourceFile :=
  {| path := "src/features/composer/variant-editor.tsx"; use_client := true;
     imports :=
       [import (names ["useId"]) "react";
        import (names ["cn"]) "@/lib/cn"] |}.

Definition features_dashboard_overview_widgets : SourceFile :=
  {| path := "src/features/dashboard/overview-widgets.tsx"; use_client := true;
     imports :=
       [import (names ["atHandle"]) "@/lib/format";
        import (names ["addDays"; "format"; "isSameDay"]) "date-fns";
        import (names ["CalendarClock"; "Radio"; "SquarePen"]) "lucide-react";
        import [Default] "next/link";
        import (names ["useState"]) "react";
        import (names ["useChannels"]) "@/data/channels";
        import (names ["usePosts"]) "@/data/posts";
        import (names ["useCalendar"]) "@/data/schedule";
        import (names ["JOB_TONE"]) "@/features/schedule/job-item";
        import (names ["useActiveWorkspace"]) "@/features/workspace/use-active-workspace";
        import (names ["Button"]) "@/ui/primitives/button";
        import (names ["Icon"]) "@/ui/primitives/icon";
        import (names ["Panel"]) "@/ui/primitives/panel";
        import (names ["Spinner"]) "@/ui/primitives/spinner";
        import (names ["StatusPill"]) "@/ui/primitives/status-pill"] |}.

Definition features_integrations_integrations_screen : SourceFile :=
  {| path := "src/features/integrations/integrations-screen.tsx"; use_client := true;
     imports :=
       [import (names ["BarChart3"; "Check"; "Link2"; "QrCode"; "Radio"; "Scissors"]) "lucide-react";
        import [Default] "next/link";
        import (names ["useState"]) "react";
        import (names ["useChannels"]) "@/data/channels";
        import (names ["useConfigureIntegration"; "useIntegrations"]) "@/data/integrations";
        import (names ["useActiveWorkspace"]) "@/features/workspace/use-active-workspace";
        import_type (names ["NormalizedError"]) "@/lib/api-error";
        import (names ["Button"]) "@/ui/primitives/button";
        import (names ["Hint"]) "@/ui/primitives/hint";
        import (names ["Icon"]) "@/ui/primitives/icon";
        import (names ["Panel"]) "@/ui/primitives/panel";
        import (names ["Spinner"]) "@/ui/primitives/spinner";
        import (names ["StatusPill"]) "@/ui/primitives/status-pill"] |}.

Definition features_marketing_legal_article : SourceFile :=
  {| path := "src/features/marketing/legal-article.tsx"; use_client := false;
     imports :=
       [import_type (names ["ReactNode"]) "react"] |}.

Definition features_media_asset_tile : SourceFile :=
  {| path := "src/features/media/asset-tile.tsx"; use_client := true;
     imports :=
       [import (names ["Film"; "Trash2"]) "lucide-react";
        import (names ["useState"]) "react";
        import [Name "mediaDownloadURL"; Name "useDeleteMedia"; TypeName "Asset"] "@/data/media";
        import_type (names ["NormalizedError"]) "@/lib/api-error";
        import (names ["formatBytes"]) "@/lib/format";
        import (names ["Button"]) "@/ui/primitives/button";
        import (names ["ConfirmDialog"]) "@/ui/primitives/confirm-dialog";
        import (names ["Icon"]) "@/ui/primitives/icon"] |}.

Definition features_media_media_panel : SourceFile :=
  {| path := "src/features/media/media-panel.tsx"; use_client := true;
     imports :=
       [import (names ["ImageIcon"]) "lucide-react";
        import (names ["useMedia"]) "@/data/media";
        import (names ["useActiveWorkspace"]) "@/features/workspace/use-active-workspace";
        import (names ["EmptyState"]) "@/ui/primitives/empty-state";
        import (names ["Hint"]) "@/ui/primitives/hint";
        import (names ["Panel"]) "@/ui/primitives/panel";
        import (names ["Spinner"]) "@/ui/primitives/spinner";
        import (names ["AssetTile"]) "./asset-tile";
        import (names ["UploadButton"]) "./upload-button"] |}.

Definition features_media_upload_button : SourceFile :=
  {| path := "src/features/media/upload-button.tsx"; use_client := true;
     imports :=
       [import (names ["Upload"]) "lucide-react";
        import (names ["useRef"; "useState"]) "react";
        import (names ["useUploadMedia"]) "@/data/media";
        import (names ["Button"]) "@/ui/primitives/button";
        import (names ["Icon"]) "@/ui/primitives/icon"] |}.

Definition features_members_activity_feed : SourceFile :=
  {| path := "src/features/members/activity-feed.tsx"; use_client := true;
     imports :=
       [import [Name "useActivity"; TypeName "ActivityEntry"] "@/data/governance";
        import (names ["Panel"]) "@/ui/primitives/panel";
        import (names ["Spinner"]) "@/ui/primitives/spinner"] |}.

Definition features_members_add_member_form : SourceFile :=
  {| path := "src/features/members/add-member-form.tsx"; use_client := true;
     imports :=
       [import (names ["zodResolver"]) "@hookform/resolvers/zod";
        import (names ["useState"]) "react";
        import (names ["useForm"]) "react-hook-form";
        import (names ["z"]) "zod";
        import [Name "ROLE_LABELS"; Name "ROLES"; TypeName "Capability"; TypeName "Role"] "@/config/capabilities";
        import (names ["useAddMember"]) "@/data/workspaces";
        import_type (names ["NormalizedError"]) "@/lib/api-error";
        import (names ["Button"]) "@/ui/primitives/button";
        import (names ["FormField"]) "@/ui/primitives/form-field";
        import (names ["CapabilityCheckboxes"]) "./capability-checkboxes"] |}.

Definition features_members_capability_checkboxes : SourceFile :=
  {| path := "src/features/members/capability-checkboxes.tsx"; use_client := true;
     imports :=
       [import [Name "CAPABILITIES"; TypeName "Capability"] "@/config/capabilities"] |}.

Definition features_members_member_channel_access : SourceFile :=
  {| path := "src/features/members/member-channel-access.tsx"; use_client := true;
     imports :=
       [import (names ["useState"]) "react";
        import (names ["useChannels"]) "@/data/channels";
        import [Name "useMemberChannels"; Name "useSetMemberChannels"; TypeName "ChannelAccess"] "@/data/governance";
        import_type (names ["NormalizedError"]) "@/lib/api-error";
        import (names ["atHandle"]) "@/lib/format";
        import (names ["Button"]) "@/ui/primitives/button";
        import (names ["Spinner"]) "@/ui/primitives/spinner"] |}.

Definition features_members_members_panel : SourceFile :=
  {| path := "src/features/members/members-panel.tsx"; use_client := true;
     imports :=
       [import [Name "ROLE_LABELS"; Name "ROLES"; TypeName "Role"] "@/config/capabilities";
        import [Name "useMembers"; Name "useUpdateCapabilities"; TypeName "Member"] "@/data/workspaces";
        import (names ["Panel"]) "@/ui/primitives/panel";
        import (names ["Spinner"]) "@/ui/primitives/spinner";
        import (names ["StatusPill"]) "@/ui/primitives/status-pill";
        import (names ["AddMemberForm"]) "./add-member-form";
        import (names ["ActivityFeed"]) "./activity-feed";
        import (names ["MemberChannelAccess"]) "./member-channel-access"] |}.

Definition features_schedule_calendar_screen : SourceFile :=
  {| path := "src/features/schedule/calendar-screen.tsx"; use_client := true;
     imports :=
       [import (names ["addDays"; "addMonths"; "addWeeks"; "eachDayOfInterval"; "endOfMonth"; "endOfWeek";
                   "format"; "isSameDay"; "isSameMonth"; "isToday"; "startOfMonth"; "startOfWeek"]) "date-fns";
        import (names ["ChevronLeft"; "ChevronRight"]) "lucide-react";
        import (names ["motion"; "useReducedMotion"]) "framer-motion";
        import (names ["useState"]) "react";
        import (names ["useChannels"]) "@/data/channels";
        import [Name "useCalendar"; TypeName "Job"] "@/data/schedule";
        import (names ["useActiveWorkspace"]) "@/features/workspace/use-active-workspace";
        import (names ["cn"]) "@/lib/cn";
        import (names ["atHandle"]) "@/lib/format";
        import (names ["Button"]) "@/ui/primitives/button";
        import (names ["Panel"]) "@/ui/primitives/panel";
        import (names ["Spinner"]) "@/ui/primitives/spinner";
        import (names ["JobItem"; "JOB_TONE"]) "./job-item";
        import (names ["SlotsManager"]) "./slots-manager"] |}.

Definition features_schedule_job_item : SourceFile :=
  {| path := "src/features/schedule/job-item.tsx"; use_client := true;
     imports :=
       [import (names ["format"]) "date-fns";
        import (names ["useState"]) "react";
        import_type (names ["Channel"]) "@/data/channels";
        import [Name "useCancelJob"; TypeName "Job"; TypeName "JobStatus"] "@/data/schedule";
        import_type (names ["NormalizedError"]) "@/lib/api-error";
        import (names ["atHandle"]) "@/lib/format";
        import (names ["Button"]) "@/ui/primitives/button";
        import (names ["ConfirmDialog"]) "@/ui/primitives/confirm-dialog";
        import (names ["StatusPill"]) "@/ui/primitives/status-pill"] |}.

Definition features_schedule_schedule_dialog : SourceFile :=
  {| path := "src/features/schedule/schedule-dialog.tsx"; use_client := true;
     imports :=
       [import [Namespace] "@radix-ui/react-dialog";
        import (names ["X"]) "lucide-react";
        import [Default] "next/link";
        import [Name "useState"; TypeName "ReactNode"] "react";
        import (names ["useSchedulePost"]) "@/data/schedule";
        import_type (names ["NormalizedError"]) "@/lib/api-error";
        import (names ["Button"]) "@/ui/primitives/button";
        import (names ["Hint"]) "@/ui/primitives/hint";
        import (names ["Icon"]) "@/ui/primitives/icon"] |}.

Definition features_schedule_slots_manager : SourceFile :=
  {| path := "src/features/schedule/slots-manager.tsx"; use_client := true;
     imports :=
       [import (names ["Trash2"]) "lucide-react";
        import (names ["useState"]) "react";
        import_type (names ["Channel"]) "@/data/channels";
        import (names ["useCreateSlot"; "useDeleteSlot"; "useSlots"]) "@/data/schedule";
        import_type (names ["NormalizedError"]) "@/lib/api-error";
        import (names ["atHandle"]) "@/lib/format";
        import (names ["Button"]) "@/ui/primitives/button";
        import (names ["Hint"]) "@/ui/primitives/hint";
        import (names ["Icon"]) "@/ui/primitives/icon";
        import (names ["Panel"]) "@/ui/primitives/panel";
        import (names ["Spinner"]) "@/ui/primitives/spinner"] |}.

Definition features_settings_account_panel : SourceFile :=
  {| path := "src/features/settings/account-panel.tsx"; use_client := true;
     imports :=
       [import (names ["format"]) "date-fns";
        import (names ["useMe"]) "@/data/auth";
        import_type (names ["Workspace"]) "@/data/workspaces";
        import (names ["Panel"]) "@/ui/primitives/panel";
        import (names ["Spinner"]) "@/ui/primitives/spinner";
        import (names ["StatusPill"]) "@/ui/primitives/status-pill";
        import (names ["ThemeToggle"]) "@/ui/theme-toggle"] |}.

Definition features_shell_app_header : SourceFile :=
  {| path := "src/features/shell/app-header.tsx"; use_client := true;
     imports :=
       [import [Default] "next/link";
        import (names ["UserMenu"]) "@/features/auth/user-menu";
        import (names ["WorkspaceSwitcher"]) "@/features/workspace/workspace-switcher";
        import (names ["ThemeToggle"]) "@/ui/theme-toggle"] |}.

Definition features_wallet_wallet_screen : SourceFile :=
  {| path := "src/features/wallet/wallet-screen.tsx"; use_client := true;
     imports :=
       [import (names ["ArrowDownLeft"; "ArrowUpRight"; "RotateCcw"; "Sparkles"]) "lucide-react";
        import (names ["useSearchParams"]) "next/navigation";
        import (names ["useMemo"; "useState"]) "react";
        import [Name "useLedger"; Name "useTopup"; Name "useWallet"; TypeName "LedgerEntry"; TypeName "TopupProvider"] "@/data/billing";
        import (names ["useActiveWorkspace"]) "@/features/workspace/use-active-workspace";
        import_type (names ["NormalizedError"]) "@/lib/api-error";
        import (names ["cn"]) "@/lib/cn";
        import (names ["Button"]) "@/ui/primitives/button";
        import (names ["Hint"]) "@/ui/primitives/hint";
        import (names ["Icon"]) "@/ui/primitives/icon";
        import (names ["Panel"]) "@/ui/primitives/panel";
        import (names ["Spinner"]) "@/ui/primitives/spinner"] |}.

Definition features_workspace_use_active_workspace : SourceFile :=
  {| path := "src/features/workspace/use-active-workspace.ts"; use_client := false;
     imports :=
       [import [Name "useWorkspaces"; TypeName "Workspace"] "@/data/workspaces";
        import (names ["useWorkspaceStore"]) "@/stores/workspace"] |}.

Definition features_workspace_workspace_switcher : SourceFile :=
  {| path := "src/features/workspace/workspace-switcher.tsx"; use_client := true;
     imports :=
       [import [Namespace] "@radix-ui/react-dropdown-menu";
        import (names ["Check"; "ChevronsUpDown"]) "lucide-react";
        import (names ["cn"]) "@/lib/cn";
        import (names ["Icon"]) "@/ui/primitives/icon";
        import (names ["useActiveWorkspace"]) "./use-active-workspace"] |}.

(** ** src/lib/ *)

Definition lib_api_error : SourceFile :=
  {| path := "src/lib/api-error.ts"; use_client := false;
     imports :=
       [import (names ["logger"]) "./logger"] |}.

Definition lib_cn : SourceFile :=
  {| path := "src/lib/cn.ts"; use_client := false;
     imports :=
       [import [Name "clsx"; TypeName "ClassValue"] "clsx";
        import (names ["twMerge"]) "tailwind-merge"] |}.

Definition lib_format : SourceFile :=
  {| path := "src/lib/format.ts"; use_client := false; imports := [] |}.

Definition lib_logger : SourceFile :=
  {| path := "src/lib/logger.ts"; use_client := false; imports := [] |}.

Definition proxy : SourceFile :=
  {| path := "src/proxy.ts"; use_client := false;
     imports :=
       [import [Name "NextResponse"; TypeName "NextRequest"] "next/server"] |}.

(** ** src/stores/ *)

Definition stores_workspace : SourceFile :=
  {| path := "src/stores/workspace.ts"; use_client := false;
     imports :=
       [import (names ["create"]) "zustand";
        import (names ["persist"]) "zustand/middleware"] |}.

(** ** src/ui/ *)

Definition ui_dock_dock : SourceFile :=
  {| path := "src/ui/dock/dock.tsx"; use_client := true;
     imports :=
       [import (names ["motion"; "useReducedMotion"]) "framer-motion";
        import_type (names ["LucideIcon"]) "lucide-react";
        import [Default] "next/link";
        import (names ["usePathname"]) "next/navigation";
        import (names ["Fragment"]) "react";
        import (names ["cn"]) "@/lib/cn";
        import (names ["spring"]) "@/ui/motion/presets";
        import (names ["Icon"]) "@/ui/primitives/icon";
        import (names ["Tooltip"]) "@/ui/primitives/tooltip"] |}.

Definition ui_logo : SourceFile :=
  {| path := "src/ui/logo.tsx"; use_client := false;
     imports :=
       [import (names ["cn"]) "@/lib/cn"] |}.

Definition ui_motion_presets : SourceFile :=
  {| path := "src/ui/motion/presets.ts"; use_client := false;
     imports :=
       [import_type (names ["Transition"; "Variants"]) "framer-motion"] |}.

Definition ui_page_header : SourceFile :=
  {| path := "src/ui/page-header.tsx"; use_client := false;
     imports :=
       [import_type (names ["LucideIcon"]) "lucide-react";
        import_type (names ["ReactNode"]) "react";
        import (names ["Icon"]) "@/ui/primitives/icon"] |}.

Definition ui_primitives_button : SourceFile :=
  {| path := "src/ui/primitives/button.tsx"; use_client := true;
     imports :=
       [import (names ["Slot"]) "@radix-ui/react-slot";
        import [Name "cva"; TypeName "VariantProps"] "class-variance-authority";
        import [Name "forwardRef"; TypeName "ButtonHTMLAttributes"] "react";
        import (names ["cn"]) "@/lib/cn"] |}.

Definition ui_primitives_confirm_dialog : SourceFile :=
  {| path := "src/ui/primitives/confirm-dialog.tsx"; use_client := true;
     imports :=
       [import [Namespace] "@radix-ui/react-dialog";
        import_type (names ["ReactNode"]) "react";
        import (names ["Button"]) "./button"] |}.

Definition ui_primitives_empty_state : SourceFile :=
  {| path := "src/ui/primitives/empty-state.tsx"; use_client := false;
     imports :=
       [import_type (names ["LucideIcon"]) "lucide-react";
        import_type (names ["ReactNode"]) "react";
        import (names ["cn"]) "@/lib/cn";
        import (names ["Icon"]) "./icon"] |}.

Definition ui_primitives_form_field : SourceFile :=
  {| path := "src/ui/primitives/form-field.tsx"; use_client := false;
     imports :=
       [import (names ["Eye"; "EyeOff"]) "lucide-react";
        import [Name "forwardRef"; Name "useId"; Name "useState"; TypeName "InputHTMLAttributes"; TypeName "ReactNode"] "react";
        import (names ["cn"]) "@/lib/cn"] |}.

Definition ui_primitives_hint : SourceFile :=
  {| path := "src/ui/primitives/hint.tsx"; use_client := true;
     imports :=
       [import (names ["Info"]) "lucide-react";
        import_type (names ["ReactNode"]) "react";
        import (names ["Icon"]) "./icon";
        import (names ["Tooltip"]) "./tooltip"] |}.

Definition ui_primitives_icon : SourceFile :=
  {| path := "src/ui/primitives/icon.tsx"; use_client := false;
     imports :=
       [import_type (names ["LucideIcon"]) "lucide-react";
        import (names ["cn"]) "@/lib/cn"] |}.

Definition ui_primitives_panel : SourceFile :=
  {| path := "src/ui/primitives/panel.tsx"; use_client := false;
     imports :=
       [import_type (names ["HTMLAttributes"]) "react";
        import (names ["cn"]) "@/lib/cn"] |}.

Definition ui_primitives_spinner : SourceFile :=
  {| path := "src/ui/primitives/spinner.tsx"; use_client := false;
     imports :=
       [import (names ["cn"]) "@/lib/cn"] |}.

Definition ui_primitives_status_pill : SourceFile :=
  {| path := "src/ui/primitives/status-pill.tsx"; use_client := false;
     imports :=
       [import_type (names ["ReactNode"]) "react";
        import (names ["cn"]) "@/lib/cn"] |}.

Definition ui_primitives_tooltip : SourceFile :=
  {| path := "src/ui/primitives/tooltip.tsx"; use_client := true;
     imports :=
       [import [Namespace] "@radix-ui/react-tooltip";
        import_type (names ["ReactNode"]) "react";
        import (names ["cn"]) "@/lib/cn"] |}.

Definition ui_site_footer : SourceFile :=
  {| path := "src/ui/site-footer.tsx"; use_client := false;
     imports :=
       [import [Default] "next/link";
        import (names ["Logo"]) "@/ui/logo"] |}.

Definition ui_theme_toggle : SourceFile :=
  {| path := "src/ui/theme-toggle.tsx"; use_client := true;
     imports :=
       [import (names ["Moon"; "Sun"]) "lucide-react";
        import (names ["useTheme"]) "next-themes";
        import (names ["cn"]) "@/lib/cn";
        import (names ["Icon"]) "./primitives/icon";
        import (names ["Tooltip"]) "./primitives/tooltip"] |}.

(** ** The application *)

Definition project : Project :=
  {| sources :=
       [api_client; app_app_feature_analytics_page; app_app_feature_calendar_page;
        app_app_feature_channels_page; app_app_feature_compose_page; app_app_feature_integrations_page;
        app_app_feature_layout; app_app_feature_media_page; app_app_feature_settings_page;
        app_app_feature_wallet_page; app_app_layout; app_app_oauth_callback_page; app_app_page;
        app_app_template; app_auth_login_page; app_auth_reset_confirm_page; app_auth_reset_page;
        app_auth_signup_page; app_auth_verify_email_page; app_marketing_about_page;
        app_marketing_contact_page; app_marketing_layout; app_marketing_privacy_page;
        app_marketing_terms_page; app_error; app_global_error; app_layout; app_manifest; app_providers;
        app_robots; app_sitemap; config_capabilities; config_nav; config_platforms; data_analytics;
        data_auth; data_billing; data_channels; data_governance; data_integrations; data_media;
        data_posts; data_schedule; data_workspaces; features_analytics_analytics_screen;
        features_analytics_post_detail; features_analytics_series_chart; features_auth_auth_guard;
        features_auth_auth_panel; features_auth_confirm_reset_form; features_auth_form_errors;
        features_auth_login_form; features_auth_request_reset_form; features_auth_resend_verification;
        features_auth_schemas; features_auth_signup_form; features_auth_user_menu;
        features_auth_verify_email_client; features_channels_channel_card;
        features_channels_channels_panel; features_channels_connect_channel_button;
        features_channels_manual_connect_channel; features_channels_oauth_callback_client;
        features_composer_channel_picker; features_composer_compose_screen; features_composer_composer;
        features_composer_drafts_list; features_composer_media_attach; features_composer_post_preview;
        features_composer_utm_preview; features_composer_variant_editor;
        features_dashboard_overview_widgets; features_integrations_integrations_screen;
        features_marketing_legal_article; features_media_asset_tile; features_media_media_panel;
        features_media_upload_button; features_members_activity_feed; features_members_add_member_form;
        features_members_capability_checkboxes; features_members_member_channel_access;
        features_members_members_panel; features_schedule_calendar_screen; features_schedule_job_item;
        features_schedule_schedule_dialog; features_schedule_slots_manager;
        features_settings_account_panel; features_shell_app_header; features_wallet_wallet_screen;
        features_workspace_use_active_workspace; features_workspace_workspace_switcher; lib_api_error;
        lib_cn; lib_format; lib_logger; proxy; stores_workspace; ui_dock_dock; ui_logo;
        ui_motion_presets; ui_page_header; ui_primitives_button; ui_primitives_confirm_dialog;
        ui_primitives_empty_state; ui_primitives_form_field; ui_primitives_hint; ui_primitives_icon;
        ui_primitives_panel; ui_primitives_spinner; ui_primitives_status_pill; ui_primitives_tooltip;
        ui_site_footer; ui_theme_toggle];
     assets := ["src/app/globals.css"; "src/api/schema.d.ts"] |}.
