(* ===== verification/ModulesMobile.v ===== *)
(** * The source files of mobile/ and their imports

    One definition per file of mobile/src (tests apart), named after its path, as in
    ModulesWeb.v. *)
From stdpp Require Import strings.
From S2P Require Import Prelude ModuleGraph.

Local Open Scope string_scope.

(** ** src/api/ *)

Definition api_client : SourceFile :=
  {| path := "src/api/client.ts"; use_client := false;
     imports :=
       [import [Default] "openapi-fetch";
        import (names ["logger"]) "@/lib/logger";
        import (names ["getAccessToken"; "getRefreshToken"; "saveSession"; "setAccessToken"]) "@/lib/secure-session";
        import_type (names ["paths"]) "./schema"] |}.

(** ** src/app/ *)

Definition app_auth_layout : SourceFile :=
  {| path := "src/app/(auth)/_layout.tsx"; use_client := false;
     imports :=
       [import (names ["Redirect"; "Stack"]) "expo-router";
        import (names ["useMe"]) "@/data/auth";
        import (names ["BrandSplash"]) "@/ui/brand-splash"] |}.

Definition app_auth_login : SourceFile :=
  {| path := "src/app/(auth)/login.tsx"; use_client := false;
     imports :=
       [import (names ["Link"; "useRouter"]) "expo-router";
        import (names ["useState"]) "react";
        import (names ["StyleSheet"; "Text"]) "react-native";
        import (names ["useLogin"]) "@/data/auth";
        import (names ["AuthScaffold"]) "@/features/auth/auth-scaffold";
        import (names ["ResendVerification"]) "@/features/auth/resend-verification";
        import_type (names ["NormalizedError"]) "@/lib/api-error";
        import (names ["loginSchema"]) "@/lib/schemas";
        import (names ["type"]) "@/lib/tokens";
        import (names ["usePalette"]) "@/lib/use-palette";
        import (names ["Button"]) "@/ui/button";
        import (names ["FormField"]) "@/ui/form-field"] |}.

Definition app_auth_reset : SourceFile :=
  {| path := "src/app/(auth)/reset.tsx"; use_client := false;
     imports :=
       [import (names ["Link"]) "expo-router";
        import (names ["useState"]) "react";
        import (names ["StyleSheet"; "Text"]) "react-native";
        import (names ["useRequestReset"]) "@/data/auth";
        import (names ["AuthScaffold"]) "@/features/auth/auth-scaffold";
        import_type (names ["NormalizedError"]) "@/lib/api-error";
        import (names ["requestResetSchema"]) "@/lib/schemas";
        import (names ["type"]) "@/lib/tokens";
        import (names ["usePalette"]) "@/lib/use-palette";
        import (names ["Button"]) "@/ui/button";
        import (names ["FormField"]) "@/ui/form-field"] |}.

Definition app_auth_signup : SourceFile :=
  {| path := "src/app/(auth)/signup.tsx"; use_client := false;
     imports :=
       [import (names ["Link"; "useRouter"]) "expo-router";
        import (names ["useState"]) "react";
        import (names ["StyleSheet"; "Text"]) "react-native";
        import (names ["useSignup"]) "@/data/auth";
        import (names ["AuthScaffold"]) "@/features/auth/auth-scaffold";
        import (names ["ResendVerification"]) "@/features/auth/resend-verification";
        import_type (names ["NormalizedError"]) "@/lib/api-error";
        import (names ["signupSchema"]) "@/lib/schemas";
        import (names ["type"]) "@/lib/tokens";
        import (names ["usePalette"]) "@/lib/use-palette";
        import (names ["Button"]) "@/ui/button";
        import (names ["FormField"]) "@/ui/form-field"] |}.

Definition app_tabs_layout : SourceFile :=
  {| path := "src/app/(tabs)/_layout.tsx"; use_client := false;
     imports :=
       [import (names ["Redirect"; "Tabs"]) "expo-router";
        import (names ["BarChart3"; "Calendar"; "Home"; "Radio"; "SquarePen"]) "lucide-react-native";
        import (names ["useMe"]) "@/data/auth";
        import (names ["usePalette"]) "@/lib/use-palette";
        import (names ["BrandSplash"]) "@/ui/brand-splash"] |}.

Definition app_tabs_calendar : SourceFile :=
  {| path := "src/app/(tabs)/calendar.tsx"; use_client := false;
     imports :=
       [import (names ["useState"]) "react";
        import (names ["ActivityIndicator"; "Alert"; "ScrollView"; "StyleSheet"; "Text"; "View"]) "react-native";
        import (names ["useSafeAreaInsets"]) "react-native-safe-area-context";
        import (names ["useChannels"]) "@/data/channels";
        import [Name "useCalendar"; Name "useCancelJob"; TypeName "Job"] "@/data/schedule";
        import (names ["JOB_TONE"]) "@/features/schedule/job-status";
        import (names ["useActiveWorkspace"]) "@/features/workspace/use-active-workspace";
        import (names ["space"; "type"]) "@/lib/tokens";
        import (names ["usePalette"]) "@/lib/use-palette";
        import (names ["Button"]) "@/ui/button";
        import (names ["Panel"]) "@/ui/panel";
        import (names ["StatusPill"]) "@/ui/status-pill"] |}.

Definition app_tabs_channels : SourceFile :=
  {| path := "src/app/(tabs)/channels.tsx"; use_client := false;
     imports :=
       [import (names ["useState"]) "react";
        import (names ["ActivityIndicator"; "Alert"; "ScrollView"; "StyleSheet"; "Text"; "View"]) "react-native";
        import (names ["useSafeAreaInsets"]) "react-native-safe-area-context";
        import (names ["platformInfo"; "PLATFORMS"]) "@/config/platforms";
        import [Name "useChannels"; Name "useConnectManual"; Name "useDisconnectChannel"; TypeName "Channel"] "@/data/channels";
        import (names ["useConnectFlow"]) "@/features/channels/use-connect-flow";
        import (names ["useActiveWorkspace"]) "@/features/workspace/use-active-workspace";
        import_type (names ["NormalizedError"]) "@/lib/api-error";
        import (names ["space"; "type"]) "@/lib/tokens";
        import (names ["usePalette"]) "@/lib/use-palette";
        import (names ["Button"]) "@/ui/button";
        import (names ["FormField"]) "@/ui/form-field";
        import (names ["Panel"]) "@/ui/panel";
        import [Name "StatusPill"; TypeName "PillTone"] "@/ui/status-pill"] |}.

Definition app_tabs_compose : SourceFile :=
  {| path := "src/app/(tabs)/compose.tsx"; use_client := false;
     imports :=
       [import (names ["ComposeScreen"]) "@/features/compose/compose-screen"] |}.

Definition app_tabs_index : SourceFile :=
  {| path := "src/app/(tabs)/index.tsx"; use_client := false;
     imports :=
       [import (names ["useRouter"]) "expo-router";
        import (names ["CircleCheck"; "Mail"]) "lucide-react-native";
        import (names ["ScrollView"; "StyleSheet"; "Text"; "View"]) "react-native";
        import (names ["useSafeAreaInsets"]) "react-native-safe-area-context";
        import (names ["useLogout"; "useMe"]) "@/data/auth";
        import (names ["space"; "type"]) "@/lib/tokens";
        import (names ["usePalette"]) "@/lib/use-palette";
        import (names ["Button"]) "@/ui/button";
        import (names ["Panel"]) "@/ui/panel";
        import (names ["StatusPill"]) "@/ui/status-pill"] |}.

Definition app_tabs_more_layout : SourceFile :=
  {| path := "src/app/(tabs)/more/_layout.tsx"; use_client := false;
     imports :=
       [import (names ["Stack"]) "expo-router";
        import (names ["usePalette"]) "@/lib/use-palette"] |}.

Definition app_tabs_more_analytics : SourceFile :=
  {| path := "src/app/(tabs)/more/analytics.tsx"; use_client := false;
     imports :=
       [import (names ["ActivityIndicator"; "ScrollView"; "StyleSheet"; "Text"; "View"]) "react-native";
        import (names ["useAnalyticsOverview"]) "@/data/analytics";
        import (names ["useChannels"]) "@/data/channels";
        import (names ["usePosts"]) "@/data/posts";
        import (names ["useActiveWorkspace"]) "@/features/workspace/use-active-workspace";
        import (names ["space"; "type"]) "@/lib/tokens";
        import (names ["usePalette"]) "@/lib/use-palette";
        import (names ["Panel"]) "@/ui/panel"] |}.

Definition app_tabs_more_index : SourceFile :=
  {| path := "src/app/(tabs)/more/index.tsx"; use_client := false;
     imports :=
       [import (names ["useRouter"]) "expo-router";
        import (names ["BarChart3"; "ChevronRight"; "Settings"; "Users"; "Wallet"]) "lucide-react-native";
        import_type (names ["ComponentType"]) "react";
        import (names ["Pressable"; "ScrollView"; "StyleSheet"; "Text"; "View"]) "react-native";
        import (names ["useSafeAreaInsets"]) "react-native-safe-area-context";
        import (names ["space"; "type"]) "@/lib/tokens";
        import (names ["usePalette"]) "@/lib/use-palette";
        import (names ["Panel"]) "@/ui/panel"] |}.

Definition app_tabs_more_members : SourceFile :=
  {| path := "src/app/(tabs)/more/members.tsx"; use_client := false;
     imports :=
       [import (names ["useState"]) "react";
        import (names ["ActivityIndicator"; "ScrollView"; "StyleSheet"; "Text"; "View"]) "react-native";
        import (names ["useMe"]) "@/data/auth";
        import [Name "useAddMember"; Name "useMembers"; Name "ASSIGNABLE_ROLES"; Name "ROLE_LABELS"; TypeName "AssignableRole"; TypeName "Member"] "@/data/members";
        import (names ["ActivityFeed"]) "@/features/members/activity-feed";
        import (names ["MemberChannelAccess"]) "@/features/members/member-channel-access";
        import (names ["useActiveWorkspace"]) "@/features/workspace/use-active-workspace";
        import_type (names ["NormalizedError"]) "@/lib/api-error";
        import (names ["radius"; "space"; "type"]) "@/lib/tokens";
        import (names ["usePalette"]) "@/lib/use-palette";
        import (names ["Button"]) "@/ui/button";
        import (names ["FormField"]) "@/ui/form-field";
        import (names ["Panel"]) "@/ui/panel";
        import (names ["StatusPill"]) "@/ui/status-pill"] |}.

Definition app_tabs_more_settings : SourceFile :=
  {| path := "src/app/(tabs)/more/settings.tsx"; use_client := false;
     imports :=
       [import (names ["useRouter"]) "expo-router";
        import (names ["ScrollView"; "StyleSheet"; "Text"; "View"]) "react-native";
        import (names ["useLogout"; "useMe"]) "@/data/auth";
        import (names ["useActiveWorkspace"]) "@/features/workspace/use-active-workspace";
        import (names ["radius"; "space"; "type"]) "@/lib/tokens";
        import (names ["usePalette"]) "@/lib/use-palette";
        import [Name "useThemeStore"; TypeName "ThemePreference"] "@/stores/theme";
        import (names ["Button"]) "@/ui/button";
        import (names ["Panel"]) "@/ui/panel";
        import (names ["StatusPill"]) "@/ui/status-pill"] |}.

Definition app_tabs_more_wallet : SourceFile :=
  {| path := "src/app/(tabs)/more/wallet.tsx"; use_client := false;
     imports :=
       [import (names ["ActivityIndicator"; "Linking"; "ScrollView"; "StyleSheet"; "Text"; "View"]) "react-native";
        import [Name "useLedger"; Name "useWallet"; TypeName "LedgerEntry"] "@/data/billing";
        import (names ["useActiveWorkspace"]) "@/features/workspace/use-active-workspace";
        import (names ["radius"; "space"; "type"]) "@/lib/tokens";
        import (names ["usePalette"]) "@/lib/use-palette";
        import (names ["Button"]) "@/ui/button";
        import (names ["Panel"]) "@/ui/panel"] |}.

Definition app_layout : SourceFile :=
  {| path := "src/app/_layout.tsx"; use_client := false;
     imports :=
       [import (names ["QueryClient"; "QueryClientProvider"]) "@tanstack/react-query";
        import (names ["Stack"]) "expo-router";
        import (names ["StatusBar"]) "expo-status-bar";
        import (names ["useState"]) "react";
        import (names ["SafeAreaProvider"]) "react-native-safe-area-context";
        import (names ["useBootstrap"]) "@/features/auth/use-bootstrap";
        import (names ["usePalette"]) "@/lib/use-palette";
        import (names ["BrandSplash"]) "@/ui/brand-splash"] |}.

(** ** src/config/ *)

Definition config_platforms : SourceFile :=
  {| path := "src/config/platforms.tsx"; use_client := false;
     imports :=
       [import_type (names ["ComponentType"]) "react";
        import [Default; Name "Circle"; Name "Path"; Name "Rect"; TypeName "SvgProps"] "react-native-svg"] |}.

(** ** src/data/ *)

Definition data_analytics : SourceFile :=
  {| path := "src/data/analytics.ts"; use_client := false;
     imports :=
       [import (names ["useQuery"]) "@tanstack/react-query";
        import (names ["api"]) "@/api/client";
        import_type (names ["components"]) "@/api/schema";
        import (names ["normalizeError"]) "@/lib/api-error"] |}.

Definition data_auth : SourceFile :=
  {| path := "src/data/auth.ts"; use_client := false;
     imports :=
       [import (names ["useMutation"; "useQuery"; "useQueryClient"]) "@tanstack/react-query";
        import (names ["api"; "API_ORIGIN"]) "@/api/client";
        import_type (names ["components"]) "@/api/schema";
        import [Name "normalizeError"; TypeName "NormalizedError"] "@/lib/api-error";
        import (names ["clearSession"; "saveSession"]) "@/lib/secure-session"] |}.

Definition data_billing : SourceFile :=
  {| path := "src/data/billing.ts"; use_client := false;
     imports :=
       [import (names ["useQuery"]) "@tanstack/react-query";
        import (names ["api"]) "@/api/client";
        import_type (names ["components"]) "@/api/schema";
        import (names ["normalizeError"]) "@/lib/api-error"] |}.

Definition data_channels : SourceFile :=
  {| path := "src/data/channels.ts"; use_client := false;
     imports :=
       [import (names ["useMutation"; "useQuery"; "useQueryClient"]) "@tanstack/react-query";
        import (names ["api"; "API_ORIGIN"; "refreshSession"]) "@/api/client";
        import_type (names ["components"]) "@/api/schema";
        import [Name "normalizeError"; TypeName "NormalizedError"] "@/lib/api-error";
        import (names ["getAccessToken"]) "@/lib/secure-session"] |}.

Definition data_governance : SourceFile :=
  {| path := "src/data/governance.ts"; use_client := false;
     imports :=
       [import (names ["useMutation"; "useQuery"; "useQueryClient"]) "@tanstack/react-query";
        import (names ["API_ORIGIN"; "refreshSession"]) "@/api/client";
        import [Name "normalizeError"; TypeName "NormalizedError"] "@/lib/api-error";
        import (names ["getAccessToken"]) "@/lib/secure-session"] |}.

Definition data_media : SourceFile :=
  {| path := "src/data/media.ts"; use_client := false;
     imports :=
       [import (names ["useMutation"; "useQuery"; "useQueryClient"]) "@tanstack/react-query";
        import (names ["api"; "API_ORIGIN"; "refreshSession"]) "@/api/client";
        import_type (names ["components"]) "@/api/schema";
        import [Name "normalizeError"; TypeName "NormalizedError"] "@/lib/api-error";
        import (names ["getAccessToken"]) "@/lib/secure-session"] |}.

Definition data_members : SourceFile :=
  {| path := "src/data/members.ts"; use_client := false;
     imports :=
       [import (names ["useMutation"; "useQuery"; "useQueryClient"]) "@tanstack/react-query";
        import (names ["api"]) "@/api/client";
        import_type (names ["components"]) "@/api/schema";
        import [Name "normalizeError"; TypeName "NormalizedError"] "@/lib/api-error"] |}.

Definition data_posts : SourceFile :=
  {| path := "src/data/posts.ts"; use_client := false;
     imports :=
       [import (names ["useMutation"; "useQuery"; "useQueryClient"]) "@tanstack/react-query";
        import (names ["api"]) "@/api/client";
        import_type (names ["components"]) "@/api/schema";
        import [Name "normalizeError"; TypeName "NormalizedError"] "@/lib/api-error"] |}.

Definition data_schedule : SourceFile :=
  {| path := "src/data/schedule.ts"; use_client := false;
     imports :=
       [import (names ["useMutation"; "useQuery"; "useQueryClient"]) "@tanstack/react-query";
        import (names ["api"]) "@/api/client";
        import_type (names ["components"]) "@/api/schema";
        import [Name "normalizeError"; TypeName "NormalizedError"] "@/lib/api-error"] |}.

Definition data_workspaces : SourceFile :=
  {| path := "src/data/workspaces.ts"; use_client := false;
     imports :=
       [import (names ["useQuery"]) "@tanstack/react-query";
        import (names ["api"]) "@/api/client";
        import_type (names ["components"]) "@/api/schema";
        import (names ["normalizeError"]) "@/lib/api-error"] |}.

(** ** src/features/ *)

Definition features_auth_auth_scaffold : SourceFile :=
  {| path := "src/features/auth/auth-scaffold.tsx"; use_client := false;
     imports :=
       [import_type (names ["ReactNode"]) "react";
        import (names ["KeyboardAvoidingView"; "Platform"; "ScrollView"; "StyleSheet"; "Text"; "View"]) "react-native";
        import (names ["useSafeAreaInsets"]) "react-native-safe-area-context";
        import (names ["space"; "type"]) "@/lib/tokens";
        import (names ["usePalette"]) "@/lib/use-palette";
        import (names ["Logo"]) "@/ui/logo";
        import (names ["Panel"]) "@/ui/panel"] |}.

Definition features_auth_resend_verification : SourceFile :=
  {| path := "src/features/auth/resend-verification.tsx"; use_client := false;
     imports :=
       [import (names ["useEffect"; "useState"]) "react";
        import (names ["StyleSheet"; "Text"; "View"]) "react-native";
        import (names ["useResendVerification"]) "@/data/auth";
        import_type (names ["NormalizedError"]) "@/lib/api-error";
        import (names ["space"; "type"]) "@/lib/tokens";
        import (names ["usePalette"]) "@/lib/use-palette";
        import (names ["Button"]) "@/ui/button"] |}.

Definition features_auth_use_bootstrap : SourceFile :=
  {| path := "src/features/auth/use-bootstrap.ts"; use_client := false;
     imports :=
       [import (names ["useEffect"; "useState"]) "react";
        import (names ["refreshSession"]) "@/api/client"] |}.

Definition features_channels_use_connect_flow : SourceFile :=
  {| path := "src/features/channels/use-connect-flow.ts"; use_client := false;
     imports :=
       [import [Namespace] "expo-linking";
        import [Namespace] "expo-web-browser";
        import [Name "OAUTH_REDIRECT"; Name "useCompleteOAuth"; Name "useConnectChannel"; TypeName "Channel"] "@/data/channels"] |}.

Definition features_compose_compose_screen : SourceFile :=
  {| path := "src/features/compose/compose-screen.tsx"; use_client := false;
     imports :=
       [import (names ["Image"]) "expo-image";
        import (names ["X"]) "lucide-react-native";
        import (names ["useState"]) "react";
        import (names ["ActivityIndicator"; "Alert"; "Pressable"; "ScrollView"; "StyleSheet"; "Text";
                   "TextInput"; "View"]) "react-native";
        import (names ["useSafeAreaInsets"]) "react-native-safe-area-context";
        import (names ["platformInfo"]) "@/config/platforms";
        import (names ["useWallet"]) "@/data/billing";
        import [Name "useChannels"; TypeName "Channel"] "@/data/channels";
        import [Name "mediaSource"; Name "useUploadMedia"; TypeName "Asset"] "@/data/media";
        import [Name "firstURL"; Name "useCreatePost"; Name "useDeletePost"; Name "usePosts"; Name "useUpdatePost"; Name "useValidatePost"; TypeName "MediaMeta"; TypeName "Post"; TypeName "VariantValidation"] "@/data/posts";
        import (names ["pickMedia"]) "@/features/compose/pick-media";
        import (names ["PostPreview"]) "@/features/compose/post-preview";
        import (names ["PublishSheet"]) "@/features/schedule/publish-sheet";
        import (names ["useActiveWorkspace"]) "@/features/workspace/use-active-workspace";
        import (names ["radius"; "space"; "type"]) "@/lib/tokens";
        import (names ["usePalette"]) "@/lib/use-palette";
        import (names ["Button"]) "@/ui/button";
        import (names ["Panel"]) "@/ui/panel";
        import (names ["StatusPill"]) "@/ui/status-pill"] |}.

Definition features_compose_pick_media : SourceFile :=
  {| path := "src/features/compose/pick-media.ts"; use_client := false;
     imports :=
       [import [Namespace] "expo-image-picker";
        import_type (names ["PickedFile"]) "@/data/media"] |}.

Definition features_compose_post_preview : SourceFile :=
  {| path := "src/features/compose/post-preview.tsx"; use_client := false;
     imports :=
       [import (names ["Image"]) "expo-image";
        import (names ["BarChart2"; "Bookmark"; "Heart"; "MessageCircle"; "Repeat2"; "Share"]) "lucide-react-native";
        import (names ["Linking"; "StyleSheet"; "Text"; "View"]) "react-native";
        import (names ["mediaSource"]) "@/data/media";
        import [Name "firstURL"; TypeName "MediaMeta"] "@/data/posts";
        import (names ["radius"; "space"; "type"]) "@/lib/tokens";
        import (names ["usePalette"]) "@/lib/use-palette"] |}.

Definition features_members_activity_feed : SourceFile :=
  {| path := "src/features/members/activity-feed.tsx"; use_client := false;
     imports :=
       [import (names ["ActivityIndicator"; "StyleSheet"; "Text"; "View"]) "react-native";
        import [Name "useActivity"; TypeName "ActivityEntry"] "@/data/governance";
        import (names ["space"; "type"]) "@/lib/tokens";
        import (names ["usePalette"]) "@/lib/use-palette";
        import (names ["Panel"]) "@/ui/panel"] |}.

Definition features_members_member_channel_access : SourceFile :=
  {| path := "src/features/members/member-channel-access.tsx"; use_client := false;
     imports :=
       [import (names ["Check"]) "lucide-react-native";
        import (names ["useState"]) "react";
        import (names ["ActivityIndicator"; "Pressable"; "StyleSheet"; "Switch"; "Text"; "View"]) "react-native";
        import (names ["useChannels"]) "@/data/channels";
        import [Name "useMemberChannels"; Name "useSetMemberChannels"; TypeName "ChannelAccess"] "@/data/governance";
        import_type (names ["NormalizedError"]) "@/lib/api-error";
        import (names ["radius"; "space"; "type"]) "@/lib/tokens";
        import (names ["usePalette"]) "@/lib/use-palette";
        import (names ["Button"]) "@/ui/button"] |}.

Definition features_schedule_job_status : SourceFile :=
  {| path := "src/features/schedule/job-status.ts"; use_client := false;
     imports :=
       [import_type (names ["JobStatus"]) "@/data/schedule";
        import_type (names ["PillTone"]) "@/ui/status-pill"] |}.

Definition features_schedule_publish_sheet : SourceFile :=
  {| path := "src/features/schedule/publish-sheet.tsx"; use_client := false;
     imports :=
       [import [Default] "@react-native-community/datetimepicker";
        import (names ["useState"]) "react";
        import (names ["Modal"; "Pressable"; "StyleSheet"; "Text"; "View"]) "react-native";
        import (names ["useSchedulePost"]) "@/data/schedule";
        import_type (names ["NormalizedError"]) "@/lib/api-error";
        import (names ["radius"; "space"; "type"]) "@/lib/tokens";
        import (names ["usePalette"]) "@/lib/use-palette";
        import (names ["Button"]) "@/ui/button"] |}.

Definition features_workspace_use_active_workspace : SourceFile :=
  {| path := "src/features/workspace/use-active-workspace.ts"; use_client := false;
     imports :=
       [import [Name "useWorkspaces"; TypeName "Workspace"] "@/data/workspaces";
        import (names ["useWorkspaceStore"]) "@/stores/workspace"] |}.

(** ** src/lib/ *)

Definition lib_api_error : SourceFile :=
  {| path := "src/lib/api-error.ts"; use_client := false;
     imports :=
       [import (names ["logger"]) "@/lib/logger"] |}.

Definition lib_logger : SourceFile :=
  {| path := "src/lib/logger.ts"; use_client := false; imports := [] |}.

Definition lib_schemas : SourceFile :=
  {| path := "src/lib/schemas.ts"; use_client := false;
     imports :=
       [import (names ["z"]) "zod"] |}.

Definition lib_secure_session : SourceFile :=
  {| path := "src/lib/secure-session.ts"; use_client := false;
     imports :=
       [import [Namespace] "expo-secure-store"] |}.

Definition lib_tokens : SourceFile :=
  {| path := "src/lib/tokens.ts"; use_client := false; imports := [] |}.

Definition lib_use_palette : SourceFile :=
  {| path := "src/lib/use-palette.ts"; use_client := false;
     imports :=
       [import (names ["useColorScheme"]) "react-native";
        import [Name "palettes"; TypeName "Palette"] "@/lib/tokens";
        import (names ["useThemeStore"]) "@/stores/theme"] |}.

(** ** src/stores/ *)

Definition stores_theme : SourceFile :=
  {| path := "src/stores/theme.ts"; use_client := false;
     imports :=
       [import (names ["create"]) "zustand"] |}.

Definition stores_workspace : SourceFile :=
  {| path := "src/stores/workspace.ts"; use_client := false;
     imports :=
       [import (names ["create"]) "zustand"] |}.

(** ** src/ui/ *)

Definition ui_brand_splash : SourceFile :=
  {| path := "src/ui/brand-splash.tsx"; use_client := false;
     imports :=
       [import (names ["ActivityIndicator"; "StyleSheet"; "Text"; "View"]) "react-native";
        import (names ["space"; "type"]) "@/lib/tokens";
        import (names ["usePalette"]) "@/lib/use-palette";
        import (names ["Logo"]) "@/ui/logo"] |}.

Definition ui_button : SourceFile :=
  {| path := "src/ui/button.tsx"; use_client := false;
     imports :=
       [import_type (names ["ReactNode"]) "react";
        import [Name "ActivityIndicator"; Name "Pressable"; Name "StyleSheet"; Name "Text"; TypeName "ViewStyle"] "react-native";
        import (names ["radius"; "space"; "type"]) "@/lib/tokens";
        import (names ["usePalette"]) "@/lib/use-palette"] |}.

Definition ui_form_field : SourceFile :=
  {| path := "src/ui/form-field.tsx"; use_client := false;
     imports :=
       [import (names ["Eye"; "EyeOff"]) "lucide-react-native";
        import (names ["useState"]) "react";
        import [Name "Pressable"; Name "StyleSheet"; Name "Text"; Name "TextInput"; Name "View"; TypeName "TextInputProps"] "react-native";
        import (names ["radius"; "space"; "type"]) "@/lib/tokens";
        import (names ["usePalette"]) "@/lib/use-palette"] |}.

Definition ui_logo : SourceFile :=
  {| path := "src/ui/logo.tsx"; use_client := false;
     imports :=
       [import [Default; Name "Defs"; Name "LinearGradient"; Name "Path"; Name "Rect"; Name "Stop"] "react-native-svg";
        import (names ["usePalette"]) "@/lib/use-palette"] |}.

Definition ui_panel : SourceFile :=
  {| path := "src/ui/panel.tsx"; use_client := false;
     imports :=
       [import_type (names ["ReactNode"]) "react";
        import [Name "StyleSheet"; Name "View"; TypeName "ViewStyle"] "react-native";
        import (names ["radius"; "space"]) "@/lib/tokens";
        import (names ["usePalette"]) "@/lib/use-palette"] |}.

Definition ui_status_pill : SourceFile :=
  {| path := "src/ui/status-pill.tsx"; use_client := false;
     imports :=
       [import (names ["StyleSheet"; "Text"; "View"]) "react-native";
        import (names ["radius"; "space"; "type"]) "@/lib/tokens";
        import (names ["usePalette"]) "@/lib/use-palette"] |}.

(** ** The application *)

Definition project : Project :=
  {| sources :=
       [api_client; app_auth_layout; app_auth_login; app_auth_reset; app_auth_signup; app_tabs_layout;
        app_tabs_calendar; app_tabs_channels; app_tabs_compose; app_tabs_index; app_tabs_more_layout;
        app_tabs_more_analytics; app_tabs_more_index; app_tabs_more_members; app_tabs_more_settings;
        app_tabs_more_wallet; app_layout; config_platforms; data_analytics; data_auth; data_billing;
        data_channels; data_governance; data_media; data_members; data_posts; data_schedule;
        data_workspaces; features_auth_auth_scaffold; features_auth_resend_verification;
        features_auth_use_bootstrap; features_channels_use_connect_flow;
        features_compose_compose_screen; features_compose_pick_media; features_compose_post_preview;
        features_members_activity_feed; features_members_member_channel_access;
        features_schedule_job_status; features_schedule_publish_sheet;
        features_workspace_use_active_workspace; lib_api_error; lib_logger; lib_schemas;
        lib_secure_session; lib_tokens; lib_use_palette; stores_theme; stores_workspace;
        ui_brand_splash; ui_button; ui_form_field; ui_logo; ui_panel; ui_status_pill];
     assets := ["src/api/schema.d.ts"] |}.
