(* ===== verification/Modules.v ===== *)
(** * How the source files of the two applications fit together

    The import graphs of web/ and mobile/ (ModulesWeb.v, ModulesMobile.v): they have no
    cycle, so that every page a browser opens finds its modules initialised; they respect
    the layers of docs/FRONTEND_PLAN.md (7), of which the lint configuration checks a part;
    on the web, what is rendered on the server uses no hooks, and what runs in the browser
    does not read the headers of requests; and no file is unused. *)
From stdpp Require Import strings.
From S2P Require Import Prelude ModuleGraph.
From S2P Require ModulesWeb ModulesMobile.

Local Open Scope string_scope.

Definition is_app (app : Project) : Prop := app = ModulesWeb.project \/ app = ModulesMobile.project.

(** The files that a path names, and what begins and ends it. *)
Definition starts (p s : string) : bool := match strip p s with Some _ => true | None => false end.
Fixpoint ends (p s : string) : bool :=
  String.eqb s p || match s with String _ s' => ends p s' | EmptyString => false end.

Definition source (app : Project) (p : string) : option SourceFile :=
  find (fun f => String.eqb (path f) p) (sources app).

(** ** Entries *)

(** Next.js loads the files of src/app that have a name of its conventions, and proxy.ts;
    Expo Router every file of src/app. *)
Definition conventions : list string :=
  ["page.tsx"; "layout.tsx"; "template.tsx"; "error.tsx"; "global-error.tsx"; "manifest.ts"; "robots.ts"; "sitemap.ts"].
Definition web_entry (p : string) : bool :=
  String.eqb p "src/proxy.ts"
  || starts "src/app/" p && existsb (String.eqb (List.last (segments p) EmptyString)) conventions.
Definition mobile_entry (p : string) : bool := starts "src/app/" p.

(** Enough fuel for any evaluation: one more than the files. *)
Definition fuel (app : Project) : nat := S (length (files app)).
Definition evaluate (app : Project) (entries : list string) : option Registry :=
  load (edges (runtime app)) (fuel app) entries fresh.

(** An order of all the files in which imports come first. *)
Definition order_of (g : Graph) (app : Project) : list string :=
  default [] (option_map evaluated (load (edges g) (fuel app) (map path (sources app)) fresh)).

(** ** Layers *)

Inductive Layer := Routes | Features | Data | Ui | Config | Stores | Lib | Api | Outside.
Global Instance Layer_eq_dec : EqDecision Layer.
Proof. solve_decision. Defined.

Definition layer (p : string) : Layer :=
  if starts "src/app/" p then Routes else if starts "src/features/" p then Features
  else if starts "src/data/" p then Data else if starts "src/ui/" p then Ui
  else if starts "src/config/" p then Config else if starts "src/stores/" p then Stores
  else if starts "src/lib/" p then Lib else if starts "src/api/" p then Api else Outside.

(** What each layer depends on, directly or not. *)
Definition below (l : Layer) : list Layer :=
  match l with
  | Routes => [Routes; Features; Data; Ui; Config; Stores; Lib; Api]
  | Features => [Features; Data; Ui; Config; Stores; Lib; Api]
  | Data => [Data; Api; Lib; Stores]
  | Api => [Api; Lib; Stores]
  | Ui => [Ui; Lib; Stores]
  | Lib => [Lib; Stores]
  | Config => [Config]
  | Stores => [Stores]
  | Outside => []
  end.

(** ** The lint configuration *)

(** An entry of eslint.config with its rule no-restricted-imports. *)
Record Override := { globs : list string; group : list string; message : string }.

(** ESLint's documented matching: of files with a glob, of specifiers with the patterns of
    .gitignore, by which a directory's entries include what is below them. *)
Class Linter := {
  glob_matches : string -> string -> bool;
  group_matches : string -> string -> bool;
  glob_under dir p :
    glob_matches (dir ++ "/**/*.{ts,tsx}") p = starts (dir ++ "/") p && (ends ".ts" p || ends ".tsx" p);
  group_under dir s :
    group_matches (dir ++ "/*") s = starts (dir ++ "/") s && negb (String.eqb s (dir ++ "/"));
}.

Definition restricted `{Linter} (config : list Override) (file spec : string) : bool :=
  existsb (fun o => existsb (fun g => glob_matches g file) (globs o)
                    && existsb (fun g => group_matches g spec) (group o)) config.

(** The imports that the linter reports. *)
Definition lint `{Linter} (config : list Override) (app : Project) : list (string * string) :=
  flat_map (fun f => map (fun i => (path f, specifier i))
                       (List.filter (fun i => restricted config (path f) (specifier i)) (imports f)))
    (sources app).

Module Web.
Definition ui_boundary : Override :=
  {| globs := ["src/ui/**/*.{ts,tsx}"];
     group := ["@/data/*"; "@/features/*"; "@/app/*"; "@/api/*"];
     message := "ui/ must not import data/features/app/api (FRONTEND_PLAN §7)." |}.
Definition data_boundary : Override :=
  {| globs := ["src/data/**/*.{ts,tsx}"];
     group := ["@/ui/*"; "@/features/*"; "@/app/*"];
     message := "data/ must not import ui/features/app (FRONTEND_PLAN §7)." |}.
Definition eslintConfig : list Override := [ui_boundary; data_boundary].
End Web.

Module Mobile.
Definition ui_boundary : Override :=
  {| globs := ["src/ui/**/*.{ts,tsx}"];
     group := ["@/data/*"; "@/features/*"; "@/app/*"];
     message := "ui/ stays presentational." |}.
Definition data_boundary : Override :=
  {| globs := ["src/data/**/*.{ts,tsx}"];
     group := ["@/ui/*"; "@/features/*"; "@/app/*"];
     message := "data/ is the network layer only." |}.
Definition eslintConfig : list Override := [ui_boundary; data_boundary].
End Mobile.

(** ** Server and client modules of the web application *)

Definition web : Graph := runtime ModulesWeb.project.
Definition client (p : string) : bool :=
  match source ModulesWeb.project p with Some f => use_client f | None => false end.

(** What is evaluated to render on the server: the entries, and their imports up to a file
    with the directive "use client". *)
Inductive on_server : string -> Prop :=
| server_entry p : p ∈ map path (sources ModulesWeb.project) -> web_entry p = true -> client p = false -> on_server p
| server_import m p : on_server m -> p ∈ edges web m -> client p = false -> on_server p.

(** What is sent to browsers: those files, and all that they import. *)
Inductive on_client : string -> Prop :=
| client_entry p : p ∈ map path (sources ModulesWeb.project) -> web_entry p = true -> client p = true -> on_client p
| client_boundary m p : on_server m -> p ∈ edges web m -> client p = true -> on_client p
| client_import m p : on_client m -> p ∈ edges web m -> on_client p.

Definition is_upper (c : Ascii.ascii) : bool :=
  let n := Ascii.nat_of_ascii c in ((65 <=? n) && (n <=? 90))%nat.
(** A hook is named [use] and a capital letter. *)
Definition is_hook (x : string) : bool :=
  match strip "use" x with Some (String c _) => is_upper c | _ => false end.

(** React refuses hooks, contexts and class components in what it renders on the server. *)
Definition client_only (b : Binding) : bool :=
  match b with
  | Name x => is_hook x || existsb (String.eqb x) ["createContext"; "Component"; "PureComponent"]
  | _ => false
  end.

(** ** Evaluation *)

Local Open Scope list_scope.

(** Each import of a source is of a package or of one file of the application. *)
Definition resolved (g : Graph) : bool :=
  forallb (fun e => forallb (fun t => match t with Package | File _ => true | _ => false end) e.2) g.

Lemma graphs_resolved app : is_app app -> resolved (declared app) = true.
Proof. intros [-> | ->]; vm_compute; reflexivity. Qed.

Lemma resolved_spec app f i :
  resolved (declared app) = true -> f ∈ sources app -> i ∈ imports f ->
  resolve (files app) (path f) (specifier i) = Package
  \/ exists p, p ∈ files app /\ resolve (files app) (path f) (specifier i) = File p.
Proof.
  unfold resolved, declared, graph. rewrite forallb_forall. intros H Hf Hi.
  specialize (H (path f, targets (files app) (fun _ => true) f)).
  rewrite forallb_forall in H. specialize (fun Hin => H Hin (resolve (files app) (path f) (specifier i))).
  assert (Hr : match resolve (files app) (path f) (specifier i) with Package | File _ => true | _ => false end = true).
  { apply H; cbn.
    - apply in_map_iff. exists f. split; [done|by apply list_elem_of_In].
    - apply in_map_iff. exists i. split; [done|]. apply List.filter_In. split; [by apply list_elem_of_In|reflexivity]. }
  unfold resolve in *. destruct (locate _ _); [|by left].
  destruct (List.filter _ _) as [|p [|q l]] eqn:E; [done| |done]. right. exists p. split; [|done].
  apply list_elem_of_In. assert (Hin : In p [p]) by (left; reflexivity). rewrite <- E in Hin. apply List.filter_In in Hin as [Hin _]. exact Hin.
Qed.

Lemma runtime_order app : is_app app ->
  decreasing (order_of (runtime app) app) (runtime app) = true
  /\ length (order_of (runtime app) app) <= length (files app).
Proof. intros [-> | ->]; (split; [vm_compute; reflexivity|apply Nat.leb_le; vm_compute; reflexivity]). Qed.

Lemma evaluate_total app entries : is_app app ->
  exists r, evaluate app entries = Some r
    /\ NoDup (evaluated r) /\ after_imports (edges (runtime app)) (evaluated r)
    /\ (forall x, x ∈ evaluated r <-> exists m, m ∈ entries /\ reaches (runtime app) m x).
Proof.
  intros Happ. destruct (runtime_order app Happ) as [Hd Hl].
  apply (load_evaluates _ (position (order_of (runtime app) app))).
  - intros m d. by apply decreasing_position.
  - intros m _. unfold fuel. pose proof (position_le (order_of (runtime app) app) m). lia.
Qed.

(** The files that the entries of an application load. *)
Definition entries_of (entry : string -> bool) (app : Project) : list string :=
  List.filter entry (map path (sources app)).
Definition covers (entry : string -> bool) (app : Project) : bool :=
  match evaluate app (entries_of entry app) with
  | Some r => forallb (fun f => existsb (String.eqb (path f)) (evaluated r)) (sources app)
  | None => false
  end.

Lemma covers_spec entry app f :
  is_app app -> covers entry app = true -> f ∈ sources app ->
  exists e, entry e = true /\ e ∈ map path (sources app) /\ reaches (runtime app) e (path f).
Proof.
  intros Happ Hc Hf. unfold covers in Hc.
  destruct (evaluate_total app (entries_of entry app) Happ) as (r & E & _ & _ & Hr). rewrite E in Hc.
  rewrite forallb_forall in Hc. specialize (Hc f). rewrite <- list_elem_of_In in Hc. specialize (Hc Hf).
  destruct (existsb_elem (path f) (evaluated r)) as [[Hin _]|[_ Hn]]; [|congruence].
  apply Hr in Hin as (e & He%list_elem_of_In%List.filter_In & Hreach). exists e.
  rewrite list_elem_of_In. tauto.
Qed.

(** ** Layers *)

Lemma layer_edges app : is_app app ->
  every_edge (fun m d => bool_decide (layer d ∈ below (layer m))) (runtime app) = true.
Proof. intros [-> | ->]; vm_compute; reflexivity. Qed.

Lemma below_trans a b c : b ∈ below a -> c ∈ below b -> c ∈ below a.
Proof.
  rewrite <- (bool_decide_eq_true (b ∈ _)), <- (bool_decide_eq_true (c ∈ below b)), <- (bool_decide_eq_true (c ∈ below a)).
  by destruct a, b; destruct c; vm_compute.
Qed.

Lemma reaches_below app m d n : is_app app ->
  d ∈ edges (runtime app) m -> reaches (runtime app) d n -> layer n ∈ below (layer m).
Proof.
  intros Happ Hd Hr. apply layer_edges in Happ. revert m Hd.
  induction Hr as [d|d e n He _ IH]; intros m Hd;
    apply (every_edge_spec _ _ _ _ Happ), bool_decide_eq_true in Hd; [done|].
  eapply below_trans; [exact Hd|]. by apply IH.
Qed.

(** With the imports of types, the presentation stays apart from the data, and the data from
    the presentation: one file of config/ borrows a type of ui/, and no data hook uses it. *)
Definition presentational (p : string) : bool :=
  match layer p with Ui | Lib | Stores => true | _ => false end.
Definition no_interface (p : string) : bool :=
  match layer p with Ui | Features | Routes => false | _ => negb (String.eqb p "src/config/nav.ts") end.

Lemma type_edges app : is_app app ->
  every_edge (fun a b => implb (presentational a) (presentational b)) (declared app) = true
  /\ every_edge (fun a b => implb (no_interface a) (no_interface b)) (declared app) = true.
Proof. intros [-> | ->]; split; vm_compute; reflexivity. Qed.

(** ** Linting *)

(** The configuration by the documented matching, computed. *)
Definition under (dirs : list string) (s : string) : bool :=
  existsb (fun d => starts d s && negb (String.eqb s d)) dirs.
Definition reported (uis datas : list string) (f : SourceFile) (i : Import) : bool :=
  (starts "src/ui/" (path f) && (ends ".ts" (path f) || ends ".tsx" (path f)) && under uis (specifier i))
  || (starts "src/data/" (path f) && (ends ".ts" (path f) || ends ".tsx" (path f)) && under datas (specifier i)).

Lemma web_restricted `{Linter} f i :
  restricted Web.eslintConfig (path f) (specifier i)
  = reported ["@/data/"; "@/features/"; "@/app/"; "@/api/"]%string ["@/ui/"; "@/features/"; "@/app/"]%string f i.
Proof.
  unfold restricted, Web.eslintConfig, reported, under. cbn [existsb Web.ui_boundary Web.data_boundary globs group].
  rewrite (glob_under "src/ui"), (glob_under "src/data"), (group_under "@/data"), (group_under "@/features"),
    (group_under "@/app"), (group_under "@/api"), (group_under "@/ui").
  by rewrite !orb_false_r.
Qed.

Lemma mobile_restricted `{Linter} f i :
  restricted Mobile.eslintConfig (path f) (specifier i)
  = reported ["@/data/"; "@/features/"; "@/app/"]%string ["@/ui/"; "@/features/"; "@/app/"]%string f i.
Proof.
  unfold restricted, Mobile.eslintConfig, reported, under. cbn [existsb Mobile.ui_boundary Mobile.data_boundary globs group].
  rewrite (glob_under "src/ui"), (glob_under "src/data"), (group_under "@/data"), (group_under "@/features"),
    (group_under "@/app"), (group_under "@/ui").
  by rewrite !orb_false_r.
Qed.

Lemma lint_reports `{Linter} config app report :
  (forall f i, restricted config (path f) (specifier i) = report f i) ->
  forallb (fun f => forallb (fun i => negb (report f i)) (imports f)) (sources app) = true ->
  lint config app = [].
Proof.
  intros Hr Ha. unfold lint. induction (sources app) as [|f l IH]; [done|].
  cbn in Ha. apply andb_true_iff in Ha as [Hf Hl]. cbn. rewrite (IH Hl), app_nil_r.
  induction (imports f) as [|i is_ IHi]; [done|].
  cbn in Hf. apply andb_true_iff in Hf as [Hi His]. cbn. rewrite Hr. destruct (report f i); [done|auto].
Qed.

Lemma lint_clean `{Linter} :
  lint Web.eslintConfig ModulesWeb.project = [] /\ lint Mobile.eslintConfig ModulesMobile.project = [].
Proof.
  split; [eapply lint_reports; [exact web_restricted|]|eapply lint_reports; [exact mobile_restricted|]];
    vm_compute; reflexivity.
Qed.

(** ** Server and client *)

Definition server_edges (m : string) : list string := List.filter (fun d => negb (client d)) (edges web m).
Definition server_files : list string :=
  default [] (option_map evaluated
    (load server_edges (fuel ModulesWeb.project)
       (List.filter (fun p => negb (client p)) (entries_of web_entry ModulesWeb.project)) fresh)).

Definition client_files : list string := map path (List.filter use_client (sources ModulesWeb.project)).
Definition shipped : list string := default [] (option_map evaluated (evaluate ModulesWeb.project client_files)).

Lemma client_listed p : client p = true -> p ∈ client_files.
Proof.
  unfold client, source, client_files. destruct (find _ _) as [f|] eqn:E; [|done]. intros Hc.
  apply find_some in E as [Hin Hp]. apply String.eqb_eq in Hp as <-.
  apply list_elem_of_In, in_map, List.filter_In. by split.
Qed.

Lemma on_server_listed p : on_server p -> p ∈ server_files.
Proof.
  destruct (runtime_order ModulesWeb.project) as [Hd Hl]; [by left|].
  destruct (load_evaluates server_edges (position (order_of web ModulesWeb.project))
    (fun m d H => decreasing_position _ _ m d Hd (proj2 (list_elem_of_In _ _) (proj1 (proj1 (List.filter_In _ _ _) (proj1 (list_elem_of_In _ _) H)))))
    (fuel ModulesWeb.project) (List.filter (fun p => negb (client p)) (entries_of web_entry ModulesWeb.project)))
    as (r & E & _ & _ & Hr).
  { intros m _. unfold fuel. pose proof (position_le (order_of web ModulesWeb.project) m). fold web in Hl. lia. }
  unfold server_files. rewrite E. cbn [option_map default from_option id]. rewrite Hr.
  induction 1 as [p Hp He Hc|m p _ (e & He & Hm) Hp Hc].
  - exists p. split; [|constructor]. apply list_elem_of_In, List.filter_In. rewrite Hc. split; [|reflexivity].
    apply List.filter_In. split; [by apply list_elem_of_In|exact He].
  - exists e. split; [exact He|]. eapply rtc_r; [exact Hm|]. apply list_elem_of_In, List.filter_In.
    rewrite Hc. split; [exact (proj1 (list_elem_of_In _ _) Hp)|reflexivity].
Qed.

Lemma on_client_listed p : on_client p -> p ∈ shipped.
Proof.
  destruct (evaluate_total ModulesWeb.project client_files) as (r & E & _ & _ & Hr); [by left|].
  unfold shipped. rewrite E. cbn [option_map default from_option id]. rewrite Hr.
  induction 1 as [p _ _ Hc|m p _ _ Hc|m p _ (e & He & Hm) Hp].
  - exists p. split; [by apply client_listed|constructor].
  - exists p. split; [by apply client_listed|constructor].
  - exists e. split; [done|]. by eapply rtc_r.
Qed.

(** The checks of the two sides, file by file. *)
Definition renders_on_server (f : SourceFile) : bool :=
  forallb (fun i => forallb (fun b => negb (client_only b)) (bindings i)) (imports f).
Definition runs_in_browser (f : SourceFile) : bool :=
  forallb (fun i => negb (String.eqb (specifier i) "next/headers")) (imports f).

Lemma sides_checked :
  forallb (fun f => implb (existsb (String.eqb (path f)) server_files) (renders_on_server f)
                    && implb (existsb (String.eqb (path f)) shipped) (runs_in_browser f))
    (sources ModulesWeb.project) = true.
Proof. vm_compute. reflexivity. Qed.

Lemma existsb_in m l : m ∈ l -> existsb (String.eqb m) l = true.
Proof. intros H. by destruct (existsb_elem m l) as [[_ ?]|[? _]]. Qed.

(** ** Where the code and its plan part *)

(** docs/FRONTEND_PLAN.md (7): "app/ routes import features, compose layout, and nothing
    else", features are "the only layer allowed to import from both data/ and ui/", and the
    data layer is "the only place that touches the network".  The routes of both
    applications import primitives and configuration, those of the mobile application data
    hooks too, and its bootstrap hook imports the client itself. *)
Theorem plan_not_followed :
  "src/ui/page-header.tsx"%string ∈ edges web "src/app/(app)/(feature)/wallet/page.tsx"
  /\ "src/config/nav.ts"%string ∈ edges web "src/app/(app)/page.tsx"
  /\ (let g := runtime ModulesMobile.project in
      "src/data/members.ts"%string ∈ edges g "src/app/(tabs)/more/members.tsx"
      /\ "src/ui/button.tsx"%string ∈ edges g "src/app/(tabs)/more/members.tsx"
      /\ "src/api/client.ts"%string ∈ edges g "src/features/auth/use-bootstrap.ts").
Proof. cbv zeta. split_and!; apply list_elem_of_In; vm_compute; tauto. Qed.

(** The linter does not see a relative path: such an import of a data hook by a primitive
    resolves, and is not reported. *)
Theorem lint_blind `{Linter} :
  let button := "src/ui/primitives/button.tsx"%string in
  resolve (files ModulesWeb.project) button "../../data/posts" = File "src/data/posts.ts"
  /\ restricted Web.eslintConfig button "../../data/posts" = false.
Proof.
  split; [vm_compute; reflexivity|].
  exact (web_restricted ModulesWeb.ui_primitives_button (import [] "../../data/posts")).
Qed.

(** ** Properties *)

(** C30: the modules of both applications initialise: each import of each source file is of
    a package or of exactly one file; whatever entries are loaded, one after another (the
    pages that a browser visits), the evaluation of modules ends with those that they
    reach, each evaluated once and after all those it imports, so that no module runs
    before what it uses; and every source file is loaded by some entry. *)
Theorem modules_initialise app entries (Happ : is_app app) :
  (forall f i, f ∈ sources app -> i ∈ imports f ->
     resolve (files app) (path f) (specifier i) = Package
     \/ exists p, p ∈ files app /\ resolve (files app) (path f) (specifier i) = File p)
  /\ (exists r, evaluate app entries = Some r
        /\ NoDup (evaluated r) /\ after_imports (edges (runtime app)) (evaluated r)
        /\ (forall x, x ∈ evaluated r <-> exists m, m ∈ entries /\ reaches (runtime app) m x))
  /\ (forall f, f ∈ sources app -> exists e,
        (app = ModulesWeb.project /\ web_entry e = true \/ app = ModulesMobile.project /\ mobile_entry e = true)
        /\ e ∈ map path (sources app) /\ reaches (runtime app) e (path f)).
Proof.
  split; [intros f i; by apply resolved_spec, graphs_resolved|]. split; [by apply evaluate_total|].
  intros f Hf. pose proof Happ as [-> | ->].
  - destruct (covers_spec web_entry _ f Happ) as (e & He & H); [vm_compute; reflexivity|done|]. eauto.
  - destruct (covers_spec mobile_entry _ f Happ) as (e & He & H); [vm_compute; reflexivity|done|]. eauto.
Qed.

(** The sign-in page after the root layout. *)
Lemma modules_initialise_witness :
  let entries := ["src/app/layout.tsx"; "src/app/(auth)/login/page.tsx"]%string in
  option_map (fun r => length (evaluated r)) (evaluate ModulesWeb.project entries) = Some 21
  /\ exists r, evaluate ModulesWeb.project entries = Some r /\ NoDup (evaluated r).
Proof.
  intros entries. split; [vm_compute; reflexivity|].
  destruct (modules_initialise ModulesWeb.project entries (or_introl eq_refl)) as (_ & (r & E & Hn & _) & _).
  exists r. split; [exact E|exact Hn].
Defined.


(** A linter that matches as documented, and forbids nothing else. *)
Lemma substring_app a b : String.substring 0 (String.length a) (a ++ b)%string = a.
Proof.
  induction a as [|c a IH]; [by destruct b|].
  change (String c (String.substring 0 (String.length a) (a ++ b)) = String c a)%string. by rewrite IH.
Qed.

Lemma length_app_string a b : String.length (a ++ b)%string = String.length a + String.length b.
Proof.
  induction a as [|c a IH]; [reflexivity|].
  change (S (String.length (a ++ b)) = S (String.length a + String.length b))%string. by rewrite IH.
Qed.

Definition stem_of (tail s : string) : string := String.substring 0 (String.length s - String.length tail) s.

Lemma stem_of_app tail a : stem_of tail (a ++ tail)%string = a.
Proof.
  unfold stem_of. rewrite length_app_string, Nat.add_sub. apply substring_app.
Qed.

#[local] Instance plain_linter : Linter.
Proof.
  refine {| glob_matches g p := let dir := (stem_of "/**/*.{ts,tsx}" g ++ "/")%string in
                                starts dir p && (ends ".ts" p || ends ".tsx" p);
            group_matches g s := let dir := (stem_of "/*" g ++ "/")%string in
                                 starts dir s && negb (String.eqb s dir) |}.
  - intros dir p. cbv zeta. by rewrite stem_of_app.
  - intros dir s. cbv zeta. by rewrite stem_of_app.
Defined.


(** the web application keeps the two sides of its components apart: a file that is
    evaluated to render on the server uses no hook, no context and no class component, which
    React refuses there; and a file that is sent to browsers does not import the headers of
    the request, which only the server has. *)
Theorem sides_apart f (Hf : f ∈ sources ModulesWeb.project) :
  (on_server (path f) -> forall i b, i ∈ imports f -> b ∈ bindings i -> client_only b = false)
  /\ (on_client (path f) -> forall i, i ∈ imports f -> specifier i <> "next/headers"%string).
Proof.
  pose proof sides_checked as H. rewrite forallb_forall in H.
  specialize (H f (proj1 (list_elem_of_In _ _) Hf)). apply andb_true_iff in H as [Hs Hc]. split.
  - intros Hon i b Hi Hb. rewrite (existsb_in _ _ (on_server_listed _ Hon)) in Hs.
    unfold renders_on_server in Hs. cbn in Hs. rewrite forallb_forall in Hs.
    specialize (Hs i (proj1 (list_elem_of_In _ _) Hi)). rewrite forallb_forall in Hs.
    specialize (Hs b (proj1 (list_elem_of_In _ _) Hb)). apply negb_true_iff in Hs. exact Hs.
  - intros Hon i Hi E. rewrite (existsb_in _ _ (on_client_listed _ Hon)) in Hc.
    unfold runs_in_browser in Hc. cbn in Hc. rewrite forallb_forall in Hc.
    specialize (Hc i (proj1 (list_elem_of_In _ _) Hi)). by rewrite E in Hc.
Qed.

(** The root layout reads the request's headers, on the server; the providers it renders
    are sent to browsers. *)
Lemma sides_apart_witness :
  existsb (fun i => String.eqb (specifier i) "next/headers") (imports ModulesWeb.app_layout) = true
  /\ (forall i b, i ∈ imports ModulesWeb.app_layout -> b ∈ bindings i -> client_only b = false)
  /\ (forall i, i ∈ imports ModulesWeb.app_providers -> specifier i <> "next/headers"%string).
Proof.
  split; [vm_compute; reflexivity|]. split.
  - apply (sides_apart ModulesWeb.app_layout).
    + apply list_elem_of_In. vm_compute. tauto.
    + apply server_entry; [apply list_elem_of_In; vm_compute; tauto|vm_compute; reflexivity|vm_compute; reflexivity].
  - apply (sides_apart ModulesWeb.app_providers).
    + apply list_elem_of_In. vm_compute. tauto.
    + apply (client_boundary "src/app/layout.tsx").
      * apply server_entry; [apply list_elem_of_In; vm_compute; tauto|vm_compute; reflexivity|vm_compute; reflexivity].
      * apply list_elem_of_In. vm_compute. tauto.
      * vm_compute. reflexivity.
Defined.
